(* ===== verification/_CoqProject ===== *)
-Q . S2P
Prelude.v
Crc16.v
Vlq.v
State.v
Machine.v
Sched.v
SchedList.v
SchedSpec.v
Dispatch.v
Basecmd.v
BasecmdSpec.v
Stats.v
Stepper.v
StepperSpec.v
StepperCmd.v
StepperThms.v
Trsync.v
Endstop.v
TrsyncSpec.v
EndstopSpec.v
Command.v
CommandSpec.v
CommandRun.v
MsgBlock.v
Serial.v
SerialSpec.v
SerialQueue.v
Link.v
Trdispatch.v
TrdispatchSpec.v
Hal.v
Devices.v
DevicesSpec.v
LoadCell.v
Tmcuart.v
Bus.v
Power.v
Sensors.v
TimerIrq.v
Objects.v
Firmware.v
FirmwareSpec.v
SensorsSpec.v
BootCom.v
BootComSpec.v
StepCompress.v
StepCompressSpec.v
HostText.v
MsgProto.v
MsgProtoSpec.v
TextCommand.v
Response.v
Identify.v
EndToEnd.v
HostButtons.v
ButtonsSpec.v
HostTmc.v
TmcLine.v
TmcSpec.v
TmcFields.v
HostTmcCheck.v
TmcCheckSpec.v
