(* ===== verification/Prelude.v ===== *)
(** * A verification development for the CentauriCarbon2 printer

    ** The program

    A 3D printer is driven by two programs.  The _host_ (elegoo/) plans the
    motion, turns it into the times of single motor steps and sends them to
    the _firmware_ of the micro-controllers (src/) over a serial line.  The
    development covers the path of a step from the host's queue to the pin of
    the motor, and the devices the firmware serves beside it:

    - the host compresses step times into moves (elegoo/chelper/stepcompress.c),
      packs commands into blocks (msgblock.c) and keeps a window of
      unacknowledged blocks which it retransmits (serialqueue.c, on top of the
      timers of pollreactor.c); the C++ side reads the firmware's data
      dictionary (elegoo/serialhdl.cpp), encodes commands given as text and
      parses responses (elegoo/msgproto.cpp);
    - the firmware's console (src/generic/serial_irq.c) collects bytes in an
      interrupt; src/command.c finds the blocks among them, checks the sequence
      number and the checksum (src/generic/crc16_ccitt.c), acknowledges them and
      runs their commands; src/basecmd.c holds the memory, the queue nodes and
      the object ids that commands refer to;
    - src/stepper.c turns moves into timer events, src/sched.c runs timers in
      the order of their wake times, src/trsync.c and src/endstop.c stop motors
      when a switch closes;
    - the other devices are timers and commands of the same kind.

    ** Files

    - Prelude.v (this file): machine integers, their rewriting database [ints]
      and the tactic [int_lia]; lemmas on lists and wrap-around.
    - Crc16.v, Vlq.v: the checksum and the variable length integers, which host
      and firmware share.
    - State.v: the memory of the firmware ([mcu]), the monad [M] of its code
      ([Ret], [Shut] for a shutdown, [Stuck] for what C leaves undefined or a
      loop that exceeds its bound), the weakest precondition [wp] with its
      tactics, and the class [ObjType] of the objects behind oids.
      Machine.v: interrupts, clock, gpio, responses, shutdown.
    - Sched.v, SchedList.v, SchedSpec.v, Dispatch.v: src/sched.c.  The timer list
      is a linked structure in [mcu]; its abstract view is a list of timers
      sorted on the clock circle ([sched_inv]).
    - Basecmd.v, BasecmdSpec.v, Stats.v: src/basecmd.c.
    - Stepper.v, StepperSpec.v, StepperCmd.v, StepperThms.v: src/stepper.c.  The
      abstract view of a stepper is its [schedule], the list of the times and
      positions of its steps.
    - Trsync.v, TrsyncSpec.v: src/trsync.c.  Endstop.v, EndstopSpec.v:
      src/endstop.c.
    - Command.v, CommandSpec.v, CommandRun.v: src/command.c.
    - MsgBlock.v: elegoo/chelper/msgblock.c.  SerialQueue.v: serialqueue.c and
      pollreactor.c.  Serial.v, SerialSpec.v: src/generic/serial_irq.c.
    - Link.v: host and firmware joined by two lossy channels, as a transition
      system whose steps are the routines of SerialQueue.v and Command.v.
    - Trdispatch.v, TrdispatchSpec.v: elegoo/chelper/trdispatch.c, which stops
      several micro-controllers together.
    - Hal.v: the board layer the devices call.  Devices.v, DevicesSpec.v:
      src/adccmds.c, gpiocmds.c, pwmcmds.c, pulse_counter.c, buttons.c.  LoadCell.v:
      sos_filter.c, load_cell_endstop.c.  Tmcuart.v: tmcuart.c.  Bus.v:
      spicmds.c, spi_software.c, i2ccmds.c, i2c_software.c, neopixel.c.  Power.v:
      por.c, thermocouple.c.  Sensors.v: sensor_bulk.c and the sensors on top of
      it, sensor_cs123x.c, sensor_hx71x.c, sensor_ads1220.c, sensor_adxl345.c,
      sensor_lis2dw.c; SensorsSpec.v: the stream of their samples.
    - TimerIrq.v: src/generic/armcm_timer.c, the interrupt that runs the timers.
    - Objects.v: the invariant of the objects behind oids and the logic [Safe] of
      code that keeps it.  Firmware.v: the firmware as a transition system, whose
      steps are all declared commands, timer events, tasks, the interrupt and
      shutdowns; FirmwareSpec.v: what holds in its reachable states.
    - BootCom.v, BootComSpec.v: src/ringbuffer.h, src/bootloader_com.c and the
      last word of a piece in src/bootloader.c.
    - StepCompress.v, StepCompressSpec.v: elegoo/chelper/stepcompress.c.
    - HostText.v: strings, numbers, std::map and exceptions of the C++ code, as
      the monad [hres].  MsgProto.v: elegoo/msgproto.cpp.  MsgProtoSpec.v,
      TextCommand.v, Response.v: MsgProto.v joined with Command.v, in both
      directions.  Identify.v: get_identify_data of elegoo/serialhdl.cpp joined
      with the command identify of src/basecmd.c.
    - EndToEnd.v: StepCompress.v, MsgBlock.v, Command.v and StepperCmd.v joined.
    - HostButtons.v: elegoo/extras/buttons.cpp.  ButtonsSpec.v: the handler of the
      host joined with src/buttons.c by a line that loses and repeats messages, as
      a transition system.
    - HostTmc.v: elegoo/extras/tmc_uart.cpp and the fields of tmc.cpp, in the monad
      [H] of a world and its exceptions.  TmcLine.v: the datagrams, and the timer
      events of src/tmcuart.c as times and levels of the line.  TmcSpec.v:
      registers read and written over that line.  TmcFields.v: the fields.
      HostTmcCheck.v, TmcCheckSpec.v: the error checks of tmc.cpp, over the class
      [MCU_TMC_Base] of a driver's registers, which HostTmc.v implements.

    Definitions keep the names of the C functions; a loop of a function is a
    fixpoint of its own, named after the function.  A C object reached through
    a pointer is a record in a map of [mcu] indexed by its address, so sharing
    between components is sharing in the model.

    ** What is proved

    - Transport: every block the host builds is accepted once and in order
      whatever the line loses (Link.v), a retransmission that gets through
      delivers everything, and an accepted block runs exactly the commands the
      host encoded, with their arguments (MsgBlock.v, CommandRun.v).  The framer
      accepts intact blocks only, recovers after garbage, and never reads or
      writes out of its buffers (CommandSpec.v, CommandRun.v); the console's
      buffers keep the byte streams under interrupts at any point
      (SerialSpec.v).  Integers and checksums: Vlq.v, Crc16.v.
    - Commands and responses: the text of any declared command makes the
      firmware run its handler with the values of the text (TextCommand.v); a
      response is accepted by the host's packet check and parsed to its name and
      values (Response.v), and the check accepts intact blocks only
      (MsgProtoSpec.v).  The host obtains the whole data dictionary and the
      transfer ends (Identify.v).
    - The whole firmware: the shapes of all objects are invariant in every
      reachable state, so the arrays of the sensors, the filter and the shutdown
      pins are accessed in bounds; the watchdog of the load cell end stop never
      acts (FirmwareSpec.v).
    - From host to motor: the step times a program asks for become steps of the
      motor's schedule, one for each, within the allowed error (EndToEnd.v).
    - Sensors: reading the load cell chip gives the sample or an error, and
      samples reach the host complete and in order (SensorsSpec.v).
    - Buttons: the states the host acts on are those the firmware recorded, each
      once and in order, and a pending one gets through with one report and its
      acknowledgement (ButtonsSpec.v).
    - Motor drivers: the line shows the serial bits of the host's request at the
      measured bit time, and the host gets a value if and only if the chip
      answered with its datagram; a write is repeated until the chip has counted
      it (TmcSpec.v); fields are independent (TmcFields.v); an error that stays
      stops the printer (TmcCheckSpec.v).
    - Time: the timer list refines a sorted queue under adding, deleting and
      dispatching, and shutdown processing restores it from any state.  The
      timer interrupt gives way to waiting tasks after a bounded time
      (TimerIrq.v).
    - Motion: each timer event takes one step of the schedule, queueing a move
      appends its steps, a trigger stops every motor at a known position, an end
      stop fires after consecutive samples only.  On the host, the moves a queue
      of step times is compressed into reproduce them within the allowed error,
      and the commands of all motors are merged in clock order
      (StepCompressSpec.v); a trigger that one micro-controller reports is sent
      to all of them, and the timeout of each follows the slowest of the others
      (TrdispatchSpec.v).
    - Boot loader: the parser gives the same result for every way the bytes
      arrive, and a package that is sent is handled (BootComSpec.v).
    - Heaters: a pin that is on when the host falls silent leads to a shutdown
      after its maximal duration, a shutdown puts all pins into their default
      state, and readings that stay out of range stop the machine
      (DevicesSpec.v).
    - Memory: allocations are disjoint, move queues are FIFO, object ids are
      typed, the statistics saturate.

    ** Bounds and fuel

    Loops over linked lists run on fuel: [insert_timer] and [sched_del_timer]
    get the number of timers there are, [run_shutdown] and the loops over oids
    the size of the tables; the theorems show that the fuel is never used up
    where the invariant holds, so [Stuck] does not occur.  The task of the boot
    loader gets the size of its ring buffer, and the timer interrupt the number
    of ticks until its repeat limit.  Loops that wait for
    hardware (Bus.v, sched.c's irq_wait) take a number of polls as an argument.
    Integers are kept at their width by [u8] to [u64] and [s8] to [s64]; the
    compiler's wrap-around of signed arithmetic is assumed for the firmware,
    while StepCompress.v treats it as undefined.  Loops that delay by polling
    the clock (Sensors.v) take the number of polls, and the theorems ask that
    it covers the delay.  [get_identify_data] has fuel for every answer, and
    the theorem gives the number of answers that is enough.  The query of a
    driver's status (HostTmcCheck.v) counts to three, which is its fuel.

    ** Code outside of the development

    Code the build generates (the command table, the lists of tasks, init and
    shutdown functions, static strings) and the board are parameters: the class
    [Board] of State.v for the board, and arguments of the routines that call
    the rest.  The configuration modelled is the application firmware
    of an ARM Cortex-M (CONFIG_BOOTLOADER unset); BootCom.v is the boot loader's
    own code.  The chips of the motor drivers are a parameter of TmcSpec.v, with
    the answers and the write counter of their data sheet as hypotheses, and an
    example chip that satisfies them.

    ** Not modelled

    - the drivers of chip registers (src/stm32 and the other ports, src/RTT,
      USB and CAN): their effect is an event of the trace;
    - src/bootloader.c but for one loop: it writes flash and jumps out of the
      program;
    - threads, locks, pipes and file descriptors of the host helpers: each
      routine under a lock is one step;
    - the iterative solver and the kinematics (itersolve.c, trapq.c, kin_*.c),
      whose specification is over the real numbers, and the C++ application but
      for the files named above.  Of msgproto.cpp, get_constant_float is left
      out; the JSON parser and the decompression of the dictionary are libraries
      and parameters.  Of serialhdl.cpp, the connection and the background
      thread are operating system calls.  Of buttons.cpp, the ADC buttons compare
      floating point values; of tmc.cpp, the configuration, the currents (floating
      point) and the G-code commands are left out;
    - src/sensor_angle.c, sensor_ldc1612.c, sensor_mpu9250.c and the displays. *)

From Stdlib Require Export ZArith Lia.
From stdpp Require Export base tactics option numbers strings list gmap.

#[export] Set Default Goal Selector "!".
Open Scope Z_scope.

(** ** Machine integers

    A w-bit unsigned C integer is a [Z] in [0, 2^w); the wrap-around of an
    assignment to a variable of that type is written out with [u8], [u16],
    [u32] and [u64], and the reinterpretation as a signed integer with [s8],
    [s16] and [s32]. *)

Definition u8 (x : Z) : Z := x mod 2 ^ 8.
Definition u16 (x : Z) : Z := x mod 2 ^ 16.
Definition u32 (x : Z) : Z := x mod 2 ^ 32.
Definition u64 (x : Z) : Z := x mod 2 ^ 64.

(** The value of a w-bit pattern read as a two's complement number. *)
Definition signed (w x : Z) : Z :=
  let y := x mod 2 ^ w in if y <? 2 ^ (w - 1) then y else y - 2 ^ w.

Definition s8 (x : Z) : Z := signed 8 x.
Definition s16 (x : Z) : Z := signed 16 x.
Definition s32 (x : Z) : Z := signed 32 x.
Definition s64 (x : Z) : Z := signed 64 x.

(** A C truth value. *)
Definition b2z (b : bool) : Z := if b then 1 else 0.

(** [flag_set f m]: the C condition [f & m]. *)
Definition flag_set (f m : Z) : bool := negb (Z.land f m =? 0).

(** [byte_list bs]: every element of [bs] is the value of a [uint8_t]. *)
Definition is_byte (b : Z) : Prop := 0 <= b < 256.
Definition is_u32 (b : Z) : Prop := 0 <= b < 2 ^ 32.
Abbreviation byte_list := (Forall is_byte).

#[export] Hint Unfold is_byte is_u32 : core.

(** ** Tactics *)

(** Expose the arithmetic of the machine-integer wrappers. *)
Ltac unfold_ints :=
  unfold u8, u16, u32, u64, s8, s16, s32, s64, signed, is_byte, is_u32 in *;
  change (2 ^ 7) with 128 in *; change (2 ^ 8) with 256 in *;
  change (2 ^ 15) with 32768 in *; change (2 ^ 16) with 65536 in *;
  change (2 ^ 31) with 2147483648 in *; change (2 ^ 32) with 4294967296 in *;
  change (2 ^ (8 - 1)) with 128 in *; change (2 ^ (16 - 1)) with 32768 in *;
  change (2 ^ (32 - 1)) with 2147483648 in *.

(** Case analysis on the boolean comparisons of the goal and the context. *)
Ltac case_cmp :=
  repeat match goal with
  | |- context [Z.ltb ?a ?b] => destruct (Z.ltb_spec a b)
  | |- context [Z.leb ?a ?b] => destruct (Z.leb_spec a b)
  | |- context [Z.eqb ?a ?b] => destruct (Z.eqb_spec a b)
  | H : context [Z.ltb ?a ?b] |- _ => destruct (Z.ltb_spec a b)
  | H : context [Z.leb ?a ?b] |- _ => destruct (Z.leb_spec a b)
  | H : context [Z.eqb ?a ?b] |- _ => destruct (Z.eqb_spec a b)
  end.

(** Linear arithmetic over the machine-integer wrappers. *)
Ltac int_lia := unfold_ints; case_cmp; try lia; Z.div_mod_to_equations; lia.

(** Bit-level extensionality for [Z]. *)
Ltac bits_ext n := apply Z.bits_inj'; intros n ?.

(** ** Integer lemmas *)

Lemma u8_range x : 0 <= u8 x < 256.
Proof. unfold_ints. apply Z.mod_pos_bound. lia. Qed.

Lemma u16_range x : 0 <= u16 x < 65536.
Proof. unfold_ints. apply Z.mod_pos_bound. lia. Qed.

Lemma u32_range x : 0 <= u32 x < 2 ^ 32.
Proof. unfold_ints. apply Z.mod_pos_bound. lia. Qed.

Lemma u8_small x : 0 <= x < 256 → u8 x = x.
Proof. intros. by apply Z.mod_small. Qed.

Lemma u16_small x : 0 <= x < 65536 → u16 x = x.
Proof. intros. by apply Z.mod_small. Qed.

Lemma u32_small x : 0 <= x < 2 ^ 32 → u32 x = x.
Proof. intros. by apply Z.mod_small. Qed.

(** A C test of a single flag reads its bit. *)
Lemma flag_bit f k : flag_set f (Z.shiftl 1 (Z.of_nat k)) = Z.testbit f (Z.of_nat k).
Proof.
  unfold flag_set. rewrite Z.shiftl_1_l.
  assert (Hl : Z.land f (2 ^ Z.of_nat k) = if Z.testbit f (Z.of_nat k) then 2 ^ Z.of_nat k else 0).
  { apply Z.bits_inj'. intros n Hn. rewrite Z.land_spec.
    destruct (decide (n = Z.of_nat k)) as [->|Hne].
    - rewrite Z.pow2_bits_true, andb_true_r by lia.
      destruct (Z.testbit f _); [by rewrite Z.pow2_bits_true by lia|by rewrite Z.bits_0].
    - rewrite Z.pow2_bits_false, andb_false_r by lia.
      destruct (Z.testbit f _); [by rewrite Z.pow2_bits_false by lia|by rewrite Z.bits_0]. }
  rewrite Hl. destruct (Z.testbit f _); [|done].
  pose proof (Z.pow_pos_nonneg 2 (Z.of_nat k) ltac:(lia) ltac:(lia)).
  by rewrite (proj2 (Z.eqb_neq _ _)) by lia.
Qed.

Lemma flag_set_comm f m : flag_set f m = flag_set m f.
Proof. unfold flag_set. by rewrite Z.land_comm. Qed.

Lemma u32_u32 x : u32 (u32 x) = u32 x.
Proof. apply u32_small, u32_range. Qed.

Lemma u32_add_l x y : u32 (u32 x + y) = u32 (x + y).
Proof. unfold u32. by rewrite Zplus_mod_idemp_l. Qed.

Lemma u32_add_r x y : u32 (x + u32 y) = u32 (x + y).
Proof. unfold u32. by rewrite Zplus_mod_idemp_r. Qed.

Lemma u32_sub_l x y : u32 (u32 x - y) = u32 (x - y).
Proof. unfold u32. by rewrite Zminus_mod_idemp_l. Qed.

Lemma u32_sub_r x y : u32 (x - u32 y) = u32 (x - y).
Proof. unfold u32. by rewrite Zminus_mod_idemp_r. Qed.

Lemma s32_range x : - 2 ^ 31 <= s32 x < 2 ^ 31.
Proof. int_lia. Qed.

Lemma s32_u32 x : s32 (u32 x) = s32 x.
Proof. unfold s32, signed, u32. by rewrite Z.mod_mod by lia. Qed.

Lemma u32_s32 x : u32 (s32 x) = u32 x.
Proof.
  unfold s32, signed, u32. case_cmp; [by rewrite Z.mod_mod by lia|].
  replace (x mod 2 ^ 32 - 2 ^ 32) with (x mod 2 ^ 32 + (-1) * 2 ^ 32) by lia.
  by rewrite Z_mod_plus_full, Z.mod_mod by lia.
Qed.

Lemma s32_small x : - 2 ^ 31 <= x < 2 ^ 31 → s32 x = x.
Proof. intros. int_lia. Qed.

Lemma s16_range x : - 2 ^ 15 <= s16 x < 2 ^ 15.
Proof. int_lia. Qed.

Lemma u64_small x : 0 <= x < 2 ^ 64 → u64 x = x.
Proof. apply Z.mod_small. Qed.

Lemma u64_add_l x y : u64 (u64 x + y) = u64 (x + y).
Proof. unfold u64. by rewrite Zplus_mod_idemp_l. Qed.

Lemma u64_s64 x : u64 (s64 x) = u64 x.
Proof.
  unfold s64, signed, u64. case_cmp; [by rewrite Z.mod_mod by lia|].
  replace (x mod 2 ^ 64 - 2 ^ 64) with (x mod 2 ^ 64 + (-1) * 2 ^ 64) by lia.
  by rewrite Z_mod_plus_full, Z.mod_mod by lia.
Qed.

Create HintDb ints.
Create Rewrite HintDb ints.
#[export] Hint Resolve u8_range u16_range u32_range s32_range : ints.
#[export] Hint Rewrite u32_u32 u32_add_l u32_add_r u32_sub_l u32_sub_r
  s32_u32 u32_s32 : ints.

(** ** Bit lemmas *)

Lemma land_ones_mod n x : 0 <= n → Z.land x (2 ^ n - 1) = x mod 2 ^ n.
Proof.
  intros. rewrite <- Z.land_ones by done. f_equal. rewrite Z.ones_equiv. lia.
Qed.

Lemma land_7f x : Z.land x 0x7f = x mod 128.
Proof. apply (land_ones_mod 7). lia. Qed.

Lemma land_ff x : Z.land x 0xff = x mod 256.
Proof. apply (land_ones_mod 8). lia. Qed.

(** Bytes are closed under masks and unions. *)
Lemma byte_land x : is_byte x ↔ Z.land x 0xff = x.
Proof.
  rewrite land_ff. unfold is_byte. split; [intros; by apply Z.mod_small|intros <-].
  apply Z.mod_pos_bound. lia.
Qed.
Lemma land_byte_l a b : is_byte a → is_byte (Z.land a b).
Proof. rewrite !byte_land. intros Ha. by rewrite <- Z.land_assoc, (Z.land_comm b), Z.land_assoc, Ha. Qed.
Lemma lor_byte a b : is_byte a → is_byte b → is_byte (Z.lor a b).
Proof. rewrite !byte_land. intros Ha Hb. by rewrite Z.land_lor_distr_l, Ha, Hb. Qed.
Lemma lxor_byte a b : is_byte a → is_byte b → is_byte (Z.lxor a b).
Proof.
  rewrite !byte_land. intros Ha Hb. apply Z.bits_inj. intros n.
  rewrite <- Ha, <- Hb, Z.land_spec, !Z.lxor_spec, !Z.land_spec.
  by destruct (Z.testbit 255 n); rewrite ?andb_true_r, ?andb_false_r.
Qed.

Lemma shiftl_mul n x : 0 <= n → Z.shiftl x n = x * 2 ^ n.
Proof. apply Z.shiftl_mul_pow2. Qed.

Lemma shiftr_div n x : 0 <= n → Z.shiftr x n = x / 2 ^ n.
Proof. apply Z.shiftr_div_pow2. Qed.

(** The bits of two numbers that do not overlap are added by [Z.lor]. *)
Lemma land_disjoint n a b : 0 <= n → 0 <= b < 2 ^ n → Z.land (a * 2 ^ n) b = 0.
Proof.
  intros Hn Hb. bits_ext k. rewrite Z.land_spec, Z.bits_0.
  destruct (Z.lt_ge_cases k n).
  - by rewrite Z.mul_pow2_bits_low.
  - replace b with (b mod 2 ^ n) by (by apply Z.mod_small).
    rewrite Z.mod_pow2_bits_high by lia. apply andb_false_r.
Qed.

Lemma lor_disjoint n a b : 0 <= n → 0 <= b < 2 ^ n →
  Z.lor (a * 2 ^ n) b = a * 2 ^ n + b.
Proof.
  intros Hn Hb. rewrite <- Z.add_lor_land, (land_disjoint n) by done. lia.
Qed.

Lemma lxor_mod n a b : 0 <= n →
  Z.lxor (a mod 2 ^ n) (b mod 2 ^ n) = Z.lxor a b mod 2 ^ n.
Proof.
  intros Hn. bits_ext k. rewrite Z.lxor_spec. destruct (Z.lt_ge_cases k n).
  - rewrite !Z.mod_pow2_bits_low by lia. by rewrite Z.lxor_spec.
  - by rewrite !Z.mod_pow2_bits_high by lia.
Qed.

Lemma lxor_bound n a b : 0 <= n →
  0 <= a < 2 ^ n → 0 <= b < 2 ^ n → 0 <= Z.lxor a b < 2 ^ n.
Proof.
  intros Hn Ha Hb.
  rewrite <- (Z.mod_small a (2 ^ n)), <- (Z.mod_small b (2 ^ n)) by done.
  rewrite lxor_mod by done. apply Z.mod_pos_bound. lia.
Qed.

Lemma lxor_cancel_r a b c : Z.lxor a c = Z.lxor b c → a = b.
Proof.
  intros H. apply (f_equal (λ x, Z.lxor x c)) in H.
  by rewrite !Z.lxor_assoc, !Z.lxor_nilpotent, !Z.lxor_0_r in H.
Qed.

Lemma lxor_cancel_l a b c : Z.lxor c a = Z.lxor c b → a = b.
Proof. rewrite (Z.lxor_comm c a), (Z.lxor_comm c b). apply lxor_cancel_r. Qed.

(** ** Bytes, by exhaustion *)

Definition bytes_256 : list Z := seqZ 0 256.

Lemma elem_of_bytes_256 b : b ∈ bytes_256 ↔ is_byte b.
Proof. unfold bytes_256. rewrite elem_of_seqZ. unfold is_byte. lia. Qed.

(** A boolean property of bytes is checked on the 256 of them. *)
Lemma byte_forall (P : Z → bool) :
  forallb P bytes_256 = true → ∀ b, is_byte b → P b = true.
Proof.
  intros H b Hb. rewrite forallb_forall in H. apply H.
  by apply list_elem_of_In, elem_of_bytes_256.
Qed.

(** ** Record update

    [r <| f := v |>] is [r] with the field [f] set to [v], and
    [r <| f ::= g |>] with [g] applied to it.  A record is made updatable by
    an instance of [Eta] that rebuilds it from its projections; the setter of
    a field is found by replacing its projection in that term. *)
Class Eta (R : Type) := eta_expand : R → R.
Class Setter {R T : Type} (proj : R → T) := set_field : (T → T) → R → R.

Ltac find_setter :=
  lazymatch goal with
  | |- @Setter ?R ?T ?proj =>
      let inst := constr:(_ : Eta R) in
      let inst := (let h := eval hnf in inst in h) in
      lazymatch eval pattern proj in inst with
      | ?ctx proj =>
          let t := constr:(λ (g : T → T), ctx (λ r : R, g (proj r))) in
          let t := (let u := eval cbv beta in t in u) in exact t
      end
  end.

#[export] Hint Extern 0 (Setter _) => find_setter : typeclass_instances.

Notation "r <| f := v |>" := (set_field (proj := f) (λ _, v) r)
  (at level 1, left associativity, f constr at level 0,
   format "r  <| f  :=  v |>").
Notation "r <| f ::= g |>" := (set_field (proj := f) g r)
  (at level 1, left associativity, f constr at level 0,
   format "r  <| f  ::=  g |>").

(** ** Linked lists

    [lchain nx p L]: following the links [nx] from [p] visits [L] and ends at
    NULL.  [nx k] is the link stored in cell [k], if there is such a cell. *)
Fixpoint lchain {K} (nx : K → option (option K)) (p : option K) (L : list K) : Prop :=
  match L with
  | [] => p = None
  | k :: L' => p = Some k ∧ ∃ q, nx k = Some q ∧ lchain nx q L'
  end.

Lemma lchain_ext {K} (nx nx' : K → option (option K)) p L :
  (∀ k, k ∈ L → nx' k = nx k) → lchain nx p L → lchain nx' p L.
Proof.
  revert p. induction L as [|k L IH]; simpl; [done|].
  intros p Hnx [-> (q & Hq & HL)]. split; [done|]. exists q.
  rewrite Hnx by set_solver. split; [done|]. apply IH; [|done]. set_solver.
Qed.

Lemma lchain_det {K} (nx : K → option (option K)) p L1 L2 :
  lchain nx p L1 → lchain nx p L2 → L1 = L2.
Proof.
  revert p L2. induction L1 as [|k L1 IH]; intros p [|k' L2]; simpl.
  - done.
  - intros -> [? _]. done.
  - by intros [-> _].
  - intros [-> (q & Hq & H1)] [[= <-] (q' & Hq' & H2)]. simplify_eq.
    f_equal. by eapply IH.
Qed.

(** Appending a cell by setting the link of the last one. *)
Lemma lchain_snoc {K} (nx nx' : K → option (option K)) p L a :
  lchain nx p L → NoDup L → nx' a = Some None →
  (∀ k, k ∈ L → last L ≠ Some k → nx' k = nx k) →
  (∀ k, last L = Some k → nx' k = Some (Some a)) →
  lchain nx' (match L with [] => Some a | _ => p end) (L ++ [a]).
Proof.
  revert p. induction L as [|k L IH]; simpl; intros p HL Hnd Ha Hold Hlast.
  - split; [done|]. by exists None.
  - destruct HL as [-> (q & Hq & HL)]. split; [done|].
    apply NoDup_cons in Hnd as [Hk Hnd]. destruct L as [|k' L].
    + exists (Some a). rewrite Hlast by done. split; [done|]. split; [done|].
      by exists None.
    + exists q. rewrite Hold; [|set_solver|].
      2: { rewrite last_cons_cons. intros Hl. apply last_Some in Hl as (L' & HL').
           apply Hk. rewrite HL'. apply elem_of_app. right.
           by apply list_elem_of_singleton. }
      split; [done|]. apply (IH q); [done|done|done| |].
      * intros k0 Hk0 Hl0. apply Hold; [set_solver|by rewrite last_cons_cons].
      * intros k0 Hl0. apply Hlast. by rewrite last_cons_cons.
Qed.
