(* ===== verification/Crc16.v ===== *)
(** * The message checksum ([src/generic/crc16_ccitt.c])

    The same routine is compiled three times in the program: in the firmware
    ([crc16_ccitt]), in the host's message helpers
    ([msgblock_crc16_ccitt], elegoo/chelper/msgblock.c) and in the boot
    loader ([bootloader_crc16_ccitt], src/bootloader_com.c).  A C pair of a
    pointer and a length is the list of the bytes it names. *)

From S2P Require Import Prelude.

(** One iteration of the loop: the byte [data] is folded into [crc]. *)
Definition crc16_step (crc data : Z) : Z :=
  let data := u8 (Z.lxor data (Z.land crc 0xff)) in
  let data := u8 (Z.lxor data (Z.shiftl data 4)) in
  u16 (Z.lxor (Z.lxor (Z.lor (Z.shiftl data 8) (Z.shiftr crc 8))
                      (u8 (Z.shiftr data 4)))
              (Z.shiftl data 3)).

Definition crc16_ccitt (buf : list Z) : Z := fold_left crc16_step buf 0xffff.

Definition msgblock_crc16_ccitt (buf : list Z) : Z :=
  fold_left crc16_step buf 0xffff.

Definition bootloader_crc16_ccitt (buf : list Z) : Z :=
  fold_left crc16_step buf 0xffff.

(** ** The reference: the bit-serial CRC

    The CRC of the reflected polynomial 0x8408 (x^16 + x^12 + x^5 + 1),
    processed least significant bit first. *)
Definition crc_bit (crc : Z) : Z :=
  if Z.odd crc then Z.lxor (Z.shiftr crc 1) 0x8408 else Z.shiftr crc 1.

Definition crc_ref_step (crc data : Z) : Z :=
  Nat.iter 8 crc_bit (Z.lxor crc data).

Definition crc_ref (buf : list Z) : Z := fold_left crc_ref_step buf 0xffff.

(** ** The step as a table lookup *)

(** What the optimised step adds to the upper byte of the crc. *)
Definition crc_tab (l : Z) : Z :=
  let data := u8 (Z.lxor l (Z.shiftl l 4)) in
  Z.lxor (Z.lxor (Z.shiftl data 8) (u8 (Z.shiftr data 4))) (Z.shiftl data 3).

Lemma crc_tab_range l : is_byte l → 0 <= crc_tab l < 65536.
Proof.
  intros Hl.
  assert (H := byte_forall (λ l, (0 <=? crc_tab l) && (crc_tab l <? 65536))
    ltac:(vm_compute; reflexivity) l Hl).
  apply andb_prop in H as [?%Z.leb_le ?%Z.ltb_lt]. lia.
Qed.

Lemma crc_index_byte crc d : is_byte d → is_byte (Z.lxor d (crc mod 256)).
Proof.
  intros Hd. apply (lxor_bound 8); [lia|done|].
  apply Z.mod_pos_bound. lia.
Qed.

Lemma crc16_step_tab crc d : 0 <= crc < 65536 → is_byte d →
  crc16_step crc d
  = Z.lxor (Z.shiftr crc 8) (crc_tab (Z.lxor d (crc mod 256))).
Proof.
  intros Hc Hd. unfold crc16_step. rewrite land_ff.
  pose proof (crc_index_byte crc d Hd) as Hl.
  pose proof (crc_tab_range _ Hl) as Ht. revert Ht.
  rewrite (u8_small (Z.lxor d _)) by done.
  generalize dependent (Z.lxor d (crc mod 256)); intros l Hl Ht.
  unfold crc_tab in *. cbv zeta in *.
  pose proof (u8_range (Z.lxor l (Z.shiftl l 4))) as Hdat.
  generalize dependent (u8 (Z.lxor l (Z.shiftl l 4))). intros dat Ht Hdat.
  assert (Hh : 0 <= Z.shiftr crc 8 < 256).
  { rewrite shiftr_div by lia. change (2 ^ 8) with 256.
    Z.div_mod_to_equations. lia. }
  rewrite <- Z.lxor_lor by (rewrite shiftl_mul by lia; by apply land_disjoint).
  set (h := Z.shiftr crc 8) in *.
  replace (Z.lxor (Z.lxor (Z.lxor (Z.shiftl dat 8) h) _) _) with
    (Z.lxor h (Z.lxor (Z.lxor (Z.shiftl dat 8) (u8 (Z.shiftr dat 4)))
       (Z.shiftl dat 3))).
  - apply u16_small. apply (lxor_bound 16); [lia| |done]. lia.
  - rewrite (Z.lxor_comm _ h), !Z.lxor_assoc. done.
Qed.

Lemma crc16_step_range crc d : 0 <= crc16_step crc d < 65536.
Proof. apply u16_range. Qed.

Lemma crc16_fold_range buf crc : 0 <= crc < 65536 →
  0 <= fold_left crc16_step buf crc < 65536.
Proof. revert crc. induction buf; simpl; auto using crc16_step_range. Qed.

Lemma crc16_ccitt_range buf : 0 <= crc16_ccitt buf < 65536.
Proof. apply crc16_fold_range. lia. Qed.

(** ** The bit-serial reference is linear *)

Lemma crc_bit_lxor a b : crc_bit (Z.lxor a b) = Z.lxor (crc_bit a) (crc_bit b).
Proof.
  unfold crc_bit. rewrite Z.shiftr_lxor, <- !Z.bit0_odd, Z.lxor_spec.
  generalize (Z.shiftr a 1), (Z.shiftr b 1). intros x y.
  destruct (Z.testbit a 0), (Z.testbit b 0); simpl; bits_ext k;
    rewrite !Z.lxor_spec; generalize (Z.testbit 0x8408 k); intros [];
    by destruct (Z.testbit x k), (Z.testbit y k).
Qed.

Lemma crc_bits_lxor n a b :
  Nat.iter n crc_bit (Z.lxor a b)
  = Z.lxor (Nat.iter n crc_bit a) (Nat.iter n crc_bit b).
Proof. induction n as [|n IH]; simpl; [done|]. by rewrite IH, crc_bit_lxor. Qed.

Lemma crc_bit_even a : crc_bit (2 * a) = a.
Proof.
  unfold crc_bit. rewrite Z.odd_mul. simpl.
  rewrite shiftr_div by lia. change (2 ^ 1) with 2. Z.div_mod_to_equations. lia.
Qed.

Lemma crc_bits_high h : Nat.iter 8 crc_bit (h * 256) = h.
Proof.
  replace (h * 256) with (2 * (2 * (2 * (2 * (2 * (2 * (2 * (2 * h)))))))) by lia.
  cbv [Nat.iter nat_rect]. by rewrite !crc_bit_even.
Qed.

Lemma crc_bits_low l : is_byte l → Nat.iter 8 crc_bit l = crc_tab l.
Proof.
  intros Hl. apply Z.eqb_eq.
  apply (byte_forall (λ l, Nat.iter 8 crc_bit l =? crc_tab l)); [|done].
  vm_compute. reflexivity.
Qed.

Lemma crc_step_ref crc d : 0 <= crc < 65536 → is_byte d →
  crc16_step crc d = crc_ref_step crc d.
Proof.
  intros Hc Hd. rewrite crc16_step_tab by done. unfold crc_ref_step.
  rewrite <- (crc_bits_low _ (crc_index_byte crc d Hd)).
  rewrite <- (crc_bits_high (Z.shiftr crc 8)) at 1.
  rewrite <- crc_bits_lxor. f_equal.
  rewrite (Z.lxor_comm d), <- Z.lxor_assoc. f_equal.
  rewrite shiftr_div by lia. change (2 ^ 8) with 256.
  rewrite Z.lxor_lor by (apply (land_disjoint 8); [lia|];
    apply Z.mod_pos_bound; lia).
  rewrite (lor_disjoint 8) by (try lia; apply Z.mod_pos_bound; lia).
  pose proof (Z.div_mod crc 256). change (2 ^ 8) with 256. lia.
Qed.

Lemma crc_fold_ref buf crc : 0 <= crc < 65536 → byte_list buf →
  fold_left crc16_step buf crc = fold_left crc_ref_step buf crc.
Proof.
  revert crc. induction buf as [|d buf IH]; simpl; [done|].
  intros crc Hc [Hd Hbuf]%Forall_cons_iff. rewrite <- crc_step_ref by done.
  apply IH; auto using crc16_step_range.
Qed.

(** ** Error detection *)

Lemma crc_tab_hi_inj a b : is_byte a → is_byte b →
  Z.shiftr (crc_tab a) 8 = Z.shiftr (crc_tab b) 8 → a = b.
Proof.
  intros Ha Hb Heq. apply Z.eqb_eq.
  assert (H := byte_forall (λ a, forallb (λ b,
    implb (Z.shiftr (crc_tab a) 8 =? Z.shiftr (crc_tab b) 8) (a =? b)) bytes_256)
    ltac:(vm_compute; reflexivity) a Ha).
  assert (H2 := byte_forall _ H b Hb). simpl in H2.
  by rewrite Heq, Z.eqb_refl in H2.
Qed.

Lemma crc16_step_inj c1 d1 c2 d2 :
  0 <= c1 < 65536 → 0 <= c2 < 65536 → is_byte d1 → is_byte d2 →
  crc16_step c1 d1 = crc16_step c2 d2 →
  Z.lxor d1 (c1 mod 256) = Z.lxor d2 (c2 mod 256) ∧ c1 / 256 = c2 / 256.
Proof.
  intros Hc1 Hc2 Hd1 Hd2. rewrite !crc16_step_tab by done. intros Heq.
  assert (Hz : ∀ c, 0 <= c < 65536 → Z.shiftr (Z.shiftr c 8) 8 = 0).
  { intros c Hc. rewrite Z.shiftr_shiftr, shiftr_div by lia.
    change (2 ^ (8 + 8)) with 65536. Z.div_mod_to_equations. lia. }
  assert (Hl : Z.lxor d1 (c1 mod 256) = Z.lxor d2 (c2 mod 256)).
  { apply crc_tab_hi_inj; [by apply crc_index_byte..|].
    apply (f_equal (λ x, Z.shiftr x 8)) in Heq.
    by rewrite !Z.shiftr_lxor, !Hz, !Z.lxor_0_l in Heq by done. }
  split; [done|]. rewrite Hl in Heq. apply lxor_cancel_r in Heq.
  by rewrite !shiftr_div in Heq by lia.
Qed.

Lemma crc16_step_inj_crc c1 c2 d :
  0 <= c1 < 65536 → 0 <= c2 < 65536 → is_byte d →
  crc16_step c1 d = crc16_step c2 d → c1 = c2.
Proof.
  intros Hc1 Hc2 Hd [Hl%lxor_cancel_l Hh]%crc16_step_inj; [|done..].
  rewrite (Z.div_mod c1 256), (Z.div_mod c2 256) by lia. lia.
Qed.

Lemma crc16_fold_inj_crc buf c1 c2 :
  0 <= c1 < 65536 → 0 <= c2 < 65536 → byte_list buf →
  fold_left crc16_step buf c1 = fold_left crc16_step buf c2 → c1 = c2.
Proof.
  revert c1 c2. induction buf as [|d buf IH]; simpl; [done|].
  intros c1 c2 Hc1 Hc2 [Hd Hbuf]%Forall_cons_iff Heq.
  apply IH in Heq; auto using crc16_step_range.
  by eapply crc16_step_inj_crc.
Qed.

Lemma crc16_step2_inj c a b a' b' :
  0 <= c < 65536 → is_byte a → is_byte b → is_byte a' → is_byte b' →
  crc16_step (crc16_step c a) b = crc16_step (crc16_step c a') b' →
  a = a' ∧ b = b'.
Proof.
  intros Hc Ha Hb Ha' Hb' Heq.
  apply crc16_step_inj in Heq as [Hl Hh]; auto using crc16_step_range.
  rewrite !crc16_step_tab in Hh by done.
  rewrite <- !(shiftr_div 8), !Z.shiftr_lxor in Hh by lia.
  apply lxor_cancel_l, crc_tab_hi_inj in Hh; [|by apply crc_index_byte..].
  apply lxor_cancel_r in Hh as <-. split; [done|]. by apply lxor_cancel_r in Hl.
Qed.

(** C39: the optimised byte-at-a-time checksum of crc16_ccitt computes the
    bit-serial CRC of the reflected polynomial 0x8408 started at 0xffff, for
    every message. *)
Theorem crc16_ccitt_is_crc (buf : list Z) (Hbuf : byte_list buf) :
  crc16_ccitt buf = crc_ref buf.
Proof. by apply crc_fold_ref. Qed.

Lemma crc16_ccitt_is_crc_witness :
  crc16_ccitt [0x31; 0x32; 0x33; 0x34; 0x35; 0x36; 0x37; 0x38; 0x39]
  = crc_ref [0x31; 0x32; 0x33; 0x34; 0x35; 0x36; 0x37; 0x38; 0x39]
  ∧ crc16_ccitt [0x31; 0x32; 0x33; 0x34; 0x35; 0x36; 0x37; 0x38; 0x39] = 0x6f91.
Proof.
  split; [|by vm_compute].
  apply crc16_ccitt_is_crc. repeat constructor; lia.
Defined.

(** Corruption that is confined to two neighbouring bytes of a message
    (hence any error burst of up to nine bits, and any change of one byte)
    always changes the checksum. *)
Theorem crc16_ccitt_detects (pre post : list Z) (a b a' b' : Z)
  (Hpre : byte_list pre) (Hpost : byte_list post)
  (Ha : is_byte a) (Hb : is_byte b) (Ha' : is_byte a') (Hb' : is_byte b')
  (Hne : (a, b) ≠ (a', b')) :
  crc16_ccitt (pre ++ [a; b] ++ post) ≠ crc16_ccitt (pre ++ [a'; b'] ++ post).
Proof.
  unfold crc16_ccitt. rewrite !fold_left_app. simpl. intros Heq.
  apply crc16_fold_inj_crc in Heq; auto using crc16_step_range.
  apply crc16_step2_inj in Heq as [-> ->]; auto.
  apply crc16_fold_range. lia.
Qed.

Lemma crc16_ccitt_detects_witness :
  crc16_ccitt ([5] ++ [16; 1] ++ []) ≠ crc16_ccitt ([5] ++ [17; 0] ++ []).
Proof.
  apply crc16_ccitt_detects; try (repeat constructor; lia); try lia. done.
Defined.
