(* ===== verification/Vlq.v ===== *)
(** * Variable length quantities (src/command.c, elegoo/chelper/msgblock.c)

    The integers of a message are written most significant group first, seven
    bits a byte, the top bit of a byte announcing another one.  A pointer that
    a C routine advances while it writes is the list of the bytes written; a
    pointer it advances while it reads is the list of the bytes still to be
    read, and [None] stands for a read past their end. *)

From S2P Require Import Prelude.

(** [encode_int]: the bytes stored at [*p].  The cascade of [goto] enters the
    sequence of stores at the label that fits the magnitude of [v]. *)
Definition encode_int (v : Z) : list Z :=
  let sv := s32 v in
  let f4 := [Z.land v 0x7f] in
  let f3 := Z.lor (Z.land (Z.shiftr v 7) 0x7f) 0x80 :: f4 in
  let f2 := Z.lor (Z.land (Z.shiftr v 14) 0x7f) 0x80 :: f3 in
  let f1 := Z.lor (Z.land (Z.shiftr v 21) 0x7f) 0x80 :: f2 in
  if (sv <? Z.shiftl 3 5) && (- Z.shiftl 1 5 <=? sv) then f4
  else if (sv <? Z.shiftl 3 12) && (- Z.shiftl 1 12 <=? sv) then f3
  else if (sv <? Z.shiftl 3 19) && (- Z.shiftl 1 19 <=? sv) then f2
  else if (sv <? Z.shiftl 3 26) && (- Z.shiftl 1 26 <=? sv) then f1
  else u8 (Z.lor (Z.shiftr v 28) 0x80) :: f1.

(** The [while (c & 0x80)] loop of [parse_int]. *)
Fixpoint parse_int_loop (v : Z) (p : list Z) : option (Z * list Z) :=
  match p with
  | [] => None
  | c :: p =>
      let v := u32 (Z.lor (Z.shiftl v 7) (Z.land c 0x7f)) in
      if flag_set c 0x80 then parse_int_loop v p else Some (v, p)
  end.

Definition parse_int (p : list Z) : option (Z * list Z) :=
  match p with
  | [] => None
  | c :: p =>
      let v := Z.land c 0x7f in
      let v := if Z.land c 0x60 =? 0x60 then Z.lor v (u32 (-0x20)) else v in
      if flag_set c 0x80 then parse_int_loop v p else Some (v, p)
  end.

(** The host's copies of the two routines (elegoo/chelper/msgblock.c). *)
Definition host_encode_int (v : Z) : list Z := encode_int v.
Definition host_parse_int (p : list Z) : option (Z * list Z) := parse_int p.

(** [encode_msgid]: the optimised two-byte encoder of message ids. *)
Definition encode_msgid (encoded_msgid : Z) : list Z :=
  let low := [Z.land encoded_msgid 0x7f] in
  if 0x80 <=? encoded_msgid
  then u8 (Z.lor (Z.shiftr encoded_msgid 7) 0x80) :: low else low.

(** [command_parse_msgid]. *)
Definition command_parse_msgid (p : list Z) : option (Z * list Z) :=
  match p with
  | [] => None
  | c :: p =>
      if flag_set c 0x80 then
        match p with
        | [] => None
        | d :: p => Some (Z.lor (Z.shiftl (Z.land c 0x7f) 7) d, p)
        end
      else Some (c, p)
  end.

(** ** The bytes of a quantity *)

(** A group of seven bits with the continuation bit. *)
Lemma vlq_more x : 0 <= x < 128 →
  flag_set (Z.lor x 0x80) 0x80 = true ∧ Z.land (Z.lor x 0x80) 0x7f = x
  ∧ (Z.land (Z.lor x 0x80) 0x60 =? 0x60) = (96 <=? x)
  ∧ u8 (Z.lor x 0x80) = Z.lor x 0x80.
Proof.
  intros Hx.
  assert (H := byte_forall (λ x, implb (x <? 128)
    (flag_set (Z.lor x 0x80) 0x80 && (Z.land (Z.lor x 0x80) 0x7f =? x)
     && Bool.eqb (Z.land (Z.lor x 0x80) 0x60 =? 0x60) (96 <=? x)
     && (u8 (Z.lor x 0x80) =? Z.lor x 0x80)))
    ltac:(vm_compute; reflexivity) x ltac:(unfold is_byte; lia)).
  simpl in H. rewrite (proj2 (Z.ltb_lt x 128)) in H by lia. simpl in H.
  apply andb_prop in H as [[[? ?%Z.eqb_eq]%andb_prop
    ?%Bool.eqb_prop]%andb_prop ?%Z.eqb_eq]. done.
Qed.

(** A final group of seven bits. *)
Lemma vlq_last x : 0 <= x < 128 →
  flag_set x 0x80 = false ∧ Z.land x 0x7f = x
  ∧ (Z.land x 0x60 =? 0x60) = (96 <=? x).
Proof.
  intros Hx.
  assert (H := byte_forall (λ x, implb (x <? 128)
    (negb (flag_set x 0x80) && (Z.land x 0x7f =? x)
     && Bool.eqb (Z.land x 0x60 =? 0x60) (96 <=? x)))
    ltac:(vm_compute; reflexivity) x ltac:(unfold is_byte; lia)).
  simpl in H. rewrite (proj2 (Z.ltb_lt x 128)) in H by lia. simpl in H.
  apply andb_prop in H as [[?%negb_true_iff ?%Z.eqb_eq]%andb_prop
    ?%Bool.eqb_prop]. done.
Qed.

(** The value the first group contributes: a group of 96 or more is the start
    of a negative number. *)
Definition vlq_first (x : Z) : Z := if 96 <=? x then x - 128 else x.

Lemma vlq_first_spec x : 0 <= x < 128 →
  (if 96 <=? x then Z.lor x (u32 (-0x20)) else x) = u32 (vlq_first x).
Proof.
  intros Hx. apply Z.eqb_eq.
  assert (H := byte_forall (λ x, implb (x <? 128)
    ((if 96 <=? x then Z.lor x (u32 (-0x20)) else x) =? u32 (vlq_first x)))
    ltac:(vm_compute; reflexivity) x ltac:(unfold is_byte; lia)).
  simpl in H. by rewrite (proj2 (Z.ltb_lt x 128)) in H by lia.
Qed.

Lemma parse_int_loop_more v x p : 0 <= x < 128 →
  parse_int_loop (u32 v) (Z.lor x 0x80 :: p) = parse_int_loop (u32 (v * 128 + x)) p.
Proof.
  intros Hx. simpl. destruct (vlq_more x Hx) as (-> & -> & _ & _).
  f_equal. rewrite shiftl_mul, lor_disjoint by lia. change (2 ^ 7) with 128.
  unfold u32. rewrite <- (Zplus_mod_idemp_l (v * 128)), <- Zmult_mod_idemp_l.
  by rewrite Zplus_mod_idemp_l.
Qed.

Lemma parse_int_loop_last v x p : 0 <= x < 128 →
  parse_int_loop (u32 v) (x :: p) = Some (u32 (v * 128 + x), p).
Proof.
  intros Hx. simpl. destruct (vlq_last x Hx) as (-> & -> & _).
  f_equal. f_equal. rewrite shiftl_mul, lor_disjoint by lia. change (2 ^ 7) with 128.
  unfold u32. rewrite <- (Zplus_mod_idemp_l (v * 128)), <- Zmult_mod_idemp_l.
  by rewrite Zplus_mod_idemp_l.
Qed.

Lemma parse_int_more x p : 0 <= x < 128 →
  parse_int (Z.lor x 0x80 :: p) = parse_int_loop (u32 (vlq_first x)) p.
Proof.
  intros Hx. simpl. destruct (vlq_more x Hx) as (-> & -> & -> & _).
  by rewrite vlq_first_spec.
Qed.

Lemma parse_int_last x p : 0 <= x < 128 →
  parse_int (x :: p) = Some (u32 (vlq_first x), p).
Proof.
  intros Hx. simpl. destruct (vlq_last x Hx) as (-> & -> & ->).
  by rewrite vlq_first_spec.
Qed.

(** The groups of [v] as the code extracts them. *)
Lemma encode_int_groups v : 0 <= v < 2 ^ 32 →
  let sv := s32 v in
  let f4 := [v mod 128] in
  let f3 := Z.lor (v / 128 mod 128) 0x80 :: f4 in
  let f2 := Z.lor (v / 16384 mod 128) 0x80 :: f3 in
  let f1 := Z.lor (v / 2097152 mod 128) 0x80 :: f2 in
  encode_int v =
    if (sv <? 96) && (-32 <=? sv) then f4
    else if (sv <? 12288) && (-4096 <=? sv) then f3
    else if (sv <? 1572864) && (-524288 <=? sv) then f2
    else if (sv <? 201326592) && (-67108864 <=? sv) then f1
    else Z.lor (v / 268435456) 0x80 :: f1.
Proof.
  intros Hv. cbv zeta. unfold encode_int. rewrite !land_7f, !shiftr_div by lia.
  change (2 ^ 28) with 268435456.
  destruct (vlq_more (v / 268435456)) as (_ & _ & _ & ->); [|done].
  Z.div_mod_to_equations. lia.
Qed.

Lemma group_range v : 0 <= v mod 128 < 128.
Proof. apply Z.mod_pos_bound. lia. Qed.

Lemma parse_encode_int v p : 0 <= v < 2 ^ 32 →
  parse_int (encode_int v ++ p) = Some (v, p).
Proof.
  intros Hv. rewrite encode_int_groups by done. cbv zeta.
  assert (Hsv : v = s32 v ∧ 0 <= s32 v ∨ v = s32 v + 2 ^ 32 ∧ s32 v < 0)
    by int_lia.
  pose proof (s32_range v) as Hr.
  assert (Htop : 0 <= v / 268435456 < 16) by (Z.div_mod_to_equations; lia).
  repeat case_match; simpl app;
    repeat first
      [ rewrite parse_int_last by auto using group_range
      | rewrite parse_int_more by (auto using group_range; lia)
      | rewrite parse_int_loop_more by auto using group_range
      | rewrite parse_int_loop_last by auto using group_range ];
    f_equal; f_equal; unfold vlq_first, u32 in *;
    repeat match goal with
    | H : (_ && _) = true |- _ => apply andb_prop in H as [?%Z.ltb_lt ?%Z.leb_le]
    | H : (_ && _) = false |- _ =>
        apply andb_false_iff in H as [?%Z.ltb_ge|?%Z.leb_gt]
    end; case_cmp; Z.div_mod_to_equations; lia.
Qed.

(** ** How much is written and how much is read *)

Lemma encode_int_length v : (1 <= length (encode_int v) <= 5)%nat.
Proof. unfold encode_int. repeat case_match; simpl; lia. Qed.

Lemma land_7f_byte v : is_byte (Z.land v 0x7f).
Proof. rewrite land_7f. pose proof (group_range v). unfold is_byte. lia. Qed.

Lemma encode_int_bytes v : byte_list (encode_int v).
Proof.
  unfold encode_int.
  assert (is_byte 0x80) by done.
  repeat case_match; repeat apply Forall_cons_2; try apply Forall_nil_2;
    first [apply land_7f_byte | apply lor_byte; [apply land_7f_byte|done]
          | apply u8_range].
Qed.

(** A read stops at the first byte without the continuation bit: if there is
    one at offset [i], the bytes read are among the first [i + 1]. *)
Lemma parse_int_loop_stops p i c v :
  p !! i = Some c → flag_set c 0x80 = false →
  ∃ v' n, parse_int_loop v p = Some (v', drop n p) ∧ (1 <= n <= S i)%nat.
Proof.
  revert i v. induction p as [|d p IH]; intros i v Hi Hc; [done|]. simpl.
  destruct (flag_set d 0x80) eqn:Hd.
  - destruct i as [|i]; simpl in Hi; [congruence|].
    destruct (IH i (u32 (Z.lor (Z.shiftl v 7) (Z.land d 0x7f))) Hi Hc)
      as (v' & n & -> & Hn).
    exists v', (S n). split; [done|lia].
  - eexists _, 1%nat. simpl. rewrite drop_0. split; [done|lia].
Qed.

Lemma parse_int_stops p i c :
  p !! i = Some c → flag_set c 0x80 = false →
  ∃ v n, parse_int p = Some (v, drop n p) ∧ (1 <= n <= S i)%nat.
Proof.
  destruct p as [|d p]; [done|]. intros Hi Hc. simpl.
  destruct (flag_set d 0x80) eqn:Hd.
  - destruct i as [|i]; simpl in Hi; [congruence|].
    edestruct (parse_int_loop_stops p i c) as (v' & n & -> & Hn); [done..|].
    exists v', (S n). split; [done|lia].
  - eexists _, 1%nat. simpl. rewrite drop_0. split; [done|lia].
Qed.

(** The range of the integers that [n] bytes can carry. *)
Lemma parse_int_loop_range p z v rest n :
  byte_list p → parse_int_loop (u32 z) p = Some (v, rest) →
  - 32 * 128 ^ n <= z < 96 * 128 ^ n → 0 <= n →
  ∃ z' k, v = u32 z' ∧ length p = (S k + length rest)%nat ∧
    - 32 * 128 ^ (n + Z.of_nat (S k)) <= z' < 96 * 128 ^ (n + Z.of_nat (S k)).
Proof.
  revert z n. induction p as [|d p IH]; intros z n Hp Heq Hz Hn; [done|].
  apply Forall_cons_iff in Hp as [Hd Hp].
  pose proof (land_7f d) as Hl. pose proof (group_range d) as Hr.
  rewrite <- Hl in Hr.
  assert (Hstep : u32 (Z.lor (Z.shiftl (u32 z) 7) (Z.land d 0x7f))
                  = u32 (z * 128 + Z.land d 0x7f)).
  { rewrite shiftl_mul, lor_disjoint by lia. change (2 ^ 7) with 128.
    unfold u32. rewrite <- (Zplus_mod_idemp_l (z * 128)), <- Zmult_mod_idemp_l.
    by rewrite Zplus_mod_idemp_l. }
  simpl in Heq. rewrite Hstep in Heq.
  assert (Hz' : - 32 * 128 ^ (n + 1) <= z * 128 + Z.land d 0x7f
                < 96 * 128 ^ (n + 1)).
  { rewrite Z.pow_add_r by lia. change (128 ^ 1) with 128. lia. }
  destruct (flag_set d 0x80).
  - apply (IH _ (n + 1)) in Heq as (z' & k & -> & Hlen & Hr'); [|done|done|lia].
    exists z', (S k). split; [done|]. split; [simpl; lia|].
    replace (n + Z.of_nat (S (S k))) with (n + 1 + Z.of_nat (S k)) by lia. done.
  - simplify_eq. exists (z * 128 + Z.land d 0x7f), 0%nat. simpl. auto.
Qed.

Lemma parse_int_range p v rest :
  byte_list p → parse_int p = Some (v, rest) →
  ∃ z k, v = u32 z ∧ length p = (S k + length rest)%nat ∧
    - 32 * 128 ^ Z.of_nat k <= z < 96 * 128 ^ Z.of_nat k.
Proof.
  intros Hp Heq. destruct p as [|d p]; [done|].
  apply Forall_cons_iff in Hp as [Hd Hp].
  set (x := Z.land d 0x7f).
  assert (Hx : 0 <= x < 128) by (unfold x; rewrite land_7f; apply group_range).
  assert (H60 : (Z.land d 0x60 =? 0x60) = (96 <=? x)).
  { apply Bool.eqb_prop.
    apply (byte_forall (λ d, Bool.eqb (Z.land d 0x60 =? 0x60)
      (96 <=? Z.land d 0x7f))); [by vm_compute|done]. }
  simpl in Heq. fold x in Heq. rewrite H60, vlq_first_spec in Heq by done.
  assert (Hf : - 32 * 128 ^ 0 <= vlq_first x < 96 * 128 ^ 0)
    by (unfold vlq_first; case_cmp; lia).
  destruct (flag_set d 0x80).
  - apply parse_int_loop_range with (n := 0) in Heq
      as (z' & k & -> & Hlen & Hr'); [|done|done|lia].
    exists z', (S k). split; [done|]. split; [simpl; lia|]. done.
  - simplify_eq. exists (vlq_first x), 0%nat. simpl. auto.
Qed.

Lemma encode_int_minimal v k : 0 <= v < 2 ^ 32 → (k < length (encode_int v) - 1)%nat →
  ∀ z, - 32 * 128 ^ Z.of_nat k <= z < 96 * 128 ^ Z.of_nat k → v ≠ u32 z.
Proof.
  intros Hv Hk z Hz ->. revert Hk. unfold encode_int.
  rewrite s32_u32.
  assert (Hs : (k < 4)%nat → s32 z = z).
  { intros. apply s32_small.
    assert (128 ^ Z.of_nat k <= 128 ^ 3) by (apply Z.pow_le_mono_r; lia). lia. }
  change (Z.shiftl 3 5) with (96 * 128 ^ 0). change (Z.shiftl 3 12) with (96 * 128 ^ 1).
  change (Z.shiftl 3 19) with (96 * 128 ^ 2). change (Z.shiftl 3 26) with (96 * 128 ^ 3).
  change (Z.shiftl 1 5) with (32 * 128 ^ 0). change (Z.shiftl 1 12) with (32 * 128 ^ 1).
  change (Z.shiftl 1 19) with (32 * 128 ^ 2). change (Z.shiftl 1 26) with (32 * 128 ^ 3).
  assert (Hmono : ∀ j, (k <= j)%nat → - 32 * 128 ^ Z.of_nat j <= z < 96 * 128 ^ Z.of_nat j).
  { intros j Hj. assert (128 ^ Z.of_nat k <= 128 ^ Z.of_nat j)
      by (apply Z.pow_le_mono_r; lia). lia. }
  assert (H0 := Hmono 0%nat). assert (H1 := Hmono 1%nat).
  assert (H2 := Hmono 2%nat). assert (H3 := Hmono 3%nat). clear Hmono Hz Hv.
  change (Z.of_nat 0) with 0 in *. change (Z.of_nat 1) with 1 in *.
  change (Z.of_nat 2) with 2 in *. change (Z.of_nat 3) with 3 in *.
  destruct (decide (k < 4)%nat) as [Hlt|]; [rewrite (Hs Hlt); clear Hs|clear Hs];
    repeat case_match; simpl; try lia;
    repeat match goal with
    | H : (_ && _) = false |- _ =>
        apply andb_false_iff in H as [?%Z.ltb_ge|?%Z.leb_gt]
    end; lia.
Qed.

(** ** Message ids *)

Lemma parse_encode_msgid id p : 0 <= id < 2 ^ 14 →
  command_parse_msgid (encode_msgid id ++ p) = Some (id, p).
Proof.
  intros Hid. unfold encode_msgid. change (2 ^ 14) with 16384 in Hid.
  rewrite land_7f, shiftr_div by lia. change (2 ^ 7) with 128.
  pose proof (group_range id) as Hg.
  destruct (Z.leb_spec 0x80 id).
  - assert (Hq : 0 <= id / 128 < 128) by (Z.div_mod_to_equations; lia).
    destruct (vlq_more _ Hq) as (Hf & Hl & _ & Hu8).
    simpl. rewrite Hu8, Hf, Hl.
    rewrite shiftl_mul, lor_disjoint by lia. change (2 ^ 7) with 128.
    f_equal. f_equal. Z.div_mod_to_equations. lia.
  - rewrite Z.mod_small by lia. simpl.
    destruct (vlq_last id) as (-> & _ & _); [lia|done].
Qed.

(** Every 32-bit value survives encode_int followed by parse_int, whatever
    bytes follow it, and the parser leaves exactly those bytes. *)
Theorem vlq_roundtrip (v : Z) (rest : list Z) (Hv : is_u32 v) :
  parse_int (encode_int v ++ rest) = Some (v, rest)
  ∧ host_parse_int (encode_int v ++ rest) = Some (v, rest)
  ∧ parse_int (host_encode_int v ++ rest) = Some (v, rest).
Proof.
  unfold host_parse_int, host_encode_int. rewrite !parse_encode_int by done. done.
Qed.

Lemma vlq_roundtrip_witness :
  parse_int (encode_int 0xfffffff0 ++ [1; 2]) = Some (0xfffffff0, [1; 2])
  ∧ encode_int 0xfffffff0 = [0x70].
Proof.
  split; [|by vm_compute].
  apply (vlq_roundtrip 0xfffffff0 [1; 2]). unfold is_u32. lia.
Defined.

(** Encode_int writes between one and five bytes and no sequence of bytes
    that parse_int reads as the same value is shorter. *)
Theorem vlq_shortest (v : Z) (p rest : list Z)
  (Hv : is_u32 v) (Hp : byte_list p) (Hparse : parse_int p = Some (v, rest)) :
  (1 <= length (encode_int v) <= 5)%nat
  ∧ (length (encode_int v) <= length p - length rest)%nat.
Proof.
  split; [apply encode_int_length|].
  apply parse_int_range in Hparse as (z & k & Hz & Hlen & Hr); [|done].
  destruct (decide (length (encode_int v) <= S k)%nat); [lia|].
  exfalso. by apply (encode_int_minimal v k Hv ltac:(lia) z).
Qed.

Lemma vlq_shortest_witness :
  (length (encode_int 5) <= length [0x80; 0x80; 5; 9] - length [9])%nat.
Proof.
  apply (vlq_shortest 5 [0x80; 0x80; 5; 9] [9]).
  - unfold is_u32. lia.
  - repeat constructor; lia.
  - by vm_compute.
Defined.
