(* ===== verification/State.v ===== *)
(** * The firmware's memory and the effects of its code

    The structs of the firmware as records, its global variables as one
    record [mcu], and the monad [M] its routines run in: they read and write
    the memory, use the hardware, and may leave through [shutdown] (a
    [longjmp] that keeps the memory as it is).

    A pointer to a [struct timer] is the path of the struct ([timer_id]): a
    static timer, or a member of an object allocated at some address, so that
    [container_of] is a pattern match.  The objects of [oid_alloc], the nodes
    of the move queue and the trigger signals are held in maps from
    addresses. *)

From S2P Require Import Prelude.

(** ** Pointers, function pointers and enumerations *)

(** The places a [struct timer] lives: the static timers of sched.c, the
    [wrap_timer] of armcm_timer.c, and the members of allocated objects. *)
Inductive timer_id :=
| T_periodic | T_sentinel | T_deleted | T_wrap
| T_obj (base member : Z).

(** The timer callbacks ([F_null] is a NULL function pointer). *)
Inductive timer_func :=
| F_null
| F_periodic_event | F_sentinel_event | F_deleted_event
| F_timer_wrap_event
| F_stepper_event_full
| F_trsync_report_event | F_trsync_expire_event
| F_endstop_event | F_endstop_oversample_event
| F_analog_in_event
| F_digital_toggle_event | F_digital_load_event
| F_pwm_event | F_pwm_end_event
| F_counter_event
| F_buttons_event
| F_watchdog_event
| F_tmcuart_read_event | F_tmcuart_read_sync_event | F_tmcuart_send_finish_event
| F_tmcuart_send_event | F_tmcuart_send_sync_event
| F_por_event | F_por_oversample_event
| F_thermocouple_event
| F_cs123x_event | F_hx71x_event | F_ads1220_event | F_adxl345_event | F_lis2dw_event.

(** The type tag of an oid: the address of its configuration command. *)
Inductive oid_type :=
| OT_none
| OT_stepper | OT_trsync | OT_endstop
| OT_analog_in | OT_digital_out | OT_pwm_out | OT_counter | OT_buttons
| OT_sos_filter | OT_load_cell_endstop
| OT_tmcuart | OT_spi | OT_spi_shutdown | OT_i2c | OT_neopixel
| OT_shutdown_pins | OT_por | OT_thermocouple
| OT_cs123x | OT_hx71x | OT_ads1220 | OT_adxl345 | OT_lis2dw.

(** The callbacks of a trigger signal. *)
Inductive signal_func := SIG_null | SIG_stepper_stop.

(** The static [struct task_wake] variables. *)
Inductive wake_id :=
| W_trsync | W_analog | W_counter | W_buttons | W_tmcuart | W_thermocouple
| W_cs123x | W_hx71x | W_ads1220 | W_adxl345 | W_lis2dw.

#[export] Instance timer_id_eq_dec : EqDecision timer_id.
Proof. solve_decision. Defined.
#[export] Instance timer_id_countable : Countable timer_id.
Proof.
  refine (inj_countable'
    (λ t, match t with
          | T_periodic => inl 0 | T_sentinel => inl 1 | T_deleted => inl 2
          | T_wrap => inl 3 | T_obj b m => inr (b, m) end)
    (λ x : Z + Z * Z, match x with
          | inl 0 => T_periodic | inl 1 => T_sentinel | inl 2 => T_deleted
          | inl _ => T_wrap | inr (b, m) => T_obj b m end) _).
  by intros [].
Defined.
#[export] Instance timer_func_eq_dec : EqDecision timer_func.
Proof. solve_decision. Defined.
#[export] Instance oid_type_eq_dec : EqDecision oid_type.
Proof. solve_decision. Defined.
#[export] Instance signal_func_eq_dec : EqDecision signal_func.
Proof. solve_decision. Defined.
#[export] Instance wake_id_eq_dec : EqDecision wake_id.
Proof. solve_decision. Defined.

(** ** Structs *)

(** [struct timer] (sched.h). *)
Record timer := mk_timer {
  next : option timer_id;
  func : timer_func;
  waketime : Z;
}.
#[export] Instance eta_timer : Eta timer :=
  λ r, mk_timer r.(next) r.(func) r.(waketime).

(** [SchedStatus] (sched.c). *)
Record sched_status := mk_sched_status {
  timer_list : timer_id;
  last_insert : timer_id;
  tasks_status : Z;
  shutdown_status : Z;
  shutdown_reason : string;
}.
#[export] Instance eta_sched_status : Eta sched_status :=
  λ r, mk_sched_status r.(timer_list) r.(last_insert) r.(tasks_status)
         r.(shutdown_status) r.(shutdown_reason).

(** The contents of a node of the move pool: the node of basecmd.h is the
    first member of [struct stepper_move], [struct digital_move] and
    [struct pwm_move]. *)
Inductive move_data :=
| MD_free
| MD_stepper (interval add count flags : Z)
| MD_digital (waketime on_duration : Z)
| MD_pwm (waketime value : Z).

(** [struct move_node] and [struct move_queue_head] (basecmd.h). *)
Record move_node := mk_move_node {
  mn_next : option Z;
  mn_data : move_data;
}.
#[export] Instance eta_move_node : Eta move_node :=
  λ r, mk_move_node r.(mn_next) r.(mn_data).

Record move_queue_head := mk_move_queue_head {
  mq_first : option Z;
  mq_last : option Z;
}.
#[export] Instance eta_move_queue_head : Eta move_queue_head :=
  λ r, mk_move_queue_head r.(mq_first) r.(mq_last).

(** [struct trsync_signal] (trsync.h). *)
Record trsync_signal := mk_trsync_signal {
  ts_next : option Z;
  ts_func : signal_func;
}.
#[export] Instance eta_trsync_signal : Eta trsync_signal :=
  λ r, mk_trsync_signal r.(ts_next) r.(ts_func).

(** [struct stepper] (stepper.c).  Its timer is [T_obj base 0] and its
    [stop_signal] is the signal at [base]. *)
Record stepper := mk_stepper {
  s_interval : Z;
  s_add : Z;
  s_count : Z;
  s_next_step_time : Z;
  s_step_pulse_ticks : Z;
  s_step_pin : Z;
  s_dir_pin : Z;
  s_position : Z;
  s_mq : move_queue_head;
  s_flags : Z;
}.
#[export] Instance eta_stepper : Eta stepper :=
  λ r, mk_stepper r.(s_interval) r.(s_add) r.(s_count) r.(s_next_step_time)
         r.(s_step_pulse_ticks) r.(s_step_pin) r.(s_dir_pin) r.(s_position)
         r.(s_mq) r.(s_flags).

(** [struct trsync] (trsync.c).  Its timers are [T_obj base 0] (report_time)
    and [T_obj base 1] (expire_time). *)
Record trsync := mk_trsync {
  tr_report_ticks : Z;
  tr_signals : option Z;
  tr_flags : Z;
  tr_trigger_reason : Z;
  tr_expire_reason : Z;
}.
#[export] Instance eta_trsync : Eta trsync :=
  λ r, mk_trsync r.(tr_report_ticks) r.(tr_signals) r.(tr_flags)
         r.(tr_trigger_reason) r.(tr_expire_reason).

(** [struct endstop] (endstop.c); [e_ts] is the address of the trsync. *)
Record endstop := mk_endstop {
  e_pin : Z;
  e_rest_time : Z;
  e_sample_time : Z;
  e_nextwake : Z;
  e_ts : option Z;
  e_flags : Z;
  e_sample_count : Z;
  e_trigger_count : Z;
  e_trigger_reason : Z;
}.
#[export] Instance eta_endstop : Eta endstop :=
  λ r, mk_endstop r.(e_pin) r.(e_rest_time) r.(e_sample_time) r.(e_nextwake)
         r.(e_ts) r.(e_flags) r.(e_sample_count) r.(e_trigger_count)
         r.(e_trigger_reason).

(** [struct analog_in] (adccmds.c). *)
Record analog_in := mk_analog_in {
  a_rest_time : Z;
  a_sample_time : Z;
  a_next_begin_time : Z;
  a_value : Z;
  a_min_value : Z;
  a_max_value : Z;
  a_pin : Z;
  a_invalid_count : Z;
  a_range_check_count : Z;
  a_state : Z;
  a_sample_count : Z;
}.
#[export] Instance eta_analog_in : Eta analog_in :=
  λ r, mk_analog_in r.(a_rest_time) r.(a_sample_time) r.(a_next_begin_time)
         r.(a_value) r.(a_min_value) r.(a_max_value) r.(a_pin)
         r.(a_invalid_count) r.(a_range_check_count) r.(a_state)
         r.(a_sample_count).

(** [struct digital_out_s] (gpiocmds.c). *)
Record digital_out_s := mk_digital_out_s {
  d_on_duration : Z;
  d_off_duration : Z;
  d_end_time : Z;
  d_pin : Z;
  d_max_duration : Z;
  d_cycle_time : Z;
  d_mq : move_queue_head;
  d_flags : Z;
}.
#[export] Instance eta_digital_out_s : Eta digital_out_s :=
  λ r, mk_digital_out_s r.(d_on_duration) r.(d_off_duration) r.(d_end_time)
         r.(d_pin) r.(d_max_duration) r.(d_cycle_time) r.(d_mq) r.(d_flags).

(** [struct pwm_out_s] (pwmcmds.c). *)
Record pwm_out_s := mk_pwm_out_s {
  pw_pin : Z;
  pw_max_duration : Z;
  pw_default_value : Z;
  pw_mq : move_queue_head;
}.
#[export] Instance eta_pwm_out_s : Eta pwm_out_s :=
  λ r, mk_pwm_out_s r.(pw_pin) r.(pw_max_duration) r.(pw_default_value)
         r.(pw_mq).

(** [struct counter] (pulse_counter.c). *)
Record counter := mk_counter {
  c_poll_ticks : Z;
  c_sample_ticks : Z;
  c_next_sample_time : Z;
  c_count : Z;
  c_last_count_time : Z;
  c_flags : Z;
  c_pin : Z;
}.
#[export] Instance eta_counter : Eta counter :=
  λ r, mk_counter r.(c_poll_ticks) r.(c_sample_ticks) r.(c_next_sample_time)
         r.(c_count) r.(c_last_count_time) r.(c_flags) r.(c_pin).

(** [struct buttons] (buttons.c). *)
Record buttons := mk_buttons {
  b_rest_ticks : Z;
  b_pressed : Z;
  b_last_pressed : Z;
  b_report_count : Z;
  b_reports : list Z;
  b_ack_count : Z;
  b_retransmit_state : Z;
  b_retransmit_count : Z;
  b_button_count : Z;
  b_pins : list Z;
}.
#[export] Instance eta_buttons : Eta buttons :=
  λ r, mk_buttons r.(b_rest_ticks) r.(b_pressed) r.(b_last_pressed)
         r.(b_report_count) r.(b_reports) r.(b_ack_count)
         r.(b_retransmit_state) r.(b_retransmit_count) r.(b_button_count)
         r.(b_pins).

(** [struct sos_filter] (sos_filter.h). *)
Record sos_filter := mk_sos_filter {
  sf_last_section_idx : Z;
  sf_n_sections : Z;
  sf_is_filter_ready : Z;
  sf_filter : list (list Z);
  sf_filter_state : list (list Z);
}.
#[export] Instance eta_sos_filter : Eta sos_filter :=
  λ r, mk_sos_filter r.(sf_last_section_idx) r.(sf_n_sections)
         r.(sf_is_filter_ready) r.(sf_filter) r.(sf_filter_state).

(** [struct load_cell_endstop] (load_cell_endstop.c). *)
Record load_cell_endstop := mk_load_cell_endstop {
  lc_trigger_grams : Z;
  lc_trigger_ticks : Z;
  lc_trigger_emit_ticks : Z;
  lc_last_sample_ticks : Z;
  lc_rest_ticks : Z;
  lc_ts : option Z;
  lc_trigger_sample : Z;
  lc_trigger_emit_sample : Z;
  lc_last_sample : Z;
  lc_safety_counts_min : Z;
  lc_safety_counts_max : Z;
  lc_tare_counts : Z;
  lc_flags : Z;
  lc_sample_count : Z;
  lc_trigger_count : Z;
  lc_trigger_reason : Z;
  lc_error_reason : Z;
  lc_watchdog_max : Z;
  lc_watchdog_count : Z;
  lc_trigger_grams_fixed : Z;
  lc_grams_per_count : Z;
  lc_sf : option Z;
  lc_homing_clock : Z;
  lc_error : Z;
  lc_output_pin : Z;
  lc_use_gpio : Z;
}.
#[export] Instance eta_load_cell_endstop : Eta load_cell_endstop :=
  λ r, mk_load_cell_endstop r.(lc_trigger_grams) r.(lc_trigger_ticks)
         r.(lc_trigger_emit_ticks) r.(lc_last_sample_ticks)
         r.(lc_rest_ticks) r.(lc_ts) r.(lc_trigger_sample)
         r.(lc_trigger_emit_sample) r.(lc_last_sample)
         r.(lc_safety_counts_min) r.(lc_safety_counts_max)
         r.(lc_tare_counts) r.(lc_flags) r.(lc_sample_count)
         r.(lc_trigger_count) r.(lc_trigger_reason) r.(lc_error_reason)
         r.(lc_watchdog_max) r.(lc_watchdog_count)
         r.(lc_trigger_grams_fixed) r.(lc_grams_per_count) r.(lc_sf)
         r.(lc_homing_clock) r.(lc_error) r.(lc_output_pin) r.(lc_use_gpio).

(** [struct tmcuart_s] (tmcuart.c). *)
Record tmcuart_s := mk_tmcuart_s {
  tu_tx_pin : Z;
  tu_rx_pin : Z;
  tu_flags : Z;
  tu_pos : Z;
  tu_read_count : Z;
  tu_write_count : Z;
  tu_cfg_bit_time : Z;
  tu_bit_time : Z;
  tu_data : list Z;
}.
#[export] Instance eta_tmcuart_s : Eta tmcuart_s :=
  λ r, mk_tmcuart_s r.(tu_tx_pin) r.(tu_rx_pin) r.(tu_flags) r.(tu_pos)
         r.(tu_read_count) r.(tu_write_count) r.(tu_cfg_bit_time)
         r.(tu_bit_time) r.(tu_data).

(** [struct spidev_s] (spicmds.c). The union of the
    hardware configuration and the software bus is the pair of its members,
    selected by the flags. *)
Record spidev_s := mk_spidev_s {
  spid_config : Z;
  spid_software : option Z;
  spid_pin : Z;
  spid_flags : Z;
}.
#[export] Instance eta_spidev_s : Eta spidev_s :=
  λ r, mk_spidev_s r.(spid_config) r.(spid_software) r.(spid_pin)
         r.(spid_flags).

(** [struct spi_software] (spi_software.c). *)
Record spi_software := mk_spi_software {
  ss_miso : Z;
  ss_mosi : Z;
  ss_sclk : Z;
  ss_mode : Z;
}.
#[export] Instance eta_spi_software : Eta spi_software :=
  λ r, mk_spi_software r.(ss_miso) r.(ss_mosi) r.(ss_sclk) r.(ss_mode).

(** [struct spidev_shutdown_s] (spicmds.c). *)
Record spidev_shutdown_s := mk_spidev_shutdown_s {
  sd_spi : Z;
  sd_msg : list Z;
}.
#[export] Instance eta_spidev_shutdown_s : Eta spidev_shutdown_s :=
  λ r, mk_spidev_shutdown_s r.(sd_spi) r.(sd_msg).

(** [struct i2cdev_s] (i2ccmds.h). *)
Record i2cdev_s := mk_i2cdev_s {
  i2cd_config : Z;
  i2cd_software : option Z;
  i2cd_flags : Z;
}.
#[export] Instance eta_i2cdev_s : Eta i2cdev_s :=
  λ r, mk_i2cdev_s r.(i2cd_config) r.(i2cd_software) r.(i2cd_flags).

(** [struct i2c_software] (i2c_software.c). *)
Record i2c_software := mk_i2c_software {
  is_scl_out : Z;
  is_sda_out : Z;
  is_scl_in : Z;
  is_sda_in : Z;
  is_addr : Z;
  is_ticks : Z;
}.
#[export] Instance eta_i2c_software : Eta i2c_software :=
  λ r, mk_i2c_software r.(is_scl_out) r.(is_sda_out) r.(is_scl_in)
         r.(is_sda_in) r.(is_addr) r.(is_ticks).

(** [struct neopixel_s] (neopixel.c). *)
Record neopixel_s := mk_neopixel_s {
  np_pin : Z;
  np_bit_max_ticks : Z;
  np_last_req_time : Z;
  np_reset_min_ticks : Z;
  np_data_size : Z;
  np_data : list Z;
}.
#[export] Instance eta_neopixel_s : Eta neopixel_s :=
  λ r, mk_neopixel_s r.(np_pin) r.(np_bit_max_ticks) r.(np_last_req_time)
         r.(np_reset_min_ticks) r.(np_data_size) r.(np_data).

(** [struct shutdown_pins] (por.c). The arrays have 64 entries. *)
Record shutdown_pins := mk_shutdown_pins {
  sp_pin : list Z;
  sp_value : list Z;
  sp_pin_count : Z;
}.
#[export] Instance eta_shutdown_pins : Eta shutdown_pins :=
  λ r, mk_shutdown_pins r.(sp_pin) r.(sp_value) r.(sp_pin_count).

(** [struct por] (por.c). *)
Record por := mk_por {
  po_pin : Z;
  po_rest_time : Z;
  po_sample_time : Z;
  po_nextwake : Z;
  po_flags : Z;
  po_sample_count : Z;
  po_trigger_count : Z;
  po_sp : option Z;
}.
#[export] Instance eta_por : Eta por :=
  λ r, mk_por r.(po_pin) r.(po_rest_time) r.(po_sample_time) r.(po_nextwake)
         r.(po_flags) r.(po_sample_count) r.(po_trigger_count) r.(po_sp).

(** [struct thermocouple_spi] (thermocouple.c). *)
Record thermocouple_spi := mk_thermocouple_spi {
  tc_rest_time : Z;
  tc_min_value : Z;
  tc_max_value : Z;
  tc_spi : Z;
  tc_max_invalid : Z;
  tc_invalid_count : Z;
  tc_chip_type : Z;
  tc_flags : Z;
}.
#[export] Instance eta_thermocouple_spi : Eta thermocouple_spi :=
  λ r, mk_thermocouple_spi r.(tc_rest_time) r.(tc_min_value)
         r.(tc_max_value) r.(tc_spi) r.(tc_max_invalid) r.(tc_invalid_count)
         r.(tc_chip_type) r.(tc_flags).

(** [struct sensor_bulk] (sensor_bulk.h); the array has 51 entries. *)
Record sensor_bulk := mk_sensor_bulk {
  sb_sequence : Z;
  sb_possible_overflows : Z;
  sb_data_count : Z;
  sb_data : list Z;
}.
#[export] Instance eta_sensor_bulk : Eta sensor_bulk :=
  λ r, mk_sensor_bulk r.(sb_sequence) r.(sb_possible_overflows) r.(sb_data_count)
         r.(sb_data).

(** [struct cs123x_adc] (sensor_cs123x.c). *)
Record cs123x_adc := mk_cs123x_adc {
  cs_flags : Z;
  cs_rest_ticks : Z;
  cs_last_error : Z;
  cs_dout : Z;
  cs_din : Z;
  cs_sclk : Z;
  cs_sb : sensor_bulk;
  cs_lce : option Z;
}.
#[export] Instance eta_cs123x_adc : Eta cs123x_adc :=
  λ r, mk_cs123x_adc r.(cs_flags) r.(cs_rest_ticks) r.(cs_last_error) r.(cs_dout)
         r.(cs_din) r.(cs_sclk) r.(cs_sb) r.(cs_lce).

(** [struct hx71x_adc] (sensor_hx71x.c). *)
Record hx71x_adc := mk_hx71x_adc {
  hx_gain_channel : Z;
  hx_flags : Z;
  hx_rest_ticks : Z;
  hx_last_error : Z;
  hx_dout : Z;
  hx_sclk : Z;
  hx_sb : sensor_bulk;
  hx_lce : option Z;
}.
#[export] Instance eta_hx71x_adc : Eta hx71x_adc :=
  λ r, mk_hx71x_adc r.(hx_gain_channel) r.(hx_flags) r.(hx_rest_ticks) r.(hx_last_error)
         r.(hx_dout) r.(hx_sclk) r.(hx_sb) r.(hx_lce).

(** [struct ads1220_adc] (sensor_ads1220.c). *)
Record ads1220_adc := mk_ads1220_adc {
  ads_rest_ticks : Z;
  ads_data_ready : Z;
  ads_spi : Z;
  ads_pending_flag : Z;
  ads_data_count : Z;
  ads_sb : sensor_bulk;
}.
#[export] Instance eta_ads1220_adc : Eta ads1220_adc :=
  λ r, mk_ads1220_adc r.(ads_rest_ticks) r.(ads_data_ready) r.(ads_spi)
         r.(ads_pending_flag) r.(ads_data_count) r.(ads_sb).

(** [struct adxl345] (sensor_adxl345.c). *)
Record adxl345 := mk_adxl345 {
  ax_rest_ticks : Z;
  ax_spi : Z;
  ax_flags : Z;
  ax_sb : sensor_bulk;
}.
#[export] Instance eta_adxl345 : Eta adxl345 :=
  λ r, mk_adxl345 r.(ax_rest_ticks) r.(ax_spi) r.(ax_flags) r.(ax_sb).

(** [struct lis2dw] (sensor_lis2dw.c). *)
Record lis2dw := mk_lis2dw {
  lis_rest_ticks : Z;
  lis_spi : Z;
  lis_flags : Z;
  lis_sb : sensor_bulk;
}.
#[export] Instance eta_lis2dw : Eta lis2dw :=
  λ r, mk_lis2dw r.(lis_rest_ticks) r.(lis_spi) r.(lis_flags) r.(lis_sb).

(** The objects of the memory pool, most of them named by an oid. *)
Inductive obj :=
| O_stepper (o : stepper)
| O_trsync (o : trsync)
| O_endstop (o : endstop)
| O_analog_in (o : analog_in)
| O_digital_out_s (o : digital_out_s)
| O_pwm_out_s (o : pwm_out_s)
| O_counter (o : counter)
| O_buttons (o : buttons)
| O_sos_filter (o : sos_filter)
| O_load_cell_endstop (o : load_cell_endstop)
| O_tmcuart_s (o : tmcuart_s)
| O_spidev_s (o : spidev_s)
| O_spi_software (o : spi_software)
| O_spidev_shutdown_s (o : spidev_shutdown_s)
| O_i2cdev_s (o : i2cdev_s)
| O_i2c_software (o : i2c_software)
| O_neopixel_s (o : neopixel_s)
| O_shutdown_pins (o : shutdown_pins)
| O_por (o : por)
| O_thermocouple_spi (o : thermocouple_spi)
| O_cs123x_adc (o : cs123x_adc)
| O_hx71x_adc (o : hx71x_adc)
| O_ads1220_adc (o : ads1220_adc)
| O_adxl345 (o : adxl345)
| O_lis2dw (o : lis2dw).

(** ** Messages and the trace of effects *)

(** An argument of a response message. *)
Inductive arg := A_int (v : Z) | A_str (s : string) | A_buf (bs : list Z).

(** What the code does to the world outside its memory, newest first. *)
Inductive event :=
| Ev_send (fmt : string) (args : list arg)
| Ev_timer_kick
| Ev_timer_set (value : Z)
| Ev_gpio_out_setup (pin val : Z)
| Ev_gpio_out_write (pin val : Z)
| Ev_gpio_out_toggle (pin : Z)
| Ev_gpio_in_setup (pin pull_up : Z)
| Ev_gpio_out_reset (pin val : Z)
| Ev_gpio_in_reset (pin pull_up : Z)
| Ev_pwm_setup (pin cycle_time val : Z)
| Ev_pwm_write (pin val : Z)
| Ev_adc_setup (pin : Z)
| Ev_adc_cancel (pin : Z)
| Ev_spi_setup (bus mode rate : Z)
| Ev_spi_prepare (config : Z)
| Ev_spi_byte (config out : Z)
| Ev_i2c_setup (bus rate addr : Z)
| Ev_i2c_write (config : Z) (data : list Z)
| Ev_i2c_read (config : Z) (reg : list Z) (len : Z)
| Ev_enable_tx_irq
| Ev_bootloader_request.

(** ** Global variables *)

(** The statics of command.c: the sequence number expected next, the receive
    state of [command_find_block] and the re-entry guard of [command_sendf]. *)
Record cmd_state := mk_cmd_state {
  next_sequence : Z;
  sync_state : Z;
  in_sendf : bool;
}.
#[export] Instance eta_cmd_state : Eta cmd_state :=
  λ r, mk_cmd_state r.(next_sequence) r.(sync_state) r.(in_sendf).

(** [struct oid_s] (basecmd.c). *)
Record oid_s := mk_oid_s { oid_ty : oid_type; oid_data : Z }.

(** The statics of basecmd.c.  [oids = None] is the NULL pointer; the array
    has [oid_count] entries. *)
Record base_state := mk_base_state {
  alloc_end : Z;
  move_free_list : option Z;
  move_list : Z;
  move_count : Z;
  move_item_size : Z;
  oids : option (list oid_s);
  oid_count : Z;
  config_crc : Z;
  stats_send_time : Z;
  stats_send_time_high : Z;
  stats_count : Z;
  stats_sum : Z;
  stats_sumsq : Z;
}.
#[export] Instance eta_base_state : Eta base_state :=
  λ r, mk_base_state r.(alloc_end) r.(move_free_list) r.(move_list)
         r.(move_count) r.(move_item_size) r.(oids) r.(oid_count)
         r.(config_crc) r.(stats_send_time) r.(stats_send_time_high)
         r.(stats_count) r.(stats_sum) r.(stats_sumsq).

(** The statics of serial_irq.c; [wire] is the ghost record of the bytes the
    transmit interrupt has taken, oldest first. *)
Record serial_state := mk_serial_state {
  receive_buf : list Z;
  receive_pos : Z;
  transmit_buf : list Z;
  transmit_pos : Z;
  transmit_max : Z;
  wire : list Z;
}.
#[export] Instance eta_serial_state : Eta serial_state :=
  λ r, mk_serial_state r.(receive_buf) r.(receive_pos) r.(transmit_buf)
         r.(transmit_pos) r.(transmit_max) r.(wire).

(** The whole memory.  [irq] says whether interrupts are enabled and [reads]
    counts the accesses to input hardware; [timer_repeat_until] is the static of
    armcm_timer.c. *)
Record mcu := mk_mcu {
  timers : gmap timer_id timer;
  sst : sched_status;
  irq : bool;
  reads : nat;
  trace : list event;
  wakes : wake_id → bool;
  cmd : cmd_state;
  base : base_state;
  objs : gmap Z obj;
  nodes : gmap Z move_node;
  signals : gmap Z trsync_signal;
  serial : serial_state;
  timer_repeat_until : Z;
}.
#[export] Instance eta_mcu : Eta mcu :=
  λ r, mk_mcu r.(timers) r.(sst) r.(irq) r.(reads) r.(trace) r.(wakes)
         r.(cmd) r.(base) r.(objs) r.(nodes) r.(signals) r.(serial)
         r.(timer_repeat_until).

(** ** The board

    What the configuration and the hardware provide: compile-time constants,
    struct sizes, the memory pool, which pins exist, and the values the
    hardware returns at its n-th access. *)
Class Board := {
  CONFIG_CLOCK_FREQ : Z;
  CONFIG_INLINE_STEPPER_HACK : bool;
  CONFIG_HAVE_STEPPER_BOTH_EDGE : bool;
  CONFIG_MACH_AVR : bool;
  int_fast8_bits : Z;
  dynmem_start : Z;
  dynmem_end : Z;
  alignof_ptr : Z;
  sizeof_oid : oid_type → Z;
  sizeof_oid_s : Z;
  sizeof_move_node : Z;
  sizeof_move : oid_type → Z;
  hw_time : nat → Z;
  hw_gpio_in : Z → nat → Z;
  gpio_valid : Z → bool;
  sizeof_size_t : Z;
  rx_addr : Z;
  adc_valid : Z → bool;
  hw_adc_sample : Z → nat → Z;
  hw_adc_read : Z → nat → Z;
  pwm_valid : Z → bool;
  CONFIG_WANT_SOFTWARE_SPI : bool;
  CONFIG_WANT_SOFTWARE_I2C : bool;
  spi_valid : Z → bool;
  hw_spi_in : Z → nat → Z;
  i2c_valid : Z → bool;
  hw_i2c_in : Z → nat → Z;
  CONFIG_HAVE_BOOTLOADER_REQUEST : bool;
}.

(** A board for the examples: a 72MHz clock that advances by a million
    ticks between two reads, all inputs low, 100 pins. *)
Definition example_board : Board := {|
  CONFIG_CLOCK_FREQ := 72000000;
  CONFIG_INLINE_STEPPER_HACK := true;
  CONFIG_HAVE_STEPPER_BOTH_EDGE := true;
  CONFIG_MACH_AVR := false;
  int_fast8_bits := 32;
  dynmem_start := 4096;
  dynmem_end := 16384;
  alignof_ptr := 4;
  sizeof_oid := λ _, 64;
  sizeof_oid_s := 8;
  sizeof_move_node := 4;
  sizeof_move := λ _, 16;
  hw_time := λ n, 1000000 * Z.of_nat n;
  hw_gpio_in := λ _ _, 0;
  gpio_valid := λ pin, (0 <=? pin) && (pin <? 100);
  sizeof_size_t := 4;
  rx_addr := 1024;
  adc_valid := λ pin, (0 <=? pin) && (pin <? 16);
  hw_adc_sample := λ _ n, if Nat.even n then 100 else 0;
  hw_adc_read := λ _ _, 2000;
  pwm_valid := λ pin, (0 <=? pin) && (pin <? 32);
  CONFIG_WANT_SOFTWARE_SPI := true;
  CONFIG_WANT_SOFTWARE_I2C := true;
  spi_valid := λ bus, (0 <=? bus) && (bus <? 3);
  hw_spi_in := λ _ _, 0;
  i2c_valid := λ bus, (0 <=? bus) && (bus <? 2);
  hw_i2c_in := λ _ _, 0;
  CONFIG_HAVE_BOOTLOADER_REQUEST := true;
|}.

(** ** The monad *)

(** Why a run has no defined result: a NULL or dangling pointer, an object of
    another type, an access out of bounds, or a loop that exceeded its fuel. *)
Inductive fault := Null_deref | Bad_object | Out_of_bounds | Out_of_fuel.

Inductive outcome (A : Type) :=
| Ret (a : A)
| Shut (reason : string)
| Stuck (f : fault).
Arguments Ret {_} _.
Arguments Shut {_} _.
Arguments Stuck {_} _.

Definition M (A : Type) : Type := mcu → outcome A * mcu.

#[export] Instance M_ret : MRet M := λ A a s, (Ret a, s).
#[export] Instance M_bind : MBind M := λ A B f m s,
  match m s with
  | (Ret a, s') => f a s'
  | (Shut r, s') => (Shut r, s')
  | (Stuck e, s') => (Stuck e, s')
  end.

Definition gets {A} (f : mcu → A) : M A := λ s, (Ret (f s), s).
Definition modify (f : mcu → mcu) : M unit := λ s, (Ret tt, f s).
Definition stuck {A} (e : fault) : M A := λ s, (Stuck e, s).
Definition raise {A} (r : string) : M A := λ s, (Shut r, s).
Definition of_option {A} (e : fault) (o : option A) : M A :=
  match o with Some a => mret a | None => stuck e end.
Definition when (b : bool) (m : M unit) : M unit := if b then m else mret tt.

(** ** Verification conditions

    [wp m Q E s]: running [m] in [s] never gets stuck, a normal return
    satisfies [Q], and a shutdown leaves a memory that satisfies [E]. *)
Definition wp {A} (m : M A) (Q : A → mcu → Prop) (E : string → mcu → Prop)
    (s : mcu) : Prop :=
  match m s with
  | (Ret a, s') => Q a s'
  | (Shut r, s') => E r s'
  | (Stuck _, _) => False
  end.

Lemma wp_ret {A} (a : A) Q E s : Q a s → wp (mret a) Q E s.
Proof. done. Qed.

Lemma wp_bind {A B} (m : M A) (f : A → M B) Q E s :
  wp m (λ a, wp (f a) Q E) E s → wp (m ≫= f) Q E s.
Proof.
  unfold wp, mbind, M_bind. by destruct (m s) as [[] ?].
Qed.

Lemma wp_mono {A} (m : M A) (Q Q' : A → mcu → Prop) (E E' : string → mcu → Prop) s :
  wp m Q E s → (∀ a s', Q a s' → Q' a s') → (∀ r s', E r s' → E' r s') →
  wp m Q' E' s.
Proof. unfold wp. destruct (m s) as [[] ?]; auto. Qed.

Lemma wp_gets {A} (f : mcu → A) Q E s : Q (f s) s → wp (gets f) Q E s.
Proof. done. Qed.

Lemma wp_modify f Q E s : Q tt (f s) → wp (modify f) Q E s.
Proof. done. Qed.

Lemma wp_raise {A} r (Q : A → mcu → Prop) E s : E r s → wp (raise r) Q E s.
Proof. done. Qed.

Lemma wp_when (b : bool) m Q E s :
  (b = true → wp m Q E s) → (b = false → Q tt s) → wp (when b m) Q E s.
Proof. intros H1 H2. destruct b; [by apply H1|by apply H2]. Qed.

Lemma wp_some {A} e (o : option A) (a : A) Q E s :
  o = Some a → Q a s → wp (of_option e o) Q E s.
Proof. by intros ->. Qed.

(** Operations that always return: [m] yields [f s] and the memory [g s]. *)
Class Op {A} (m : M A) (f : mcu → A) (g : mcu → mcu) : Prop :=
  op_eq : ∀ s, m s = (Ret (f s), g s).
#[export] Hint Mode Op + ! - - : typeclass_instances.

#[export] Instance op_ret {A} (a : A) : Op (mret a) (λ _, a) (λ s, s).
Proof. done. Qed.
#[export] Instance op_gets {A} (f : mcu → A) : Op (gets f) f (λ s, s).
Proof. done. Qed.
#[export] Instance op_modify g : Op (modify g) (λ _, tt) g.
Proof. done. Qed.

Lemma wp_op {A} (m : M A) f g `{!Op m f g} Q E s : Q (f s) (g s) → wp m Q E s.
Proof. unfold wp. by rewrite op_eq. Qed.

(** Step through binds and total operations. *)
Ltac wp_step :=
  lazymatch goal with
  | |- wp (_ ≫= _) _ _ _ => apply wp_bind
  | |- wp (if ?b then _ else _) _ _ _ => fail
  | |- wp _ _ _ _ => notypeclasses refine (wp_op _ _ _ _ _ _ _); [tc_solve|]
  end.
Ltac wp_steps := repeat (wp_step; cbv beta).

(** ** Objects by type *)

(** A struct type whose values are objects of [objs]. *)
Class ObjType (A : Type) := {
  obj_inj : A → obj;
  obj_prj : obj → option A;
  obj_prj_inj : ∀ a, obj_prj (obj_inj a) = Some a;
  obj_prj_some : ∀ o a, obj_prj o = Some a → o = obj_inj a;
}.

Ltac prj_some := by intros [] ? [= ->].

#[export] Instance stepper_obj : ObjType stepper := {|
  obj_inj := O_stepper;
  obj_prj := λ o, match o with O_stepper x => Some x | _ => None end;
  obj_prj_inj := λ a, eq_refl; obj_prj_some := ltac:(prj_some) |}.
#[export] Instance trsync_obj : ObjType trsync := {|
  obj_inj := O_trsync;
  obj_prj := λ o, match o with O_trsync x => Some x | _ => None end;
  obj_prj_inj := λ a, eq_refl; obj_prj_some := ltac:(prj_some) |}.
#[export] Instance endstop_obj : ObjType endstop := {|
  obj_inj := O_endstop;
  obj_prj := λ o, match o with O_endstop x => Some x | _ => None end;
  obj_prj_inj := λ a, eq_refl; obj_prj_some := ltac:(prj_some) |}.
#[export] Instance analog_in_obj : ObjType analog_in := {|
  obj_inj := O_analog_in;
  obj_prj := λ o, match o with O_analog_in x => Some x | _ => None end;
  obj_prj_inj := λ a, eq_refl; obj_prj_some := ltac:(prj_some) |}.
#[export] Instance digital_out_s_obj : ObjType digital_out_s := {|
  obj_inj := O_digital_out_s;
  obj_prj := λ o, match o with O_digital_out_s x => Some x | _ => None end;
  obj_prj_inj := λ a, eq_refl; obj_prj_some := ltac:(prj_some) |}.
#[export] Instance pwm_out_s_obj : ObjType pwm_out_s := {|
  obj_inj := O_pwm_out_s;
  obj_prj := λ o, match o with O_pwm_out_s x => Some x | _ => None end;
  obj_prj_inj := λ a, eq_refl; obj_prj_some := ltac:(prj_some) |}.
#[export] Instance counter_obj : ObjType counter := {|
  obj_inj := O_counter;
  obj_prj := λ o, match o with O_counter x => Some x | _ => None end;
  obj_prj_inj := λ a, eq_refl; obj_prj_some := ltac:(prj_some) |}.
#[export] Instance buttons_obj : ObjType buttons := {|
  obj_inj := O_buttons;
  obj_prj := λ o, match o with O_buttons x => Some x | _ => None end;
  obj_prj_inj := λ a, eq_refl; obj_prj_some := ltac:(prj_some) |}.
#[export] Instance sos_filter_obj : ObjType sos_filter := {|
  obj_inj := O_sos_filter;
  obj_prj := λ o, match o with O_sos_filter x => Some x | _ => None end;
  obj_prj_inj := λ a, eq_refl; obj_prj_some := ltac:(prj_some) |}.
#[export] Instance load_cell_endstop_obj : ObjType load_cell_endstop := {|
  obj_inj := O_load_cell_endstop;
  obj_prj := λ o, match o with O_load_cell_endstop x => Some x | _ => None end;
  obj_prj_inj := λ a, eq_refl; obj_prj_some := ltac:(prj_some) |}.
#[export] Instance tmcuart_s_obj : ObjType tmcuart_s := {|
  obj_inj := O_tmcuart_s;
  obj_prj := λ o, match o with O_tmcuart_s x => Some x | _ => None end;
  obj_prj_inj := λ a, eq_refl; obj_prj_some := ltac:(prj_some) |}.
#[export] Instance spidev_s_obj : ObjType spidev_s := {|
  obj_inj := O_spidev_s;
  obj_prj := λ o, match o with O_spidev_s x => Some x | _ => None end;
  obj_prj_inj := λ a, eq_refl; obj_prj_some := ltac:(prj_some) |}.
#[export] Instance spi_software_obj : ObjType spi_software := {|
  obj_inj := O_spi_software;
  obj_prj := λ o, match o with O_spi_software x => Some x | _ => None end;
  obj_prj_inj := λ a, eq_refl; obj_prj_some := ltac:(prj_some) |}.
#[export] Instance spidev_shutdown_s_obj : ObjType spidev_shutdown_s := {|
  obj_inj := O_spidev_shutdown_s;
  obj_prj := λ o, match o with O_spidev_shutdown_s x => Some x | _ => None end;
  obj_prj_inj := λ a, eq_refl; obj_prj_some := ltac:(prj_some) |}.
#[export] Instance i2cdev_s_obj : ObjType i2cdev_s := {|
  obj_inj := O_i2cdev_s;
  obj_prj := λ o, match o with O_i2cdev_s x => Some x | _ => None end;
  obj_prj_inj := λ a, eq_refl; obj_prj_some := ltac:(prj_some) |}.
#[export] Instance i2c_software_obj : ObjType i2c_software := {|
  obj_inj := O_i2c_software;
  obj_prj := λ o, match o with O_i2c_software x => Some x | _ => None end;
  obj_prj_inj := λ a, eq_refl; obj_prj_some := ltac:(prj_some) |}.
#[export] Instance neopixel_s_obj : ObjType neopixel_s := {|
  obj_inj := O_neopixel_s;
  obj_prj := λ o, match o with O_neopixel_s x => Some x | _ => None end;
  obj_prj_inj := λ a, eq_refl; obj_prj_some := ltac:(prj_some) |}.
#[export] Instance shutdown_pins_obj : ObjType shutdown_pins := {|
  obj_inj := O_shutdown_pins;
  obj_prj := λ o, match o with O_shutdown_pins x => Some x | _ => None end;
  obj_prj_inj := λ a, eq_refl; obj_prj_some := ltac:(prj_some) |}.
#[export] Instance por_obj : ObjType por := {|
  obj_inj := O_por;
  obj_prj := λ o, match o with O_por x => Some x | _ => None end;
  obj_prj_inj := λ a, eq_refl; obj_prj_some := ltac:(prj_some) |}.
#[export] Instance thermocouple_spi_obj : ObjType thermocouple_spi := {|
  obj_inj := O_thermocouple_spi;
  obj_prj := λ o, match o with O_thermocouple_spi x => Some x | _ => None end;
  obj_prj_inj := λ a, eq_refl; obj_prj_some := ltac:(prj_some) |}.
#[export] Instance cs123x_adc_obj : ObjType cs123x_adc := {|
  obj_inj := O_cs123x_adc;
  obj_prj := λ o, match o with O_cs123x_adc x => Some x | _ => None end;
  obj_prj_inj := λ a, eq_refl; obj_prj_some := ltac:(prj_some) |}.
#[export] Instance hx71x_adc_obj : ObjType hx71x_adc := {|
  obj_inj := O_hx71x_adc;
  obj_prj := λ o, match o with O_hx71x_adc x => Some x | _ => None end;
  obj_prj_inj := λ a, eq_refl; obj_prj_some := ltac:(prj_some) |}.
#[export] Instance ads1220_adc_obj : ObjType ads1220_adc := {|
  obj_inj := O_ads1220_adc;
  obj_prj := λ o, match o with O_ads1220_adc x => Some x | _ => None end;
  obj_prj_inj := λ a, eq_refl; obj_prj_some := ltac:(prj_some) |}.
#[export] Instance adxl345_obj : ObjType adxl345 := {|
  obj_inj := O_adxl345;
  obj_prj := λ o, match o with O_adxl345 x => Some x | _ => None end;
  obj_prj_inj := λ a, eq_refl; obj_prj_some := ltac:(prj_some) |}.
#[export] Instance lis2dw_obj : ObjType lis2dw := {|
  obj_inj := O_lis2dw;
  obj_prj := λ o, match o with O_lis2dw x => Some x | _ => None end;
  obj_prj_inj := λ a, eq_refl; obj_prj_some := ltac:(prj_some) |}.

Definition read_obj {A} `{ObjType A} (p : Z) : M A :=
  o ← gets (λ s, s.(objs) !! p);
  o ← of_option Null_deref o;
  of_option Bad_object (obj_prj o).

Definition write_obj {A} `{ObjType A} (p : Z) (a : A) : M unit :=
  modify (λ s, s <| objs ::= <[p := obj_inj a]> |>).

Definition update_obj {A} `{ObjType A} (p : Z) (f : A → A) : M unit :=
  a ← read_obj p; write_obj p (f a).

(** The object of type [A] at [p]. *)
Definition obj_at {A} `{ObjType A} (s : mcu) (p : Z) (a : A) : Prop :=
  s.(objs) !! p = Some (obj_inj a).

Lemma wp_read_obj {A} `{ObjType A} p (a : A) Q E s :
  obj_at s p a → Q a s → wp (read_obj p) Q E s.
Proof.
  intros Ha HQ. unfold read_obj. wp_steps. eapply wp_some; [exact Ha|].
  eapply wp_some; [apply obj_prj_inj|done].
Qed.

#[export] Instance op_write_obj {A} `{ObjType A} p (a : A) :
  Op (write_obj p a) (λ _, tt) (λ s, s <| objs ::= <[p := obj_inj a]> |>).
Proof. done. Qed.

Lemma wp_update_obj {A} `{ObjType A} p (a : A) f Q E s :
  obj_at s p a → Q tt (s <| objs ::= <[p := obj_inj (f a)]> |>) →
  wp (update_obj p f) Q E s.
Proof.
  intros Ha HQ. unfold update_obj. wp_steps. eapply wp_read_obj; [exact Ha|]. by wp_steps.
Qed.

Lemma obj_at_write {A} `{ObjType A} s p (a : A) :
  obj_at (s <| objs ::= <[p := obj_inj a]> |>) p a.
Proof. unfold obj_at. simpl. apply lookup_insert_eq. Qed.

Lemma obj_at_frame {A} `{ObjType A} s s' p (a : A) :
  s'.(objs) = s.(objs) → obj_at s p a → obj_at s' p a.
Proof. unfold obj_at. by intros ->. Qed.

(** ** Frames

    [keeps R m]: however [m] ends, the memory before and after are related by
    the preorder [R]. *)
Definition keeps {A} (R : mcu → mcu → Prop) (m : M A) : Prop := ∀ s, R s (m s).2.

Lemma keeps_ret {A} R `{!PreOrder R} (a : A) : keeps R (mret a).
Proof. intros s. reflexivity. Qed.
Lemma keeps_gets {A} R `{!PreOrder R} (f : mcu → A) : keeps R (gets f).
Proof. intros s. reflexivity. Qed.
Lemma keeps_stuck {A} R `{!PreOrder R} e : keeps R (stuck (A := A) e).
Proof. intros s. reflexivity. Qed.
Lemma keeps_raise {A} R `{!PreOrder R} r : keeps R (raise (A := A) r).
Proof. intros s. reflexivity. Qed.
Lemma keeps_modify (R : mcu → mcu → Prop) f : (∀ s, R s (f s)) → keeps R (modify f).
Proof. intros Hf s. apply Hf. Qed.
Lemma keeps_bind {A B} R `{!PreOrder R} (m : M A) (f : A → M B) :
  keeps R m → (∀ a, keeps R (f a)) → keeps R (m ≫= f).
Proof.
  intros Hm Hf s. unfold mbind, M_bind. specialize (Hm s).
  destruct (m s) as [[a| |] s']; simpl in *; [|done..].
  etransitivity; [exact Hm|apply Hf].
Qed.
Lemma keeps_of_option {A} R `{!PreOrder R} e (o : option A) : keeps R (of_option e o).
Proof. destruct o; intros s; reflexivity. Qed.
Lemma keeps_when R `{!PreOrder R} b m : keeps R m → keeps R (when b m).
Proof. destruct b; [done|]. intros _ s. reflexivity. Qed.

(** Decompose a [keeps] goal along the structure of the code. *)
Ltac keeps_step :=
  lazymatch goal with
  | |- keeps _ (_ ≫= _) => apply keeps_bind; [apply _| |intros]
  | |- keeps _ (mret _) => apply keeps_ret; apply _
  | |- keeps _ (gets _) => apply keeps_gets; apply _
  | |- keeps _ (stuck _) => apply keeps_stuck; apply _
  | |- keeps _ (raise _) => apply keeps_raise; apply _
  | |- keeps _ (of_option _ _) => apply keeps_of_option; apply _
  | |- keeps _ (when _ _) => apply keeps_when; [apply _|]
  | |- keeps _ (modify _) => apply keeps_modify; intros
  | |- keeps _ (if ?b then _ else _) => destruct b
  | |- keeps _ (match ?x with _ => _ end) => destruct x
  | |- keeps _ (let '(_, _) := ?x in _) => destruct x
  | |- keeps _ _ => assumption
  end.
Ltac keeps_tac := repeat keeps_step.
