(* ===== verification/Machine.v ===== *)
(** * The services every component uses

    Interrupt masking, the clock (src/generic/armcm_timer.c), the gpio layer
    (src/stm32/gpio.c), sending a response (command_sendf of src/command.c) and
    leaving through a shutdown (the macros of src/command.h and
    sched_shutdown/sched_try_shutdown of src/sched.c).  The build modelled is
    the application firmware (CONFIG_BOOTLOADER unset). *)

From S2P Require Import Prelude.
From S2P Require Import State.

(** ** Time (armcm_timer.c) *)

(** [timer_is_before]: a comparison that is robust to the counter rolling
    over. *)
Definition timer_is_before (time1 time2 : Z) : bool := s32 (time1 - time2) <? 0.

Section Machine.
Context `{Board}.

Definition timer_from_us (us : Z) : Z := u32 (us * (CONFIG_CLOCK_FREQ / 1000000)).

(** [timer_read_time]: the free-running 32-bit counter. *)
Definition timer_read_time : M Z :=
  n ← gets reads;
  modify (λ s, s <| reads ::= S |>);;
  mret (u32 (hw_time n)).

Definition timer_kick : M unit := modify (λ s, s <| trace ::= cons Ev_timer_kick |>).

(** ** Interrupts (armcm_irq.c): the flag is the saved mask. *)

Definition irq_disable : M unit := modify (λ s, s <| irq := false |>).
Definition irq_enable : M unit := modify (λ s, s <| irq := true |>).
Definition irq_save : M bool := flag ← gets irq; irq_disable;; mret flag.
Definition irq_restore (flag : bool) : M unit := modify (λ s, s <| irq := flag |>).

(** ** Responses *)

(** [console_sendf]: the console driver queues the message for the host. *)
Definition console_sendf (fmt : string) (args : list arg) : M unit :=
  modify (λ s, s <| trace ::= cons (Ev_send fmt args) |>).

(** [command_sendf]: a call from an interrupt that arrived while another call
    was in progress is dropped. *)
Definition command_sendf (fmt : string) (args : list arg) : M unit :=
  busy ← gets (λ s, s.(cmd).(in_sendf));
  if busy : bool then mret tt
  else
    modify (λ s, s <| cmd ::= λ c, c <| in_sendf := true |> |>);;
    console_sendf fmt args;;
    modify (λ s, s <| cmd ::= λ c, c <| in_sendf := false |> |>).

Definition sendf (fmt : string) (args : list arg) : M unit := command_sendf fmt args.
Definition output (fmt : string) (args : list arg) : M unit := command_sendf fmt args.

(** [sendf_shutdown]: the shutdown handler of command.c. *)
Definition sendf_shutdown : M unit :=
  modify (λ s, s <| cmd ::= λ c, c <| in_sendf := false |> |>).

(** ** Shutdown *)

(** [sched_shutdown]: mask interrupts and jump to the handler set up by
    [sched_main]. *)
Definition sched_shutdown {A} (reason : string) : M A := irq_disable;; raise reason.

(** The [shutdown] macro: report the reason and jump.  The name of the calling
    function ([__FUNCTION__], the first argument of the messages) is left out,
    here and in [try_shutdown], [sched_add_timer] and [oid_lookup]. *)
Definition shutdown {A} (msg : string) : M A :=
  output "%s: shutdown %s" [A_str msg];; sched_shutdown msg.

(** [sched_try_shutdown] and the [try_shutdown] macro: only jump when the
    machine is not shut down already. *)
Definition sched_try_shutdown (reason : string) : M unit :=
  st ← gets (λ s, s.(sst).(shutdown_status));
  if st =? 0 then sched_shutdown reason else mret tt.

Definition try_shutdown (msg : string) : M unit :=
  output "%s: try_shutdown %s" [A_str msg];; sched_try_shutdown msg.

(** ** Gpio (stm32/gpio.c): a pin handle is the pin number. *)

Definition gpio_out_setup (pin val : Z) : M Z :=
  if gpio_valid pin then
    modify (λ s, s <| trace ::= cons (Ev_gpio_out_setup pin (b2z (negb (val =? 0)))) |>);;
    mret pin
  else shutdown "Not an output pin".

Definition gpio_out_write (pin val : Z) : M unit :=
  modify (λ s, s <| trace ::= cons (Ev_gpio_out_write pin (b2z (negb (val =? 0)))) |>).

Definition gpio_out_toggle_noirq (pin : Z) : M unit :=
  modify (λ s, s <| trace ::= cons (Ev_gpio_out_toggle pin) |>).

Definition gpio_in_setup (pin pull_up : Z) : M Z :=
  if gpio_valid pin then
    modify (λ s, s <| trace ::= cons (Ev_gpio_in_setup pin pull_up) |>);; mret pin
  else shutdown "Not a valid input pin".

(** [gpio_in_read] returns 0 or 1. *)
Definition gpio_in_read (pin : Z) : M Z :=
  n ← gets reads;
  modify (λ s, s <| reads ::= S |>);;
  mret (b2z (negb (hw_gpio_in pin n =? 0))).

#[export] Instance op_timer_read_time :
  Op timer_read_time (λ s, u32 (hw_time s.(reads))) (λ s, s <| reads ::= S |>).
Proof. done. Qed.
#[export] Instance op_timer_kick :
  Op timer_kick (λ _, tt) (λ s, s <| trace ::= cons Ev_timer_kick |>).
Proof. done. Qed.
#[export] Instance op_gpio_out_write pin val :
  Op (gpio_out_write pin val) (λ _, tt)
    (λ s, s <| trace ::= cons (Ev_gpio_out_write pin (b2z (negb (val =? 0)))) |>).
Proof. done. Qed.
#[export] Instance op_gpio_out_toggle pin :
  Op (gpio_out_toggle_noirq pin) (λ _, tt)
    (λ s, s <| trace ::= cons (Ev_gpio_out_toggle pin) |>).
Proof. done. Qed.
#[export] Instance op_gpio_in_read pin :
  Op (gpio_in_read pin) (λ s, b2z (negb (hw_gpio_in pin s.(reads) =? 0)))
    (λ s, s <| reads ::= S |>).
Proof. done. Qed.

End Machine.

#[export] Instance op_irq_disable : Op irq_disable (λ _, tt) (λ s, s <| irq := false |>).
Proof. done. Qed.
#[export] Instance op_irq_enable : Op irq_enable (λ _, tt) (λ s, s <| irq := true |>).
Proof. done. Qed.
#[export] Instance op_irq_save : Op irq_save irq (λ s, s <| irq := false |>).
Proof. done. Qed.
#[export] Instance op_irq_restore flag :
  Op (irq_restore flag) (λ _, tt) (λ s, s <| irq := flag |>).
Proof. done. Qed.

(** What a response adds to the trace: nothing when it was dropped. *)
Definition sent (fmt : string) (args : list arg) (s : mcu) : mcu :=
  if s.(cmd).(in_sendf) then s else s <| trace ::= cons (Ev_send fmt args) |>.

#[export] Instance op_command_sendf fmt args :
  Op (command_sendf fmt args) (λ _, tt) (sent fmt args).
Proof.
  intros s. unfold command_sendf, sent, mbind, M_bind, gets. simpl.
  by destruct s as [? ? ? ? ? ? [? ? []] ? ? ? ? ? ?].
Qed.
#[export] Instance op_sendf fmt args : Op (sendf fmt args) (λ _, tt) (sent fmt args).
Proof. apply op_command_sendf. Qed.
#[export] Instance op_output fmt args : Op (output fmt args) (λ _, tt) (sent fmt args).
Proof. apply op_command_sendf. Qed.

(** Leaving through a shutdown reports the reason and masks interrupts. *)
Lemma wp_shutdown {A} msg (Q : A → mcu → Prop) (E : string → mcu → Prop) s :
  E msg ((sent "%s: shutdown %s" [A_str msg] s) <| irq := false |>) →
  wp (shutdown msg) Q E s.
Proof. intros HE. unfold shutdown, sched_shutdown. wp_steps. by apply wp_raise. Qed.

Lemma wp_try_shutdown msg Q E s :
  (s.(sst).(shutdown_status) = 0 →
     E msg ((sent "%s: try_shutdown %s" [A_str msg] s) <| irq := false |>)) →
  (s.(sst).(shutdown_status) ≠ 0 →
     Q tt (sent "%s: try_shutdown %s" [A_str msg] s)) →
  wp (try_shutdown msg) Q E s.
Proof.
  intros HE HQ. unfold try_shutdown, sched_try_shutdown, sched_shutdown. wp_steps.
  assert (Hst : (sent "%s: try_shutdown %s" [A_str msg] s).(sst) = s.(sst)).
  { unfold sent. by destruct (in_sendf _). }
  rewrite Hst. destruct (Z.eqb_spec (shutdown_status (sst s)) 0).
  - wp_steps. apply wp_raise. auto.
  - wp_steps. auto.
Qed.

(** ** Modular time *)

(** How far [w] lies after [b] on the 32-bit clock circle. *)
Definition off (b w : Z) : Z := u32 (w - b).

Lemma off_range b w : 0 <= off b w < 2 ^ 32.
Proof. apply u32_range. Qed.

Lemma off_refl b : off b b = 0.
Proof. unfold off. by rewrite Z.sub_diag. Qed.

(** Inside a half-circle that starts at [b], [timer_is_before] is the order of
    the distances from [b]. *)
Lemma timer_is_before_off b t1 t2 :
  off b t1 < 2 ^ 31 → off b t2 < 2 ^ 31 →
  timer_is_before t1 t2 = (off b t1 <? off b t2).
Proof. unfold timer_is_before, off. int_lia. Qed.

(** Every time is before one of two opposite points of the circle. *)
Lemma timer_is_before_opposite w p :
  timer_is_before w (u32 (p + 2 ^ 31)) = negb (timer_is_before w p).
Proof. unfold timer_is_before. int_lia. Qed.

Lemma timer_is_before_irrefl t : timer_is_before t t = false.
Proof. unfold timer_is_before. by rewrite Z.sub_diag. Qed.

(** Moving the start of the half-circle forward. *)
Lemma off_rebase b b' w : off b b' <= off b w → off b' w = off b w - off b b'.
Proof. unfold off. int_lia. Qed.

Lemma shutdown_reason_eq {A} msg s : (shutdown (A := A) msg s).1 = Shut msg.
Proof.
  unfold shutdown, sched_shutdown, mbind, M_bind, raise.
  by rewrite (op_eq (m := output _ _)).
Qed.
