(* ===== verification/SchedList.v ===== *)
(** * Linked-list lemmas for the timer list

    How [chain], [wk] and [q_insert] react to the pointer updates of
    [insert_timer] and [sched_del_timer]. *)

From stdpp Require Import sorting.
From S2P Require Import Prelude.
From S2P Require Import State.
From S2P Require Import Machine.
From S2P Require Import Sched.

(** ** Chains *)

Lemma chain_det ts p L1 L2 : chain ts p L1 → chain ts p L2 → L1 = L2.
Proof.
  revert p L2. induction L1 as [|t L1 IH]; intros p [|t' L2]; simpl.
  - done.
  - intros -> [? _]. done.
  - by intros [-> _].
  - intros [-> (n & Hn & H1)] [[= <-] (n' & Hn' & H2)]. simplify_eq.
    f_equal. by eapply IH.
Qed.

Lemma chain_cons ts p t L :
  chain ts p (t :: L) → p = Some t ∧ ∃ n, ts !! t = Some n ∧ chain ts n.(next) L.
Proof. done. Qed.

Lemma chain_end ts p A t :
  chain ts p (A ++ [t]) → ∃ n, ts !! t = Some n ∧ n.(next) = None.
Proof.
  revert p. induction A as [|a A IH]; simpl; intros p [-> (n & Hn & H)]; eauto.
Qed.

Lemma chain_app ts p A t B :
  chain ts p (A ++ t :: B) → chain ts (Some t) (t :: B).
Proof.
  revert p. induction A as [|a A IH]; simpl.
  - intros p [-> H]. done.
  - intros p [-> (n & _ & H)]. by eapply IH.
Qed.

Lemma chain_lookup ts p L t : chain ts p L → t ∈ L → is_Some (ts !! t).
Proof.
  revert p. induction L as [|a L IH]; simpl; intros p; [by rewrite elem_of_nil|].
  intros [-> (n & Hn & H)] [->|Ht]%elem_of_cons; [by eexists|by eapply IH].
Qed.

Lemma chain_ext ts ts' p L :
  (∀ x, x ∈ L → ts' !! x = ts !! x) → chain ts p L → chain ts' p L.
Proof.
  revert p. induction L as [|a L IH]; simpl; [done|].
  intros p Hts [-> (n & Hn & H)]. split; [done|]. exists n.
  rewrite Hts by set_solver. split; [done|]. apply IH; [set_solver|done].
Qed.

(** Changing a node outside of the list, or anything but its link. *)
Lemma chain_alter_out ts p L f t :
  t ∉ L → chain ts p L → chain (alter f t ts) p L.
Proof.
  revert p. induction L as [|a L IH]; simpl; [done|].
  intros p [Hne Ht]%not_elem_of_cons [-> (n & Hn & H)].
  split; [done|]. exists n. rewrite lookup_alter_ne by done. auto.
Qed.

Lemma chain_insert_out ts p L n t :
  t ∉ L → chain ts p L → chain (<[t := n]> ts) p L.
Proof.
  revert p. induction L as [|a L IH]; simpl; [done|].
  intros p [Hne Ht]%not_elem_of_cons [-> (m & Hm & H)].
  split; [done|]. exists m. rewrite lookup_insert_ne by done. auto.
Qed.

Lemma chain_alter_keep ts p L f t :
  (∀ n, (f n).(next) = n.(next)) → chain ts p L → chain (alter f t ts) p L.
Proof.
  intros Hf. revert p. induction L as [|a L IH]; simpl; [done|].
  intros p [-> (n & Hn & H)]. split; [done|].
  destruct (decide (a = t)) as [->|Hne].
  - exists (f n). rewrite lookup_alter, Hn, decide_True by done. split; [done|].
    rewrite Hf. auto.
  - exists n. rewrite lookup_alter_ne by done. auto.
Qed.

(** Replacing the tail after a node that occurs once. *)
Lemma chain_relink ts p A x B q C :
  NoDup (A ++ x :: B) → chain ts p (A ++ x :: B) →
  chain (alter (λ r, r <| next := q |>) x ts) q C →
  chain (alter (λ r, r <| next := q |>) x ts) p (A ++ x :: C).
Proof.
  revert p. induction A as [|a A IH]; simpl; intros p Hnd.
  - intros [-> (n & Hn & H)] HC. split; [done|].
    exists (n <| next := q |>). rewrite lookup_alter, Hn, decide_True by done. done.
  - intros [-> (n & Hn & H)] HC. split; [done|]. exists n.
    apply NoDup_cons in Hnd as [Hna Hnd].
    rewrite lookup_alter_ne by (intros ->; apply Hna; set_solver).
    auto.
Qed.

(** [insert_timer]'s two stores put [t] between [x] and what follows it. *)
Lemma chain_link ts p A x y B t :
  NoDup (A ++ x :: y :: B) → t ∉ A ++ x :: y :: B → is_Some (ts !! t) →
  chain ts p (A ++ x :: y :: B) →
  chain (alter (λ r, r <| next := Some t |>) x
           (alter (λ r, r <| next := Some y |>) t ts))
    p (A ++ x :: t :: y :: B).
Proof.
  intros Hnd Ht [n Hn] Hc.
  assert (Hc' := chain_alter_out _ _ _ (λ r, r <| next := Some y |>) _ Ht Hc).
  apply chain_relink with (B := y :: B); [done|done|].
  assert (x ≠ t) by set_solver.
  assert (x ∉ y :: B).
  { apply NoDup_app in Hnd as (_ & _ & Hnd). by apply NoDup_cons in Hnd as []. }
  split; [done|]. exists (n <| next := Some y |>).
  rewrite lookup_alter_ne by done. rewrite lookup_alter, Hn, decide_True by done.
  split; [done|]. apply (chain_alter_out _ _ (y :: B)); [done|].
  apply chain_app with (A := A ++ [x]) (p := p). by rewrite <- app_assoc.
Qed.

(** [sched_del_timer]'s store takes [d] out of the list. *)
Lemma chain_unlink ts p A x d B nd :
  NoDup (A ++ x :: d :: B) → ts !! d = Some nd →
  chain ts p (A ++ x :: d :: B) →
  chain (alter (λ r, r <| next := nd.(next) |>) x ts) p (A ++ x :: B).
Proof.
  intros Hnd Hd Hc. apply chain_relink with (B := d :: B); [done|done|].
  assert (x ∉ B).
  { apply NoDup_app in Hnd as (_ & _ & Hnd). apply NoDup_cons in Hnd as [].
    set_solver. }
  apply chain_alter_out; [done|].
  assert (Hc2 : chain ts (Some d) (d :: B)).
  { apply chain_app with (A := A ++ [x]) (p := p). by rewrite <- app_assoc. }
  destruct Hc2 as [_ (n & Hn & Hc2)]. by simplify_eq.
Qed.

(** ** Wake times *)

Lemma wk_alter_keep ts f t x :
  (∀ n, (f n).(waketime) = n.(waketime)) → wk (alter f t ts) x = wk ts x.
Proof.
  intros Hf. unfold wk. rewrite lookup_alter. case_decide; [subst|done].
  destruct (ts !! x); simpl; auto.
Qed.

Lemma wk_alter_ne ts f t x : x ≠ t → wk (alter f t ts) x = wk ts x.
Proof. intros. unfold wk. by rewrite lookup_alter_ne. Qed.

Lemma wk_alter_eq ts f t n : ts !! t = Some n → wk (alter f t ts) t = (f n).(waketime).
Proof. intros Hn. unfold wk. by rewrite lookup_alter, Hn, decide_True. Qed.

Lemma off_u32 b w : off b (u32 w) = off b w.
Proof. unfold off. by rewrite u32_sub_l. Qed.

(** ** The sorted queue *)

Lemma q_insert_elem key x q y : y ∈ q_insert key x q ↔ y = x ∨ y ∈ q.
Proof.
  induction q as [|z q IH]; simpl; [set_solver|].
  destruct (key x <? key z); rewrite !elem_of_cons, ?IH; tauto.
Qed.

Lemma q_insert_split key x A B :
  Forall (λ a, key a <= key x) A →
  match B with [] => True | y :: _ => key x < key y end →
  q_insert key x (A ++ B) = A ++ x :: B.
Proof.
  induction A as [|a A IH]; simpl; intros HA HB.
  - destruct B as [|y B]; simpl; [done|]. by rewrite (proj2 (Z.ltb_lt _ _)).
  - apply Forall_cons_iff in HA as [Ha HA].
    rewrite (proj2 (Z.ltb_ge _ _)) by done. f_equal. auto.
Qed.

Lemma q_insert_ext key key' x q :
  key x = key' x → (∀ y, y ∈ q → key y = key' y) →
  q_insert key x q = q_insert key' x q.
Proof.
  intros Hx. induction q as [|z q IH]; simpl; intros Hq; [done|].
  rewrite Hx, (Hq z) by set_solver. rewrite IH by set_solver. done.
Qed.

Lemma StronglySorted_app_inv {A} (R : A → A → Prop) l1 l2 :
  StronglySorted R (l1 ++ l2) →
  StronglySorted R l1 ∧ StronglySorted R l2 ∧ ∀ x y, x ∈ l1 → y ∈ l2 → R x y.
Proof.
  induction l1 as [|a l1 IH]; simpl; intros H.
  - split_and!; [constructor|done|set_solver].
  - apply StronglySorted_inv in H as [H Ha].
    destruct (IH H) as (H1 & H2 & H3). rewrite Forall_forall in Ha.
    split_and!; [|done|].
    + constructor; [done|]. apply Forall_forall. intros y Hy. apply Ha.
      apply elem_of_app. by left.
    + intros x y [->|Hx]%elem_of_cons Hy; [|by apply H3]. apply Ha.
      apply elem_of_app. by right.
Qed.

Lemma StronglySorted_app_intro {A} (R : A → A → Prop) l1 l2 :
  StronglySorted R l1 → StronglySorted R l2 →
  (∀ x y, x ∈ l1 → y ∈ l2 → R x y) → StronglySorted R (l1 ++ l2).
Proof.
  induction l1 as [|a l1 IH]; simpl; intros H1 H2 H3; [done|].
  apply StronglySorted_inv in H1 as [H1 Ha]. constructor.
  - apply IH; set_solver.
  - rewrite Forall_app. split; [done|]. apply Forall_forall. set_solver.
Qed.

Lemma StronglySorted_ext {A} (R R' : A → A → Prop) l :
  (∀ x y, x ∈ l → y ∈ l → R x y → R' x y) →
  StronglySorted R l → StronglySorted R' l.
Proof.
  induction l as [|a l IH]; intros HR H; [constructor|].
  apply StronglySorted_inv in H as [H Ha]. constructor.
  - apply IH; set_solver.
  - rewrite Forall_forall in *. intros y Hy. apply HR; set_solver.
Qed.

(** ** The search of [insert_timer] *)

Lemma last_cons_default {A} (y d : A) W : List.last (y :: W) d = List.last W y.
Proof.
  revert y d. induction W as [|z W IH]; intros y d; [done|].
  transitivity (List.last (z :: W) d); [done|]. by rewrite !IH.
Qed.

(** The search stops in front of the first timer that [w] is before. *)
Lemma insert_timer_loop_spec fuel ts pos W1 v W2 t w :
  chain ts (Some pos) (pos :: W1 ++ v :: W2) →
  Forall (λ x, timer_is_before w (wk ts x) = false) W1 →
  timer_is_before w (wk ts v) = true →
  (length W1 < fuel)%nat →
  insert_timer_loop fuel ts pos t w
  = Some (alter (λ r, r <| next := Some t |>) (List.last W1 pos)
            (alter (λ r, r <| next := Some v |>) t ts)).
Proof.
  revert fuel pos. induction W1 as [|y W1 IH]; intros [|fuel] pos Hc HW Hv Hf;
    simpl in Hf; try lia.
  - destruct Hc as [_ (n & Hn & [Hnext (nv & Hnv & _)])]. simpl.
    rewrite Hn. simpl. rewrite Hnext. simpl. rewrite Hnv. simpl.
    unfold wk in Hv. rewrite Hnv in Hv. by rewrite Hv.
  - rewrite last_cons_default. destruct Hc as [_ (n & Hn & [Hnext Hy])].
    apply Forall_cons_iff in HW as [Hy' HW].
    assert (Hy2 := Hy). destruct Hy2 as (ny & Hny & _). simpl.
    rewrite Hn. simpl. rewrite Hnext. simpl. rewrite Hny. simpl.
    unfold wk in Hy'. rewrite Hny in Hy'. rewrite Hy'.
    rewrite (IH fuel y); [done|done|done|done|lia].
Qed.

(** The search of [sched_del_timer]: nothing changes when the timer is not in
    the list. *)
Lemma del_timer_loop_out fuel ts pos W del :
  chain ts (Some pos) (pos :: W) → del ∉ W → (length W < fuel)%nat →
  del_timer_loop fuel ts pos del = Some ts.
Proof.
  revert fuel pos. induction W as [|y W IH]; intros [|fuel] pos Hc Hd Hf;
    simpl in Hf; try lia.
  - destruct Hc as [_ (n & Hn & Hnext)]. simpl. rewrite Hn. simpl.
    simpl in Hnext. by rewrite Hnext.
  - destruct Hc as [_ (n & Hn & [Hnext Hy])]. simpl. rewrite Hn. simpl.
    rewrite Hnext. apply not_elem_of_cons in Hd as [Hne Hd].
    rewrite decide_False by done. apply IH; [done|done|lia].
Qed.

Lemma del_timer_loop_in fuel ts pos W1 del W2 nd :
  chain ts (Some pos) (pos :: W1 ++ del :: W2) → del ∉ W1 →
  ts !! del = Some nd → (length W1 < fuel)%nat →
  del_timer_loop fuel ts pos del
  = Some (alter (λ r, r <| next := nd.(next) |>) (List.last W1 pos) ts).
Proof.
  revert fuel pos. induction W1 as [|y W1 IH]; intros [|fuel] pos Hc Hd Hnd Hf;
    simpl in Hf; try lia.
  - destruct Hc as [_ (n & Hn & [Hnext _])]. simpl. rewrite Hn. simpl.
    by rewrite Hnext, decide_True, Hnd by done.
  - rewrite last_cons_default.
    destruct Hc as [_ (n & Hn & [Hnext Hy])]. simpl. rewrite Hn. simpl.
    apply not_elem_of_cons in Hd as [Hne Hd].
    rewrite Hnext, decide_False by done.
    rewrite (IH fuel y); [done|done|done|done|lia].
Qed.

(** The length of a list without repetition is bounded by the memory. *)
Lemma chain_length ts p L : chain ts p L → NoDup L → (length L <= size ts)%nat.
Proof.
  intros Hc Hnd. rewrite <- size_dom.
  rewrite <- (size_list_to_set (C := gset timer_id) L) by done.
  apply subseteq_size. intros t Ht%elem_of_list_to_set.
  apply elem_of_dom. by eapply chain_lookup.
Qed.

(** The last element of a prefix is the node the search stops at. *)
Lemma last_split {A} (x : A) W : ∃ W0, x :: W = W0 ++ [List.last W x].
Proof.
  revert x. induction W as [|y W IH]; intros x; [by exists []|].
  destruct (IH y) as (W0 & HW0). exists (x :: W0).
  rewrite last_cons_default. simpl. by f_equal.
Qed.

(** Splitting a list at the first element that satisfies a test. *)
Lemma first_split {A} (P : A → bool) (l : list A) :
  (∃ x, x ∈ l ∧ P x = true) →
  ∃ l1 v l2, l = l1 ++ v :: l2 ∧ Forall (λ x, P x = false) l1 ∧ P v = true.
Proof.
  induction l as [|a l IH]; intros (x & Hx & HP); [by apply elem_of_nil in Hx|].
  destruct (P a) eqn:Ha; [by exists [], a, l|].
  destruct IH as (l1 & v & l2 & -> & ? & ?).
  { exists x. split; [|done]. apply elem_of_cons in Hx as [->|]; congruence. }
  exists (a :: l1), v, l2. split_and!; [done|by constructor|done].
Qed.
