(* ===== verification/SchedSpec.v ===== *)
(** * The scheduler refines a sorted queue

    The invariant [sched_inv] holds initially, is kept by adding, deleting and
    dispatching timers and by the shutdown processing, and every operation has
    on the queue of live timers the effect the code's comments promise. *)

From stdpp Require Import sorting.
From S2P Require Import Prelude.
From S2P Require Import State.
From S2P Require Import Machine.
From S2P Require Import Sched.
From S2P Require Import SchedList.

(** The sort key of the queue: the distance from [b]. *)
Definition key (b : Z) (ts : gmap timer_id timer) (t : timer_id) : Z :=
  off b (wk ts t).

(** [ts'] differs from [ts] only in links, those of [t] and of timers of the
    list. *)
Definition relinked (ts ts' : gmap timer_id timer) (D : list timer_id) : Prop :=
  (∀ x, wk ts' x = wk ts x) ∧
  (∀ x, (func <$> ts' !! x) = (func <$> ts !! x)) ∧
  (∀ x, x ∉ D → ts' !! x = ts !! x).

Lemma relinked_is_Some ts ts' D x :
  relinked ts ts' D → is_Some (ts !! x) → is_Some (ts' !! x).
Proof.
  intros (_ & Hf & _) [n Hn]. specialize (Hf x). rewrite Hn in Hf.
  destruct (ts' !! x); [by eexists|done].
Qed.

Lemma relinked_alter ts x q (D : list timer_id) :
  x ∈ D → relinked ts (alter (λ r, r <| next := q |>) x ts) D.
Proof.
  intros Hx. split_and!.
  - intros y. by apply wk_alter_keep.
  - intros y. rewrite lookup_alter. case_decide; [subst|done].
    by destruct (ts !! y).
  - intros y Hy. rewrite lookup_alter_ne; [done|]. by intros ->.
Qed.

Lemma relinked_trans ts1 ts2 ts3 D :
  relinked ts1 ts2 D → relinked ts2 ts3 D → relinked ts1 ts3 D.
Proof.
  intros (H1 & H2 & H3) (H4 & H5 & H6). split_and!; intros x.
  - by rewrite H4.
  - by rewrite H5.
  - intros Hx. by rewrite H6, H3.
Qed.

(** The timers keep their callbacks. *)
Definition same_funcs (ts ts' : gmap timer_id timer) : Prop :=
  ∀ x, (func <$> ts' !! x) = (func <$> ts !! x).

Lemma same_funcs_alter ts f t :
  (∀ n, (f n).(func) = n.(func)) → same_funcs ts (alter f t ts).
Proof.
  intros Hf x. rewrite lookup_alter. case_decide; [subst|done].
  destruct (ts !! x); simpl; [by rewrite Hf|done].
Qed.

Lemma same_funcs_trans ts1 ts2 ts3 :
  same_funcs ts1 ts2 → same_funcs ts2 ts3 → same_funcs ts1 ts3.
Proof. intros H1 H2 x. by rewrite H2. Qed.

Lemma same_funcs_is_Some ts ts' x :
  same_funcs ts ts' → is_Some (ts !! x) → is_Some (ts' !! x).
Proof.
  intros Hf [n Hn]. specialize (Hf x). rewrite Hn in Hf.
  destruct (ts' !! x); [by eexists|done].
Qed.

Lemma wk_le_ext b ts ts' U :
  (∀ x, x ∈ U → off b (wk ts' x) = off b (wk ts x)) →
  StronglySorted (wk_le b ts) U → StronglySorted (wk_le b ts') U.
Proof.
  intros Hwk. apply StronglySorted_ext. intros x y Hx Hy. unfold wk_le.
  by rewrite !Hwk.
Qed.

Lemma q_insert_perm k x q : q_insert k x q ≡ₚ x :: q.
Proof.
  induction q as [|y q IH]; simpl; [done|]. destruct (k x <? k y); [done|].
  rewrite IH. by constructor.
Qed.

(** Splitting the list in front of the sentinel. *)
Lemma split_before_last {A} (V W1 W2 : list A) (v z : A) :
  V ++ [z] = W1 ++ v :: W2 → ∃ V2, v :: W2 = V2 ++ [z] ∧ V = W1 ++ V2.
Proof.
  intros Heq. destruct (exists_last (l := v :: W2) ltac:(done)) as (V2 & z' & HV2).
  rewrite HV2, app_assoc in Heq. apply app_inj_tail in Heq as [-> ->].
  by exists V2.
Qed.

(** The part of [timers_ok] that does not speak of the static timers. *)
Record list_ok (b : Z) (ts : gmap timer_id timer) (U : list timer_id) : Prop := {
  lk_nodup : NoDup U;
  lk_sentinel : T_sentinel ∉ U;
  lk_window : Forall (λ t, off b (wk ts t) < 2 ^ 31) U;
  lk_sorted : StronglySorted (wk_le b ts) U;
}.

Lemma timers_ok_list b ts U : timers_ok b ts U → list_ok b ts U.
Proof. by intros []. Qed.

Lemma list_ok_timers b ts U :
  list_ok b ts U → T_periodic ∈ U →
  wk ts T_sentinel = u32 (wk ts T_periodic + 2 ^ 31) → timers_ok b ts U.
Proof. by intros []. Qed.

(** The search for a place for [w] ends inside the list. *)
Definition stops (ts : gmap timer_id timer) (U : list timer_id) (w : Z) : Prop :=
  ∃ x, x ∈ U ++ [T_sentinel] ∧ timer_is_before w (wk ts x) = true.

(** It does because the sentinel is opposite to the periodic timer. *)
Lemma timers_ok_stops b ts U w : timers_ok b ts U → stops ts U w.
Proof.
  intros Hok. destruct (timer_is_before w (wk ts T_periodic)) eqn:Hper.
  - exists T_periodic. split; [|done]. pose proof (tk_periodic _ _ _ Hok). set_solver.
  - exists T_sentinel. split; [set_solver|].
    by rewrite (tk_opposite _ _ _ Hok), timer_is_before_opposite, Hper.
Qed.

(** The sorted position of [t] in [U], searched from an element [pos] of [U]
    that [t] is not before. *)
Lemma insert_point b ts U pos w :
  list_ok b ts U → stops ts U w → pos ∈ U → off b w < 2 ^ 31 →
  timer_is_before w (wk ts pos) = false →
  ∃ A W1 v W2 V2,
    U = (A ++ pos :: W1) ++ V2 ∧ v :: W2 = V2 ++ [T_sentinel]
    ∧ Forall (λ x, timer_is_before w (wk ts x) = false) W1
    ∧ timer_is_before w (wk ts v) = true
    ∧ Forall (λ x, off b (wk ts x) <= off b w) (A ++ pos :: W1)
    ∧ match V2 with [] => True | y :: _ => off b w < off b (wk ts y) end.
Proof.
  intros Hok (z & Hz & Hzb) Hpos Hw Hb.
  apply list_elem_of_split in Hpos as (A & V & HU).
  pose proof (lk_window _ _ _ Hok) as Hwin. rewrite Forall_forall in Hwin.
  assert (Hle : ∀ x, x ∈ U → timer_is_before w (wk ts x) = false →
    off b (wk ts x) <= off b w).
  { intros x Hx. rewrite (timer_is_before_off b) by auto. intros ?%Z.ltb_ge. done. }
  assert (Hpre : Forall (λ x, off b (wk ts x) <= off b w) (A ++ [pos])).
  { pose proof (lk_sorted _ _ _ Hok) as Hs. rewrite HU in Hs.
    apply StronglySorted_app_inv in Hs as (_ & _ & Hs).
    assert (off b (wk ts pos) <= off b w) by (apply Hle; set_solver).
    apply Forall_app. split; [|by constructor]. apply Forall_forall. intros x Hx.
    specialize (Hs x pos Hx ltac:(set_solver)). unfold wk_le in Hs. lia. }
  destruct (first_split (λ x, timer_is_before w (wk ts x)) (V ++ [T_sentinel]))
    as (W1 & v & W2 & Hsplit & HW1 & Hv).
  { exists z. split; [|done]. rewrite HU in Hz.
    assert (z ∉ A ++ [pos]); [|set_solver]. intros Hin.
    rewrite Forall_forall in Hpre. specialize (Hpre _ Hin).
    rewrite (timer_is_before_off b) in Hzb;
      [apply Z.ltb_lt in Hzb; lia|done|apply Hwin; set_solver]. }
  destruct (split_before_last _ _ _ _ _ Hsplit) as (V2 & HV2 & ->).
  exists A, W1, v, W2, V2.
  assert (HU' : U = (A ++ pos :: W1) ++ V2) by (by rewrite HU, <- app_assoc).
  split_and!; [done..| |].
  - replace (A ++ pos :: W1) with ((A ++ [pos]) ++ W1) by (by rewrite <- app_assoc).
    apply Forall_app. split; [done|].
    rewrite !Forall_forall in *. intros x Hx. apply Hle; [set_solver|auto].
  - destruct V2 as [|y V2]; [done|]. injection HV2 as <- _.
    rewrite (timer_is_before_off b) in Hv; [by apply Z.ltb_lt|done|].
    apply Hwin. set_solver.
Qed.

(** Linking [t] into its sorted position keeps the list well formed. *)
Lemma list_ok_insert b ts ts' A B t :
  list_ok b ts (A ++ B) → (∀ x, wk ts' x = wk ts x) →
  t ∉ A ++ B → t ≠ T_sentinel → off b (wk ts t) < 2 ^ 31 →
  Forall (λ x, off b (wk ts x) <= off b (wk ts t)) A →
  match B with [] => True | y :: _ => off b (wk ts t) < off b (wk ts y) end →
  list_ok b ts' (A ++ t :: B).
Proof.
  intros Hok Hwk Ht Hne Hw HA HB. destruct Hok as [H1 H2 H4 H5].
  constructor.
  - rewrite <- Permutation_middle. by apply NoDup_cons.
  - set_solver.
  - rewrite <- Permutation_middle. apply Forall_cons. split; [by rewrite Hwk|].
    eapply Forall_impl; [done|]. intros y. by rewrite Hwk.
  - apply (wk_le_ext b ts); [intros; by rewrite Hwk|].
    apply StronglySorted_app_inv in H5 as (Hs1 & Hs2 & Hs3).
    rewrite Forall_forall in HA.
    apply StronglySorted_app_intro; [done| |].
    + constructor; [done|]. apply Forall_forall. intros y Hy. unfold wk_le.
      destruct B as [|z B]; [set_solver|].
      apply StronglySorted_inv in Hs2 as [_ Hz]. rewrite Forall_forall in Hz.
      apply elem_of_cons in Hy as [->|Hy]; [lia|].
      specialize (Hz y Hy). unfold wk_le in Hz. lia.
    + intros y z Hy [->|Hz]%elem_of_cons; [by apply HA|by apply Hs3].
Qed.

Lemma list_ok_nodup b ts U : list_ok b ts U → NoDup (U ++ [T_sentinel]).
Proof.
  intros Hok. apply NoDup_app. split_and!; [apply Hok| |apply NoDup_singleton].
  intros x Hx ->%list_elem_of_singleton. by apply (lk_sentinel _ _ _ Hok).
Qed.

(** [insert_timer] puts the timer at its sorted position. *)
Lemma insert_ok b ts p U t pos fuel :
  chain ts p (U ++ [T_sentinel]) → list_ok b ts U → stops ts U (wk ts t) →
  t ∉ U ++ [T_sentinel] → is_Some (ts !! t) →
  off b (wk ts t) < 2 ^ 31 → pos ∈ U →
  timer_is_before (wk ts t) (wk ts pos) = false →
  (length U < fuel)%nat →
  ∃ ts', insert_timer_loop fuel ts pos t (wk ts t) = Some ts'
    ∧ chain ts' p (q_insert (key b ts) t U ++ [T_sentinel])
    ∧ list_ok b ts' (q_insert (key b ts) t U)
    ∧ relinked ts ts' (t :: U).
Proof.
  intros Hc Hok Hst Ht Htm Hw Hpos Hb Hfuel.
  destruct (insert_point b ts U pos (wk ts t) Hok Hst Hpos Hw Hb)
    as (A & W1 & v & W2 & V2 & HU & HV2 & HW1 & Hv & Hpre & Hpost).
  pose proof (list_ok_nodup _ _ _ Hok) as Hnd.
  assert (Hq : q_insert (key b ts) t U = (A ++ pos :: W1) ++ t :: V2)
    by (rewrite HU; by apply q_insert_split).
  destruct (last_split pos W1) as (W0 & HW0).
  set (x := List.last W1 pos) in *.
  set (ts' := alter (λ r, r <| next := Some t |>) x
           (alter (λ r, r <| next := Some v |>) t ts)).
  assert (Hl : U ++ [T_sentinel] = (A ++ W0) ++ x :: v :: W2).
  { rewrite HU, HV2, HW0, <- !app_assoc. done. }
  assert (Hrel : relinked ts ts' (t :: U)).
  { eapply relinked_trans; apply relinked_alter; [set_solver|].
    apply elem_of_cons. right. rewrite HU, HW0. set_solver. }
  exists ts'. split_and!; [| | |exact Hrel].
  - apply insert_timer_loop_spec with (W2 := W2); [|done|done|].
    + apply chain_app with (A := A) (p := p). rewrite HV2.
      rewrite HU, <- !app_assoc in Hc. done.
    + rewrite HU, !length_app in Hfuel. simpl in Hfuel. lia.
  - rewrite Hq.
    replace (((A ++ pos :: W1) ++ t :: V2) ++ [T_sentinel])
      with ((A ++ W0) ++ x :: t :: v :: W2)
      by (rewrite HW0, HV2, <- !app_assoc; done).
    rewrite Hl in *. by apply chain_link.
  - rewrite Hq. destruct Hrel as (Hwk & _ & _).
    apply list_ok_insert with (ts := ts); [|done|set_solver|set_solver|done..].
    by rewrite <- HU.
Qed.

(** ** Adding to and removing from the front *)

Lemma timers_ok_ext b ts ts' U :
  (∀ x, x ∈ U ++ [T_sentinel] → wk ts' x = wk ts x) →
  timers_ok b ts U → timers_ok b ts' U.
Proof.
  intros Hwk [H1 H2 H3 H4 H5 H6].
  assert (HU : ∀ x, x ∈ U → wk ts' x = wk ts x) by set_solver.
  constructor; [done..| | |].
  - rewrite Forall_forall in *. intros x Hx. rewrite HU by done. auto.
  - apply (wk_le_ext b ts); [|done]. intros x Hx. by rewrite HU.
  - rewrite (HU T_periodic) by done. by rewrite Hwk by set_solver.
Qed.

Lemma timers_ok_cons b ts U x :
  timers_ok b ts U → x ∉ U → x ≠ T_sentinel → off b (wk ts x) < 2 ^ 31 →
  (∀ y, y ∈ U → wk_le b ts x y) → timers_ok b ts (x :: U).
Proof.
  intros [H1 H2 H3 H4 H5 H6] Hx Hs Hw Hle. constructor.
  - by apply NoDup_cons.
  - set_solver.
  - set_solver.
  - by apply Forall_cons.
  - constructor; [done|]. by apply Forall_forall.
  - done.
Qed.

Lemma timers_ok_remove b ts A d B :
  timers_ok b ts (A ++ d :: B) → d ≠ T_periodic → timers_ok b ts (A ++ B).
Proof.
  intros [H1 H2 H3 H4 H5 H6] Hd. constructor.
  - rewrite <- Permutation_middle in H1. by apply NoDup_cons in H1 as [].
  - set_solver.
  - set_solver.
  - rewrite <- Permutation_middle in H4. by apply Forall_cons in H4 as [].
  - apply StronglySorted_app_inv in H5 as (Hs1 & Hs2 & Hs3).
    apply StronglySorted_inv in Hs2 as [Hs2 _].
    apply StronglySorted_app_intro; [done..|]. intros; apply Hs3; set_solver.
  - done.
Qed.

Lemma timers_ok_head b ts x U y :
  timers_ok b ts (x :: U) → y ∈ x :: U → wk_le b ts x y.
Proof.
  intros Hok Hy. pose proof (tk_sorted _ _ _ Hok) as Hs.
  apply StronglySorted_inv in Hs as [_ Hs]. rewrite Forall_forall in Hs.
  apply elem_of_cons in Hy as [->|Hy]; [unfold wk_le; lia|auto].
Qed.

(** The stores of [sched_add_timer] that put the deleted timer and the new
    timer [t] in front of the list [R]. *)
Lemma push_front b ts q R t w :
  chain ts q (R ++ [T_sentinel]) → timers_ok b ts R →
  t ∉ R ++ [T_sentinel] → t ≠ T_deleted → T_deleted ∉ R ++ [T_sentinel] →
  is_Some (ts !! t) → is_Some (ts !! T_deleted) →
  wk ts t = w → off b w < 2 ^ 31 →
  (∀ y, y ∈ R → off b w <= off b (wk ts y)) →
  let ts' := alter (λ r, r <| next := Some t |>) T_deleted
       (alter (λ r, r <| waketime := u32 w |>) T_deleted
         (alter (λ r, r <| next := q |>) t ts)) in
  chain ts' (Some T_deleted) (T_deleted :: t :: R ++ [T_sentinel])
  ∧ timers_ok b ts' (T_deleted :: t :: R)
  ∧ (∀ x, x ≠ T_deleted → wk ts' x = wk ts x).
Proof.
  intros Hc Hok Ht Htd Hd [nt Hnt] [nd Hnd] Hwt Hw Hle ts'.
  assert (Hwk : ∀ x, x ≠ T_deleted → wk ts' x = wk ts x).
  { intros x Hx. unfold ts'. by rewrite 2!wk_alter_ne, wk_alter_keep. }
  assert (Hwd : off b (wk ts' T_deleted) = off b w).
  { unfold ts'. rewrite wk_alter_keep by done.
    erewrite wk_alter_eq by (by rewrite lookup_alter_ne).
    apply off_u32. }
  assert (Hdk : ts' !! T_deleted = Some (nd <| waketime := u32 w |> <| next := Some t |>)).
  { unfold ts'. rewrite !lookup_alter, !decide_True by done.
    by rewrite decide_False, Hnd by done. }
  assert (Htk : ts' !! t = Some (nt <| next := q |>)).
  { unfold ts'. rewrite !lookup_alter_ne by done. by rewrite lookup_alter, decide_True, Hnt. }
  assert (Hok' : timers_ok b ts' R).
  { eapply timers_ok_ext; [|done]. intros x Hx. apply Hwk. by intros ->. }
  split_and!; [| |done].
  - split; [done|]. eexists. split; [exact Hdk|]. split; [done|].
    eexists. split; [exact Htk|]. simpl. unfold ts'.
    do 3 (apply chain_alter_out; [done|]). done.
  - assert (Hle' : ∀ x y, off b (wk ts' x) = off b w → y ∈ R → wk_le b ts' x y).
    { intros x y Hx Hy. unfold wk_le. rewrite Hx, Hwk; [auto|]. intros ->. set_solver. }
    apply timers_ok_cons; [apply timers_ok_cons|..].
    + done.
    + set_solver.
    + set_solver.
    + by rewrite Hwk, Hwt.
    + intros y Hy. apply Hle'; [by rewrite Hwk, Hwt|done].
    + set_solver.
    + done.
    + by rewrite Hwd.
    + intros y [->|Hy]%elem_of_cons; [|by apply Hle'].
      unfold wk_le. rewrite Hwd, Hwk, Hwt by done. lia.
Qed.

(** ** Verification conditions of the timer accesses *)

Lemma wp_read_timer t n Q E s :
  s.(timers) !! t = Some n → Q n s → wp (read_timer t) Q E s.
Proof. intros Hn HQ. unfold read_timer. wp_steps. by eapply wp_some. Qed.

#[export] Instance op_update_timer t f :
  Op (update_timer t f) (λ _, tt) (λ s, s <| timers ::= alter f t |>).
Proof. done. Qed.
#[export] Instance op_set_waketime t w :
  Op (set_waketime t w) (λ _, tt)
    (λ s, s <| timers ::= alter (λ r, r <| waketime := u32 w |>) t |>).
Proof. done. Qed.
#[export] Instance op_set_next t p :
  Op (set_next t p) (λ _, tt)
    (λ s, s <| timers ::= alter (λ r, r <| next := p |>) t |>).
Proof. done. Qed.
#[export] Instance op_set_func t f :
  Op (set_func t f) (λ _, tt)
    (λ s, s <| timers ::= alter (λ r, r <| func := f |>) t |>).
Proof. done. Qed.
#[export] Instance op_set_timer_list t :
  Op (set_timer_list t) (λ _, tt)
    (λ s, s <| sst ::= λ c, c <| timer_list := t |> |>).
Proof. done. Qed.
#[export] Instance op_set_last_insert t :
  Op (set_last_insert t) (λ _, tt)
    (λ s, s <| sst ::= λ c, c <| last_insert := t |> |>).
Proof. done. Qed.
#[export] Instance op_sched_wake_tasks :
  Op sched_wake_tasks (λ _, tt)
    (λ s, s <| sst ::= λ c, c <| tasks_status := TS_REQUESTED |> |>).
Proof. done. Qed.

Lemma wp_insert_timer pos t w ts' Q E s :
  insert_timer_loop (S (size s.(timers))) s.(timers) pos t w = Some ts' →
  Q tt (s <| timers := ts' |>) → wp (insert_timer pos t w) Q E s.
Proof.
  intros Hl HQ. unfold insert_timer. wp_steps. eapply wp_some; [exact Hl|].
  by wp_steps.
Qed.

(** What the list operations leave alone. *)
Record sched_frame (s s' : mcu) : Prop := {
  sf_irq : s'.(irq) = s.(irq);
  sf_wakes : s'.(wakes) = s.(wakes);
  sf_cmd : s'.(cmd) = s.(cmd);
  sf_base : s'.(base) = s.(base);
  sf_objs : s'.(objs) = s.(objs);
  sf_nodes : s'.(nodes) = s.(nodes);
  sf_signals : s'.(signals) = s.(signals);
  sf_status : s'.(sst).(shutdown_status) = s.(sst).(shutdown_status);
  sf_reason : s'.(sst).(shutdown_reason) = s.(sst).(shutdown_reason);
  sf_tasks : s'.(sst).(tasks_status) = s.(sst).(tasks_status);
}.

Lemma sched_frame_sent fmt args s :
  s.(timers) = (sent fmt args s).(timers) ∧ s.(sst) = (sent fmt args s).(sst)
  ∧ sched_frame s (sent fmt args s).
Proof. unfold sent. destruct (in_sendf _); split_and!; done. Qed.

Lemma sched_inv_nonempty b s U :
  sched_inv b s U → ∃ n R, U = s.(sst).(timer_list) :: R
    ∧ s.(timers) !! s.(sst).(timer_list) = Some n
    ∧ chain s.(timers) n.(next) (R ++ [T_sentinel]).
Proof.
  intros Hinv. pose proof (si_chain _ _ _ Hinv) as Hc.
  pose proof (tk_periodic _ _ _ (si_ok _ _ _ Hinv)) as Hp.
  destruct U as [|h R]; [set_solver|]. destruct Hc as [[= Hh] (n & Hn & Hc)].
  exists n, R. subst h. done.
Qed.

Lemma wk_lookup ts t n : ts !! t = Some n → wk ts t = n.(waketime).
Proof. unfold wk. by intros ->. Qed.

(** ** Live timers *)

Lemma live_id U : T_deleted ∉ U → live U = U.
Proof.
  unfold live. induction U as [|x U IH]; [done|].
  intros [Hx HU]%not_elem_of_cons. rewrite filter_cons_True by done. by rewrite IH.
Qed.

Lemma live_deleted U : T_deleted ∉ U → live (T_deleted :: U) = U.
Proof. intros. unfold live. rewrite filter_cons_False by naive_solver. by apply live_id. Qed.

(** The queue after [sched_add_timer]. *)
Lemma live_q_insert b ts h R t :
  T_deleted ∉ R → t ≠ T_deleted → ¬ key b ts t < key b ts h →
  live (q_insert (key b ts) t (h :: R)) = q_insert (key b ts) t (live (h :: R)).
Proof.
  intros HR Ht Hk. simpl. rewrite (proj2 (Z.ltb_ge _ _)) by lia.
  assert (T_deleted ∉ q_insert (key b ts) t R) by (rewrite q_insert_elem; set_solver).
  destruct (decide (h = T_deleted)) as [->|Hh].
  - by rewrite !live_deleted.
  - rewrite !live_id by set_solver. simpl. by rewrite (proj2 (Z.ltb_ge _ _)) by lia.
Qed.

Lemma q_insert_first k x q : (∀ y, y ∈ q → k x < k y) → q_insert k x q = x :: q.
Proof.
  destruct q as [|y q]; simpl; [done|]. intros Hq.
  by rewrite (proj2 (Z.ltb_lt _ _)) by (apply Hq; set_solver).
Qed.

(** ** Adding a timer *)

Section add.
Context `{Board}.

(** What [sched_add_timer] promises: the list stays well formed, the waiting
    timers are those of before with [t] at its place, only the memory of the
    scheduler changes and no wake time but the deleted timer's. *)
Definition added (b : Z) (s : mcu) (U : list timer_id) (t : timer_id) (s' : mcu) : Prop :=
  (∃ U', sched_inv b s' U'
     ∧ live U' = q_insert (key b s.(timers)) t (live U))
  ∧ (∀ x, x ≠ T_deleted → wk s'.(timers) x = wk s.(timers) x)
  ∧ same_funcs s.(timers) s'.(timers)
  ∧ sched_frame s s'.

(** The case of a new earliest timer. *)
Lemma add_front b s s1 U t q R :
  sched_inv b s U → live U = R → t ∉ U → t ≠ T_sentinel → t ≠ T_deleted →
  is_Some (s.(timers) !! t) → off b (wk s.(timers) t) < 2 ^ 31 →
  timer_is_before (wk s.(timers) t) (wk s.(timers) s.(sst).(timer_list)) = true →
  chain s.(timers) q (R ++ [T_sentinel]) →
  s1.(timers) = alter (λ r, r <| next := Some t |>) T_deleted
       (alter (λ r, r <| waketime := u32 (wk s.(timers) t) |>) T_deleted
         (alter (λ r, r <| next := q |>) t s.(timers))) →
  s1.(sst).(timer_list) = T_deleted →
  s1.(sst).(last_insert) = s.(sst).(last_insert) →
  sched_frame s s1 → added b s U t s1.
Proof.
  intros Hinv HR Ht Hts Htd Htm Hw Hb Hc Hts1 Htl Hli Hf.
  destruct (sched_inv_nonempty _ _ _ Hinv) as (n & R0 & HU & Hn & HcR).
  assert (Hok := si_ok _ _ _ Hinv). assert (HdR := si_deleted _ _ _ Hinv).
  rewrite HU in HdR. simpl in HdR.
  assert (HinU : ∀ x, x ∈ R ↔ x ∈ U ∧ x ≠ T_deleted).
  { intros x. rewrite <- HR. unfold live. rewrite list_elem_of_filter. naive_solver. }
  assert (Hkey : ∀ y, y ∈ U → key b s.(timers) t < key b s.(timers) y).
  { intros y Hy. pose proof (tk_window _ _ _ Hok) as Hwin. rewrite Forall_forall in Hwin.
    rewrite (timer_is_before_off b) in Hb; [|done|apply Hwin; set_solver].
    apply Z.ltb_lt in Hb. rewrite HU in Hok, Hy.
    pose proof (timers_ok_head _ _ _ _ _ Hok Hy) as Hle. unfold wk_le in Hle.
    unfold key. lia. }
  assert (HokR : timers_ok b s.(timers) R).
  { rewrite <- HR. destruct (decide (s.(sst).(timer_list) = T_deleted)) as [Hd|Hd].
    - rewrite HU, Hd, live_deleted by done. rewrite HU, Hd in Hok.
      by apply (timers_ok_remove b _ [] T_deleted).
    - rewrite live_id; [done|]. rewrite HU. set_solver. }
  assert (T_deleted ∉ R) by (rewrite HinU; tauto).
  destruct (push_front b s.(timers) q R t (wk s.(timers) t))
    as (Hc' & Hok' & Hwk'); [done|done|..].
  { rewrite elem_of_app, HinU. set_solver. }
  { done. }
  { set_solver. }
  { done. }
  { apply Hinv. }
  { done. }
  { done. }
  { intros y [Hy _]%HinU. specialize (Hkey y Hy). unfold key in Hkey. lia. }
  rewrite <- Hts1 in *. split_and!; [|done| |done].
  2: { rewrite Hts1. do 2 (eapply same_funcs_trans; [|by apply same_funcs_alter]).
       by apply same_funcs_alter. }
  exists (T_deleted :: t :: R). split.
  - constructor; [by rewrite Htl|done| | |set_solver|].
    + rewrite Hli. assert (s.(sst).(last_insert) ∈ R); [|set_solver].
      apply HinU. split; apply Hinv.
    + rewrite Hli. apply Hinv.
    + eapply chain_lookup; [exact Hc'|set_solver].
  - rewrite live_deleted by set_solver. rewrite HR. symmetry.
    apply q_insert_first. intros y [Hy _]%HinU. by apply Hkey.
Qed.

(** The new timer would run before all others and its time has passed. *)
Definition too_late (s : mcu) (t : timer_id) : bool :=
  timer_is_before (wk s.(timers) t) (wk s.(timers) s.(sst).(timer_list))
  && timer_is_before (wk s.(timers) t) (u32 (hw_time s.(reads)))
  && (s.(sst).(shutdown_status) =? 0).

(** What a shutdown leaves then. *)
Definition too_close (s : mcu) (t : timer_id) (r : string) (s' : mcu) : Prop :=
  r = "Timer too close" ∧ too_late s t = true
  ∧ s'.(timers) = s.(timers) ∧ s'.(sst) = s.(sst).

Lemma wp_restore_mono m flag E (P P' : mcu → Prop) s :
  wp m (λ _, wp (irq_restore flag) (λ _, P) E) E s → (∀ s', P s' → P' s') →
  wp m (λ _ : unit, wp (irq_restore flag) (λ _, P') E) E s.
Proof.
  intros Hm HP. eapply wp_mono; [exact Hm| |done]. intros u s' Hs'. by apply HP.
Qed.

Lemma wp_add_front b s s1 U t tl w flag :
  sched_inv b s U → t ∉ U → t ≠ T_sentinel → t ≠ T_deleted →
  is_Some (s.(timers) !! t) → off b (wk s.(timers) t) < 2 ^ 31 →
  tl = s.(sst).(timer_list) → w = wk s.(timers) t → flag = s.(irq) →
  timer_is_before (wk s.(timers) t) (wk s.(timers) tl) = true →
  s1.(timers) = s.(timers) → s1.(sst) = s.(sst) →
  sched_frame (s <| irq := false |>) s1 →
  wp ((if decide (tl = T_deleted) then
         d ← read_timer T_deleted; set_next t d.(next)
       else set_next t (Some tl));;
      set_waketime T_deleted w;;
      set_next T_deleted (Some t);;
      set_timer_list T_deleted;;
      timer_kick)
    (λ _, wp (irq_restore flag) (λ _, added b s U t) (too_close s t))
    (too_close s t) s1.
Proof.
  intros Hinv Ht Hts Htd Htm Hw -> -> -> Hb Hs1 Hss1 [].
  destruct (sched_inv_nonempty _ _ _ Hinv) as (n & R & HU & Hn & HcR).
  assert (HdR := si_deleted _ _ _ Hinv). rewrite HU in HdR. simpl in HdR. simpl.
  assert (Hc := si_chain _ _ _ Hinv).
  apply wp_bind. case_decide as Hd.
  - wp_steps. eapply wp_read_timer; [by rewrite Hs1, <- Hd|]. wp_steps.
    eapply (add_front b s _ U t n.(next) R); simpl; try done.
    + rewrite HU, Hd. by apply live_deleted.
    + by rewrite Hs1.
    + by rewrite Hss1.
  - wp_steps.
    eapply (add_front b s _ U t (Some s.(sst).(timer_list)) U); simpl; try done.
    + rewrite HU. apply live_id. set_solver.
    + by rewrite Hs1.
    + by rewrite Hss1.
Qed.

(** Adding a timer that is not before the head of the list. *)
Lemma wp_add_insert b s U t flag :
  sched_inv b s U → t ∉ U → t ≠ T_sentinel → t ≠ T_deleted →
  is_Some (s.(timers) !! t) → off b (wk s.(timers) t) < 2 ^ 31 →
  flag = s.(irq) →
  timer_is_before (wk s.(timers) t) (wk s.(timers) s.(sst).(timer_list)) = false →
  wp (insert_timer s.(sst).(timer_list) t (wk s.(timers) t))
    (λ _, wp (irq_restore flag) (λ _, added b s U t) (too_close s t))
    (too_close s t) (s <| irq := false |>).
Proof.
  intros Hinv Ht Hts Htd Htm Hw -> Hb.
  destruct (sched_inv_nonempty _ _ _ Hinv) as (n & R & HU & Hn & HcR).
  assert (Hc := si_chain _ _ _ Hinv). assert (Hok := si_ok _ _ _ Hinv).
  assert (HdR := si_deleted _ _ _ Hinv).
  assert (Hlen := chain_length _ _ _ Hc (list_ok_nodup _ _ _ (timers_ok_list _ _ _ Hok))).
  rewrite length_app in Hlen. simpl in Hlen.
  destruct (insert_ok b _ _ U t s.(sst).(timer_list) (S (size s.(timers))) Hc
      (timers_ok_list _ _ _ Hok))
    as (ts' & Hl & Hc' & Hok' & Hrel);
    [by eapply timers_ok_stops|set_solver|done|done|set_solver|done|lia|].
  wp_steps. eapply wp_insert_timer; [exact Hl|]. wp_steps.
  assert (¬ key b s.(timers) t < key b s.(timers) s.(sst).(timer_list)).
  { rewrite (timer_is_before_off b) in Hb; [apply Z.ltb_ge in Hb; unfold key; lia|done|].
    pose proof (tk_window _ _ _ Hok) as Hwin. rewrite Forall_forall in Hwin.
    apply Hwin. set_solver. }
  rewrite HU in HdR. simpl in HdR. split_and!.
  - exists (q_insert (key b s.(timers)) t U). split; [constructor|]; simpl.
    + done.
    + apply list_ok_timers; [done|apply q_insert_elem; right; apply Hok|].
      destruct Hrel as (Hwk & _). rewrite !Hwk. apply Hok.
    + apply q_insert_elem. right. apply Hinv.
    + apply Hinv.
    + rewrite HU. simpl. rewrite (proj2 (Z.ltb_ge _ _)) by lia. simpl.
      rewrite q_insert_elem. set_solver.
    + eapply relinked_is_Some; [done|apply Hinv].
    + rewrite HU. by apply live_q_insert.
  - intros x _. apply Hrel.
  - intros x. apply Hrel.
  - done.
Qed.

(** [sched_add_timer] either queues the timer at its place or, when it would
    have to run in the past, shuts down. *)
Lemma wp_sched_add_timer b s U t :
  sched_inv b s U → t ∉ U → t ≠ T_sentinel → t ≠ T_deleted →
  is_Some (s.(timers) !! t) → off b (wk s.(timers) t) < 2 ^ 31 →
  wp (sched_add_timer t) (λ _ s', too_late s t = false ∧ added b s U t s')
    (too_close s t) s.
Proof.
  intros Hinv Ht Hts Htd Htm Hw. unfold sched_add_timer.
  destruct (sched_inv_nonempty _ _ _ Hinv) as (n & R & HU & Hn & HcR).
  destruct Htm as [nt Hnt].
  assert (Hwn : nt.(waketime) = wk s.(timers) t) by (by rewrite (wk_lookup _ _ _ Hnt)).
  assert (Hwl : n.(waketime) = wk s.(timers) s.(sst).(timer_list))
    by (by rewrite (wk_lookup _ _ _ Hn)).
  wp_steps. eapply wp_read_timer; [done|]. wp_steps.
  eapply wp_read_timer; [done|]. rewrite Hwn, Hwl.
  apply wp_bind. destruct (timer_is_before _ _) eqn:Hb.
  2: { eapply (wp_restore_mono _ _ _ (added b s U t)); [by apply (wp_add_insert b s U)|].
       intros. split; [|done]. unfold too_late. by rewrite Hb. }
  wp_steps. set (now := u32 (hw_time _)).
  assert (Hlt : too_late s t = timer_is_before (wk s.(timers) t) now
                               && (s.(sst).(shutdown_status) =? 0)).
  { unfold too_late. by rewrite Hb. }
  apply wp_when.
  - intros Hlate. wp_steps.
    match goal with |- wp _ _ _ ?s1 => set (s2 := s1) end.
    assert (Hs2 : s2.(timers) = s.(timers) ∧ s2.(sst) = s.(sst)
              ∧ sched_frame (s <| irq := false |>) s2) by (unfold s2, sent; by destruct (in_sendf _)).
    clearbody s2. destruct Hs2 as (Ht2 & Hs2 & Hf2).
    destruct (sched_frame_sent "%s: try_shutdown %s" [A_str "Timer too close"] s2)
      as (Ht3 & Hs3 & Hf3).
    apply wp_try_shutdown; rewrite Hs2.
    + intros Hst. split_and!; [done|by rewrite Hlt, Hlate, Hst| |]; simpl; congruence.
    + intros Hst. eapply (wp_restore_mono _ _ _ (added b s U t)).
      * eapply (wp_add_front b s); try done; [congruence..|].
        destruct Hf2, Hf3. constructor; simpl in *; congruence.
      * intros. split; [|done]. rewrite Hlt, Hlate. by apply Z.eqb_neq.
  - intros Hlate. eapply (wp_restore_mono _ _ _ (added b s U t)); [by eapply (wp_add_front b s)|].
    intros. split; [|done]. by rewrite Hlt, Hlate.
Qed.

End add.

(** ** Deleting a timer *)

(** What [sched_del_timer] promises: the waiting timers are those of before
    without [del]. *)
Definition deleted (b : Z) (s : mcu) (U : list timer_id) (del : timer_id)
    (s' : mcu) : Prop :=
  (∃ U', sched_inv b s' U' ∧ live U' = filter (λ t, t ≠ del) (live U))
  ∧ (∀ x, x ≠ T_deleted → wk s'.(timers) x = wk s.(timers) x)
  ∧ same_funcs s.(timers) s'.(timers)
  ∧ (s.(sst).(timer_list) ≠ del → s'.(sst).(timer_list) = s.(sst).(timer_list))
  ∧ sched_frame s s'.

Lemma filter_ne_id (d : timer_id) (l : list timer_id) : d ∉ l → filter (λ t, t ≠ d) l = l.
Proof.
  induction l as [|x l IH]; [done|]. intros [Hx Hl]%not_elem_of_cons.
  rewrite filter_cons_True by done. by rewrite IH.
Qed.

Lemma live_comm (d : timer_id) (l : list timer_id) :
  live (filter (λ t, t ≠ d) l) = filter (λ t, t ≠ d) (live l).
Proof.
  unfold live. rewrite !list_filter_filter. apply list_filter_iff. naive_solver.
Qed.

(** Deleting the head: the deleted timer takes its place. *)
Lemma del_head b s R del nd :
  sched_inv b s (del :: R) → del ≠ T_periodic → del ≠ T_deleted →
  s.(timers) !! del = Some nd →
  let ts' := alter (λ r, r <| next := nd.(next) |>) T_deleted
      (alter (λ r, r <| waketime := u32 nd.(waketime) |>) T_deleted s.(timers)) in
  chain ts' (Some T_deleted) (T_deleted :: R ++ [T_sentinel])
  ∧ timers_ok b ts' (T_deleted :: R)
  ∧ (∀ x, x ≠ T_deleted → wk ts' x = wk s.(timers) x).
Proof.
  intros Hinv Hdp Hdd Hnd ts'.
  destruct (si_static _ _ _ Hinv) as [n0 Hn0].
  assert (Hok := si_ok _ _ _ Hinv). assert (HdR := si_deleted _ _ _ Hinv).
  simpl in HdR.
  assert (HokR := timers_ok_remove b _ [] del R Hok Hdp). simpl in HokR.
  assert (Hwk : ∀ x, x ≠ T_deleted → wk ts' x = wk s.(timers) x).
  { intros x Hx. unfold ts'. by rewrite !wk_alter_ne. }
  assert (Hwd : off b (wk ts' T_deleted) = off b (wk s.(timers) del)).
  { unfold ts'. rewrite wk_alter_keep by done. erewrite wk_alter_eq by done.
    rewrite (wk_lookup _ _ _ Hnd). apply off_u32. }
  split_and!; [| |done].
  - split; [done|]. eexists. split.
    { unfold ts'. by rewrite !lookup_alter, !decide_True, Hn0 by done. }
    simpl. destruct (si_chain _ _ _ Hinv) as [_ (n & Hn & Hc)]. simplify_eq.
    do 2 (apply chain_alter_out; [set_solver|]). done.
  - apply timers_ok_cons; [|done|done| |].
    + eapply timers_ok_ext; [|done]. intros x Hx. apply Hwk. set_solver.
    + rewrite Hwd. pose proof (tk_window _ _ _ Hok) as Hwin.
      rewrite Forall_forall in Hwin. apply Hwin. set_solver.
    + intros y Hy. unfold wk_le. rewrite Hwd, Hwk by set_solver.
      apply (timers_ok_head _ _ _ _ _ Hok). set_solver.
Qed.

(** Deleting a timer further down unlinks it. *)
Lemma del_inner b ts h R del fuel :
  chain ts (Some h) (h :: R ++ [T_sentinel]) → timers_ok b ts (h :: R) →
  del ≠ h → del ≠ T_sentinel → del ≠ T_periodic → (S (length R) < fuel)%nat →
  ∃ ts', del_timer_loop fuel ts h del = Some ts'
    ∧ chain ts' (Some h) (h :: filter (λ t, t ≠ del) R ++ [T_sentinel])
    ∧ timers_ok b ts' (h :: filter (λ t, t ≠ del) R)
    ∧ relinked ts ts' (h :: R).
Proof.
  intros Hc Hok Hh Hs Hp Hf. destruct (decide (del ∈ R)) as [Hin|Hout].
  - assert (Hnd := list_ok_nodup _ _ _ (timers_ok_list _ _ _ Hok)).
    apply list_elem_of_split in Hin as (R1 & R2 & ->).
    destruct (chain_lookup ts (Some h) _ del Hc) as [nd Hd]; [set_solver|].
    assert (HR1 : del ∉ R1 ∧ del ∉ R2).
    { pose proof (tk_nodup _ _ _ Hok) as Hn. apply NoDup_cons in Hn as [_ Hn].
      rewrite <- Permutation_middle in Hn. apply NoDup_cons in Hn as [Hn _].
      by apply not_elem_of_app in Hn. }
    destruct HR1 as [HR1 HR2].
    rewrite filter_app, filter_cons_False, !filter_ne_id by naive_solver.
    rewrite <- !app_assoc in Hc. simpl in Hc.
    destruct (last_split h R1) as (R0 & HR0).
    rewrite length_app in Hf. simpl in Hf.
    eexists. split_and!.
    + apply (del_timer_loop_in _ _ _ R1 del (R2 ++ [T_sentinel])); [done..|lia].
    + replace (h :: (R1 ++ R2) ++ [T_sentinel])
        with (R0 ++ List.last R1 h :: R2 ++ [T_sentinel])
        by (change (h :: (R1 ++ R2) ++ [T_sentinel]) with
              (((h :: R1) ++ R2) ++ [T_sentinel]); by rewrite HR0, <- !app_assoc).
      assert (Hl : h :: (R1 ++ del :: R2) ++ [T_sentinel]
                   = R0 ++ List.last R1 h :: del :: R2 ++ [T_sentinel]).
      { change (h :: (R1 ++ del :: R2) ++ [T_sentinel]) with
          (((h :: R1) ++ del :: R2) ++ [T_sentinel]). by rewrite HR0, <- !app_assoc. }
      eapply chain_unlink; [by rewrite <- Hl|done|].
      rewrite <- Hl, <- app_assoc. exact Hc.
    + eapply timers_ok_ext; [intros x _; by apply wk_alter_keep|].
      by apply (timers_ok_remove b ts (h :: R1) del R2).
    + apply relinked_alter. change (h :: R1 ++ del :: R2) with ((h :: R1) ++ del :: R2).
      rewrite HR0. set_solver.
  - rewrite filter_ne_id by done. exists ts. split_and!; [|done..|by split_and!].
    apply (del_timer_loop_out _ _ _ (R ++ [T_sentinel])); [done|set_solver|].
    rewrite length_app. simpl. lia.
Qed.

(** The last lines of [sched_del_timer], on a list already without [del]. *)
Lemma del_finish b s s1 U U' del flag :
  sched_inv b s U → del ≠ T_deleted → del ≠ T_periodic → flag = s.(irq) →
  chain s1.(timers) (Some s1.(sst).(timer_list)) (U' ++ [T_sentinel]) →
  timers_ok b s1.(timers) U' → T_deleted ∉ tail U' →
  (∀ x, x ∈ U → x ≠ T_deleted → x ≠ del → x ∈ U') →
  live U' = filter (λ t, t ≠ del) (live U) →
  is_Some (s1.(timers) !! T_deleted) →
  (∀ x, x ≠ T_deleted → wk s1.(timers) x = wk s.(timers) x) →
  same_funcs s.(timers) s1.(timers) →
  (s.(sst).(timer_list) ≠ del → s1.(sst).(timer_list) = s.(sst).(timer_list)) →
  s1.(sst).(last_insert) = s.(sst).(last_insert) →
  sched_frame (s <| irq := false |>) s1 →
  wp (when (bool_decide (s1.(sst).(last_insert) = del)) (set_last_insert T_periodic))
    (λ _, wp (irq_restore flag) (λ _, deleted b s U del) (λ _ _, False))
    (λ _ _, False) s1.
Proof.
  intros Hinv Hdd Hdp -> Hc Hok Htl Hsub Hlive Hd Hwk Hfn Hhd Hli [].
  assert (HliU := si_last _ _ _ Hinv). assert (HliD := si_last_live _ _ _ Hinv).
  rewrite Hli. apply wp_when; intros Hb.
  - wp_steps. split_and!; [|done|done|done|by constructor]. exists U'. split; [|done].
    constructor; simpl; [done..|apply Hok|done|done|done].
  - apply bool_decide_eq_false in Hb. wp_steps.
    split_and!; [|done|done|done|by constructor]. exists U'. split; [|done].
    constructor; simpl; rewrite ?Hli; auto.
Qed.

Lemma wp_sched_del_timer b s U del :
  sched_inv b s U → del ≠ T_sentinel → del ≠ T_deleted → del ≠ T_periodic →
  wp (sched_del_timer del) (λ _, deleted b s U del) (λ _ _, False) s.
Proof.
  intros Hinv Hs Hd Hp. unfold sched_del_timer.
  destruct (sched_inv_nonempty _ _ _ Hinv) as (n & R & HU & Hn & HcR).
  assert (HdR := si_deleted _ _ _ Hinv). rewrite HU in HdR. simpl in HdR.
  wp_steps. case_decide as Htl; simpl in Htl.
  - rewrite Htl in *. wp_steps. eapply wp_read_timer; [done|]. wp_steps.
    assert (Hinv' := Hinv). rewrite HU in Hinv'.
    destruct (del_head b s R del n Hinv' Hp Hd Hn) as (Hc & Hok & Hwk).
    eapply (del_finish b s _ U (T_deleted :: R)); try done.
    + set_solver.
    + rewrite HU, live_deleted, (live_id (del :: R)) by set_solver.
      pose proof (tk_nodup _ _ _ (si_ok _ _ _ Hinv')) as [? _]%NoDup_cons.
      rewrite filter_cons_False by naive_solver. by rewrite filter_ne_id.
    + eapply chain_lookup; [exact Hc|set_solver].
    + eapply same_funcs_trans; by apply same_funcs_alter.
  - assert (Hc := si_chain _ _ _ Hinv). assert (Hok := si_ok _ _ _ Hinv).
    assert (Hlen := chain_length _ _ _ Hc (list_ok_nodup _ _ _ (timers_ok_list _ _ _ Hok))).
    rewrite length_app in Hlen. simpl in Hlen. rewrite HU in Hc, Hok, Hlen.
    destruct (del_inner b _ _ R del (S (size s.(timers))) Hc Hok)
      as (ts' & Hl & Hc' & Hok' & Hrel); [done..|simpl in Hlen; lia|].
    wp_steps. eapply wp_some; [exact Hl|]. wp_steps.
    eapply (del_finish b s _ U (s.(sst).(timer_list) :: filter (λ t, t ≠ del) R));
      simpl; try done.
    + rewrite list_elem_of_filter. tauto.
    + rewrite HU. intros x. rewrite !elem_of_cons, list_elem_of_filter. tauto.
    + rewrite <- live_comm, HU. by rewrite filter_cons_True by done.
    + eapply relinked_is_Some; [done|apply Hinv].
    + intros x _. apply Hrel.
    + intros x. apply Hrel.
Qed.

(** ** The theorems about the list operations *)

(** C8: [sched_add_timer] never follows a bad pointer and always ends.  When
    the new timer would be the first one and its time has already passed, the
    machine shuts down with [Timer too close] and an unchanged list; otherwise
    the timers waiting afterwards are those of before with the new one at its
    place in the order of wake times (behind timers with the same time), and
    nothing outside the scheduler changes. *)
Theorem sched_add_timer_refines `{Board} b s U t :
  sched_inv b s U → t ∉ U → t ≠ T_sentinel → t ≠ T_deleted →
  is_Some (s.(timers) !! t) → off b (wk s.(timers) t) < 2 ^ 31 →
  match sched_add_timer t s with
  | (Ret _, s') => too_late s t = false ∧ added b s U t s'
  | (Shut r, s') => too_close s t r s'
  | (Stuck _, _) => False
  end.
Proof. apply wp_sched_add_timer. Qed.

(** C25: [sched_del_timer] always ends and removes exactly the given timer from
    the timers waiting, whether it is waiting or not. *)
Theorem sched_del_timer_refines b s U del :
  sched_inv b s U → del ≠ T_sentinel → del ≠ T_deleted → del ≠ T_periodic →
  match sched_del_timer del s with
  | (Ret _, s') => deleted b s U del s'
  | _ => False
  end.
Proof.
  intros Hinv H1 H2 H3. pose proof (wp_sched_del_timer b s U del Hinv H1 H2 H3) as Hwp.
  unfold wp in Hwp. by destruct (sched_del_timer del s) as [[] ?].
Qed.

(** *** A concrete machine with two user timers *)

Lemma sched_inv_init : sched_inv 0 init_mcu [T_periodic].
Proof.
  constructor; simpl; [|constructor|set_solver|done|set_solver|by eexists].
  - split; [done|]. eexists. split; [done|]. split; [done|]. by eexists.
  - apply NoDup_singleton.
  - set_solver.
  - set_solver.
  - by apply Forall_singleton.
  - repeat constructor.
  - done.
Qed.

(** Changes that do not touch the list. *)
Lemma sched_inv_ext b s s' U :
  sched_inv b s U →
  (∀ x, x ∈ U ++ [T_sentinel] ∨ x = T_deleted → s'.(timers) !! x = s.(timers) !! x) →
  s'.(sst).(timer_list) = s.(sst).(timer_list) →
  s'.(sst).(last_insert) = s.(sst).(last_insert) →
  sched_inv b s' U.
Proof.
  intros [Hc Hok Hl Hll Hd Hst] Hts Htl Hli. constructor; rewrite ?Htl, ?Hli; try done.
  - eapply chain_ext; [|done]. auto.
  - eapply timers_ok_ext; [|done]. intros x Hx. unfold wk. rewrite Hts; auto.
  - rewrite Hts; auto.
Qed.

(** Initialising the memory of a timer that is not in the list. *)
Lemma sched_inv_new_timer b s U t n :
  sched_inv b s U → t ∉ U ++ [T_sentinel] → t ≠ T_deleted →
  sched_inv b (s <| timers ::= <[t := n]> |>) U.
Proof.
  intros [Hc Hok Hl Hll Hd Hst] Ht Htd. constructor; simpl; try done.
  - by apply chain_insert_out.
  - eapply timers_ok_ext; [|done]. intros x Hx. unfold wk.
    rewrite lookup_insert_ne; [done|]. by intros ->.
  - by rewrite lookup_insert_ne.
Qed.

Definition two_timers : mcu :=
  init_mcu <| timers ::= <[T_obj 9 0 := mk_timer None F_null 200]> |>
           <| timers ::= <[T_obj 8 0 := mk_timer None F_null 500]> |>.

Lemma sched_inv_two_timers : sched_inv 0 two_timers [T_periodic].
Proof.
  apply sched_inv_new_timer; [|set_solver|done].
  apply sched_inv_new_timer; [apply sched_inv_init|set_solver|done].
Qed.

Lemma sched_add_timer_refines_witness :
  match sched_add_timer (H := example_board) (T_obj 8 0) two_timers with
  | (Ret _, s') => too_late (H := example_board) two_timers (T_obj 8 0) = false
      ∧ added 0 two_timers [T_periodic] (T_obj 8 0) s'
  | (Shut r, s') => too_close (H := example_board) two_timers (T_obj 8 0) r s'
  | (Stuck _, _) => False
  end.
Proof.
  apply (sched_add_timer_refines (H := example_board) 0 two_timers [T_periodic]
           (T_obj 8 0) sched_inv_two_timers); [set_solver|done|done|by eexists|done].
Defined.

Lemma sched_del_timer_refines_witness :
  match sched_del_timer (T_obj 8 0) two_timers with
  | (Ret _, s') => deleted 0 two_timers [T_periodic] (T_obj 8 0) s'
  | _ => False
  end.
Proof.
  by apply (sched_del_timer_refines 0 two_timers [T_periodic]
              (T_obj 8 0) sched_inv_two_timers).
Defined.
