(* ===== verification/Dispatch.v ===== *)
(** * Dispatching timers and processing shutdowns

    [sched_timer_dispatch] runs the earliest timer and requeues it; the
    obligation of a timer callback is [callback_ok].  The shutdown processing
    rebuilds the list from any state of it. *)

From stdpp Require Import sorting.
From S2P Require Import Prelude.
From S2P Require Import State.
From S2P Require Import Machine.
From S2P Require Import Sched.
From S2P Require Import SchedList.
From S2P Require Import SchedSpec.

(** The list while the callback of its head [t] runs: [t] may already have its
    new wake time, so only the timers [R] behind it are sorted. *)
Record running (b : Z) (s : mcu) (t : timer_id) (R : list timer_id) : Prop := {
  ru_list : s.(sst).(timer_list) = t;
  ru_chain : chain s.(timers) (Some t) (t :: R ++ [T_sentinel]);
  ru_nodup : NoDup (t :: R);
  ru_sentinel : T_sentinel ∉ t :: R;
  ru_periodic : T_periodic ∈ t :: R;
  ru_window : Forall (λ x, off b (wk s.(timers) x) < 2 ^ 31) (t :: R);
  ru_sorted : StronglySorted (wk_le b s.(timers)) R;
  ru_opposite : wk s.(timers) T_sentinel = u32 (wk s.(timers) T_periodic + 2 ^ 31);
  ru_last : s.(sst).(last_insert) ∈ t :: R;
  ru_last_live : s.(sst).(last_insert) ≠ T_deleted;
  ru_deleted : T_deleted ∉ R;
  ru_static : is_Some (s.(timers) !! T_deleted);
}.

(** The list is in this state when the callback starts, and the window can be
    moved up to the wake time of the timer that runs. *)
Lemma sched_inv_running b s t R :
  sched_inv b s (t :: R) → running (wk s.(timers) t) s t R.
Proof.
  intros Hinv. assert (Hc := si_chain _ _ _ Hinv). assert (Hok := si_ok _ _ _ Hinv).
  assert (Hle : ∀ y, y ∈ t :: R →
    off (wk s.(timers) t) (wk s.(timers) y)
    = off b (wk s.(timers) y) - off b (wk s.(timers) t)).
  { intros y Hy. apply off_rebase. by apply (timers_ok_head _ _ _ _ _ Hok). }
  destruct Hc as [[= Hl] Hc]. destruct Hok as [H1 H2 H3 H4 H5 H6].
  constructor; try done; try apply Hinv.
  - rewrite Forall_forall in *. intros y Hy. rewrite Hle by done.
    pose proof (off_range b (wk s.(timers) t)). specialize (H4 y Hy). lia.
  - apply StronglySorted_inv in H5 as [H5 _]. revert H5.
    apply StronglySorted_ext. intros x y Hx Hy. unfold wk_le.
    rewrite !Hle by set_solver. lia.
Qed.

(** The part of the list behind the running timer. *)
Lemma running_tail b s t R :
  running b s t R → t ≠ T_periodic → timers_ok b s.(timers) R.
Proof.
  intros [] Ht. apply NoDup_cons in ru_nodup0 as [_ ?].
  apply Forall_cons in ru_window0 as [_ ?].
  constructor; try done; set_solver.
Qed.

(** [sched_timer_requeue] after a callback that returned SF_DONE. *)
Lemma requeue_done b s t R :
  running b s t R → t ≠ T_periodic →
  wp (sched_timer_requeue t SF_DONE)
    (λ w s', sched_inv b s' R ∧ w = wk s'.(timers) s'.(sst).(timer_list)
             ∧ s'.(timers) = s.(timers) ∧ sched_frame s s')
    (λ _ _, False) s.
Proof.
  intros Hr Ht. assert (Hok := running_tail _ _ _ _ Hr Ht).
  destruct (ru_chain _ _ _ _ Hr) as [_ (n & Hn & Hc)].
  assert (HdR := ru_deleted _ _ _ _ Hr).
  destruct R as [|r R]; [by apply tk_periodic, elem_of_nil in Hok|].
  assert (Hc' := Hc). destruct Hc' as [Hnext (nr & Hnr & _)].
  unfold sched_timer_requeue. wp_steps. eapply wp_read_timer; [done|].
  wp_steps. eapply wp_some; [exact Hnext|]. wp_steps.
  eapply wp_read_timer; [done|]. simpl. wp_steps. rewrite Hnext in Hc.
  assert (Hr' : r ∈ r :: R) by set_solver.
  assert (Hli := ru_last _ _ _ _ Hr). assert (Hll := ru_last_live _ _ _ _ Hr).
  apply wp_when; simpl; intros Hb; wp_steps; simpl.
  - split_and!; [constructor; simpl|by rewrite (wk_lookup _ _ _ Hnr)|done|done];
      try done; [set_solver|set_solver|apply Hr].
  - apply bool_decide_eq_false in Hb.
    split_and!; [constructor; simpl|by rewrite (wk_lookup _ _ _ Hnr)|done|done];
      try done; [set_solver|set_solver|apply Hr].
Qed.

(** A sentinel directly behind the running timer is later than it. *)
Lemma running_alone b s t R :
  running b s t R →
  timer_is_before (wk s.(timers) t) (wk s.(timers) T_sentinel) = true ∨ R ≠ [].
Proof.
  intros Hr. destruct R as [|r R]; [left|by right].
  assert (Hp := ru_periodic _ _ _ _ Hr). apply list_elem_of_singleton in Hp as <-.
  rewrite (ru_opposite _ _ _ _ Hr), timer_is_before_opposite.
  by rewrite timer_is_before_irrefl.
Qed.

Lemma running_list b s t R : running b s t R → list_ok b s.(timers) R.
Proof.
  intros [? ? Hnd Hs ? Hw ? ? ? ? ? ?]. apply NoDup_cons in Hnd as [_ ?].
  apply Forall_cons in Hw as [_ ?]. constructor; try done. set_solver.
Qed.

(** The search for the place of a timer that is rescheduled ends. *)
Lemma running_stops b s t R : running b s t R → stops s.(timers) R (wk s.(timers) t).
Proof.
  intros Hr. destruct (timer_is_before (wk s.(timers) t) (wk s.(timers) T_periodic)) eqn:Hb.
  - exists T_periodic. split; [|done].
    assert (Hp := ru_periodic _ _ _ _ Hr). apply elem_of_cons in Hp as [Hp|Hp]; [|set_solver].
    rewrite <- Hp, timer_is_before_irrefl in Hb. done.
  - exists T_sentinel. split; [set_solver|].
    by rewrite (ru_opposite _ _ _ _ Hr), timer_is_before_opposite, Hb.
Qed.

(** The search from [last_insert], also when that is the timer itself. *)
Lemma running_insert b s t r R pos :
  running b s t (r :: R) → pos ∈ t :: r :: R →
  timer_is_before (wk s.(timers) t) (wk s.(timers) r) = false →
  timer_is_before (wk s.(timers) t) (wk s.(timers) pos) = false →
  ∃ ts', insert_timer_loop (S (size s.(timers))) s.(timers) pos t (wk s.(timers) t)
         = Some ts'
    ∧ chain ts' (Some r) (q_insert (key b s.(timers)) t (r :: R) ++ [T_sentinel])
    ∧ list_ok b ts' (q_insert (key b s.(timers)) t (r :: R))
    ∧ relinked s.(timers) ts' (t :: r :: R).
Proof.
  intros Hr Hpos Hb Hbp. assert (Hok := running_list _ _ _ _ Hr).
  assert (Hst := running_stops _ _ _ _ Hr).
  pose proof (ru_chain _ _ _ _ Hr) as [_ (n & Hn & Hc)]%chain_cons.
  assert (Hnext : n.(next) = Some r) by apply Hc. rewrite Hnext in Hc.
  assert (Hlen : (length (t :: r :: R ++ [T_sentinel]) <= size s.(timers))%nat).
  { apply (chain_length _ (Some t)); [apply Hr|].
    apply (NoDup_app (t :: r :: R) [T_sentinel]). split_and!; [apply Hr| |apply NoDup_singleton].
    intros x Hx ->%list_elem_of_singleton. by apply (ru_sentinel _ _ _ _ Hr). }
  simpl in Hlen. rewrite length_app in Hlen. simpl in Hlen.
  assert (Hnd := ru_nodup _ _ _ _ Hr). apply NoDup_cons in Hnd as [Ht _].
  assert (Hts := ru_sentinel _ _ _ _ Hr).
  assert (Hw := ru_window _ _ _ _ Hr). apply Forall_cons in Hw as [Hw _].
  assert (Hgen : ∀ p fuel, p ∈ r :: R → (S (length R) < fuel)%nat →
    timer_is_before (wk s.(timers) t) (wk s.(timers) p) = false → ∃ ts',
    insert_timer_loop fuel s.(timers) p t (wk s.(timers) t) = Some ts'
    ∧ chain ts' (Some r) (q_insert (key b s.(timers)) t (r :: R) ++ [T_sentinel])
    ∧ list_ok b ts' (q_insert (key b s.(timers)) t (r :: R))
    ∧ relinked s.(timers) ts' (t :: r :: R)).
  { intros p fuel Hp Hf Hbp'.
    apply (insert_ok b _ _ (r :: R)); try done. set_solver. }
  apply elem_of_cons in Hpos as [->|Hpos].
  - destruct (chain_lookup _ _ _ r Hc) as [nr Hnr]; [set_solver|].
    destruct (Hgen r (size s.(timers))) as (ts' & Hl & ?); [set_solver|lia|done|].
    exists ts'. split; [|done]. cbn [insert_timer_loop]. rewrite Hn. simpl.
    rewrite Hnext. simpl. rewrite Hnr. simpl.
    by rewrite <- (wk_lookup _ _ _ Hnr), Hb.
  - apply Hgen; [done|lia|done].
Qed.

(** A running timer whose wake time is not later than the next one's keeps its
    place. *)
Lemma running_sched_inv b s t R :
  running b s t R → t ≠ T_deleted → (∀ y, y ∈ R → wk_le b s.(timers) t y) →
  sched_inv b s (t :: R).
Proof.
  intros Hr Ht Hle. assert (Hr' := Hr). destruct Hr' as [Hl ? ? ? ? ? ? ? ? ? ? ?].
  constructor; try done; [by rewrite Hl|].
  constructor; try done. constructor; [done|]. by apply Forall_forall.
Qed.

Lemma running_before_all b s t r R y :
  running b s t (r :: R) →
  timer_is_before (wk s.(timers) t) (wk s.(timers) r) = true →
  y ∈ r :: R → key b s.(timers) t < key b s.(timers) y.
Proof.
  intros Hr Hb Hy. assert (Hw := ru_window _ _ _ _ Hr). rewrite Forall_forall in Hw.
  rewrite (timer_is_before_off b) in Hb; [|apply Hw; set_solver..].
  apply Z.ltb_lt in Hb. unfold key.
  pose proof (ru_sorted _ _ _ _ Hr) as Hs. apply StronglySorted_inv in Hs as [_ Hs].
  rewrite Forall_forall in Hs. apply elem_of_cons in Hy as [->|Hy]; [done|].
  specialize (Hs y Hy). unfold wk_le in Hs. lia.
Qed.

Lemma running_not_before b s t r R :
  running b s t (r :: R) →
  timer_is_before (wk s.(timers) t) (wk s.(timers) r) = false →
  key b s.(timers) r <= key b s.(timers) t.
Proof.
  intros Hr Hb. assert (Hw := ru_window _ _ _ _ Hr). rewrite Forall_forall in Hw.
  rewrite (timer_is_before_off b) in Hb; [|apply Hw; set_solver..].
  by apply Z.ltb_ge in Hb.
Qed.

(** What [sched_timer_requeue] promises for a timer that is rescheduled. *)
Definition requeued (b : Z) (s : mcu) (t : timer_id) (R : list timer_id)
    (w : Z) (s' : mcu) : Prop :=
  sched_inv b s' (q_insert (key b s.(timers)) t R)
  ∧ w = wk s'.(timers) s'.(sst).(timer_list)
  ∧ relinked s.(timers) s'.(timers) (t :: R) ∧ sched_frame s s'.

Lemma requeued_stays b s t R :
  running b s t R → t ≠ T_deleted →
  (∀ y, y ∈ R → key b s.(timers) t < key b s.(timers) y) →
  requeued b s t R (wk s.(timers) t) s.
Proof.
  intros Hr Htd Hlt. split_and!; [|by rewrite (ru_list _ _ _ _ Hr)|by split_and!|done].
  rewrite q_insert_first by done. apply running_sched_inv; [done..|].
  intros y Hy. specialize (Hlt y Hy). unfold wk_le, key in *. lia.
Qed.

Lemma requeued_moves b s t r R ts' s' :
  running b s t (r :: R) → t ≠ T_deleted →
  timer_is_before (wk s.(timers) t) (wk s.(timers) r) = false →
  chain ts' (Some r) (q_insert (key b s.(timers)) t (r :: R) ++ [T_sentinel]) →
  list_ok b ts' (q_insert (key b s.(timers)) t (r :: R)) →
  relinked s.(timers) ts' (t :: r :: R) →
  s'.(timers) = ts' → s'.(sst).(timer_list) = r → s'.(sst).(last_insert) = t →
  sched_frame s s' →
  requeued b s t (r :: R) (wk s.(timers) r) s'.
Proof.
  intros Hr Htd Hb Hc Hok Hrel Hts Hl Hli Hf. assert (Hrel' := Hrel).
  destruct Hrel' as (Hwk & _ & _). assert (HdR := ru_deleted _ _ _ _ Hr).
  pose proof (running_not_before _ _ _ _ _ Hr Hb) as Hk.
  split_and!; [constructor| | |done]; rewrite ?Hts, ?Hl, ?Hli.
  - done.
  - apply list_ok_timers; [done| |rewrite !Hwk; apply Hr].
    apply q_insert_elem. apply elem_of_cons. apply Hr.
  - apply q_insert_elem. by left.
  - done.
  - simpl. rewrite (proj2 (Z.ltb_ge _ _)) by lia. simpl. rewrite q_insert_elem. set_solver.
  - eapply relinked_is_Some; [done|apply Hr].
  - by rewrite Hwk.
  - done.
Qed.

(** [sched_timer_requeue] after a callback that returned SF_RESCHEDULE. *)
Lemma requeue_reschedule b s t R :
  running b s t R → t ≠ T_deleted →
  wp (sched_timer_requeue t SF_RESCHEDULE) (requeued b s t R) (λ _ _, False) s.
Proof.
  intros Hr Htd. destruct (ru_chain _ _ _ _ Hr) as [_ (n & Hn & Hc)].
  unfold sched_timer_requeue. wp_steps. eapply wp_read_timer; [done|]. wp_steps.
  rewrite <- (wk_lookup _ _ _ Hn). destruct R as [|r R].
  { destruct (running_alone _ _ _ _ Hr) as [Hb|]; [|done].
    destruct Hc as [Hnext (nr & Hnr & Hc)]. eapply wp_some; [exact Hnext|].
    wp_steps. eapply wp_read_timer; [done|]. rewrite <- (wk_lookup _ _ _ Hnr), Hb.
    apply wp_ret, requeued_stays; [done..|set_solver]. }
  destruct Hc as [Hnext (nr & Hnr & Hc)]. eapply wp_some; [exact Hnext|].
  wp_steps. eapply wp_read_timer; [done|]. rewrite <- (wk_lookup _ _ _ Hnr).
  destruct (timer_is_before _ _) eqn:Hb.
  { apply wp_ret, requeued_stays; [done..|]. intros y.
    by apply (running_before_all _ _ _ r R). }
  simpl. wp_steps. simpl.
  destruct (chain_lookup _ _ _ s.(sst).(last_insert) (ru_chain _ _ _ _ Hr)) as [np Hnp].
  { pose proof (ru_last _ _ _ _ Hr). set_solver. }
  eapply wp_read_timer; [exact Hnp|]. rewrite <- (wk_lookup _ _ _ Hnp).
  set (pos := if timer_is_before _ _ then r else _).
  destruct (running_insert b s t r R pos) as (ts' & Hl & Hc' & Hok' & Hrel); [done|..].
  { unfold pos. destruct (timer_is_before (wk _ t) (wk _ (last_insert _))); [|apply Hr].
    apply elem_of_cons. right. by apply elem_of_cons; left. }
  { done. }
  { unfold pos. by destruct (timer_is_before (wk _ t) (wk _ (last_insert _))) eqn:?. }
  wp_steps. eapply wp_insert_timer; [exact Hl|]. wp_steps.
  by eapply requeued_moves.
Qed.

(** ** Dispatch *)

(** What the callback of [t] leaves behind: the list behind [t] well formed
    and an allowed result. *)
Definition callback_post (b : Z) (t : timer_id) (res : Z) (s : mcu) : Prop :=
  ∃ R, running b s t R
    ∧ (res = SF_DONE ∧ t ≠ T_periodic ∨ res = SF_RESCHEDULE ∧ t ≠ T_deleted).

(** The queue [sched_timer_dispatch] leaves after a callback with result [res]
    that ended in [s1] with the timers [R] behind [t]. *)
Definition dispatched (b : Z) (t : timer_id) (res : Z) (s1 : mcu)
    (R : list timer_id) (w : Z) (s' : mcu) : Prop :=
  sched_inv b s' (if res =? SF_DONE then R else q_insert (key b s1.(timers)) t R)
  ∧ w = wk s'.(timers) s'.(sst).(timer_list)
  ∧ relinked s1.(timers) s'.(timers) (t :: R) ∧ sched_frame s1 s'.

Lemma wp_requeue b t res s1 R :
  running b s1 t R →
  (res = SF_DONE ∧ t ≠ T_periodic ∨ res = SF_RESCHEDULE ∧ t ≠ T_deleted) →
  wp (sched_timer_requeue t res) (dispatched b t res s1 R) (λ _ _, False) s1.
Proof.
  intros Hr [[-> Ht]|[-> Ht]].
  - eapply wp_mono; [by apply requeue_done| |done].
    intros w s' (? & ? & Hts & ?). split_and!; [done|done| |done].
    rewrite Hts. by split_and!.
  - by apply requeue_reschedule.
Qed.

(** The states a shutdown may leave: the static timers are there and the
    sentinel is opposite to the periodic timer. *)
Record static_ok (s : mcu) : Prop := {
  so_periodic : is_Some (s.(timers) !! T_periodic);
  so_sentinel : ∃ n, s.(timers) !! T_sentinel = Some n ∧ n.(next) = None;
  so_deleted : is_Some (s.(timers) !! T_deleted);
  so_opposite : wk s.(timers) T_sentinel = u32 (wk s.(timers) T_periodic + 2 ^ 31);
}.

Lemma running_static b s t R : running b s t R → static_ok s.
Proof.
  intros Hr. assert (Hc := ru_chain _ _ _ _ Hr). assert (Hp := ru_periodic _ _ _ _ Hr).
  constructor; [| |apply Hr..].
  - eapply chain_lookup; [exact Hc|set_solver].
  - by apply (chain_end _ _ (t :: R)) in Hc.
Qed.

Lemma sched_inv_static b s U : sched_inv b s U → static_ok s.
Proof.
  intros Hinv. destruct (sched_inv_nonempty _ _ _ Hinv) as (n & R & HU & _).
  rewrite HU in Hinv. eapply running_static. by apply sched_inv_running in Hinv.
Qed.

Section dispatch.
Context `{Board}.

(** The function [sched_timer_dispatch] calls for a timer. *)
Definition invoke (stepper_event : timer_id → M Z) (call : timer_func → timer_id → M Z)
    (f : timer_func) (t : timer_id) : M Z :=
  if CONFIG_INLINE_STEPPER_HACK && bool_decide (f = F_null)
  then stepper_event t else call f t.

Lemma wp_dispatch b s U stepper_event call Q E :
  sched_inv b s U →
  (∀ t n R, U = t :: R → s.(timers) !! t = Some n →
     running (wk s.(timers) t) s t R →
     wp (invoke stepper_event call n.(func) t)
       (λ res s1, ∃ R1, running (wk s.(timers) t) s1 t R1
          ∧ (res = SF_DONE ∧ t ≠ T_periodic ∨ res = SF_RESCHEDULE ∧ t ≠ T_deleted)
          ∧ ∀ w s', dispatched (wk s.(timers) t) t res s1 R1 w s' → Q w s') E s) →
  wp (sched_timer_dispatch stepper_event call) Q E s.
Proof.
  intros Hinv Hcb. destruct (sched_inv_nonempty _ _ _ Hinv) as (n & R & HU & Hn & _).
  rewrite HU in Hinv. specialize (Hcb _ _ _ HU Hn (sched_inv_running _ _ _ _ Hinv)).
  unfold sched_timer_dispatch. wp_steps. eapply wp_read_timer; [done|]. wp_steps.
  eapply wp_mono; [exact Hcb| |done]. intros res s1 (R1 & Hr & Hres & HQ).
  eapply wp_mono; [by apply wp_requeue|done|done].
Qed.

(** A callback that only changes the wake time of its own timer. *)
Record rewaked (t : timer_id) (s s' : mcu) : Prop := {
  rw_self : ∃ n w, s.(timers) !! t = Some n ∧ s'.(timers) !! t = Some (n <| waketime := w |>);
  rw_other : ∀ x, x ≠ t → s'.(timers) !! x = s.(timers) !! x;
  rw_sst : s'.(sst) = s.(sst);
}.

Lemma rewaked_same t s s' n :
  s.(timers) !! t = Some n → s'.(timers) = s.(timers) → s'.(sst) = s.(sst) → rewaked t s s'.
Proof.
  intros Hn Ht Hs. constructor; rewrite ?Ht; [|done|done].
  exists n, n.(waketime). split; [done|]. rewrite Hn. by destruct n.
Qed.

Lemma rewaked_alter t s s' n w :
  s.(timers) !! t = Some n →
  s'.(timers) = alter (λ r, r <| waketime := w |>) t s.(timers) →
  s'.(sst) = s.(sst) → rewaked t s s'.
Proof.
  intros Hn Ht Hs. constructor; rewrite ?Ht; [|intros x Hx; by rewrite lookup_alter_ne|done].
  exists n, w. split; [done|]. by rewrite lookup_alter, decide_True, Hn.
Qed.

Lemma rewaked_wk t s s' x : rewaked t s s' → x ≠ t → wk s'.(timers) x = wk s.(timers) x.
Proof. intros [_ Ho _] Hx. unfold wk. by rewrite Ho. Qed.

Lemma rewaked_chain t s s' p L :
  rewaked t s s' → chain s.(timers) p L → chain s'.(timers) p L.
Proof.
  intros [(n & w & Hn & Hn') Ho _]. revert p. induction L as [|a L IH]; simpl; [done|].
  intros p [-> (m & Hm & HL)]. split; [done|]. destruct (decide (a = t)) as [->|Hne].
  - simplify_eq. eexists. split; [done|]. by apply IH.
  - exists m. rewrite Ho by done. auto.
Qed.

Lemma running_rewaked b s s' t R :
  running b s t R → rewaked t s s' → t ≠ T_periodic →
  off b (wk s'.(timers) t) < 2 ^ 31 → running b s' t R.
Proof.
  intros [Hl Hc Hnd Hs Hp Hw Hsort Hopp Hli Hll Hd Hst] Hr Ht Hoff.
  assert (Hsst := rw_sst _ _ _ Hr). assert (HtR : t ∉ R) by by apply NoDup_cons in Hnd as [].
  assert (HwR : ∀ x, x ∈ R → wk s'.(timers) x = wk s.(timers) x).
  { intros x Hx. apply (rewaked_wk t); [done|]. by intros ->. }
  constructor; rewrite ?Hsst; try done.
  - by eapply rewaked_chain.
  - apply Forall_cons in Hw as [_ Hw]. apply Forall_cons. split; [done|].
    rewrite Forall_forall in *. intros x Hx. rewrite HwR by done. auto.
  - eapply wk_le_ext; [|done]. intros x Hx. by rewrite HwR.
  - assert (T_sentinel ≠ t) by (intros <-; set_solver).
    rewrite (rewaked_wk t s _ T_sentinel), (rewaked_wk t s _ T_periodic) by congruence. done.
  - destruct (decide (T_deleted = t)) as [<-|Hne].
    + destruct (rw_self _ _ _ Hr) as (n & w & _ & ->). by eexists.
    + by rewrite (rw_other _ _ _ Hr).
Qed.

(** ** The static callbacks meet their obligation *)

Lemma deleted_event_ok b s R :
  running b s T_deleted R →
  wp (deleted_event T_deleted) (callback_post b T_deleted) (λ _ _, False) s.
Proof. intros Hr. apply wp_ret. exists R. split; [done|by left]. Qed.

(** Moving the periodic timer on by [d] and the sentinel with it. *)
Lemma running_periodic s s' R np d :
  running (wk s.(timers) T_periodic) s T_periodic R → 0 < d < 2 ^ 31 →
  s.(timers) !! T_periodic = Some np →
  s'.(timers) = alter (λ r, r <| waketime := u32 (u32 (np.(waketime) + d) + 2 ^ 31) |>)
    T_sentinel (alter (λ r, r <| waketime := u32 (np.(waketime) + d) |>)
    T_periodic s.(timers)) →
  s'.(sst).(timer_list) = s.(sst).(timer_list) →
  s'.(sst).(last_insert) = s.(sst).(last_insert) →
  running (wk s.(timers) T_periodic) s' T_periodic R.
Proof.
  intros [Hl Hc Hnd Hs Hp Hw Hsort Hopp Hli Hll Hd Hst] Hdd Hnp Hts Htl Hlast.
  destruct (chain_lookup _ _ _ T_sentinel Hc) as [ns Hns]; [set_solver|].
  assert (Hwp : wk s'.(timers) T_periodic = u32 (np.(waketime) + d)).
  { rewrite Hts, wk_alter_ne by done. by erewrite wk_alter_eq by done. }
  assert (HnR : T_periodic ∉ R ∧ T_sentinel ∉ R).
  { apply NoDup_cons in Hnd as []. set_solver. }
  assert (HwR : ∀ x, x ∈ R → wk s'.(timers) x = wk s.(timers) x).
  { intros x Hx. rewrite Hts, !wk_alter_ne; [done|set_solver..]. }
  constructor; try done; rewrite ?Htl, ?Hlast; try done.
  - rewrite Hts.
    do 2 (apply (chain_alter_keep _ _ (T_periodic :: R ++ [T_sentinel])); [done|]). done.
  - apply Forall_cons in Hw as [_ Hw]. apply Forall_cons. split.
    + rewrite Hwp, off_u32, (wk_lookup _ _ _ Hnp). unfold off.
      rewrite Z.add_simpl_l, u32_small; lia.
    + rewrite Forall_forall in *. intros x Hx. rewrite HwR by done. auto.
  - eapply wk_le_ext; [|done]. intros x Hx. by rewrite HwR.
  - rewrite Hwp, Hts. by erewrite wk_alter_eq by (by rewrite lookup_alter_ne).
  - rewrite Hts. by rewrite !lookup_alter_ne.
Qed.

Lemma periodic_event_ok s R :
  0 < timer_from_us 100000 < 2 ^ 31 →
  running (wk s.(timers) T_periodic) s T_periodic R →
  wp (periodic_event T_periodic)
    (callback_post (wk s.(timers) T_periodic) T_periodic) (λ _ _, False) s.
Proof.
  intros Hus Hr. destruct (so_periodic _ (running_static _ _ _ _ Hr)) as [np Hnp].
  unfold periodic_event. wp_steps. eapply wp_read_timer; [done|]. wp_steps.
  eapply wp_read_timer.
  { simpl. by rewrite lookup_alter, decide_True, Hnp by done. }
  wp_steps. exists R. split; [|by right]. by eapply running_periodic.
Qed.

(** ** Shutdown *)

(** [sched_timer_reset] rebuilds the list, whatever state it was in. *)
Lemma wp_sched_timer_reset s :
  static_ok s →
  wp sched_timer_reset
    (λ _ s', sched_inv (wk s.(timers) T_periodic) s' [T_deleted; T_periodic]
             ∧ (∀ x, x ≠ T_deleted → wk s'.(timers) x = wk s.(timers) x)
             ∧ sched_frame s s')
    (λ _ _, False) s.
Proof.
  intros [[np Hp] (ns & Hs & Hend) [nd Hd] Hopp]. unfold sched_timer_reset. wp_steps.
  eapply wp_read_timer; [exact Hp|]. wp_steps.
  match goal with |- sched_inv _ ?s1 _ ∧ _ => set (s' := s1) end.
  assert (Hts : s'.(timers) = alter (λ r, r <| next := Some T_sentinel |>) T_periodic
     (alter (λ r, r <| next := Some T_periodic |>) T_deleted
       (alter (λ r, r <| waketime := u32 np.(waketime) |>) T_deleted s.(timers)))) by done.
  assert (Hd' : s'.(timers) !! T_deleted
      = Some (nd <| waketime := u32 np.(waketime) |> <| next := Some T_periodic |>)).
  { rewrite Hts, lookup_alter_ne by done. by rewrite !lookup_alter, !decide_True, Hd by done. }
  assert (Hp' : s'.(timers) !! T_periodic = Some (np <| next := Some T_sentinel |>)).
  { rewrite Hts, lookup_alter, decide_True by done. by rewrite !lookup_alter_ne, Hp by done. }
  assert (Hs' : s'.(timers) !! T_sentinel = Some ns).
  { by rewrite Hts, !lookup_alter_ne. }
  assert (Hwk : ∀ x, x ≠ T_deleted → wk s'.(timers) x = wk s.(timers) x).
  { intros x Hx. rewrite Hts, wk_alter_keep, !wk_alter_ne by done. done. }
  split_and!; [constructor|done|done];
    [| |simpl; set_solver|done|simpl; set_solver|by eexists].
  - split; [done|]. eexists. split; [exact Hd'|]. split; [done|]. eexists.
    split; [exact Hp'|]. split; [done|]. by eexists.
  - assert (Hw0 : ∀ x, x ∈ [T_deleted; T_periodic] →
       off (wk s.(timers) T_periodic) (wk s'.(timers) x) = 0).
    { intros x [->|[->|[]%elem_of_nil]%elem_of_cons]%elem_of_cons;
        rewrite (wk_lookup _ _ _ Hp); [rewrite (wk_lookup _ _ _ Hd')|
        rewrite (wk_lookup _ _ _ Hp')]; simpl; rewrite ?off_u32; apply off_refl. }
    constructor; [|set_solver|set_solver|..|by rewrite !Hwk].
    + apply NoDup_cons. split; [set_solver|apply NoDup_singleton].
    + apply Forall_forall. intros x Hx. by rewrite Hw0.
    + repeat constructor. unfold wk_le. rewrite !Hw0 by set_solver. done.
Qed.

(** What [run_shutdown] promises, from any memory with intact static timers:
    the list is well formed again, the machine is shut down with the first
    reason, interrupts are on. *)
Definition recovered (s : mcu) (reason : string) (s' : mcu) : Prop :=
  (∃ b U, sched_inv b s' U)
  ∧ s'.(sst).(shutdown_status) = 1
  ∧ s'.(sst).(shutdown_reason)
    = (if s.(sst).(shutdown_status) =? 0 then reason else s.(sst).(shutdown_reason))
  ∧ s'.(irq) = true.

(** The obligation of the DECL_SHUTDOWN handlers, which run with interrupts
    off and in shutdown status 2. *)
Definition shutdownfuncs_ok (shutdownfuncs : M unit) : Prop :=
  ∀ b s U, sched_inv b s U → s.(sst).(shutdown_status) = 2 →
  wp shutdownfuncs
    (λ _ s', (∃ b' U', sched_inv b' s' U')
      ∧ s'.(sst).(shutdown_reason) = s.(sst).(shutdown_reason))
    (λ _ _, False) s.

Lemma sched_inv_sst b s s' U :
  sched_inv b s U → s'.(timers) = s.(timers) →
  s'.(sst).(timer_list) = s.(sst).(timer_list) →
  s'.(sst).(last_insert) = s.(sst).(last_insert) → sched_inv b s' U.
Proof. intros [] Ht Hl Hi. constructor; rewrite ?Ht, ?Hl, ?Hi; done. Qed.

Lemma sched_inv_sent b s U fmt args :
  sched_inv b s U → sched_inv b (sent fmt args s) U.
Proof.
  intros Hinv. destruct (sched_frame_sent fmt args s) as (Ht & Hs & _).
  eapply sched_inv_sst; [exact Hinv|done|by rewrite <- Hs..].
Qed.

Lemma static_ok_timers s s' :
  static_ok s → s'.(timers) = s.(timers) → static_ok s'.
Proof. intros [] Ht. constructor; by rewrite Ht. Qed.

Lemma wp_run_shutdown shutdownfuncs reason s :
  static_ok s → shutdownfuncs_ok shutdownfuncs →
  wp (run_shutdown shutdownfuncs reason) (λ _, recovered s reason) (λ _ _, False) s.
Proof.
  intros Hs Hf. unfold run_shutdown. wp_steps.
  set (s1 := s <| irq := false |> <| reads ::= S |>).
  apply (wp_mono _ (λ _ s2, s2.(timers) = s.(timers) ∧ s2.(sst).(shutdown_reason)
     = if s.(sst).(shutdown_status) =? 0 then reason else s.(sst).(shutdown_reason))
     _ (λ _ _, False)); [|clear s1|done].
  { apply wp_when; intros Hst; wp_steps; simpl; simpl in Hst; by rewrite Hst. }
  intros [] s2 [Ht2 Hr2]. wp_steps.
  eapply wp_mono; [apply wp_sched_timer_reset; by apply (static_ok_timers s)| |done].
  intros [] s3 (Hinv & _ & Hfr). wp_steps.
  eapply wp_mono; [by eapply Hf; [|destruct Hfr]| |done].
  intros [] s4 ((b & U & Hinv4) & Hr4). wp_steps.
  match goal with |- recovered _ _ (sent ?f ?a ?s5) =>
    destruct (sched_frame_sent f a s5) as (Ht & Hst & [Hi _ _ _ _ _ _ _ _ _]) end.
  split_and!.
  - exists b, U. apply sched_inv_sent. by apply (sched_inv_sst b s4).
  - by rewrite <- Hst.
  - rewrite <- Hst. simpl. rewrite Hr4, (sf_reason _ _ Hfr). done.
  - by rewrite Hi.
Qed.

End dispatch.

(** ** The theorems about dispatch and shutdown *)


(** The periodic timer keeps the sentinel half a turn of the clock ahead of
    itself and always asks to be rescheduled, as the search loops rely on. *)
Theorem periodic_event_keeps_sentinel `{Board} s R :
  0 < timer_from_us 100000 < 2 ^ 31 →
  running (wk s.(timers) T_periodic) s T_periodic R →
  match periodic_event T_periodic s with
  | (Ret res, s') => res = SF_RESCHEDULE
      ∧ callback_post (wk s.(timers) T_periodic) T_periodic res s'
  | _ => False
  end.
Proof.
  intros Hus Hr. pose proof (periodic_event_ok s R Hus Hr) as Hwp. unfold wp in Hwp.
  destruct (periodic_event T_periodic s) as [[res| |] s']; [|done..].
  split; [|done]. by destruct Hwp as (R' & _ & [[_ ?]|[? _]]).
Qed.

(** C34: Shutdown processing recovers from any state of the timer list: the
    list consists of well-ordered timers again, the first reason is kept, the
    status is 1 and interrupts are enabled. *)
Theorem run_shutdown_recovers `{Board} shutdownfuncs reason s :
  static_ok s → shutdownfuncs_ok shutdownfuncs →
  match run_shutdown shutdownfuncs reason s with
  | (Ret _, s') => recovered s reason s'
  | _ => False
  end.
Proof.
  intros Hs Hf. pose proof (wp_run_shutdown shutdownfuncs reason s Hs Hf) as Hwp.
  unfold wp in Hwp. by destruct (run_shutdown shutdownfuncs reason s) as [[] ?].
Qed.

(** *** Examples *)

(** The callbacks of the static timers; other timers are stopped. *)
Definition static_call `{Board} (f : timer_func) (t : timer_id) : M Z :=
  match f with
  | F_periodic_event => periodic_event t
  | F_sentinel_event => sentinel_event t
  | _ => deleted_event t
  end.


Lemma periodic_event_keeps_sentinel_witness :
  let b := example_board in
  match periodic_event T_periodic init_mcu with
  | (Ret res, s') => res = SF_RESCHEDULE
      ∧ callback_post (wk init_mcu.(timers) T_periodic) T_periodic res s'
  | _ => False
  end.
Proof.
  intros b. apply (periodic_event_keeps_sentinel init_mcu []); [done|].
  apply (sched_inv_running 0). apply sched_inv_init.
Defined.

Lemma run_shutdown_recovers_witness :
  let b := example_board in
  match run_shutdown (mret tt) "Timer too close" two_timers with
  | (Ret _, s') => recovered two_timers "Timer too close" s'
  | _ => False
  end.
Proof.
  intros b. apply (run_shutdown_recovers (mret tt) "Timer too close" two_timers).
  - eapply sched_inv_static, sched_inv_two_timers.
  - intros b' s U Hinv _. apply wp_ret. split; [by exists b', U|done].
Defined.
