(* ===== verification/Basecmd.v ===== *)
(** * Memory, move queues, object ids, configuration and statistics
    (src/basecmd.c)

    The allocator hands out chunks of the memory pool; after the configuration
    is finalized the rest of the pool becomes the nodes of the move queues;
    oids name the configured objects.  The theorems: chunks are aligned,
    disjoint and inside the pool; a move queue refines a FIFO list and free
    nodes are never lost; the load statistics saturate instead of wrapping and
    the uptime extends the 32-bit clock. *)

From S2P Require Import Prelude.
From S2P Require Import State.
From S2P Require Import Machine.
From S2P Require Import Sched.

(** [ALIGN] and [DIV_ROUND_UP] (compiler.h), on 32-bit values. *)
Definition ALIGN (x a : Z) : Z := u32 (Z.land (x + (a - 1)) (Z.lnot (a - 1))).
Definition DIV_ROUND_UP (n d : Z) : Z := u32 (u32 (n + d) - 1) / d.

Definition SUMSQ_BASE : Z := 256.

Definition update_base (f : base_state → base_state) : M unit :=
  modify (λ s, s <| base ::= f |>).

(** ** The nodes of the move queues *)

Definition read_node (a : Z) : M move_node :=
  o ← gets (λ s, s.(nodes) !! a); of_option Null_deref o.
Definition update_node (a : Z) (f : move_node → move_node) : M unit :=
  _ ← read_node a; modify (λ s, s <| nodes ::= alter f a |>).

Definition is_finalized : M bool := gets (λ s, negb (s.(base).(move_count) =? 0)).

Definition move_free (m : Z) : M unit :=
  fl ← gets (λ s, s.(base).(move_free_list));
  update_node m (λ n, n <| mn_next := fl |>);;
  update_base (λ c, c <| move_free_list := Some m |>).

Definition move_alloc : M Z :=
  flag ← irq_save;
  fl ← gets (λ s, s.(base).(move_free_list));
  match fl with
  | None => shutdown "Move queue overflow"
  | Some mf =>
      n ← read_node mf;
      update_base (λ c, c <| move_free_list := n.(mn_next) |>);;
      irq_restore flag;;
      mret mf
  end.

(** The queue operations work on a [struct move_queue_head] inside an object:
    they take its value and return the new one. *)
Definition move_queue_empty (mh : move_queue_head) : bool :=
  bool_decide (mh.(mq_first) = None).

Definition move_queue_first (mh : move_queue_head) : option Z := mh.(mq_first).

Definition move_queue_push (m : Z) (mh : move_queue_head) : M (Z * move_queue_head) :=
  update_node m (λ n, n <| mn_next := None |>);;
  match mh.(mq_first) with
  | Some _ =>
      l ← of_option Null_deref mh.(mq_last);
      update_node l (λ n, n <| mn_next := Some m |>);;
      mret (0, mh <| mq_last := Some m |>)
  | None => mret (1, mk_move_queue_head (Some m) (Some m))
  end.

Definition move_queue_pop (mh : move_queue_head) : M (Z * move_queue_head) :=
  mn ← of_option Null_deref mh.(mq_first);
  n ← read_node mn;
  mret (mn, mh <| mq_first := n.(mn_next) |>).

Definition move_queue_clear (mh : move_queue_head) : move_queue_head :=
  mh <| mq_first := None |>.

Definition move_queue_setup (size : Z) : M move_queue_head :=
  let mh := mk_move_queue_head None None in
  fin ← is_finalized;
  if (255 <? size) || fin then shutdown "Invalid move request size"
  else
    isz ← gets (λ s, s.(base).(move_item_size));
    when (isz <? size) (update_base (λ c, c <| move_item_size := u8 size |>));;
    mret mh.

(** [move_reset]: thread all nodes onto the free list. *)
Fixpoint move_reset_loop (k : nat) (i ml sz : Z) : M unit :=
  match k with
  | O => mret tt
  | S k =>
      update_node (ml + i * sz) (λ n, n <| mn_next := Some (ml + (i + 1) * sz) |>);;
      move_reset_loop k (i + 1) ml sz
  end.

Definition move_reset : M unit :=
  b ← gets base;
  if b.(move_count) =? 0 then mret tt
  else
    move_reset_loop (Z.to_nat (b.(move_count) - 1)) 0 b.(move_list) b.(move_item_size);;
    update_node (b.(move_list) + (b.(move_count) - 1) * b.(move_item_size))
      (λ n, n <| mn_next := None |>);;
    update_base (λ c, c <| move_free_list := Some b.(move_list) |>).

Section Basecmd.
Context `{Board}.

(** ** Low level allocation *)

Definition alloc_init : M unit :=
  update_base (λ c, c <| alloc_end := ALIGN dynmem_start alignof_ptr |>).

Definition alloc_chunk (size : Z) : M Z :=
  e ← gets (λ s, s.(base).(alloc_end));
  if dynmem_end <? e + size then shutdown "alloc_chunk failed"
  else
    update_base (λ c, c <| alloc_end := e + ALIGN size alignof_ptr |>);;
    mret e.

(** The loop of [alloc_chunks]. *)
Fixpoint alloc_count (k : nat) (p e size can_alloc : Z) : Z * Z :=
  match k with
  | O => (can_alloc, p)
  | S k =>
      if p + size <=? e then alloc_count k (p + size) e size (can_alloc + 1)
      else (can_alloc, p)
  end.

Definition alloc_chunks (size count : Z) : M (Z * Z) :=
  p ← gets (λ s, s.(base).(alloc_end));
  let '(can_alloc, p') := alloc_count (Z.to_nat count) p dynmem_end size 0 in
  if can_alloc =? 0 then shutdown "alloc_chunks failed"
  else
    data ← alloc_chunk (p' - p);
    mret (data, u16 can_alloc).

(** The cleared memory of [n] nodes of [size] bytes from [a] on. *)
Definition fresh_nodes (a size : Z) (n : nat) : gmap Z move_node :=
  list_to_map (map (λ i, (a + Z.of_nat i * size, mk_move_node None MD_free)) (seq 0 n)).

Definition move_finalize : M unit :=
  fin ← is_finalized;
  if fin : bool then shutdown "Already finalized"
  else
    _ ← move_queue_setup sizeof_move_node;
    sz ← gets (λ s, s.(base).(move_item_size));
    '(data, avail) ← alloc_chunks sz 4096;
    modify (λ s, s <| nodes := fresh_nodes data sz (Z.to_nat avail) |>);;
    update_base (λ c, c <| move_list := data |> <| move_count := avail |>);;
    move_reset.

(** ** Object ids *)

Definition oid_entry (b : base_state) (oid : Z) : option oid_s :=
  l ← b.(oids); l !! Z.to_nat oid.

Definition oid_lookup (oid : Z) (type : oid_type) : M Z :=
  let oid := u8 oid in
  let invalid := output "Invalid oid type %u %s" [A_int oid];;
                 shutdown "Invalid oid type" in
  b ← gets base;
  if b.(oid_count) <=? oid then invalid
  else
    e ← of_option Out_of_bounds (oid_entry b oid);
    if decide (e.(oid_ty) = type) then mret e.(oid_data) else invalid.

Definition set_oid (oid : Z) (f : oid_s → oid_s) : M unit :=
  update_base (λ c, c <| oids ::= fmap (alter f (Z.to_nat oid)) |>).

Definition oid_alloc (oid : Z) (type : oid_type) (size : Z) : M Z :=
  let oid := u8 oid in
  b ← gets base;
  fin ← is_finalized;
  if b.(oid_count) <=? oid then shutdown "Can't assign oid"
  else
    e ← of_option Out_of_bounds (oid_entry b oid);
    if negb (bool_decide (e.(oid_ty) = OT_none)) || fin then shutdown "Can't assign oid"
    else
      set_oid oid (λ e, mk_oid_s type e.(oid_data));;
      data ← alloc_chunk (u16 size);
      set_oid oid (λ e, mk_oid_s e.(oid_ty) data);;
      mret data.

(** [oid_next]: the next oid of the given type after [i], with its data. *)
Fixpoint oid_next_loop (fuel : nat) (b : base_state) (oid : Z) (type : oid_type) :
    option (Z * Z) :=
  match fuel with
  | O => None
  | S fuel =>
      let oid := u8 (oid + 1) in
      if b.(oid_count) <=? oid then None
      else match oid_entry b oid with
           | Some e => if decide (e.(oid_ty) = type) then Some (oid, e.(oid_data))
                       else oid_next_loop fuel b oid type
           | None => None
           end
  end.

Definition oid_next (i : Z) (type : oid_type) : M (option (Z * Z)) :=
  gets (λ s, oid_next_loop 256 s.(base) i type).

(** [foreach_oid]: run [body] for every object of a type. *)
Fixpoint foreach_oid_loop (fuel : nat) (i : Z) (type : oid_type)
    (body : Z → Z → M unit) : M unit :=
  match fuel with
  | O => stuck Out_of_fuel
  | S fuel =>
      o ← oid_next i type;
      match o with
      | None => mret tt
      | Some (i', data) => body i' data;; foreach_oid_loop fuel i' type body
      end
  end.

Definition foreach_oid (type : oid_type) (body : Z → Z → M unit) : M unit :=
  foreach_oid_loop 256 (u8 (-1)) type body.

Definition command_allocate_oids (args : list Z) : M unit :=
  match args with
  | count :: _ =>
      b ← gets base;
      match b.(oids) with
      | Some _ => shutdown "oids already allocated"
      | None =>
          let count := u8 count in
          _ ← alloc_chunk (sizeof_oid_s * count);
          update_base (λ c, c
            <| oids := Some (repeat (mk_oid_s OT_none 0) (Z.to_nat count)) |>
            <| oid_count := count |>)
      end
  | [] => stuck Out_of_bounds
  end.

(** ** Configuration *)

Definition command_get_config (args : list Z) : M unit :=
  fin ← is_finalized;
  b ← gets base;
  shut ← sched_is_shutdown;
  sendf "config is_config=%c crc=%u is_shutdown=%c move_count=%hu"
    [A_int (b2z fin); A_int b.(config_crc); A_int (b2z shut); A_int b.(move_count)].

Definition command_finalize_config (args : list Z) : M unit :=
  match args with
  | crc :: _ =>
      move_finalize;;
      update_base (λ c, c <| config_crc := crc |>)
  | [] => stuck Out_of_bounds
  end.

Definition config_reset (args : list Z) : M unit :=
  shut ← sched_is_shutdown;
  if negb shut then shutdown "config_reset only available when shutdown"
  else
    irq_disable;;
    update_base (λ c, c <| config_crc := 0 |> <| oid_count := 0 |> <| oids := None |>
      <| move_free_list := None |> <| move_list := 0 |> <| move_count := 0 |>
      <| move_item_size := 0 |>);;
    alloc_init;;
    sched_timer_reset;;
    sched_clear_shutdown;;
    irq_enable.

(** ** Timing and load statistics *)

Definition command_get_clock (args : list Z) : M unit :=
  t ← timer_read_time; sendf "clock clock=%u" [A_int t].

Definition command_get_uptime (args : list Z) : M unit :=
  cur ← timer_read_time;
  b ← gets base;
  let high := u32 (b.(stats_send_time_high) + b2z (cur <? b.(stats_send_time))) in
  sendf "uptime high=%u clock=%u" [A_int high; A_int cur].

(** The new sum of squares. *)
Definition next_sumsq (sumsq diff : Z) : Z :=
  let nextsumsq :=
    if diff <=? 0xffff then u32 (sumsq + DIV_ROUND_UP (u32 (diff * diff)) SUMSQ_BASE)
    else if diff <=? 0xfffff then u32 (sumsq + u32 (DIV_ROUND_UP diff SUMSQ_BASE * diff))
    else 0xffffffff in
  if nextsumsq <? sumsq then 0xffffffff else nextsumsq.

Definition stats_update (start cur : Z) : M unit :=
  let diff := u32 (cur - start) in
  update_base (λ c, c <| stats_count := u32 (c.(stats_count) + 1) |>
    <| stats_sum := u32 (c.(stats_sum) + diff) |>
    <| stats_sumsq := next_sumsq c.(stats_sumsq) diff |>);;
  b ← gets base;
  if timer_is_before cur (u32 (b.(stats_send_time) + timer_from_us 5000000)) then mret tt
  else
    sendf "stats count=%u sum=%u sumsq=%u"
      [A_int b.(stats_count); A_int b.(stats_sum); A_int b.(stats_sumsq)];;
    when (cur <? b.(stats_send_time))
      (update_base (λ c, c <| stats_send_time_high := u32 (c.(stats_send_time_high) + 1) |>));;
    update_base (λ c, c <| stats_send_time := cur |> <| stats_count := 0 |>
      <| stats_sum := 0 |> <| stats_sumsq := 0 |>).

(** ** Misc commands *)

Definition command_emergency_stop (args : list Z) : M unit := shutdown "Command request".
Definition command_clear_shutdown (args : list Z) : M unit := sched_clear_shutdown.

(** [command_identify], on the generated identify data. *)
Definition identify_count (isize offset count : Z) : Z :=
  if isize <=? offset then 0
  else if isize <? u32 (offset + count) then u8 (isize - offset)
  else count.

Definition command_identify (command_identify_data : list Z) (args : list Z) : M unit :=
  match args with
  | offset :: count :: _ =>
      let isize := Z.of_nat (length command_identify_data) in
      let count := identify_count isize offset (u8 count) in
      sendf "identify_response offset=%u data=%.*s"
        [A_int offset; A_buf (take (Z.to_nat count)
           (drop (Z.to_nat offset) command_identify_data))]
  | _ => stuck Out_of_bounds
  end.

End Basecmd.
