(* ===== verification/BasecmdSpec.v ===== *)
(** * The theorems about basecmd.c

    The allocator, the move queues, the object ids and the statistics. *)

From stdpp Require Import sorting.
From S2P Require Import Prelude.
From S2P Require Import State.
From S2P Require Import Machine.
From S2P Require Import Sched.
From S2P Require Import Basecmd.

(** ** Allocation *)

Lemma ALIGN_pow2 x k :
  0 <= k → 0 <= x → x + 2 ^ k <= 2 ^ 32 →
  ALIGN x (2 ^ k) = (x + (2 ^ k - 1)) / 2 ^ k * 2 ^ k.
Proof.
  intros Hk Hx Hb. unfold ALIGN.
  rewrite <- Z.ldiff_land, Z.sub_1_r, <- Z.ones_equiv, Z.ldiff_ones_r by done.
  rewrite Z.shiftl_mul_pow2, Z.shiftr_div_pow2 by done.
  pose proof (Z.pow_pos_nonneg 2 k ltac:(lia) Hk).
  rewrite Z.ones_equiv. apply u32_small.
  pose proof (Z.mul_div_le (x + Z.pred (2 ^ k)) (2 ^ k) ltac:(lia)).
  assert (0 <= (x + Z.pred (2 ^ k)) / 2 ^ k) by (apply Z.div_pos; lia). nia.
Qed.

Lemma ALIGN_spec x k :
  0 <= k → 0 <= x → x + 2 ^ k <= 2 ^ 32 →
  x <= ALIGN x (2 ^ k) < x + 2 ^ k ∧ (2 ^ k | ALIGN x (2 ^ k)).
Proof.
  intros Hk Hx Hb. rewrite ALIGN_pow2 by done.
  pose proof (Z.pow_pos_nonneg 2 k ltac:(lia) Hk).
  split; [|by exists ((x + (2 ^ k - 1)) / 2 ^ k)].
  pose proof (Z.div_mod (x + (2 ^ k - 1)) (2 ^ k) ltac:(lia)).
  pose proof (Z.mod_pos_bound (x + (2 ^ k - 1)) (2 ^ k) ltac:(lia)). lia.
Qed.

#[export] Instance op_update_base f :
  Op (update_base f) (λ _, tt) (λ s, s <| base ::= f |>).
Proof. done. Qed.
#[export] Instance op_is_finalized :
  Op is_finalized (λ s, negb (s.(base).(move_count) =? 0)) (λ s, s).
Proof. done. Qed.

Section alloc.
Context `{Board}.

(** What the code relies on: pointers are aligned to a power of two, the pool
    starts at an aligned address and ends below the top of memory. *)
Record pool_layout (k : Z) : Prop := {
  pl_k : 0 <= k <= 16;
  pl_align : alignof_ptr = 2 ^ k;
  pl_start : (2 ^ k | dynmem_start);
  pl_pool : 0 <= dynmem_start <= dynmem_end;
  pl_top : dynmem_end + 2 ^ 17 <= 2 ^ 32;
}.

(** The allocation pointer is inside the pool and aligned. *)
Record alloc_ok (k : Z) (s : mcu) : Prop := {
  ao_start : dynmem_start <= s.(base).(alloc_end);
  ao_align : (2 ^ k | s.(base).(alloc_end));
}.

Lemma wp_alloc_chunk k s size :
  pool_layout k → alloc_ok k s → 0 <= size →
  wp (alloc_chunk size)
    (λ a s', a = s.(base).(alloc_end) ∧ a + size <= dynmem_end
       ∧ a + size <= s'.(base).(alloc_end) ∧ alloc_ok k s')
    (λ r s', r = "alloc_chunk failed" ∧ dynmem_end < s.(base).(alloc_end) + size) s.
Proof.
  intros [Hk Ha Hst Hp Ht] [Ho1 Ho2] Hsz. unfold alloc_chunk. wp_steps.
  destruct (Z.ltb_spec dynmem_end (s.(base).(alloc_end) + size)).
  { by apply wp_shutdown. }
  assert (2 ^ k <= 2 ^ 16) by (apply Z.pow_le_mono_r; lia).
  wp_steps. simpl. destruct (ALIGN_spec size k) as [Hal Hdiv]; [lia..|].
  rewrite Ha. split_and!; [done|done|lia|]. constructor; simpl; [lia|].
  by apply Z.divide_add_r.
Qed.

(** [alloc_count] stops when the pool is exhausted or [count] is reached. *)
Lemma alloc_count_spec k p e size c :
  0 < size →
  let n := Z.max 0 (Z.min (Z.of_nat k) ((e - p) / size)) in
  alloc_count k p e size c = (c + n, p + n * size).
Proof.
  intros Hsz. revert p c. induction k as [|k IH]; intros p c; simpl.
  - rewrite Z.max_l by lia. f_equal; lia.
  - destruct (Z.leb_spec (p + size) e).
    + rewrite IH. replace (e - (p + size)) with (e - p + (-1) * size) by lia.
      rewrite Z.div_add by lia.
      assert (1 <= (e - p) / size) by (apply Z.div_le_lower_bound; lia).
      f_equal; lia.
    + assert ((e - p) / size < 1) by (apply Z.div_lt_upper_bound; lia).
      rewrite Z.max_l by lia. f_equal; lia.
Qed.

End alloc.

(** The chunks [a, a+size) a sequence of allocations returned. *)
Definition disjoint_chunks (cs : list (Z * Z)) : Prop :=
  ∀ i j a n b m, (i < j)%nat → cs !! i = Some (a, n) → cs !! j = Some (b, m) →
    a + n <= b.

Lemma disjoint_chunks_cons a n cs :
  Forall (λ c, a + n <= c.1) cs → disjoint_chunks cs → disjoint_chunks ((a, n) :: cs).
Proof.
  intros Ha Hcs [|i] [|j] x nx y ny Hij; simpl; intros Hi Hj; try lia.
  - simplify_eq. rewrite Forall_lookup in Ha. by apply (Ha j (y, ny)).
  - apply (Hcs i j _ _ _ ny); [lia|done|done].
Qed.

Section alloc_seq.
Context `{Board}.

Lemma wp_alloc_all k s sizes :
  pool_layout k → alloc_ok k s → Forall (λ n, 0 <= n) sizes →
  wp (mapM alloc_chunk sizes)
    (λ addrs s', length addrs = length sizes
       ∧ Forall (λ a, (2 ^ k | a) ∧ s.(base).(alloc_end) <= a) addrs
       ∧ Forall (λ c, c.1 + c.2 <= dynmem_end) (zip addrs sizes)
       ∧ disjoint_chunks (zip addrs sizes) ∧ alloc_ok k s')
    (λ r _, r = "alloc_chunk failed") s.
Proof.
  intros Hpl. revert s. induction sizes as [|n sizes IH]; intros s Hok Hsz.
  { apply wp_ret. split_and!; [done|constructor|constructor| |done]. by intros []. }
  apply Forall_cons in Hsz as [Hn Hsz]. simpl. apply wp_bind.
  eapply wp_mono; [by apply (wp_alloc_chunk k)| |by intros ? ? []].
  intros a s1 (-> & Hin & Hnext & Hok1). apply wp_bind.
  eapply wp_mono; [by apply IH| |done].
  intros addrs s2 (Hlen & Hal & Hpool & Hdis & Hok2). apply wp_ret. simpl.
  split_and!; [by rewrite Hlen| | | |done].
  - constructor; [split; [apply Hok|lia]|]. eapply Forall_impl; [done|].
    simpl. intros x [? ?]. split; [done|lia].
  - by constructor.
  - apply disjoint_chunks_cons; [|done]. apply Forall_forall. intros [x m] Hx.
    apply elem_of_zip_l in Hx. rewrite Forall_forall in Hal.
    destruct (Hal x Hx). simpl. lia.
Qed.

End alloc_seq.

(** Any number of allocations yields aligned chunks inside the memory pool
    that do not overlap; when the pool is exhausted the machine shuts down and
    nothing is handed out. *)
Theorem alloc_chunk_disjoint `{Board} k s sizes :
  pool_layout k → alloc_ok k s → Forall (λ n, 0 <= n) sizes →
  match mapM alloc_chunk sizes s with
  | (Ret addrs, s') => length addrs = length sizes
       ∧ Forall (λ a, (2 ^ k | a)) addrs
       ∧ Forall (λ c, dynmem_start <= c.1 ∧ c.1 + c.2 <= dynmem_end) (zip addrs sizes)
       ∧ disjoint_chunks (zip addrs sizes)
       ∧ alloc_ok k s'
  | (Shut r, _) => r = "alloc_chunk failed"
  | (Stuck _, _) => False
  end.
Proof.
  intros Hpl Hok Hsz. pose proof (wp_alloc_all k s sizes Hpl Hok Hsz) as Hwp.
  unfold wp in Hwp. destruct (mapM alloc_chunk sizes s) as [[addrs| |] s']; [|done..].
  destruct Hwp as (Hlen & Hal & Hpool & Hdis & Hok2). split_and!; try done.
  - eapply Forall_impl; [exact Hal|]. by intros ? [].
  - apply Forall_forall. rewrite Forall_forall in Hal. rewrite Forall_forall in Hpool.
    intros [a n] Hx.
    split; [|by apply (Hpool (a, n))].
    destruct (Hal a (elem_of_zip_l _ _ _ _ Hx)). pose proof (ao_start _ _ Hok). simpl. lia.
Qed.

Lemma alloc_chunk_disjoint_witness :
  let b := example_board in
  let s := init_mcu <| base ::= λ c, c <| alloc_end := 4096 |> |> in
  match mapM alloc_chunk [10; 64; 3] s with
  | (Ret addrs, s') => length addrs = 3%nat
       ∧ Forall (λ a, (2 ^ 2 | a)) addrs
       ∧ Forall (λ c, dynmem_start <= c.1 ∧ c.1 + c.2 <= dynmem_end) (zip addrs [10; 64; 3])
       ∧ disjoint_chunks (zip addrs [10; 64; 3])
       ∧ alloc_ok 2 s'
  | (Shut r, _) => r = "alloc_chunk failed"
  | (Stuck _, _) => False
  end.
Proof.
  intros b s. apply (alloc_chunk_disjoint 2 s [10; 64; 3]).
  - constructor; simpl; [lia|done|by exists 1024|lia|lia].
  - constructor; simpl; [lia|by exists 1024].
  - repeat (apply Forall_cons_2; [lia|]). apply Forall_nil_2.
Defined.

(** ** Move queues *)

(** The link stored in a node. *)
Definition nlink (ns : gmap Z move_node) (a : Z) : option (option Z) :=
  mn_next <$> ns !! a.
Definition ndata (ns : gmap Z move_node) (a : Z) : option move_data :=
  mn_data <$> ns !! a.

(** The queue at [mh] holds the nodes [L]; the free list holds [F]. *)
Definition queue_is (ns : gmap Z move_node) (mh : move_queue_head) (L : list Z) : Prop :=
  lchain (nlink ns) mh.(mq_first) L ∧ NoDup L
  ∧ (L ≠ [] → mh.(mq_last) = last L).
Definition free_is (s : mcu) (F : list Z) : Prop :=
  lchain (nlink s.(nodes)) s.(base).(move_free_list) F ∧ NoDup F.

Lemma nlink_alter_ne ns f a x : x ≠ a → nlink (alter f a ns) x = nlink ns x.
Proof. intros. unfold nlink. by rewrite lookup_alter_ne. Qed.
Lemma nlink_alter_eq ns q a :
  is_Some (ns !! a) → nlink (alter (λ n, n <| mn_next := q |>) a ns) a = Some q.
Proof. intros [n Hn]. unfold nlink. by rewrite lookup_alter, decide_True, Hn. Qed.
Lemma ndata_alter_link ns q a x :
  ndata (alter (λ n, n <| mn_next := q |>) a ns) x = ndata ns x.
Proof.
  unfold ndata. rewrite lookup_alter. case_decide; [subst|done]. by destruct (ns !! x).
Qed.
Lemma is_Some_alter (ns : gmap Z move_node) f a x :
  is_Some (ns !! x) → is_Some (alter f a ns !! x).
Proof. intros [n Hn]. rewrite lookup_alter. case_decide; subst; rewrite Hn; by eexists. Qed.

Lemma lchain_elem_node ns p L a : lchain (nlink ns) p L → a ∈ L → is_Some (ns !! a).
Proof.
  revert p. induction L as [|k L IH]; simpl; intros p; [by rewrite elem_of_nil|].
  intros [-> (q & Hq & HL)] [->|Ha]%elem_of_cons; [|by eapply IH].
  unfold nlink in Hq. destruct (ns !! k); [by eexists|done].
Qed.

Lemma wp_read_node a n Q E s :
  s.(nodes) !! a = Some n → Q n s → wp (read_node a) Q E s.
Proof. intros Hn HQ. unfold read_node. wp_steps. by eapply wp_some. Qed.

Lemma wp_update_node a f Q E s :
  is_Some (s.(nodes) !! a) → Q tt (s <| nodes ::= alter f a |>) →
  wp (update_node a f) Q E s.
Proof.
  intros [n Hn] HQ. unfold update_node. wp_steps. eapply wp_read_node; [done|].
  by wp_steps.
Qed.

(** A queue whose nodes are not touched stays. *)
Lemma queue_is_ext ns ns' mh L :
  (∀ a, a ∈ L → nlink ns' a = nlink ns a) → queue_is ns mh L → queue_is ns' mh L.
Proof.
  intros Hns (Hc & Hnd & Hl). split_and!; [|done|done]. by eapply lchain_ext.
Qed.

Lemma wp_move_queue_push m mh L Q E s :
  queue_is s.(nodes) mh L → m ∉ L → is_Some (s.(nodes) !! m) →
  (∀ mh' ns', queue_is ns' mh' (L ++ [m]) → (∀ x, ndata ns' x = ndata s.(nodes) x) →
     (∀ x, x ∉ m :: L → ns' !! x = s.(nodes) !! x) →
     (∀ x, is_Some (s.(nodes) !! x) → is_Some (ns' !! x)) →
     Q (b2z (bool_decide (L = [])), mh') (s <| nodes := ns' |>)) →
  wp (move_queue_push m mh) Q E s.
Proof.
  intros (Hc & Hnd & Hl) Hm Hsm HQ. unfold move_queue_push. wp_steps.
  apply wp_update_node; [done|]. destruct L as [|k L].
  - rewrite Hc. apply wp_ret. apply HQ.
    + split_and!; [|by apply NoDup_singleton|done]. split; [done|]. exists None.
      by rewrite nlink_alter_eq.
    + intros x. apply ndata_alter_link.
    + intros x Hx. rewrite lookup_alter_ne; [done|set_solver].
    + intros x. apply is_Some_alter.
  - assert (Hc' := Hc). destruct Hc' as [Hf _]. rewrite Hf.
    rewrite (Hl ltac:(done)). destruct (last (k :: L)) as [l|] eqn:Hlast.
    2: { by apply last_None in Hlast. }
    assert (Hin : l ∈ k :: L) by (apply last_Some in Hlast as (L' & ->); set_solver).
    wp_steps. apply wp_update_node; [apply is_Some_alter; by eapply lchain_elem_node|]. wp_steps.
    assert (l ≠ m) by (by intros ->). apply HQ.
    + split_and!; [| |].
      2: { apply NoDup_app. split_and!; [done|set_solver|apply NoDup_singleton]. }
      * simpl. rewrite Hf.
        apply (lchain_snoc (nlink s.(nodes)) _ (Some k) (k :: L) m); [by rewrite <- Hf|done|..].
        -- rewrite nlink_alter_ne by done. by apply nlink_alter_eq.
        -- intros x Hx Hne. rewrite Hlast in Hne.
           rewrite !nlink_alter_ne by naive_solver. done.
        -- intros x. rewrite Hlast. intros [= <-]. apply nlink_alter_eq, is_Some_alter.
           by eapply lchain_elem_node.
      * intros _. rewrite (last_snoc m (k :: L)). done.
    + intros x. simpl. by rewrite !ndata_alter_link.
    + intros x Hx. simpl. rewrite !lookup_alter_ne; [done|set_solver..].
    + intros x Hx. by do 2 apply is_Some_alter.
Qed.

Lemma wp_move_queue_pop mh a L Q E s :
  queue_is s.(nodes) mh (a :: L) →
  (∀ mh', queue_is s.(nodes) mh' L → Q (a, mh') s) →
  wp (move_queue_pop mh) Q E s.
Proof.
  intros ([Hf (q & Hq & Hc)] & Hnd & Hl) HQ. unfold move_queue_pop. wp_steps.
  eapply wp_some; [done|]. wp_steps. unfold nlink in Hq.
  destruct (s.(nodes) !! a) as [n|] eqn:Hn; [|done]. eapply wp_read_node; [done|].
  wp_steps. apply HQ. simpl in Hq. simplify_eq. apply NoDup_cons in Hnd as [_ Hnd].
  split_and!; [done|done|]. simpl. intros HL. rewrite Hl by done.
  destruct L; [done|]. apply last_cons_cons.
Qed.

Lemma wp_move_free m F Q E s :
  free_is s F → m ∉ F → is_Some (s.(nodes) !! m) →
  (∀ s', free_is s' (m :: F) → s'.(nodes) = alter (λ n, n <| mn_next := s.(base).(move_free_list) |>) m s.(nodes) →
     s' = s <| nodes := s'.(nodes) |> <| base ::= λ c, c <| move_free_list := Some m |> |> →
     Q tt s') →
  wp (move_free m) Q E s.
Proof.
  intros [Hc Hnd] Hm Hs HQ. unfold move_free. wp_steps. apply wp_update_node; [done|].
  wp_steps. apply HQ; [|done|done]. split; [|by apply NoDup_cons].
  split; [done|]. simpl. eexists. split; [by apply nlink_alter_eq|].
  eapply lchain_ext; [|done]. intros k Hk. apply nlink_alter_ne. set_solver.
Qed.

Lemma wp_move_alloc F Q E s :
  free_is s F →
  (∀ a F', F = a :: F' → ∀ s', free_is s' F' → is_Some (s.(nodes) !! a) →
     s' = s <| base ::= λ c, c <| move_free_list := s'.(base).(move_free_list) |> |> →
     Q a s') →
  (F = [] → ∀ s', s'.(timers) = s.(timers) → E "Move queue overflow" s') →
  wp move_alloc Q E s.
Proof.
  intros [Hc Hnd] HQ HE. unfold move_alloc. wp_steps. simpl. destruct F as [|a F].
  - rewrite Hc. apply wp_shutdown. apply HE; [done|]. unfold sent. by destruct (in_sendf _).
  - destruct Hc as [Hf (q & Hq & Hc)]. rewrite Hf. unfold nlink in Hq.
    destruct (s.(nodes) !! a) as [n|] eqn:Hn; [|done]. simpl in Hq. simplify_eq.
    wp_steps. eapply wp_read_node; [done|]. wp_steps.
    eapply (HQ a F eq_refl); [|by eexists|].
    + apply NoDup_cons in Hnd as []. by split.
    + by destruct s as [? ? ? ? ? ? ? [] ? ? ? ? ?].
Qed.

(** ** The move pool *)

(** The addresses of the nodes of the pool. *)
Definition pool_addrs (ml sz : Z) (n : nat) : list Z :=
  (λ j, ml + Z.of_nat j * sz) <$> seq 0 n.

Lemma lchain_seq (nx : Z → option (option Z)) (f : nat → Z) k i :
  (∀ j, (i <= j < i + k)%nat → nx (f j) = Some (Some (f (S j)))) →
  nx (f (i + k)%nat) = Some None →
  lchain nx (Some (f i)) (f <$> seq i (S k)).
Proof.
  revert i. induction k as [|k IH]; intros i Hj Hlast.
  - split; [done|]. exists None. by rewrite Nat.add_0_r in Hlast.
  - split; [done|]. exists (Some (f (S i))). split; [apply Hj; lia|].
    apply (IH (S i)); [|by rewrite Nat.add_succ_comm].
    intros j Hj'. apply Hj. lia.
Qed.

Lemma wp_move_reset_loop k i ml sz Q E s :
  sz ≠ 0 → (∀ j, i <= j < i + Z.of_nat k → is_Some (s.(nodes) !! (ml + j * sz))) →
  (∀ ns', (∀ j, i <= j < i + Z.of_nat k →
      nlink ns' (ml + j * sz) = Some (Some (ml + (j + 1) * sz))) →
    (∀ x, (∀ j, i <= j < i + Z.of_nat k → x ≠ ml + j * sz) →
      ns' !! x = s.(nodes) !! x) →
    (∀ x, is_Some (s.(nodes) !! x) → is_Some (ns' !! x)) →
    (∀ x, ndata ns' x = ndata s.(nodes) x) →
    Q tt (s <| nodes := ns' |>)) →
  wp (move_reset_loop k i ml sz) Q E s.
Proof.
  intros Hsz. revert i s. induction k as [|k IH]; intros i s Hex HQ.
  - apply wp_ret. replace s with (s <| nodes := s.(nodes) |>) by (by destruct s).
    apply HQ; [intros; lia|done..].
  - simpl. wp_steps. apply wp_update_node; [apply Hex; lia|]. apply IH.
    { intros j Hj. simpl. apply is_Some_alter, Hex. lia. }
    simpl. intros ns' Hns Hout Hsome Hdata.
    assert (Hi : ∀ j, i + 1 <= j < i + 1 + Z.of_nat k → ml + i * sz ≠ ml + j * sz) by nia.
    apply (HQ ns').
    + intros j Hj. destruct (decide (j = i)) as [->|]; [|apply Hns; lia].
      unfold nlink. rewrite Hout by done. apply nlink_alter_eq, Hex. lia.
    + intros x Hx. rewrite Hout; [|intros; apply Hx; lia].
      rewrite lookup_alter_ne; [done|]. intros <-. apply (Hx i); [lia|done].
    + intros x Hxs. apply Hsome. by apply is_Some_alter.
    + intros x. rewrite Hdata. apply ndata_alter_link.
Qed.

Lemma pool_addrs_nodup ml sz n : sz ≠ 0 → NoDup (pool_addrs ml sz n).
Proof.
  intros Hsz. apply (NoDup_fmap_2_strong _ _); [|apply NoDup_seq].
  intros x y _ _ Hxy. nia.
Qed.

Lemma pool_addrs_elem ml sz n x :
  x ∈ pool_addrs ml sz n ↔ ∃ j, 0 <= j < Z.of_nat n ∧ x = ml + j * sz.
Proof.
  unfold pool_addrs. rewrite list_elem_of_fmap. split.
  - intros (j & -> & Hj%elem_of_seq). exists (Z.of_nat j). split; [lia|done].
  - intros (j & Hj & ->). exists (Z.to_nat j). rewrite elem_of_seq.
    rewrite Z2Nat.id by lia. split; [done|lia].
Qed.

(** [move_reset] collects all nodes, wherever they were. *)
Lemma wp_move_reset Q E s :
  let b := s.(base) in
  let pool := pool_addrs b.(move_list) b.(move_item_size) (Z.to_nat b.(move_count)) in
  0 < b.(move_count) → b.(move_item_size) ≠ 0 →
  (∀ a, a ∈ pool → is_Some (s.(nodes) !! a)) →
  (∀ ns', (∀ x, is_Some (s.(nodes) !! x) → is_Some (ns' !! x)) →
     (∀ x, ndata ns' x = ndata s.(nodes) x) →
     let s' := s <| nodes := ns' |>
                 <| base ::= λ c, c <| move_free_list := Some b.(move_list) |> |> in
     free_is s' pool → Q tt s') →
  wp move_reset Q E s.
Proof.
  intros b pool Hcnt Hsz Hex HQ. unfold move_reset. wp_steps.
  rewrite (proj2 (Z.eqb_neq _ _)) by (fold b; lia). fold b. wp_steps.
  assert (Hin : ∀ j, 0 <= j < b.(move_count) →
    is_Some (s.(nodes) !! (b.(move_list) + j * b.(move_item_size)))).
  { intros j Hj. apply Hex, pool_addrs_elem. exists j. split; [lia|done]. }
  apply wp_move_reset_loop; [done|intros; apply Hin; lia|].
  intros ns' Hns Hout Hsome Hdata. simpl. wp_steps.
  apply wp_update_node; [apply Hsome, Hin; lia|]. wp_steps. simpl. apply HQ.
  - intros x Hx. by apply is_Some_alter, Hsome.
  - intros x. by rewrite ndata_alter_link.
  - split; [|by apply pool_addrs_nodup]. simpl.
    destruct (Z.to_nat b.(move_count)) as [|k] eqn:Hk; [lia|].
    unfold pool, pool_addrs.
    assert (Hk' : b.(move_count) - 1 = Z.of_nat k) by lia. rewrite Hk' in *.
    replace (b.(move_list)) with (b.(move_list) + Z.of_nat 0 * b.(move_item_size)) at 2 by lia.
    apply (lchain_seq _ (λ j, b.(move_list) + Z.of_nat j * b.(move_item_size)) k 0).
    + intros j Hj. rewrite nlink_alter_ne by nia. rewrite Hns by lia.
      by rewrite Nat2Z.inj_succ, Z.add_1_r.
    + simpl. apply nlink_alter_eq, Hsome, Hin. lia.
Qed.

Section finalize.
Context `{Board}.

(** What [move_finalize] promises about the pool it builds in [s']. *)
Definition pool_built (s s' : mcu) : Prop :=
  let b := s'.(base) in
  let sz := b.(move_item_size) in
  sz = Z.max s.(base).(move_item_size) sizeof_move_node
  ∧ b.(move_count) = Z.min 4096 ((dynmem_end - s.(base).(alloc_end)) / sz)
  ∧ 0 < b.(move_count)
  ∧ free_is s' (pool_addrs b.(move_list) sz (Z.to_nat b.(move_count)))
  ∧ ∀ a, a ∈ pool_addrs b.(move_list) sz (Z.to_nat b.(move_count)) →
      s.(base).(alloc_end) <= a ∧ a + sz <= dynmem_end.

Lemma fresh_nodes_lookup a sz n x :
  x ∈ pool_addrs a sz n → is_Some (fresh_nodes a sz n !! x).
Proof.
  intros (j & -> & Hj)%list_elem_of_fmap. unfold fresh_nodes.
  destruct (list_to_map _ !! _) eqn:Hn; [by eexists|].
  apply not_elem_of_list_to_map_2 in Hn. destruct Hn. rewrite <- list_fmap_compose.
  apply list_elem_of_fmap. by exists j.
Qed.

Lemma wp_alloc_chunks k s size count :
  pool_layout k → alloc_ok k s → 0 < size → 0 < count < 2 ^ 16 →
  wp (alloc_chunks size count)
    (λ r s', r.1 = s.(base).(alloc_end)
       ∧ r.2 = Z.min count ((dynmem_end - s.(base).(alloc_end)) / size) ∧ 0 < r.2
       ∧ ∃ e, s' = s <| base ::= λ c, c <| alloc_end := e |> |>)
    (λ r s', r = "alloc_chunks failed" ∨ r = "alloc_chunk failed") s.
Proof.
  intros Hpl Hok Hsz Hcnt. unfold alloc_chunks. wp_steps.
  rewrite alloc_count_spec by done. rewrite Z2Nat.id by lia. cbv zeta. rewrite Z.add_0_l.
  set (n := Z.max 0 _). destruct (Z.eqb_spec n 0).
  { apply wp_shutdown. by left. }
  assert (Hn : 0 < n /\ n = Z.min count ((dynmem_end - s.(base).(alloc_end)) / size)) by lia.
  wp_steps. unfold alloc_chunk. wp_steps.
  destruct (dynmem_end <? _).
  { apply wp_shutdown. by right. }
  wp_steps. simpl. rewrite u16_small by lia. split_and!; [done|lia|lia|by eexists].
Qed.

Lemma wp_move_finalize k s :
  pool_layout k → alloc_ok k s → s.(base).(move_count) = 0 →
  0 <= s.(base).(move_item_size) < 256 → 0 < sizeof_move_node < 256 →
  wp move_finalize (λ _, pool_built s)
    (λ r _, r = "alloc_chunks failed" ∨ r = "alloc_chunk failed") s.
Proof.
  intros Hpl Hok Hfin Hisz Hsz. unfold move_finalize, move_queue_setup. wp_steps.
  rewrite Hfin. simpl. wp_steps. rewrite Hfin, (proj2 (Z.ltb_ge _ _)) by lia.
  simpl. wp_steps.
  set (sz := Z.max s.(base).(move_item_size) sizeof_move_node).
  apply (wp_mono _ (λ _ s1, s1 = s <| base ::= λ c, c <| move_item_size := sz |> |>)
    _ (λ _ _, False)); [|intros _ s1 ->|done].
  { apply wp_when; intros Hlt; wp_steps; f_equal.
    - apply Z.ltb_lt in Hlt. unfold sz. rewrite u8_small, Z.max_r by lia. done.
    - apply Z.ltb_ge in Hlt. unfold sz. rewrite Z.max_l by lia.
      by destruct s as [? ? ? ? ? ? ? [] ? ? ? ? ?]. }
  wp_steps. eapply wp_mono; [apply (wp_alloc_chunks k)|..]; simpl; try lia; [done| | |by auto].
  { destruct Hok. by constructor. }
  intros [data avail] s2 (Hd & Hav & Hpos & e & ->). simpl in *. wp_steps.
  apply wp_move_reset; simpl; [done|lia|intros a; apply fresh_nodes_lookup|].
  intros ns' Hsome Hdat Hfree. split_and!; simpl; [done|by rewrite Hav|done|exact Hfree|].
  intros a (j & Hj & ->)%pool_addrs_elem. rewrite Z2Nat.id in Hj by lia. subst data.
  assert (avail * sz <= dynmem_end - s.(base).(alloc_end)); [|nia].
  rewrite Hav, Z.mul_comm.
  pose proof (Z.mul_div_le (dynmem_end - s.(base).(alloc_end)) sz ltac:(lia)). nia.
Qed.

End finalize.

(** Finalizing the configuration turns what is left of the memory pool into
    move nodes: as many nodes of the largest requested size as fit (at most
    4096), inside the pool, beyond everything allocated before, and all of
    them on the free list; with no room for one node the machine shuts down. *)
Theorem move_finalize_pool `{Board} k s :
  pool_layout k → alloc_ok k s → s.(base).(move_count) = 0 →
  0 <= s.(base).(move_item_size) < 256 → 0 < sizeof_move_node < 256 →
  match move_finalize s with
  | (Ret _, s') => pool_built s s'
  | (Shut r, _) => r = "alloc_chunks failed" ∨ r = "alloc_chunk failed"
  | (Stuck _, _) => False
  end.
Proof. apply wp_move_finalize. Qed.

Lemma move_finalize_pool_witness :
  let b := example_board in
  let s := init_mcu <| base ::= λ c, c <| alloc_end := 16000 |> <| move_item_size := 16 |> |> in
  match move_finalize s with
  | (Ret _, s') => pool_built s s'
  | (Shut r, _) => r = "alloc_chunks failed" ∨ r = "alloc_chunk failed"
  | (Stuck _, _) => False
  end.
Proof.
  intros b s. apply (move_finalize_pool 2 s); simpl; [| |done|lia|lia].
  - constructor; simpl; [lia|done|by exists 1024|lia|lia].
  - constructor; simpl; [lia|by exists 4000].
Defined.

(** A move queue is first in, first out: pushing a node appends it and
    reports whether the queue was empty, popping takes the first node; neither
    changes the data of any node nor the links of nodes outside the queue. *)
Theorem move_queue_fifo s mh L m :
  queue_is s.(nodes) mh L → m ∉ L → is_Some (s.(nodes) !! m) →
  match move_queue_push m mh s with
  | (Ret (first, mh'), s') =>
      first = b2z (bool_decide (L = []))
      ∧ queue_is s'.(nodes) mh' (L ++ [m])
      ∧ (∀ x, ndata s'.(nodes) x = ndata s.(nodes) x)
      ∧ (∀ x, x ∉ m :: L → s'.(nodes) !! x = s.(nodes) !! x)
      ∧ ∀ a L', L ++ [m] = a :: L' →
          match move_queue_pop mh' s' with
          | (Ret (a', mh''), s'') => a' = a ∧ s'' = s' ∧ queue_is s'.(nodes) mh'' L'
          | _ => False
          end
  | _ => False
  end.
Proof.
  intros Hq Hm Hs.
  apply (wp_move_queue_push m mh L (λ r s',
    r.1 = b2z (bool_decide (L = [])) ∧ queue_is s'.(nodes) r.2 (L ++ [m])
    ∧ (∀ x, ndata s'.(nodes) x = ndata s.(nodes) x)
    ∧ (∀ x, x ∉ m :: L → s'.(nodes) !! x = s.(nodes) !! x)) (λ _ _, False)) in Hq
    as Hwp; [|done|done|by intros].
  unfold wp in Hwp. destruct (move_queue_push m mh s) as [[[first mh']| |] s']; [|done..].
  destruct Hwp as (H1 & H2 & H3 & H4). split_and!; try done.
  intros a L' Heq. simpl in H2. rewrite Heq in H2.
  apply (wp_move_queue_pop mh' a L' (λ r s'', r.1 = a ∧ s'' = s'
    ∧ queue_is s'.(nodes) r.2 L') (λ _ _, False) s') in H2 as Hwp; [|by intros].
  unfold wp in Hwp. by destruct (move_queue_pop mh' s') as [[[]| |] ?].
Qed.

Lemma move_queue_fifo_witness :
  let s := init_mcu <| nodes := {[ 100 := mk_move_node None MD_free;
                                   116 := mk_move_node None MD_free ]} |> in
  let mh := mk_move_queue_head (Some 100) (Some 100) in
  match move_queue_push 116 mh s with
  | (Ret (first, mh'), s') =>
      first = 0
      ∧ queue_is s'.(nodes) mh' ([100] ++ [116])
      ∧ (∀ x, ndata s'.(nodes) x = ndata s.(nodes) x)
      ∧ (∀ x, x ∉ [116; 100] → s'.(nodes) !! x = s.(nodes) !! x)
      ∧ ∀ a L', [100] ++ [116] = a :: L' →
          match move_queue_pop mh' s' with
          | (Ret (a', mh''), s'') => a' = a ∧ s'' = s' ∧ queue_is s'.(nodes) mh'' L'
          | _ => False
          end
  | _ => False
  end.
Proof.
  intros s mh. apply (move_queue_fifo s mh [100] 116); [|set_solver|by eexists].
  split_and!; [|apply NoDup_singleton|done]. split; [done|]. by exists None.
Defined.

(** ** Object ids *)

(** The array has [oid_count] entries. *)
Definition oids_ok (b : base_state) : Prop :=
  Z.of_nat (length (default [] b.(oids))) = b.(oid_count) ∧ b.(oid_count) < 256.

Lemma oid_entry_in b oid :
  oids_ok b → 0 <= oid < b.(oid_count) → is_Some (oid_entry b oid).
Proof.
  intros [Hl _] Ho. unfold oid_entry. destruct b.(oids) as [l|]; simpl in *; [|lia].
  apply lookup_lt_is_Some. lia.
Qed.

Lemma oid_entry_set b oid f o :
  0 <= oid → 0 <= o →
  oid_entry (b <| oids ::= fmap (alter f (Z.to_nat oid)) |>) o
  = (if decide (o = oid) then f <$> oid_entry b o else oid_entry b o).
Proof.
  intros Ho Ho'. unfold oid_entry. simpl. destruct b.(oids) as [l|]; simpl.
  - rewrite list_lookup_alter. repeat case_decide; subst; try done; lia.
  - by case_decide.
Qed.

(** What a successful [oid_alloc] leaves. *)
Definition oid_assigned (s : mcu) (oid : Z) (type : oid_type) (a : Z) (s' : mcu) : Prop :=
  oid < s'.(base).(oid_count)
  ∧ oid_entry s'.(base) oid = Some (mk_oid_s type a)
  ∧ (∀ o, 0 <= o → o ≠ oid → oid_entry s'.(base) o = oid_entry s.(base) o)
  ∧ oids_ok s'.(base).

Section oids.
Context `{Board}.

Lemma oids_ok_alter b oid f :
  oids_ok b → oids_ok (b <| oids ::= fmap (alter f oid) |>).
Proof.
  intros [Hl Hc]. split; [|done]. simpl. rewrite <- Hl.
  destruct b.(oids); simpl; [by rewrite length_alter|done].
Qed.

Lemma oid_entry_oids b b' o : b'.(oids) = b.(oids) → oid_entry b' o = oid_entry b o.
Proof. unfold oid_entry. by intros ->. Qed.

(** [alloc_chunk] only moves the allocation pointer. *)
Lemma wp_alloc_frame size s (Q : Z → mcu → Prop) (E : string → mcu → Prop) :
  (∀ e, Q s.(base).(alloc_end) (s <| base ::= λ c, c <| alloc_end := e |> |>)) →
  (∀ s', s'.(timers) = s.(timers) → s'.(sst) = s.(sst) → E "alloc_chunk failed" s') →
  wp (alloc_chunk size) Q E s.
Proof.
  intros HQ HE. unfold alloc_chunk. wp_steps. destruct (_ <? _).
  - apply wp_shutdown. apply HE; unfold sent; by destruct (in_sendf _).
  - by wp_steps.
Qed.

Lemma wp_oid_alloc s oid type size :
  oids_ok s.(base) → 0 <= oid < 256 →
  wp (oid_alloc oid type size) (oid_assigned s oid type)
    (λ r s', (r = "Can't assign oid" ∨ r = "alloc_chunk failed")
       ∧ s'.(timers) = s.(timers) ∧ s'.(sst) = s.(sst)) s.
Proof.
  intros Hok Ho. unfold oid_alloc, set_oid. rewrite u8_small by lia. wp_steps.
  assert (Hsent : ∀ f a, (sent f a s).(timers) = s.(timers) ∧ (sent f a s).(sst) = s.(sst)).
  { intros. unfold sent. by destruct (in_sendf _). }
  destruct (Z.leb_spec s.(base).(oid_count) oid).
  { apply wp_shutdown. split; [by left|apply Hsent]. }
  destruct (oid_entry_in s.(base) oid Hok ltac:(lia)) as [e He].
  wp_steps. eapply wp_some; [done|].
  destruct (_ || _); [apply wp_shutdown; split; [by left|apply Hsent]|].
  wp_steps. apply wp_alloc_frame; [|simpl; auto]. intros e'. wp_steps. simpl.
  split_and!; [done| | |].
  - simpl. rewrite oid_entry_set, decide_True by lia.
    rewrite (oid_entry_oids (s.(base) <| oids ::= fmap (alter (λ e, mk_oid_s type e.(oid_data)) (Z.to_nat oid)) |>)) by done.
    rewrite oid_entry_set, decide_True, He by lia. done.
  - intros o Ho0 Hne. simpl. rewrite oid_entry_set, decide_False by lia.
    rewrite (oid_entry_oids (s.(base) <| oids ::= fmap (alter (λ e, mk_oid_s type e.(oid_data)) (Z.to_nat oid)) |>)) by done.
    by rewrite oid_entry_set, decide_False by lia.
  - apply oids_ok_alter. simpl.
    destruct (oids_ok_alter s.(base) (Z.to_nat oid) (λ e, mk_oid_s type e.(oid_data)) Hok).
    by split.
Qed.

Lemma oid_lookup_entry s oid ty e :
  0 <= oid < 256 → oid < s.(base).(oid_count) → oid_entry s.(base) oid = Some e →
  match oid_lookup oid ty s with
  | (Ret d, s'') => ty = e.(oid_ty) ∧ d = e.(oid_data) ∧ s'' = s
  | (Shut r, s'') => ty ≠ e.(oid_ty) ∧ r = "Invalid oid type"
  | (Stuck _, _) => False
  end.
Proof.
  intros Ho Hlt He.
  apply (wp_bind _ _ (λ d s'', ty = e.(oid_ty) ∧ d = e.(oid_data) ∧ s'' = s)
    (λ r s'', ty ≠ e.(oid_ty) ∧ r = "Invalid oid type")).
  rewrite u8_small by lia. wp_steps.
  rewrite (proj2 (Z.leb_gt _ _)) by done. wp_steps. eapply wp_some; [done|].
  case_decide; [by apply wp_ret|]. wp_steps. by apply wp_shutdown.
Qed.

Lemma oid_alloc_taken s oid ty n e :
  0 <= oid < 256 → oid < s.(base).(oid_count) → oid_entry s.(base) oid = Some e →
  e.(oid_ty) ≠ OT_none → (oid_alloc oid ty n s).1 = Shut "Can't assign oid".
Proof.
  intros Ho Hlt He Hty. unfold oid_alloc, mbind, M_bind, gets, is_finalized.
  rewrite u8_small by lia. simpl. rewrite (proj2 (Z.leb_gt _ _)) by done.
  rewrite He. simpl. rewrite bool_decide_eq_false_2 by done. apply shutdown_reason_eq.
Qed.

End oids.

(** C38: An oid names the object it was allocated for: a lookup with the right
    type returns the object's memory, with any other type it shuts down; the
    oid cannot be assigned twice and other oids are not affected. *)
Theorem oid_alloc_lookup `{Board} s oid type size :
  oids_ok s.(base) → type ≠ OT_none → 0 <= oid < 256 →
  match oid_alloc oid type size s with
  | (Ret a, s') =>
      (∀ ty, match oid_lookup oid ty s' with
             | (Ret d, s'') => ty = type ∧ d = a ∧ s'' = s'
             | (Shut r, _) => ty ≠ type ∧ r = "Invalid oid type"
             | (Stuck _, _) => False
             end)
      ∧ (∀ ty n, (oid_alloc oid ty n s').1 = Shut "Can't assign oid")
      ∧ (∀ o, 0 <= o → o ≠ oid → oid_entry s'.(base) o = oid_entry s.(base) o)
  | (Shut r, _) => r = "Can't assign oid" ∨ r = "alloc_chunk failed"
  | (Stuck _, _) => False
  end.
Proof.
  intros Hok Hty Ho. pose proof (wp_oid_alloc s oid type size Hok Ho) as Hwp.
  unfold wp in Hwp. destruct (oid_alloc oid type size s) as [[a|r|] s']; [|by destruct Hwp|done].
  destruct Hwp as (Hlt & He & Hother & _). split_and!; [|intros ty n|done].
  - intros ty. exact (oid_lookup_entry s' oid ty _ Ho Hlt He).
  - by eapply oid_alloc_taken.
Qed.

Lemma oid_alloc_lookup_witness :
  let b := example_board in
  let s := init_mcu <| base ::= λ c, c <| alloc_end := 4096 |> <| oid_count := 2 |>
             <| oids := Some [mk_oid_s OT_none 0; mk_oid_s OT_none 0] |> |> in
  match oid_alloc 1 OT_stepper 64 s with
  | (Ret a, s') =>
      (∀ ty, match oid_lookup 1 ty s' with
             | (Ret d, s'') => ty = OT_stepper ∧ d = a ∧ s'' = s'
             | (Shut r, _) => ty ≠ OT_stepper ∧ r = "Invalid oid type"
             | (Stuck _, _) => False
             end)
      ∧ (∀ ty n, (oid_alloc 1 ty n s').1 = Shut "Can't assign oid")
      ∧ (∀ o, 0 <= o → o ≠ 1 → oid_entry s'.(base) o = oid_entry s.(base) o)
  | (Shut r, _) => r = "Can't assign oid" ∨ r = "alloc_chunk failed"
  | (Stuck _, _) => False
  end.
Proof. intros b s. by apply (oid_alloc_lookup s 1 OT_stepper 64). Defined.

(** ** Iterating over the objects of a type *)

(** The oids of a type, with the addresses of their objects, in order. *)
Fixpoint typed (l : list oid_s) (j : Z) (ty : oid_type) : list (Z * Z) :=
  match l with
  | [] => []
  | e :: l' => if decide (e.(oid_ty) = ty) then (j, e.(oid_data)) :: typed l' (j + 1) ty
               else typed l' (j + 1) ty
  end.
Definition oids_of (b : base_state) (ty : oid_type) : list (Z * Z) :=
  typed (default [] b.(oids)) 0 ty.

Fixpoint iter_oids (l : list (Z * Z)) (body : Z → Z → M unit) : M unit :=
  match l with
  | [] => mret tt
  | (i, d) :: l' => body i d;; iter_oids l' body
  end.

Lemma oid_next_loop_spec b ty l' n fuel :
  oids_ok b → drop n (default [] b.(oids)) = l' →
  (n <= length (default [] b.(oids)))%nat → (length l' < fuel)%nat →
  oid_next_loop fuel b (u8 (Z.of_nat n - 1)) ty = head (typed l' (Z.of_nat n) ty).
Proof.
  intros Hok. destruct Hok as [Hlen Hc]. revert n fuel.
  induction l' as [|e l' IH]; intros n fuel Hd Hn Hf.
  - destruct fuel as [|fuel]; [simpl in Hf; lia|]. cbn [oid_next_loop].
    assert (Hl : length (drop n (default [] b.(oids))) = 0%nat) by (by rewrite Hd).
    rewrite length_drop in Hl.
    replace (u8 (u8 (Z.of_nat n - 1) + 1)) with (Z.of_nat n) by int_lia.
    by rewrite (proj2 (Z.leb_le _ _)) by lia.
  - destruct fuel as [|fuel]; [simpl in Hf; lia|]. cbn [oid_next_loop].
    assert (Hl : length (drop n (default [] b.(oids))) = S (length l')) by (by rewrite Hd).
    rewrite length_drop in Hl.
    replace (u8 (u8 (Z.of_nat n - 1) + 1)) with (Z.of_nat n) by int_lia.
    rewrite (proj2 (Z.leb_gt _ _)) by lia.
    assert (He : oid_entry b (Z.of_nat n) = Some e).
    { unfold oid_entry. rewrite Nat2Z.id. destruct b.(oids) as [l|]; [|done]. simpl in *.
      rewrite <- (Nat.add_0_r n), <- lookup_drop, Hd. done. }
    rewrite He. simpl. case_decide; [done|].
    replace (Z.of_nat n) with (u8 (Z.of_nat (S n) - 1)) at 1 by int_lia.
    rewrite (IH (S n)).
    + by rewrite Nat2Z.inj_succ, Z.add_1_r.
    + rewrite <- (Nat.add_1_r n), <- drop_drop, Hd. done.
    + lia.
    + simpl in Hf. lia.
Qed.

Lemma typed_ge l j ty i q : (i, q) ∈ typed l j ty → j <= i.
Proof.
  revert j. induction l as [|e l IH]; intros j; cbn [typed]; [by intros ?%not_elem_of_nil|].
  case_decide; [rewrite elem_of_cons; intros [?|Hin%IH]; [simplify_eq; lia|lia]|intros Hin%IH; lia].
Qed.
Lemma typed_NoDup l j ty : NoDup (typed l j ty).*1.
Proof.
  revert j. induction l as [|e l IH]; intros j; cbn [typed]; [constructor|].
  case_decide; [|by apply IH]. rewrite fmap_cons. apply NoDup_cons. split; [|by apply IH].
  intros ([i q] & Hi & Hin)%list_elem_of_fmap. apply typed_ge in Hin. cbn in Hi. lia.
Qed.
Lemma typed_elem l j ty k e :
  l !! k = Some e → e.(oid_ty) = ty → (j + Z.of_nat k, e.(oid_data)) ∈ typed l j ty.
Proof.
  revert j k. induction l as [|e' l IH]; intros j [|k] Hk Hty; cbn in *; [done..| |].
  - simplify_eq. rewrite decide_True by done. rewrite Z.add_0_r. by apply elem_of_cons; left.
  - replace (j + Z.of_nat (S k)) with (j + 1 + Z.of_nat k) by lia.
    case_decide; [apply elem_of_cons; right|]; by apply IH.
Qed.

(** A body that leaves the oids alone. *)
Definition keeps_oids (body : Z → Z → M unit) : Prop :=
  ∀ i d s, match body i d s with
           | (Ret _, s') => s'.(base).(oids) = s.(base).(oids)
                            ∧ s'.(base).(oid_count) = s.(base).(oid_count)
           | _ => True
           end.

Lemma foreach_loop_spec ty body l' n fuel s :
  keeps_oids body → oids_ok s.(base) → drop n (default [] s.(base).(oids)) = l' →
  (n <= length (default [] s.(base).(oids)))%nat →
  (length l' < fuel)%nat →
  foreach_oid_loop fuel (u8 (Z.of_nat n - 1)) ty body s
  = iter_oids (typed l' (Z.of_nat n) ty) body s.
Proof.
  intros Hkeep. revert n fuel s. induction l' as [|e l' IH]; intros n fuel s Hok Hd Hn Hf;
    (destruct fuel as [|fuel]; [simpl in Hf; lia|]); cbn [foreach_oid_loop];
    unfold mbind, M_bind at 1, oid_next, gets.
  - assert (length (default [] s.(base).(oids)) < 256)%nat by (destruct Hok; lia).
    rewrite (oid_next_loop_spec _ _ []); [done|done|done|done|simpl; lia].
  - destruct Hok as [Hlen Hc].
    assert (Hl : length (drop n (default [] s.(base).(oids))) = S (length l')) by (by rewrite Hd).
    rewrite length_drop in Hl.
    assert (Hd' : drop (S n) (default [] s.(base).(oids)) = l').
    { rewrite <- (Nat.add_1_r n), <- drop_drop, Hd. done. }
    rewrite (oid_next_loop_spec _ _ (e :: l')); [|done|done|done|simpl; lia].
    cbn [typed]. case_decide as Hty; cbn [head iter_oids].
    + unfold mbind, M_bind. specialize (Hkeep (Z.of_nat n) e.(oid_data) s).
      destruct (body (Z.of_nat n) e.(oid_data) s) as [[[]| |] s1]; [|done..].
      destruct Hkeep as [Ho Hct].
      replace (Z.of_nat n) with (u8 (Z.of_nat (S n) - 1)) at 1 by int_lia.
      rewrite (IH (S n)); rewrite ?Ho.
      * by rewrite Nat2Z.inj_succ, Z.add_1_r.
      * split; rewrite ?Ho, ?Hct; done.
      * done.
      * lia.
      * simpl in Hf. lia.
    + assert (Hskip := IH (S n) (S fuel) s ltac:(by split) Hd' ltac:(lia) ltac:(simpl in Hf; lia)).
      cbn [foreach_oid_loop] in Hskip. unfold mbind, M_bind at 1, oid_next, gets in Hskip.
      rewrite (oid_next_loop_spec _ _ l') in Hskip; [|by split|done|lia|simpl in *; lia].
      rewrite Nat2Z.inj_succ, <- Z.add_1_r in Hskip. exact Hskip.
Qed.

(** [foreach_oid] ends and runs its body once for every object of the type, in
    the order of the oids, whatever else is configured. *)
Lemma foreach_oid_iter ty body s :
  keeps_oids body → oids_ok s.(base) →
  foreach_oid ty body s = iter_oids (oids_of s.(base) ty) body s.
Proof.
  intros Hkeep Hok. unfold foreach_oid, oids_of.
  apply (foreach_loop_spec ty body _ 0); [done|done|done|lia|].
  destruct Hok. lia.
Qed.
