(* ===== verification/Stats.v ===== *)
(** * Load statistics, uptime and identification (src/basecmd.c)

    The sum of squared task durations saturates, the uptime is the clock
    extended to 64 bits, and the identify command returns the requested slice
    of the identify data. *)

From S2P Require Import Prelude.
From S2P Require Import State.
From S2P Require Import Machine.
From S2P Require Import Sched.
From S2P Require Import Basecmd.
From S2P Require Import BasecmdSpec.

(** ** The sum of squares *)

Definition ceil_div (n d : Z) : Z := (n + d - 1) / d.

(** What one duration adds, in units of SUMSQ_BASE. *)
Definition sumsq_term (diff : Z) : Z :=
  if diff <=? 0xffff then ceil_div (diff * diff) 256 else ceil_div diff 256 * diff.

Lemma DIV_ROUND_UP_spec n : 0 <= n → n + 256 < 2 ^ 32 → DIV_ROUND_UP n 256 = ceil_div n 256.
Proof. intros. unfold DIV_ROUND_UP, ceil_div. rewrite !u32_small by int_lia. done. Qed.

Lemma ceil_div_bounds n : 0 <= n → n <= 256 * ceil_div n 256 < n + 256.
Proof. intros. unfold ceil_div. int_lia. Qed.

(** The sum of squared task durations cannot wrap around: it grows by the
    rounded-up square as long as that fits in 32 bits and sticks at the
    maximum otherwise, so it never under-reports the load by overflow. *)
Theorem sumsq_saturates sumsq diff :
  is_u32 sumsq → is_u32 diff →
  next_sumsq sumsq diff
  = (if diff <=? 0xfffff then Z.min 0xffffffff (sumsq + sumsq_term diff) else 0xffffffff)
  ∧ Z.min 0xffffffff (sumsq + diff * diff / 256) <= next_sumsq sumsq diff < 2 ^ 32.
Proof.
  intros Hs Hd. unfold is_u32 in *.
  assert (Heq : next_sumsq sumsq diff
    = if diff <=? 0xfffff then Z.min 0xffffffff (sumsq + sumsq_term diff) else 0xffffffff).
  { unfold next_sumsq, sumsq_term, SUMSQ_BASE.
    destruct (Z.leb_spec diff 0xffff); [|destruct (Z.leb_spec diff 0xfffff)].
    - rewrite (proj2 (Z.leb_le _ _)) by lia. rewrite (u32_small (diff * diff)) by nia.
      rewrite DIV_ROUND_UP_spec by nia.
      pose proof (ceil_div_bounds (diff * diff) ltac:(nia)).
      assert (0 <= ceil_div (diff * diff) 256 < 2 ^ 31) by nia. int_lia.
    - rewrite DIV_ROUND_UP_spec by lia.
      pose proof (ceil_div_bounds diff ltac:(lia)).
      assert (0 <= ceil_div diff 256 * diff < 2 ^ 32) by nia.
      rewrite (u32_small (ceil_div diff 256 * diff)) by done. int_lia.
    - int_lia. }
  split; [exact Heq|]. rewrite Heq. destruct (Z.leb_spec diff 0xfffff); [|lia].
  assert (diff * diff / 256 <= sumsq_term diff); [|lia].
  unfold sumsq_term. destruct (Z.leb_spec diff 0xffff).
  - pose proof (ceil_div_bounds (diff * diff) ltac:(nia)).
    apply Z.div_le_upper_bound; lia.
  - pose proof (ceil_div_bounds diff ltac:(lia)). apply Z.div_le_upper_bound; nia.
Qed.

Lemma sumsq_saturates_witness :
  next_sumsq 0xfffffff0 5000
  = (if 5000 <=? 0xfffff then Z.min 0xffffffff (0xfffffff0 + sumsq_term 5000) else 0xffffffff)
  ∧ Z.min 0xffffffff (0xfffffff0 + 5000 * 5000 / 256) <= next_sumsq 0xfffffff0 5000 < 2 ^ 32.
Proof. apply (sumsq_saturates 0xfffffff0 5000); unfold is_u32; lia. Defined.

(** ** Uptime *)

(** The 64-bit time at which the statistics were sent last. *)
Definition send_clock (s : mcu) : Z :=
  s.(base).(stats_send_time_high) * 2 ^ 32 + s.(base).(stats_send_time).

Lemma clock_step hi lo T :
  is_u32 hi → is_u32 lo → hi * 2 ^ 32 + lo <= T < hi * 2 ^ 32 + lo + 2 ^ 32 → T < 2 ^ 64 →
  is_u32 (u32 (hi + b2z (u32 T <? lo)))
  ∧ u32 (hi + b2z (u32 T <? lo)) * 2 ^ 32 + u32 T = T.
Proof.
  unfold is_u32. intros Hh Hl HT H64.
  assert (Hq : T = T / 2 ^ 32 * 2 ^ 32 + u32 T).
  { unfold u32. pose proof (Z.div_mod T (2 ^ 32) ltac:(lia)). lia. }
  pose proof (u32_range T) as Hr. set (q := T / 2 ^ 32) in *.
  destruct (Z.ltb_spec (u32 T) lo); simpl b2z.
  - assert (q = hi + 1) as Hq1 by nia. rewrite u32_small by lia. lia.
  - assert (q = hi) as Hq1 by nia. rewrite u32_small by lia. lia.
Qed.

Section uptime.
Context `{Board}.

Lemma wp_stats_update start T s :
  is_u32 s.(base).(stats_send_time_high) → is_u32 s.(base).(stats_send_time) →
  send_clock s <= T < send_clock s + 2 ^ 32 → T < 2 ^ 64 →
  wp (stats_update start (u32 T))
    (λ _ s', is_u32 s'.(base).(stats_send_time_high) ∧ is_u32 s'.(base).(stats_send_time)
       ∧ (send_clock s' = send_clock s ∨ send_clock s' = T))
    (λ _ _, False) s.
Proof.
  intros Hh Hl HT H64. unfold stats_update. wp_steps.
  destruct (timer_is_before _ _); [apply wp_ret; by auto|].
  wp_steps.
  match goal with |- wp _ _ _ (sent ?f ?a ?s1) => set (s2 := sent f a s1);
    assert (Hb : s2.(base).(stats_send_time_high) = s.(base).(stats_send_time_high))
      by (unfold s2, sent; by destruct (in_sendf _)) end.
  clearbody s2. destruct (clock_step _ _ T Hh Hl HT H64) as [H1 H2].
  cbn [base stats_send_time] in *.
  apply wp_when; intros Hlt; wp_steps; unfold send_clock; simpl in Hlt |- *; rewrite Hb.
  - rewrite Hlt in H1, H2. simpl in H1, H2. split_and!; [done|apply u32_range|].
    by right.
  - rewrite Hlt in H1, H2. simpl in H1, H2. rewrite Z.add_0_r, u32_small in H2 by done.
    split_and!; [done|apply u32_range|by right].
Qed.

End uptime.

(** The uptime is the 64-bit time: if the statistics were last sent less
    than one turn of the 32-bit clock ago, [command_get_uptime] reports the two
    halves of the current time [T], and [stats_update] keeps the recorded time
    exact. *)
Theorem uptime_tracks_clock `{Board} start T s :
  is_u32 s.(base).(stats_send_time_high) → is_u32 s.(base).(stats_send_time) →
  send_clock s <= T < send_clock s + 2 ^ 32 → T < 2 ^ 64 →
  hw_time s.(reads) = T → s.(cmd).(in_sendf) = false →
  (∃ high cur s', command_get_uptime [] s = (Ret tt, s')
     ∧ s'.(trace) = Ev_send "uptime high=%u clock=%u" [A_int high; A_int cur] :: s.(trace)
     ∧ high * 2 ^ 32 + cur = T)
  ∧ match stats_update start (u32 T) s with
    | (Ret _, s') => send_clock s' = send_clock s ∨ send_clock s' = T
    | _ => False
    end.
Proof.
  intros Hh Hl HT H64 Hhw Hsend. split.
  - eexists _, _, _. split; [|split].
    + unfold command_get_uptime, mbind, M_bind. rewrite op_eq. simpl.
      by rewrite (op_eq (m := sendf _ _)).
    + unfold sent. simpl. by rewrite Hsend.
    + rewrite Hhw. by apply clock_step.
  - pose proof (wp_stats_update start T s Hh Hl HT H64) as Hwp. unfold wp in Hwp.
    destruct (stats_update start (u32 T) s) as [[] ?]; [|done..]. by destruct Hwp as (_ & _ & ?).
Qed.

Lemma uptime_tracks_clock_witness :
  let b := example_board in
  let s := init_mcu <| reads := 5000%nat |>
     <| base ::= λ c, c <| stats_send_time_high := 1 |> <| stats_send_time := 5 |> |> in
  (∃ high cur s', command_get_uptime [] s = (Ret tt, s')
     ∧ s'.(trace) = Ev_send "uptime high=%u clock=%u" [A_int high; A_int cur] :: s.(trace)
     ∧ high * 2 ^ 32 + cur = 5000000000)
  ∧ match stats_update 4999990000 (u32 5000000000) s with
    | (Ret _, s') => send_clock s' = send_clock s ∨ send_clock s' = 5000000000
    | _ => False
    end.
Proof.
  intros b s. apply (uptime_tracks_clock 4999990000 5000000000 s);
    unfold is_u32, send_clock; simpl; lia || done.
Defined.

(** ** Identification *)

(** The identify command answers with exactly the requested bytes of the
    identify data, cut off at its end, and never reads outside of it. *)
Theorem identify_slice data offset count s :
  Z.of_nat (length data) + 256 < 2 ^ 32 → is_u32 offset → is_u32 count →
  s.(cmd).(in_sendf) = false →
  let n := identify_count (Z.of_nat (length data)) offset (u8 count) in
  (n = 0 ∨ offset + n <= Z.of_nat (length data))
  ∧ n = Z.max 0 (Z.min (u8 count) (Z.of_nat (length data) - offset))
  ∧ ∃ s', command_identify data [offset; count] s = (Ret tt, s')
      ∧ s'.(trace) = Ev_send "identify_response offset=%u data=%.*s"
          [A_int offset; A_buf (take (Z.to_nat (u8 count)) (drop (Z.to_nat offset) data))]
          :: s.(trace).
Proof.
  intros Hlen Ho Hc Hsend n. unfold is_u32 in *. pose proof (u8_range count) as Hu.
  assert (Hn : n = Z.max 0 (Z.min (u8 count) (Z.of_nat (length data) - offset))).
  { unfold n, identify_count. set (c := u8 count) in *.
    destruct (Z.leb_spec (Z.of_nat (length data)) offset); [lia|].
    rewrite (u32_small (offset + c)) by lia.
    destruct (Z.ltb_spec (Z.of_nat (length data)) (offset + c)); [|lia].
    rewrite u8_small by lia. lia. }
  split_and!; [lia|done|]. eexists. split.
  - unfold command_identify. by rewrite (op_eq (m := sendf _ _)).
  - unfold sent. rewrite Hsend. simpl. fold n. do 4 f_equal.
    destruct (decide (Z.to_nat n = Z.to_nat (u8 count))) as [->|Hne]; [done|].
    rewrite !take_ge; rewrite ?length_drop; [done|lia..].
Qed.

Lemma identify_slice_witness :
  let n := identify_count 4 1 2 in
  (n = 0 ∨ 1 + n <= 4) ∧ n = Z.max 0 (Z.min 2 (4 - 1))
  ∧ ∃ s', command_identify [10; 20; 30; 40] [1; 2] init_mcu = (Ret tt, s')
      ∧ s'.(trace) = Ev_send "identify_response offset=%u data=%.*s"
          [A_int 1; A_buf [20; 30]] :: init_mcu.(trace).
Proof.
  apply (identify_slice [10; 20; 30; 40] 1 2 init_mcu); unfold is_u32; simpl; lia || done.
Defined.
