(* ===== verification/Stepper.v ===== *)
(** * Stepper motors (src/stepper.c)

    A stepper takes its moves from a queue; each move is a number of steps
    whose intervals change by a constant.  This file holds the code; the
    theorems are in StepperSpec. *)

From S2P Require Import Prelude.
From S2P Require Import State.
From S2P Require Import Machine.
From S2P Require Import Sched.
From S2P Require Import Basecmd.

Definition MF_DIR : Z := Z.shiftl 1 0.
Definition POSITION_BIAS : Z := 0x40000000.
Definition SF_LAST_DIR : Z := Z.shiftl 1 0.
Definition SF_NEXT_DIR : Z := Z.shiftl 1 1.
Definition SF_INVERT_STEP : Z := Z.shiftl 1 2.
Definition SF_NEED_RESET : Z := Z.shiftl 1 3.
Definition SF_SINGLE_SCHED : Z := Z.shiftl 1 4.
Definition SF_HAVE_ADD : Z := Z.shiftl 1 5.
Definition AVR_STEP_INSNS : Z := 40.

(** The timer of the stepper at [p]. *)
Definition stepper_time (p : Z) : timer_id := T_obj p 0.

(** The memory of a stepper as [oid_alloc] clears it. *)
Definition zero_stepper : stepper :=
  mk_stepper 0 0 0 0 0 0 0 0 (mk_move_queue_head None None) 0.

(** The fields of a [struct stepper_move]. *)
Definition read_move (m : Z) : M (Z * Z * Z * Z) :=
  n ← read_node m;
  match n.(mn_data) with
  | MD_stepper interval add count flags => mret (interval, add, count, flags)
  | _ => stuck Bad_object
  end.

Definition write_move (m interval add count flags : Z) : M unit :=
  update_node m (λ n, n <| mn_data := MD_stepper (u32 interval) (s16 add) (u16 count) (u8 flags) |>).

Section Stepper.
Context `{Board}.

Definition HAVE_EDGE_OPTIMIZATION : bool :=
  CONFIG_INLINE_STEPPER_HACK && CONFIG_HAVE_STEPPER_BOTH_EDGE.
Definition HAVE_AVR_OPTIMIZATION : bool :=
  negb HAVE_EDGE_OPTIMIZATION && (CONFIG_INLINE_STEPPER_HACK && CONFIG_MACH_AVR).
Definition HAVE_SINGLE_SCHEDULE : bool :=
  HAVE_EDGE_OPTIMIZATION || HAVE_AVR_OPTIMIZATION.

(** [HAVE_SINGLE_SCHEDULE && s->flags & SF_SINGLE_SCHED]. *)
Definition single_sched (s : stepper) : bool :=
  HAVE_SINGLE_SCHEDULE && flag_set s.(s_flags) SF_SINGLE_SCHED.

Definition stepper_load_next (p : Z) : M Z :=
  s ← read_obj p;
  if move_queue_empty s.(s_mq) then
    write_obj p (s <| s_count := 0 |>);;
    mret SF_DONE
  else
    '(m, mq) ← move_queue_pop s.(s_mq);
    '(interval, add, count, flags) ← read_move m;
    write_obj p (s <| s_mq := mq |> <| s_add := add |>
                   <| s_interval := u32 (interval + add) |>);;
    (if single_sched s then
       t ← read_timer (stepper_time p);
       set_waketime (stepper_time p) (t.(waketime) + interval);;
       when HAVE_AVR_OPTIMIZATION
         (update_obj p (λ s, s <| s_flags :=
            if add =? 0 then Z.land s.(s_flags) (u8 (Z.lnot SF_HAVE_ADD))
            else Z.lor s.(s_flags) SF_HAVE_ADD |>));;
       update_obj p (λ s, s <| s_count := count |>)
     else
       update_obj p (λ s, s <| s_next_step_time := u32 (s.(s_next_step_time) + interval) |>);;
       s ← read_obj p;
       set_waketime (stepper_time p) s.(s_next_step_time);;
       write_obj p (s <| s_count := u32 (count * 2) |>));;
    (if flag_set flags MF_DIR then
       update_obj p (λ s, s <| s_position := u32 (u32 (- s.(s_position)) + count) |>);;
       gpio_out_toggle_noirq s.(s_dir_pin)
     else update_obj p (λ s, s <| s_position := u32 (s.(s_position) + count) |>));;
    move_free m;;
    mret SF_RESCHEDULE.

(** [t->waketime += v] for the stepper's timer. *)
Definition add_waketime (p v : Z) : M unit :=
  t ← read_timer (stepper_time p); set_waketime (stepper_time p) (t.(waketime) + v).

Definition stepper_event_edge (p : Z) : M Z :=
  s ← read_obj p;
  gpio_out_toggle_noirq s.(s_step_pin);;
  let count := u32 (s.(s_count) - 1) in
  if negb (count =? 0) then
    write_obj p (s <| s_count := count |> <| s_interval := u32 (s.(s_interval) + s.(s_add)) |>);;
    add_waketime p s.(s_interval);;
    mret SF_RESCHEDULE
  else stepper_load_next p.

(** The AVR variant works on the low half of the count. *)
Definition stepper_event_avr (p : Z) : M Z :=
  s ← read_obj p;
  gpio_out_toggle_noirq s.(s_step_pin);;
  let count := u16 (u16 s.(s_count) - 1) in
  if negb (count =? 0) then
    write_obj p (s <| s_count := Z.lor (Z.land s.(s_count) 0xffff0000) count |>);;
    add_waketime p s.(s_interval);;
    gpio_out_toggle_noirq s.(s_step_pin);;
    when (flag_set s.(s_flags) SF_HAVE_ADD)
      (update_obj p (λ s, s <| s_interval := u32 (s.(s_interval) + s.(s_add)) |>));;
    mret SF_RESCHEDULE
  else
    ret ← stepper_load_next p;
    gpio_out_toggle_noirq s.(s_step_pin);;
    mret ret.

Definition stepper_event_full (p : Z) : M Z :=
  s ← read_obj p;
  gpio_out_toggle_noirq s.(s_step_pin);;
  curtime ← timer_read_time;
  let min_next_time := u32 (curtime + s.(s_step_pulse_ticks)) in
  let reschedule_min :=
    set_waketime (stepper_time p) min_next_time;; mret SF_RESCHEDULE in
  let count := u32 (s.(s_count) - 1) in
  write_obj p (s <| s_count := count |>);;
  if flag_set count 1 then reschedule_min
  else if negb (count =? 0) then
    let next_step_time := u32 (s.(s_next_step_time) + s.(s_interval)) in
    update_obj p (λ s, s <| s_next_step_time := next_step_time |>
                        <| s_interval := u32 (s.(s_interval) + s.(s_add)) |>);;
    if timer_is_before next_step_time min_next_time then reschedule_min
    else
      set_waketime (stepper_time p) next_step_time;;
      mret SF_RESCHEDULE
  else
    ret ← stepper_load_next p;
    t ← read_timer (stepper_time p);
    if (ret =? SF_DONE) || negb (timer_is_before t.(waketime) min_next_time) then mret ret
    else
      let diff := s32 (t.(waketime) - min_next_time) in
      if diff <? s32 (- timer_from_us 1000) then shutdown "Stepper too far in past"
      else reschedule_min.

Definition stepper_event (p : Z) : M Z :=
  if HAVE_EDGE_OPTIMIZATION then stepper_event_edge p
  else if HAVE_AVR_OPTIMIZATION then stepper_event_avr p
  else stepper_event_full p.

Definition command_config_stepper (args : list Z) : M unit :=
  match args with
  | [oid; step_pin; dir_pin; invert; pulse_ticks] =>
      p ← oid_alloc oid OT_stepper (sizeof_oid OT_stepper);
      modify (λ s, s <| timers ::= <[stepper_time p := mk_timer None F_null 0]> |>
                     <| signals ::= <[p := mk_trsync_signal None SIG_null]> |>);;
      write_obj p zero_stepper;;
      let invert_step := signed int_fast8_bits invert in
      let flags := if 0 <? invert_step then SF_INVERT_STEP else 0 in
      update_obj p (λ s, s <| s_flags := flags |>);;
      step_pin ← gpio_out_setup step_pin (Z.land flags SF_INVERT_STEP);
      dir_pin ← gpio_out_setup dir_pin 0;
      update_obj p (λ s, s <| s_step_pin := step_pin |> <| s_dir_pin := dir_pin |>
        <| s_position := u32 (- POSITION_BIAS) |> <| s_step_pulse_ticks := pulse_ticks |>);;
      mq ← move_queue_setup (sizeof_move OT_stepper);
      update_obj p (λ s, s <| s_mq := mq |>);;
      if HAVE_EDGE_OPTIMIZATION then
        if (pulse_ticks =? 0) && (invert_step <? 0)
        then update_obj p (λ s, s <| s_flags := Z.lor s.(s_flags) SF_SINGLE_SCHED |>)
        else set_func (stepper_time p) F_stepper_event_full
      else if HAVE_AVR_OPTIMIZATION then
        if pulse_ticks <=? AVR_STEP_INSNS
        then update_obj p (λ s, s <| s_flags := Z.lor s.(s_flags) SF_SINGLE_SCHED |>)
        else set_func (stepper_time p) F_stepper_event_full
      else when (negb CONFIG_INLINE_STEPPER_HACK)
             (set_func (stepper_time p) F_stepper_event_full)
  | _ => stuck Out_of_bounds
  end.

Definition stepper_oid_lookup (oid : Z) : M Z := oid_lookup oid OT_stepper.

Definition command_queue_step (args : list Z) : M unit :=
  match args with
  | [oid; interval; count; add] =>
      p ← stepper_oid_lookup oid;
      m ← move_alloc;
      if u16 count =? 0 then shutdown "Invalid count parameter"
      else
        irq_disable;;
        s ← read_obj p;
        let flags := s.(s_flags) in
        let turn := negb (Bool.eqb (flag_set flags SF_LAST_DIR) (flag_set flags SF_NEXT_DIR)) in
        let flags := if turn then Z.lxor flags SF_LAST_DIR else flags in
        write_move m interval add count (if turn then MF_DIR else 0);;
        (if negb (s.(s_count) =? 0) then
           '(_, mq) ← move_queue_push m s.(s_mq);
           write_obj p (s <| s_flags := flags |> <| s_mq := mq |>)
         else if flag_set flags SF_NEED_RESET then move_free m
         else
           '(_, mq) ← move_queue_push m s.(s_mq);
           write_obj p (s <| s_flags := flags |> <| s_mq := mq |>);;
           stepper_load_next p;;
           sched_add_timer (stepper_time p));;
        irq_enable
  | _ => stuck Out_of_bounds
  end.

Definition command_set_next_step_dir (args : list Z) : M unit :=
  match args with
  | [oid; dir] =>
      p ← stepper_oid_lookup oid;
      let nextdir := if dir =? 0 then 0 else SF_NEXT_DIR in
      irq_disable;;
      update_obj p (λ s, s <| s_flags :=
        Z.lor (Z.land s.(s_flags) (u8 (Z.lnot SF_NEXT_DIR))) nextdir |>);;
      irq_enable
  | _ => stuck Out_of_bounds
  end.

Definition command_reset_step_clock (args : list Z) : M unit :=
  match args with
  | [oid; wt] =>
      p ← stepper_oid_lookup oid;
      irq_disable;;
      s ← read_obj p;
      if negb (s.(s_count) =? 0) then shutdown "Can't reset time when stepper active"
      else
        set_waketime (stepper_time p) wt;;
        write_obj p (s <| s_next_step_time := wt |>
          <| s_flags := Z.land s.(s_flags) (u8 (Z.lnot SF_NEED_RESET)) |>);;
        irq_enable
  | _ => stuck Out_of_bounds
  end.

Definition stepper_get_position (s : stepper) : Z :=
  let position := if single_sched s then u32 (s.(s_position) - s.(s_count))
                  else u32 (s.(s_position) - s.(s_count) / 2) in
  if flag_set position 0x80000000 then u32 (- position) else position.

Definition command_stepper_get_position (args : list Z) : M unit :=
  match args with
  | [oid] =>
      p ← stepper_oid_lookup oid;
      irq_disable;;
      s ← read_obj p;
      let position := stepper_get_position s in
      irq_enable;;
      sendf "stepper_position oid=%c pos=%i"
        [A_int (u8 oid); A_int (u32 (position - POSITION_BIAS))]
  | _ => stuck Out_of_bounds
  end.

(** The loop that frees the queued moves. *)
Fixpoint free_moves (fuel : nat) (p : Z) : M unit :=
  match fuel with
  | O => stuck Out_of_fuel
  | S fuel =>
      s ← read_obj p;
      if move_queue_empty s.(s_mq) then mret tt
      else
        '(m, mq) ← move_queue_pop s.(s_mq);
        write_obj p (s <| s_mq := mq |>);;
        move_free m;;
        free_moves fuel p
  end.

(** [stepper_stop], on the stepper at [p]. *)
Definition stepper_stop (p reason : Z) : M unit :=
  sched_del_timer (stepper_time p);;
  set_waketime (stepper_time p) 0;;
  s ← read_obj p;
  let flags := Z.lor (Z.land s.(s_flags) (Z.lor SF_INVERT_STEP SF_SINGLE_SCHED)) SF_NEED_RESET in
  write_obj p (s <| s_next_step_time := 0 |>
    <| s_position := u32 (- stepper_get_position s) |> <| s_count := 0 |>
    <| s_flags := flags |>);;
  gpio_out_write s.(s_dir_pin) 0;;
  when (negb (HAVE_EDGE_OPTIMIZATION && flag_set flags SF_SINGLE_SCHED))
    (gpio_out_write s.(s_step_pin) (Z.land flags SF_INVERT_STEP));;
  n ← gets (λ s, size s.(nodes));
  free_moves (S n) p.

Definition stepper_shutdown : M unit :=
  foreach_oid OT_stepper (λ _ p,
    update_obj p (λ s, s <| s_mq ::= move_queue_clear |>);;
    stepper_stop p 0).

End Stepper.
