(* ===== verification/StepperSpec.v ===== *)
(** * The stepper executes its queued moves

    The abstract specification of a stepper is its schedule: the list of the
    times of its steps and of its position after each of them.  The step
    function refines it: every timer event takes one step of the schedule. *)

From S2P Require Import Prelude.
From S2P Require Import State.
From S2P Require Import Machine.
From S2P Require Import Sched.
From S2P Require Import SchedList.
From S2P Require Import SchedSpec.
From S2P Require Import Dispatch.
From S2P Require Import Basecmd.
From S2P Require Import BasecmdSpec.
From S2P Require Import Stepper.

(** ** The abstract schedule *)

(** A queued move: [mv_dir] says whether it reverses the direction. *)
Record move := mk_move {
  mv_interval : Z;
  mv_add : Z;
  mv_count : nat;
  mv_dir : bool;
}.

(** The steps at [w], [w + i], [w + i + (i + a)], ... and the positions after
    them, from [pos] in direction [d]. *)
Fixpoint steps (c : nat) (w i a pos d : Z) : list (Z * Z) :=
  match c with
  | O => []
  | S c => (u32 w, pos + d) :: steps c (w + i) (i + a) a (pos + d) d
  end.

(** The time of the last of [c] steps, when the step before the first was
    at [w] and the first interval is [i]. *)
Definition end_time (c : nat) (w i a : Z) : Z :=
  w + Z.of_nat c * i + a * (Z.of_nat c * (Z.of_nat c - 1) / 2).

(** The schedule of a list of moves after a step at [w]. *)
Fixpoint schedule (w pos d : Z) (ms : list move) : list (Z * Z) :=
  match ms with
  | [] => []
  | m :: ms =>
      let d := if m.(mv_dir) then - d else d in
      steps m.(mv_count) (w + m.(mv_interval)) (m.(mv_interval) + m.(mv_add))
        m.(mv_add) pos d
      ++ schedule (end_time m.(mv_count) w m.(mv_interval) m.(mv_add))
           (pos + Z.of_nat m.(mv_count) * d) d ms
  end.

Lemma triangle_succ c : (c + 1) * c / 2 = c * (c - 1) / 2 + c.
Proof.
  replace ((c + 1) * c) with (c * (c - 1) + c * 2) by lia. by rewrite Z.div_add.
Qed.

(** The k-th step of a move (counted from 0). *)
Lemma steps_lookup c w i a pos d k :
  (k < c)%nat →
  steps c w i a pos d !! k
  = Some (u32 (w + Z.of_nat k * i + a * (Z.of_nat k * (Z.of_nat k - 1) / 2)),
          pos + (Z.of_nat k + 1) * d).
Proof.
  revert w i pos k. induction c as [|c IH]; intros w i pos k Hk; [lia|].
  destruct k as [|k].
  - change (steps (S c) w i a pos d !! 0%nat) with (Some (u32 w, pos + d)).
    change (Z.of_nat 0) with 0. change (0 * (0 - 1) / 2) with 0. f_equal. f_equal; [f_equal; lia|lia].
  - change (steps (S c) w i a pos d !! S k)
      with (steps c (w + i) (i + a) a (pos + d) d !! k). rewrite IH by lia. rewrite Nat2Z.inj_succ, <- Z.add_1_r.
    replace (Z.of_nat k + 1 - 1) with (Z.of_nat k) by lia.
    rewrite triangle_succ. f_equal. f_equal; [f_equal; ring|ring].
Qed.

Lemma end_time_succ c w i a :
  end_time (S c) w i a = end_time c (w + i) (i + a) a.
Proof.
  unfold end_time. rewrite Nat2Z.inj_succ, <- Z.add_1_r.
  replace (Z.of_nat c + 1 - 1) with (Z.of_nat c) by lia.
  rewrite triangle_succ. nia.
Qed.

(** ** Positions *)

(** The 32-bit encoding of a position: the top bit is the direction. *)
Definition encode_pos (pos d : Z) : Z := u32 (d * pos).

Lemma top_bit_set x : is_u32 x → flag_set x 0x80000000 = (2 ^ 31 <=? x).
Proof.
  unfold is_u32, flag_set. intros Hx.
  assert (Hl : Z.land x 0x80000000 = if 2 ^ 31 <=? x then 2 ^ 31 else 0).
  { change 0x80000000 with (2 ^ 31). apply Z.bits_inj'. intros n Hn.
    rewrite Z.land_spec. destruct (decide (n = 31)) as [->|Hne].
    - rewrite Z.pow2_bits_true by lia. rewrite andb_true_r.
      rewrite Z.testbit_eqb by lia.
      destruct (Z.leb_spec (2 ^ 31) x).
      + rewrite Z.pow2_bits_true by lia. int_lia.
      + rewrite Z.bits_0. int_lia.
    - rewrite Z.pow2_bits_false by lia. rewrite andb_false_r.
      destruct (2 ^ 31 <=? x); [by rewrite Z.pow2_bits_false by lia|by rewrite Z.bits_0]. }
  rewrite Hl. by destruct (2 ^ 31 <=? x).
Qed.

Definition is_dir (d : Z) : Prop := d = 1 ∨ d = -1.

Lemma encode_pos_decode pos d :
  is_dir d → 0 < pos < 2 ^ 31 →
  (if flag_set (encode_pos pos d) 0x80000000
   then u32 (- encode_pos pos d) else encode_pos pos d) = pos.
Proof.
  intros Hd Hp. rewrite top_bit_set by apply u32_range.
  unfold encode_pos. destruct Hd as [->| ->]; int_lia.
Qed.

Lemma encode_pos_step pos d n :
  is_dir d → u32 (encode_pos pos d + n) = encode_pos (pos + n * d) d.
Proof.
  intros Hd. unfold encode_pos. destruct Hd as [->| ->]; int_lia.
Qed.

Section stepper.
Context `{Board}.

(** The position counter without the steps not yet taken. *)
Definition raw_position (st : stepper) : Z :=
  if single_sched st then u32 (st.(s_position) - st.(s_count))
  else u32 (st.(s_position) - st.(s_count) / 2).

Lemma get_position_encode st pos d :
  raw_position st = encode_pos pos d → is_dir d → 0 < pos < 2 ^ 31 →
  stepper_get_position st = pos.
Proof.
  intros Hraw Hd Hp. unfold stepper_get_position. fold (raw_position st).
  rewrite Hraw. by apply encode_pos_decode.
Qed.

(** ** Loading a move *)

(** The node at [a] holds the move [m]. *)
Definition holds_move (ns : gmap Z move_node) (a : Z) (m : move) : Prop :=
  ndata ns a = Some (MD_stepper m.(mv_interval) m.(mv_add) (Z.of_nat m.(mv_count))
                       (if m.(mv_dir) then MF_DIR else 0))
  ∧ 0 < Z.of_nat m.(mv_count) < 2 ^ 16.

(** The nodes of the stepper's queue and the free list. *)
Record moves_ok (s : mcu) (st : stepper) (F L : list Z) (ms : list move) : Prop := {
  mo_queue : queue_is s.(nodes) st.(s_mq) L;
  mo_free : free_is s F;
  mo_disj : ∀ a, a ∈ L → a ∉ F;
  mo_data : Forall2 (holds_move s.(nodes)) L ms;
}.

Lemma flag_MF_DIR b : flag_set (if b : bool then MF_DIR else 0) MF_DIR = b.
Proof. by destruct b. Qed.

Lemma ndata_lookup ns a d :
  ndata ns a = Some d → ∃ n, ns !! a = Some n ∧ n.(mn_data) = d.
Proof. unfold ndata. destruct (ns !! a) as [n|]; [|done]. intros [= <-]. by exists n. Qed.

Lemma wp_read_move a m Q E s :
  holds_move s.(nodes) a m →
  Q (m.(mv_interval), m.(mv_add), Z.of_nat m.(mv_count), if m.(mv_dir) then MF_DIR else 0) s →
  wp (read_move a) Q E s.
Proof.
  intros [Hd _] HQ. apply ndata_lookup in Hd as (n & Hn & Hd). unfold read_move. wp_steps.
  eapply wp_read_node; [done|]. rewrite Hd. by apply wp_ret.
Qed.

(** The stepper after loading [m] from the queue, whose new head is [mq]. *)
Definition loaded (st : stepper) (m : move) (mq : move_queue_head) : stepper :=
  let st1 := st <| s_mq := mq |> <| s_add := m.(mv_add) |>
    <| s_interval := u32 (m.(mv_interval) + m.(mv_add)) |> in
  let st2 :=
    if single_sched st then st1 <| s_count := Z.of_nat m.(mv_count) |>
    else st1 <| s_next_step_time := u32 (st.(s_next_step_time) + m.(mv_interval)) |>
             <| s_count := u32 (Z.of_nat m.(mv_count) * 2) |> in
  st2 <| s_position := u32 ((if m.(mv_dir) then u32 (- st.(s_position)) else st.(s_position))
                            + Z.of_nat m.(mv_count)) |>.

Definition dir_events (st : stepper) (m : move) : list event :=
  if m.(mv_dir) then [Ev_gpio_out_toggle st.(s_dir_pin)] else [].

(** The wake time of the stepper after loading [m] at wake time [w]. *)
Definition load_time (st : stepper) (w : Z) (m : move) : Z :=
  if single_sched st then u32 (w + m.(mv_interval))
  else u32 (st.(s_next_step_time) + m.(mv_interval)).

(** What [stepper_load_next] leaves when it loads [m]. *)
Record load_post (p : Z) (s : mcu) (st : stepper) (m : move) (F L : list Z)
    (ms : list move) (a : Z) (s' : mcu) : Prop := {
  lp_obj : ∃ mq, obj_at s' p (loaded st m mq) ∧ moves_ok s' (loaded st m mq) (a :: F) L ms;
  lp_others : ∀ q, q ≠ p → s'.(objs) !! q = s.(objs) !! q;
  lp_timers : s'.(timers) = alter (λ r, r <| waketime :=
    load_time st (wk s.(timers) (stepper_time p)) m |>) (stepper_time p) s.(timers);
  lp_trace : s'.(trace) = dir_events st m ++ s.(trace);
  lp_nodes : ∀ x, x ≠ a → s'.(nodes) !! x = s.(nodes) !! x;
  lp_sst : s'.(sst) = s.(sst);
  lp_irq : s'.(irq) = s.(irq);
  lp_reads : s'.(reads) = s.(reads);
}.

Lemma holds_move_ndata ns ns' a m :
  (∀ x, ndata ns' x = ndata ns x) → holds_move ns a m → holds_move ns' a m.
Proof. unfold holds_move. intros Hd. by rewrite Hd. Qed.

(** Freeing the node at the head of the queue. *)
Lemma wp_free_popped s st st' F a L m ms Q E :
  queue_is s.(nodes) st.(s_mq) (a :: L) → queue_is s.(nodes) st'.(s_mq) L →
  free_is s F → (∀ x, x ∈ a :: L → x ∉ F) →
  Forall2 (holds_move s.(nodes)) (a :: L) (m :: ms) →
  (∀ s', moves_ok s' st' (a :: F) L ms →
     (∀ x, x ≠ a → s'.(nodes) !! x = s.(nodes) !! x) →
     s' = s <| nodes := s'.(nodes) |> <| base := s'.(base) |> →
     s'.(base) = s.(base) <| move_free_list := Some a |> → Q tt s') →
  wp (move_free a) Q E s.
Proof.
  intros (_ & Hnd & _) Hq' Hf Hdisj Hdata HQ. apply NoDup_cons in Hnd as [Ha HndL].
  apply Forall2_cons in Hdata as [[Hda _] Hdata].
  apply ndata_lookup in Hda as (n & Hn & _).
  apply (wp_move_free a F); [done|apply Hdisj; set_solver|by eexists|].
  intros s' Hf' Hns Hs'. apply HQ.
  - constructor.
    + eapply queue_is_ext; [|done]. intros x Hx. rewrite Hns. apply nlink_alter_ne. set_solver.
    + done.
    + set_solver.
    + eapply Forall2_impl; [done|]. intros x mx. apply holds_move_ndata.
      intros y. rewrite Hns. apply ndata_alter_link.
  - intros x Hx. rewrite Hns. by rewrite lookup_alter_ne.
  - destruct s', s. simpl in *. injection Hs'. intros. by subst.
  - by rewrite Hs'.
Qed.

Hypothesis no_avr : HAVE_AVR_OPTIMIZATION = false.

(** The branch of [stepper_load_next] that sets the wake time and the count. *)
Lemma wp_load_time p s st st1 t interval count add Q E :
  obj_at s p st1 → s.(timers) !! stepper_time p = Some t →
  single_sched st1 = single_sched st → st1.(s_next_step_time) = st.(s_next_step_time) →
  (∀ s', obj_at s' p (if single_sched st then st1 <| s_count := count |>
            else st1 <| s_next_step_time := u32 (st.(s_next_step_time) + interval) |>
                     <| s_count := u32 (count * 2) |>) →
     (∀ q, q ≠ p → s'.(objs) !! q = s.(objs) !! q) →
     s'.(timers) = alter (λ r, r <| waketime := if single_sched st
        then u32 (t.(waketime) + interval)
        else u32 (st.(s_next_step_time) + interval) |>) (stepper_time p) s.(timers) →
     s' = s <| objs := s'.(objs) |> <| timers := s'.(timers) |> → Q tt s') →
  wp (if single_sched st then
       t ← read_timer (stepper_time p);
       set_waketime (stepper_time p) (t.(waketime) + interval);;
       when HAVE_AVR_OPTIMIZATION
         (update_obj p (λ s, s <| s_flags :=
            if add =? 0 then Z.land s.(s_flags) (u8 (Z.lnot SF_HAVE_ADD))
            else Z.lor s.(s_flags) SF_HAVE_ADD |>));;
       update_obj p (λ s, s <| s_count := count |>)
     else
       update_obj p (λ s, s <| s_next_step_time := u32 (s.(s_next_step_time) + interval) |>);;
       s ← read_obj p;
       set_waketime (stepper_time p) s.(s_next_step_time);;
       write_obj p (s <| s_count := u32 (count * 2) |>)) Q E s.
Proof.
  intros Hst Ht Hss Hnst HQ. destruct (single_sched st).
  - wp_steps. eapply wp_read_timer; [done|]. wp_steps. rewrite no_avr.
    apply wp_ret. eapply wp_update_obj; [by eapply obj_at_frame|]. apply HQ; simpl.
    + apply lookup_insert_eq.
    + intros q Hq. by rewrite lookup_insert_ne.
    + done.
    + by destruct s.
  - wp_steps. eapply wp_update_obj; [done|]. wp_steps.
    eapply wp_read_obj; [apply obj_at_write|]. wp_steps. rewrite Hnst. apply HQ; simpl.
    + apply lookup_insert_eq.
    + intros q Hq. by rewrite !lookup_insert_ne.
    + by rewrite u32_u32.
    + by destruct s.
Qed.

(** The branch that updates the position and the direction pin. *)
Lemma wp_load_pos p s st2 (dir : bool) pin count Q E :
  obj_at s p st2 →
  (∀ s', obj_at s' p (st2 <| s_position := u32 ((if dir then u32 (- st2.(s_position))
                        else st2.(s_position)) + count) |>) →
     (∀ q, q ≠ p → s'.(objs) !! q = s.(objs) !! q) →
     s'.(trace) = (if dir then [Ev_gpio_out_toggle pin] else []) ++ s.(trace) →
     s' = s <| objs := s'.(objs) |> <| trace := s'.(trace) |> → Q tt s') →
  wp (if dir then
       update_obj p (λ s, s <| s_position := u32 (u32 (- s.(s_position)) + count) |>);;
       gpio_out_toggle_noirq pin
     else update_obj p (λ s, s <| s_position := u32 (s.(s_position) + count) |>)) Q E s.
Proof.
  intros Hst HQ. destruct dir.
  - wp_steps. eapply wp_update_obj; [done|]. wp_steps. apply HQ; simpl.
    + apply lookup_insert_eq.
    + intros q Hq. by rewrite !lookup_insert_ne.
    + done.
    + by destruct s.
  - eapply wp_update_obj; [done|]. apply HQ; simpl.
    + apply lookup_insert_eq.
    + intros q Hq. by rewrite !lookup_insert_ne.
    + done.
    + by destruct s.
Qed.

Lemma wp_load_next p s st t F a L m ms :
  obj_at s p st → s.(timers) !! stepper_time p = Some t →
  moves_ok s st F (a :: L) (m :: ms) →
  wp (stepper_load_next p)
    (λ res s', res = SF_RESCHEDULE ∧ load_post p s st m F L ms a s') (λ _ _, False) s.
Proof.
  intros Hst Ht [Hq Hf Hdisj Hdata]. unfold stepper_load_next. wp_steps.
  eapply wp_read_obj; [done|].
  assert (Hne : move_queue_empty st.(s_mq) = false).
  { apply bool_decide_eq_false. destruct Hq as [[-> _] _]. done. }
  rewrite Hne. wp_steps. eapply wp_move_queue_pop; [done|]. intros mq Hmq. wp_steps.
  assert (Hm := Hdata). apply Forall2_cons in Hm as [Hm _].
  eapply wp_read_move; [done|]. wp_steps.
  eapply (wp_load_time p _ st); [apply obj_at_write|done|done|done|].
  intros s1 Hst1 Hobj1 Htm1 Hs1. apply wp_bind. rewrite flag_MF_DIR.
  eapply wp_load_pos; [exact Hst1|].
  intros s2 Hst2 Hobj2 Htr2 Hs2. apply wp_bind.
  assert (Hn2 : s2.(nodes) = s.(nodes) ∧ s2.(base) = s.(base) ∧ s2.(timers) = s1.(timers)
    ∧ s1.(trace) = s.(trace) ∧ s2.(sst) = s.(sst) ∧ s2.(irq) = s.(irq)
    ∧ s2.(reads) = s.(reads)).
  { split_and!; try (rewrite Hs2; simpl); try done; by rewrite Hs1. }
  destruct Hn2 as (Hn2 & Hb2 & Ht2 & Htr1 & Hss2 & Hi2 & Hr2).
  eapply (wp_free_popped s2 st (loaded st m mq) F a L m ms); rewrite ?Hn2; try done.
  { unfold loaded. by destruct (single_sched st). }
  { destruct Hf. split; [|done]. by rewrite Hn2, Hb2. }
  intros s3 Hmo Hnod Hs3 _. apply wp_ret. split; [done|]. constructor.
  - exists mq. split; [|done]. apply (obj_at_frame s2); [by rewrite Hs3|].
    unfold loaded. destruct (single_sched st); exact Hst2.
  - intros q Hqp. rewrite Hs3. simpl. rewrite Hobj2, Hobj1 by done.
    simpl. by rewrite lookup_insert_ne.
  - rewrite Hs3. simpl. rewrite Ht2, Htm1. simpl. unfold load_time.
    by rewrite (wk_lookup _ _ _ Ht).
  - rewrite Hs3. simpl. by rewrite Htr2, Htr1.
  - intros x Hx. by rewrite Hnod.
  - by rewrite Hs3.
  - by rewrite Hs3.
  - by rewrite Hs3.
Qed.

(** With an empty queue the stepper becomes idle. *)
Lemma wp_load_next_empty p s st F :
  obj_at s p st → moves_ok s st F [] [] →
  wp (stepper_load_next p)
    (λ res s', res = SF_DONE ∧ s' = s <| objs ::= <[p := obj_inj (st <| s_count := 0 |>)]> |>)
    (λ _ _, False) s.
Proof.
  intros Hst [[Hq _] _ _ _]. unfold stepper_load_next. wp_steps.
  eapply wp_read_obj; [done|].
  assert (Hne : move_queue_empty st.(s_mq) = true) by by apply bool_decide_eq_true.
  rewrite Hne. by wp_steps.
Qed.

(** ** Stepping on both edges *)

(** The stepper at [p] is about to step at [w], the next interval is [i]. *)
Record active (p : Z) (s : mcu) (st : stepper) (F L : list Z) (ms : list move)
    (w i a pos d : Z) : Prop := {
  ac_obj : obj_at s p st;
  ac_single : single_sched st = true;
  ac_timer : ∃ t, s.(timers) !! stepper_time p = Some t ∧ t.(waketime) = u32 w;
  ac_moves : moves_ok s st F L ms;
  ac_interval : st.(s_interval) = u32 i;
  ac_add : st.(s_add) = a;
  ac_count : 0 < st.(s_count) < 2 ^ 16;
  ac_pos : raw_position st = encode_pos pos d;
  ac_dir : is_dir d;
}.

(** The steps still to come. *)
Definition pending (st : stepper) (ms : list move) (w i a pos d : Z) : list (Z * Z) :=
  steps (Z.to_nat st.(s_count)) w i a pos d
  ++ schedule (end_time (Z.to_nat (st.(s_count) - 1)) w i a)
       (pos + st.(s_count) * d) d ms.

(** The stepper at [p] will execute the schedule [sch]. *)
Definition follows (p : Z) (s : mcu) (sch : list (Z * Z)) : Prop :=
  ∃ st F L ms w i a pos d,
    active p s st F L ms w i a pos d ∧ sch = pending st ms w i a pos d.

(** What one timer event does: toggle the step pin, arrive at position [x], and
    go on with the rest of the schedule. *)
Definition stepped (p : Z) (s : mcu) (x : Z) (sch : list (Z * Z)) (res : Z) (s' : mcu) : Prop :=
  ∃ st st' dirs, obj_at s p st ∧ obj_at s' p st'
    ∧ s'.(trace) = dirs ++ Ev_gpio_out_toggle st.(s_step_pin) :: s.(trace)
    ∧ Forall (λ e, e = Ev_gpio_out_toggle st.(s_dir_pin)) dirs
    ∧ stepper_get_position st' = x
    ∧ rewaked (stepper_time p) s s'
    ∧ match sch with
      | [] => res = SF_DONE ∧ st'.(s_count) = 0
          ∧ wk s'.(timers) (stepper_time p) = wk s.(timers) (stepper_time p)
      | (tm, _) :: _ => res = SF_RESCHEDULE ∧ follows p s' sch
          ∧ wk s'.(timers) (stepper_time p) = tm
      end.

Lemma pending_cons st ms w i a pos d :
  0 < st.(s_count) →
  pending st ms w i a pos d
  = (u32 w, pos + d) ::
    (if st.(s_count) =? 1 then schedule w (pos + d) d ms
     else pending (st <| s_count := st.(s_count) - 1 |>) ms (w + i) (i + a) a (pos + d) d).
Proof.
  intros Hc. unfold pending. simpl.
  destruct (Z.to_nat st.(s_count)) as [|c] eqn:Heq; [lia|]. simpl. f_equal.
  destruct (Z.eqb_spec st.(s_count) 1) as [Hc1|Hc1].
  - assert (c = 0%nat) as -> by lia. rewrite Hc1, Z.mul_1_l.
    change (Z.to_nat (1 - 1)) with 0%nat. unfold end_time, steps. rewrite app_nil_l.
    change (Z.of_nat 0) with 0. change (0 * (0 - 1) / 2) with 0. f_equal; lia.
  - replace (Z.to_nat (st.(s_count) - 1)) with c by lia.
    replace (Z.to_nat (st.(s_count) - 1 - 1)) with (pred c) by lia.
    f_equal. f_equal; [|lia]. destruct c as [|c]; [lia|]. apply end_time_succ.
Qed.

(** The schedule of a freshly loaded move. *)
Lemma pending_loaded st m mq ms w pos d :
  single_sched st = true → 0 < Z.of_nat m.(mv_count) →
  let d' := if m.(mv_dir) then - d else d in
  pending (loaded st m mq) ms (w + m.(mv_interval)) (m.(mv_interval) + m.(mv_add))
    m.(mv_add) pos d' = schedule w pos d (m :: ms).
Proof.
  intros Hs Hc d'. unfold pending, loaded. rewrite Hs. simpl. rewrite Nat2Z.id.
  f_equal. f_equal. destruct m.(mv_count) as [|c]; [lia|].
  replace (Z.to_nat (Z.of_nat (S c) - 1)) with c by lia.
  by rewrite end_time_succ.
Qed.

Lemma schedule_nonempty w pos d m ms :
  0 < Z.of_nat m.(mv_count) →
  ∃ x sch, schedule w pos d (m :: ms) = (u32 (w + m.(mv_interval)), x) :: sch.
Proof. intros. simpl. destruct m.(mv_count); [lia|]. simpl. eauto. Qed.

Lemma loaded_single st m mq : single_sched (loaded st m mq) = single_sched st.
Proof. unfold loaded. by destruct (single_sched st) eqn:Hs. Qed.

Lemma is_dir_flip d (b : bool) : is_dir d → is_dir (if b then - d else d).
Proof. unfold is_dir. destruct b; lia. Qed.

(** Loading a move does not change the position, only its encoding. *)
Lemma loaded_raw st m mq pos d :
  single_sched st = true → u32 st.(s_position) = encode_pos pos d →
  raw_position (loaded st m mq) = encode_pos pos (if m.(mv_dir) then - d else d).
Proof.
  intros Hs Hpos. unfold raw_position. rewrite loaded_single, Hs.
  unfold loaded. rewrite Hs. simpl. unfold encode_pos in *. destruct m.(mv_dir); int_lia.
Qed.

(** The stepper is active after loading a move. *)
Lemma active_loaded p s s' st t F a L m ms w pos d :
  single_sched st = true → s.(timers) !! stepper_time p = Some t → t.(waketime) = u32 w →
  u32 st.(s_position) = encode_pos pos d → is_dir d →
  0 < Z.of_nat m.(mv_count) < 2 ^ 16 → load_post p s st m F L ms a s' →
  ∃ mq, obj_at s' p (loaded st m mq) ∧
    active p s' (loaded st m mq) (a :: F) L ms (w + m.(mv_interval))
      (m.(mv_interval) + m.(mv_add)) m.(mv_add) pos (if m.(mv_dir) then - d else d).
Proof.
  intros Hs Ht Hw Hpos Hd Hcnt [(mq & Hobj & Hmo) _ Htm _ _ _ _ _].
  exists mq. split; [done|]. constructor; try done.
  - by rewrite loaded_single.
  - rewrite Htm, lookup_alter, decide_True, Ht by done. eexists. split; [done|].
    simpl. unfold load_time. by rewrite Hs, (wk_lookup _ _ _ Ht), Hw, u32_add_l.
  - unfold loaded. by rewrite Hs.
  - unfold loaded. by rewrite Hs.
  - unfold loaded. by rewrite Hs.
  - by apply loaded_raw.
  - by apply is_dir_flip.
Qed.

(** The last step of a move: load the next one, or become idle. *)
Lemma wp_edge_last p s st F L ms w pos d Q E :
  obj_at s p st → single_sched st = true →
  (∃ t, s.(timers) !! stepper_time p = Some t ∧ t.(waketime) = u32 w) →
  moves_ok s st F L ms → u32 st.(s_position) = encode_pos pos d → is_dir d →
  0 < pos < 2 ^ 31 →
  (∀ res s' st' dirs, obj_at s' p st' → s'.(trace) = dirs ++ s.(trace) →
     Forall (λ e, e = Ev_gpio_out_toggle st.(s_dir_pin)) dirs →
     stepper_get_position st' = pos → rewaked (stepper_time p) s s' →
     match schedule w pos d ms with
     | [] => res = SF_DONE ∧ st'.(s_count) = 0
         ∧ wk s'.(timers) (stepper_time p) = wk s.(timers) (stepper_time p)
     | (tm, _) :: _ => res = SF_RESCHEDULE ∧ follows p s' (schedule w pos d ms)
         ∧ wk s'.(timers) (stepper_time p) = tm
     end → Q res s') →
  wp (stepper_load_next p) Q E s.
Proof.
  intros Hst Hss (t & Ht & Hw) Hmo Hpos Hd Hrange HQ.
  assert (Hdata := mo_data _ _ _ _ _ Hmo). destruct Hdata as [|a m L' ms' Hm Hdata].
  - eapply wp_mono; [by eapply wp_load_next_empty| |done].
    intros res s' [-> ->].
    eapply (HQ _ _ _ []); [apply obj_at_write|done|done| |by eapply rewaked_same|done].
    apply (get_position_encode _ pos d); [|done..]. unfold raw_position.
    change (single_sched (st <| s_count := 0 |>)) with (single_sched st).
    rewrite Hss. simpl. by rewrite Z.sub_0_r.
  - eapply wp_mono; [eapply wp_load_next; [done..|exact Hmo]| |done].
    intros res s' [-> Hpost].
    destruct Hm as [_ Hcnt].
    destruct (schedule_nonempty w pos d m ms') as (x & sch & Hsch); [lia|].
    destruct (active_loaded p s s' st t F a L' m ms' w pos d) as (mq & Hobj & Hact); [done..|].
    destruct Hpost as [_ _ Htm Htr _ Hss' _ _].
    eapply (HQ _ _ _ (dir_events st m)); [exact Hobj|exact Htr| | |by eapply rewaked_alter|].
    + unfold dir_events. destruct m.(mv_dir); repeat constructor.
    + eapply get_position_encode; [by apply (loaded_raw _ _ _ pos d)| |done].
      by apply is_dir_flip.
    + rewrite Hsch, <- Hsch. split_and!; [done| |].
      * do 9 eexists. split; [exact Hact|]. symmetry. apply pending_loaded; [done|lia].
      * rewrite Htm. erewrite wk_alter_eq by done. simpl. unfold load_time. rewrite Hss.
        by rewrite (wk_lookup _ _ _ Ht), Hw, u32_add_l.
Qed.

(** Each event takes the next step of the schedule. *)
Lemma wp_stepper_event_edge p s tm x sch :
  follows p s ((tm, x) :: sch) → 0 < x < 2 ^ 31 →
  wk s.(timers) (stepper_time p) = tm
  ∧ wp (stepper_event_edge p) (stepped p s x sch) (λ _ _, False) s.
Proof.
  intros (st & F & L & ms & w & i & a & pos & d & Hact & Hsch) Hx.
  destruct Hact as [Hst Hss (t & Ht & Hw) Hmo Hi Ha Hc Hpos Hd].
  rewrite pending_cons in Hsch by lia. injection Hsch as -> -> Hsch.
  split; [by rewrite (wk_lookup _ _ _ Ht)|].
  unfold stepper_event_edge. wp_steps. eapply wp_read_obj; [done|]. wp_steps.
  rewrite (u32_small (st.(s_count) - 1)) by lia.
  assert (Hraw := Hpos). unfold raw_position in Hraw. rewrite Hss in Hraw.
  destruct (Z.eqb_spec st.(s_count) 1) as [Hc1|Hc1].
  - rewrite Hc1. simpl.
    eapply (wp_edge_last p _ st F L ms w (pos + d) d); try done.
    + by exists t.
    + destruct Hmo. by constructor.
    + rewrite <- (Z.mul_1_l d) at 1. rewrite <- encode_pos_step, <- Hraw, Hc1 by done.
      int_lia.
    + intros res s' st' dirs Hobj' Htr Hdirs Hp Hrw Hsched.
      exists st, st', dirs. rewrite <- Hsch in Hsched. split_and!; try done.
      destruct Hrw. by constructor.
  - rewrite (proj2 (Z.eqb_neq _ _)) by lia. simpl. unfold add_waketime. wp_steps.
    eapply wp_read_timer; [done|]. wp_steps.
    set (st' := st <| s_count := st.(s_count) - 1 |>
                   <| s_interval := u32 (st.(s_interval) + st.(s_add)) |>).
    assert (Hss' : single_sched st' = true) by done.
    assert (Hraw' : raw_position st' = encode_pos (pos + d) d).
    { unfold raw_position. rewrite Hss'. simpl.
      rewrite <- (Z.mul_1_l d) at 1. rewrite <- encode_pos_step, <- Hraw by done. int_lia. }
    match goal with |- stepped _ _ _ _ _ ?s1 => set (s' := s1) end.
    assert (Hact' : active p s' st' F L ms (w + i) (i + a) a (pos + d) d).
    { constructor; try done.
      - apply lookup_insert_eq.
      - eexists. split; [simpl; by rewrite lookup_alter, decide_True, Ht|].
        simpl. by rewrite Hw, Hi, u32_add_l, u32_add_r.
      - destruct Hmo. by constructor.
      - simpl. by rewrite Hi, Ha, u32_add_l.
      - simpl. lia. }
    exists st, st', []. split_and!; [done|apply Hact'|done|constructor| | |].
    + by apply (get_position_encode _ (pos + d) d).
    + by eapply rewaked_alter.
    + change (pending (st <| s_count := st.(s_count) - 1 |>)) with (pending st') in Hsch.
      assert (Hsch' := Hsch). rewrite pending_cons in Hsch' by (simpl; lia).
      rewrite Hsch'. rewrite <- Hsch'. split_and!; [done| |].
      * by do 9 eexists.
      * simpl. erewrite wk_alter_eq by done. simpl. by rewrite Hw, Hi, u32_add_l, u32_add_r.
Qed.

End stepper.
