(* ===== verification/StepperCmd.v ===== *)
(** * The stepper commands

    [queue_step] appends a move to the schedule, the stop handler discards the
    schedule without losing the position, the double-scheduled step function
    keeps the minimum pulse width, and the step functions meet the obligation
    of timer callbacks. *)

From stdpp Require Import sorting.
From S2P Require Import Prelude.
From S2P Require Import State.
From S2P Require Import Machine.
From S2P Require Import Sched.
From S2P Require Import SchedList.
From S2P Require Import SchedSpec.
From S2P Require Import Dispatch.
From S2P Require Import Basecmd.
From S2P Require Import BasecmdSpec.
From S2P Require Import Stepper.
From S2P Require Import StepperSpec.

(** ** The end of a schedule *)

(** Time, position and direction after the moves [ms]. *)
Fixpoint after (w pos d : Z) (ms : list move) : Z * Z * Z :=
  match ms with
  | [] => (w, pos, d)
  | m :: ms =>
      let d := if m.(mv_dir) then - d else d in
      after (end_time m.(mv_count) w m.(mv_interval) m.(mv_add))
        (pos + Z.of_nat m.(mv_count) * d) d ms
  end.

Lemma schedule_app w pos d ms ms' :
  schedule w pos d (ms ++ ms')
  = schedule w pos d ms
    ++ (let '(w', pos', d') := after w pos d ms in schedule w' pos' d' ms').
Proof.
  revert w pos d. induction ms as [|m ms IH]; intros w pos d; [done|].
  simpl. by rewrite IH, app_assoc.
Qed.

Lemma after_app w pos d ms m :
  after w pos d (ms ++ [m])
  = let '(w', pos', d') := after w pos d ms in after w' pos' d' [m].
Proof. revert w pos d. induction ms as [|m' ms IH]; intros w pos d; [done|]. apply IH. Qed.

Lemma after_dir w pos d ms : is_dir d → is_dir (after w pos d ms).2.
Proof.
  revert w pos d. induction ms as [|m ms IH]; intros w pos d Hd; [done|].
  apply IH. by apply is_dir_flip.
Qed.

Section cmd.
Context `{Board}.

(** The stepper at [p] follows [sch], which ends at [e]; the direction flag of
    the stepper is the direction at the end. *)
Definition follows_to (p : Z) (s : mcu) (sch : list (Z * Z)) (F : list Z) (st : stepper)
    (e : Z * Z * Z) : Prop :=
  ∃ L ms w i a pos d,
    active p s st F L ms w i a pos d
    ∧ sch = pending st ms w i a pos d
    ∧ e = after (end_time (Z.to_nat (st.(s_count) - 1)) w i a)
            (pos + st.(s_count) * d) d ms
    ∧ flag_set st.(s_flags) SF_LAST_DIR = (e.2 =? 1).

Lemma follows_to_follows p s sch F st e : follows_to p s sch F st e → follows p s sch.
Proof. intros (L & ms & w & i & a & pos & d & Hact & Hsch & _). by do 9 eexists. Qed.

(** ** Looking up a stepper *)

(** The oid names the object of type [ty] at [p]. *)
Definition oid_names (s : mcu) (oid : Z) (ty : oid_type) (p : Z) : Prop :=
  0 <= oid < 256 ∧ oid < s.(base).(oid_count)
  ∧ oid_entry s.(base) oid = Some (mk_oid_s ty p).

Lemma oids_of_elem s oid ty p : oid_names s oid ty p → (oid, p) ∈ oids_of s.(base) ty.
Proof.
  intros (Ho & _ & He). unfold oid_entry in He. destruct s.(base).(oids) as [l|] eqn:El; [|done]. cbn in He.
  unfold oids_of. rewrite El. cbn.
  pose proof (typed_elem l 0 ty (Z.to_nat oid) _ He eq_refl) as Hin. cbn in Hin.
  by rewrite Z2Nat.id in Hin by lia.
Qed.

Lemma wp_oid_lookup oid ty p Q E s :
  oid_names s oid ty p → Q p s → wp (oid_lookup oid ty) Q E s.
Proof.
  intros (Ho & Hlt & He) HQ. unfold oid_lookup. rewrite u8_small by lia. wp_steps.
  rewrite (proj2 (Z.leb_gt _ _)) by done. wp_steps. eapply wp_some; [done|].
  simpl. rewrite decide_True by done. by apply wp_ret.
Qed.

Lemma wp_write_move a interval add count flags Q E s :
  is_Some (s.(nodes) !! a) →
  (∀ ns', ndata ns' a = Some (MD_stepper (u32 interval) (s16 add) (u16 count) (u8 flags)) →
     (∀ x, nlink ns' x = nlink s.(nodes) x) →
     (∀ x, x ≠ a → ns' !! x = s.(nodes) !! x) →
     is_Some (ns' !! a) → Q tt (s <| nodes := ns' |>)) →
  wp (write_move a interval add count flags) Q E s.
Proof.
  intros Ha HQ. unfold write_move. apply wp_update_node; [done|]. destruct Ha as [n Hn].
  apply HQ; simpl.
  - unfold ndata. by rewrite lookup_alter, decide_True, Hn.
  - intros x. unfold nlink. rewrite lookup_alter. case_decide; [subst|done].
    by destruct (s.(nodes) !! x).
  - intros x Hx. by rewrite lookup_alter_ne.
  - rewrite lookup_alter, decide_True, Hn by done. by eexists.
Qed.

(** The move [command_queue_step] builds from its arguments. *)
Definition arg_move (interval count add : Z) (turn : bool) : move :=
  mk_move (u32 interval) (s16 add) (Z.to_nat (u16 count)) turn.

(** The move reverses if the requested direction differs from the last one. *)
Definition turns (st : stepper) : bool :=
  negb (Bool.eqb (flag_set st.(s_flags) SF_LAST_DIR) (flag_set st.(s_flags) SF_NEXT_DIR)).

Lemma flag_last_dir f : flag_set f SF_LAST_DIR = Z.testbit f 0.
Proof. apply (flag_bit f 0). Qed.
Lemma flag_next_dir f : flag_set f SF_NEXT_DIR = Z.testbit f 1.
Proof. apply (flag_bit f 1). Qed.
Lemma flag_need_reset f : flag_set f SF_NEED_RESET = Z.testbit f 3.
Proof. apply (flag_bit f 3). Qed.
Lemma flag_single_sched f : flag_set f SF_SINGLE_SCHED = Z.testbit f 4.
Proof. apply (flag_bit f 4). Qed.

(** The flags after queueing a move. *)
Definition queue_flags (st : stepper) : Z :=
  if turns st then Z.lxor st.(s_flags) SF_LAST_DIR else st.(s_flags).

Lemma queue_flags_last st :
  flag_set (queue_flags st) SF_LAST_DIR = flag_set st.(s_flags) SF_NEXT_DIR.
Proof.
  unfold queue_flags, turns. rewrite !flag_last_dir, !flag_next_dir.
  destruct (Z.testbit st.(s_flags) 0) eqn:H0, (Z.testbit st.(s_flags) 1) eqn:H1; cbn [Bool.eqb negb];
    rewrite ?Z.lxor_spec, ?H0; done.
Qed.

Lemma queue_flags_bit st k :
  0 < k → Z.testbit (queue_flags st) k = Z.testbit st.(s_flags) k.
Proof.
  intros Hk. unfold queue_flags. destruct (turns st); [|done].
  rewrite Z.lxor_spec. change SF_LAST_DIR with (2 ^ 0).
  by rewrite Z.pow2_bits_false, xorb_false_r by lia.
Qed.

Lemma queue_flags_single st mq :
  single_sched (st <| s_flags := queue_flags st |> <| s_mq := mq |>) = single_sched st.
Proof.
  unfold single_sched. simpl. by rewrite !flag_single_sched, queue_flags_bit.
Qed.

(** Adding a node with move [m] to the queue. *)
Lemma wp_push_move s st a F L ms m Q E :
  moves_ok s st F L ms → a ∉ L → a ∉ F → holds_move s.(nodes) a m →
  (∀ mq ns', moves_ok (s <| nodes := ns' |>) (st <| s_flags := queue_flags st |> <| s_mq := mq |>)
       F (L ++ [a]) (ms ++ [m]) →
     Q (b2z (bool_decide (L = [])), mq) (s <| nodes := ns' |>)) →
  wp (move_queue_push a st.(s_mq)) Q E s.
Proof.
  intros [Hq [Hf HndF] Hdisj Hdata] HaL HaF Hm HQ.
  apply (wp_move_queue_push a st.(s_mq) L); [done|done| |].
  { destruct Hm as [Hd _]. apply ndata_lookup in Hd as (n & Hn & _). by eexists. }
  intros mh' ns' Hq' Hnd' Hout' Hsome'. apply HQ. constructor; simpl.
  - done.
  - split; [|done]. eapply lchain_ext; [|done]. intros k Hk. unfold nlink.
    rewrite Hout'; [done|]. intros [->|Hk']%elem_of_cons; [done|]. by apply (Hdisj k).
  - set_solver.
  - apply Forall2_app.
    + eapply Forall2_impl; [done|]. intros x mx. by apply holds_move_ndata.
    + apply Forall2_cons. split; [by apply (holds_move_ndata s.(nodes))|constructor].
Qed.

(** Writing the new move into a node taken from the free list. *)
Lemma moves_ok_new s1 s2 st a F L ms :
  queue_is s1.(nodes) st.(s_mq) L → free_is s1 F → (∀ x, x ∈ L → x ∉ a :: F) →
  Forall2 (holds_move s1.(nodes)) L ms →
  (∀ x, nlink s2.(nodes) x = nlink s1.(nodes) x) →
  (∀ x, x ≠ a → s2.(nodes) !! x = s1.(nodes) !! x) →
  s2.(base) = s1.(base) → moves_ok s2 st F L ms.
Proof.
  intros Hq [Hf HF] Hdisj Hdata Hlink Hout Hbase. constructor.
  - eapply queue_is_ext; [|done]. intros; apply Hlink.
  - split; [|done]. rewrite Hbase. eapply lchain_ext; [|done]. intros; apply Hlink.
  - set_solver.
  - clear -Hdisj Hdata Hout. induction Hdata as [|x m L ms [Hd Hc] _ IH]; constructor.
    + split; [|done]. unfold ndata in *. rewrite Hout; [done|set_solver].
    + apply IH. set_solver.
Qed.

Lemma holds_arg_move ns a interval count add (turn : bool) :
  ndata ns a = Some (MD_stepper (u32 interval) (s16 add) (u16 count)
                       (u8 (if turn then MF_DIR else 0))) →
  u16 count ≠ 0 → holds_move ns a (arg_move interval count add turn).
Proof.
  intros Hd Hc. pose proof (u16_range count). split; simpl.
  - rewrite Hd, Z2Nat.id by lia. by destruct turn.
  - rewrite Z2Nat.id by lia. lia.
Qed.

Lemma pending_snoc st ms w i a pos d m :
  pending st (ms ++ [m]) w i a pos d
  = pending st ms w i a pos d
    ++ (let '(w', pos', d') := after (end_time (Z.to_nat (st.(s_count) - 1)) w i a)
                                 (pos + st.(s_count) * d) d ms in
        schedule w' pos' d' [m]).
Proof. unfold pending. by rewrite schedule_app, app_assoc. Qed.

(** Queueing a move on an active stepper appends its steps to the schedule. *)
Lemma wp_queue_step_active p s st a F sch w' pos' d' oid interval count add :
  oid_names s oid OT_stepper p → follows_to p s sch (a :: F) st (w', pos', d') →
  u16 count ≠ 0 →
  let m := arg_move interval count add (turns st) in
  wp (command_queue_step [oid; interval; count; add])
    (λ _ s', ∃ st', follows_to p s' (sch ++ schedule w' pos' d' [m]) F st'
               (after w' pos' d' [m]) ∧ s'.(irq) = true ∧ s'.(timers) = s.(timers)
               ∧ s'.(sst) = s.(sst) ∧ s'.(trace) = s.(trace)
               ∧ s'.(cmd) = s.(cmd) ∧ oid_names s' oid OT_stepper p ∧ turns st' = false)
    (λ _ _, False) s.
Proof.
  intros Ho (L & ms & w & i & a' & pos & d & Hact & -> & He & Hlast) Hcnt m.
  destruct Hact as [Hst Hss Htm Hmo Hi Ha Hc Hpos Hd]. assert (Hmo' := Hmo).
  destruct Hmo' as [Hq Hf Hdisj Hdata].
  unfold command_queue_step, stepper_oid_lookup. wp_steps.
  eapply wp_oid_lookup; [done|]. wp_steps. eapply wp_move_alloc; [done| |done].
  intros a0 F0 [= <- <-] s1 Hf1 Hsa Hs1. simpl.
  rewrite (proj2 (Z.eqb_neq _ _)) by done. wp_steps.
  eapply wp_read_obj; [by rewrite Hs1|]. wp_steps.
  fold (turns st). fold (queue_flags st).
  assert (Hn1 : s1.(nodes) = s.(nodes)) by by rewrite Hs1.
  assert (Hnda : a ∉ F) by (destruct Hf as [_ Hf]; by apply NoDup_cons in Hf as []).
  assert (HaL : a ∉ L) by (intros HaL; by apply (Hdisj a HaL); left).
  apply wp_write_move; simpl; [by rewrite Hn1|]. rewrite Hn1.
  intros ns2 Hda Hlink Hout _.
  rewrite (proj2 (Z.eqb_neq _ _)) by lia. simpl. wp_steps.
  eapply (wp_push_move _ st a F L ms m).
  { eapply (moves_ok_new s1 _ st a F L ms); simpl; rewrite ?Hn1; done. }
  { done. }
  { done. }
  { by apply (holds_arg_move ns2). }
  intros mq ns3 Hmo3. wp_steps. set (st' := st <| s_flags := queue_flags st |> <| s_mq := mq |>).
  assert (Hss' : single_sched st' = single_sched st) by apply queue_flags_single.
  exists st'. split_and!; [|done|simpl; by rewrite Hs1..| |].
  2: { unfold oid_names, oid_entry in *. simpl. by rewrite Hs1. }
  2: { unfold turns, st'. simpl. rewrite queue_flags_last, !flag_next_dir, queue_flags_bit by lia.
       by rewrite Bool.eqb_reflx. }
  exists (L ++ [a]), (ms ++ [m]), w, i, a', pos, d. split_and!.
  - constructor; try done; simpl.
    + apply lookup_insert_eq.
    + by rewrite Hss'.
    + by rewrite Hs1.
    + by destruct Hmo3.
    + unfold raw_position in *. by rewrite Hss'.
  - rewrite pending_snoc. change (pending st' ms) with (pending st ms).
    change (st'.(s_count)) with (st.(s_count)). by rewrite <- He.
  - rewrite after_app. change (st'.(s_count)) with (st.(s_count)). by rewrite <- He.
  - assert (Hd' : is_dir d').
    { change d' with (w', pos', d').2. rewrite He. by apply after_dir. }
    unfold st'. simpl. rewrite queue_flags_last. simpl in Hlast.
    unfold turns. rewrite Hlast. clear -Hd'.
    destruct (flag_set st.(s_flags) SF_NEXT_DIR), Hd' as [->| ->]; done.
Qed.

(** An idle stepper: its last step was at [w], it stands at [pos] and last moved
    in direction [d]. *)
Record idle (p : Z) (s : mcu) (st : stepper) (F : list Z) (w pos d : Z) : Prop := {
  id_obj : obj_at s p st;
  id_single : single_sched st = true;
  id_timer : ∃ t, s.(timers) !! stepper_time p = Some t ∧ t.(waketime) = u32 w;
  id_moves : moves_ok s st F [] [];
  id_count : st.(s_count) = 0;
  id_pos : u32 st.(s_position) = encode_pos pos d;
  id_dir : is_dir d;
  id_last : flag_set st.(s_flags) SF_LAST_DIR = (d =? 1);
}.

Lemma moves_ok_frame s s' st F L ms :
  s'.(nodes) = s.(nodes) → s'.(base) = s.(base) → moves_ok s st F L ms → moves_ok s' st F L ms.
Proof.
  intros Hn Hb [Hq [Hf HF] Hd Hdat]. constructor; [by rewrite Hn| |done|by rewrite Hn].
  split; [by rewrite Hn, Hb|done].
Qed.

Lemma active_frame p s s' st F L ms w i a pos d :
  active p s st F L ms w i a pos d →
  s'.(objs) = s.(objs) → s'.(nodes) = s.(nodes) → s'.(base) = s.(base) →
  is_Some (s'.(timers) !! stepper_time p) →
  wk s'.(timers) (stepper_time p) = wk s.(timers) (stepper_time p) →
  active p s' st F L ms w i a pos d.
Proof.
  intros [Hst Hss (t & Ht & Hw) Hmo Hi Ha Hc Hpos Hd] Ho Hn Hb [t' Ht'] Hwk.
  constructor; try done.
  - by eapply obj_at_frame.
  - exists t'. split; [done|]. by rewrite <- (wk_lookup _ _ _ Ht'), Hwk, (wk_lookup _ _ _ Ht).
  - by eapply moves_ok_frame.
Qed.

(** The direction flag after queueing a move is the direction of that move. *)
Lemma queue_flags_dir st d :
  is_dir d → flag_set st.(s_flags) SF_LAST_DIR = (d =? 1) →
  flag_set (queue_flags st) SF_LAST_DIR = ((if turns st then - d else d) =? 1).
Proof.
  intros Hd Hl. rewrite queue_flags_last. unfold turns. rewrite Hl.
  destruct (flag_set st.(s_flags) SF_NEXT_DIR), Hd as [->| ->]; done.
Qed.

Lemma loaded_flags st m mq : (loaded st m mq).(s_flags) = st.(s_flags).
Proof. unfold loaded. by destruct (single_sched st). Qed.

Lemma follows_to_loaded p s st m mq F w pos d :
  single_sched st = true → 0 < Z.of_nat m.(mv_count) →
  active p s (loaded st m mq) F [] [] (w + m.(mv_interval)) (m.(mv_interval) + m.(mv_add))
    m.(mv_add) pos (if m.(mv_dir) then - d else d) →
  flag_set st.(s_flags) SF_LAST_DIR = ((if m.(mv_dir) then - d else d) =? 1) →
  follows_to p s (schedule w pos d [m]) F (loaded st m mq) (after w pos d [m]).
Proof.
  intros Hss Hc Hact Hl. do 7 eexists. split_and!; [exact Hact| | |].
  - symmetry. apply (pending_loaded st m mq [] w pos d); [done|lia].
  - simpl. unfold loaded. rewrite Hss. simpl. destruct m.(mv_count) as [|c]; [lia|].
    replace (Z.to_nat (Z.of_nat (S c) - 1)) with c by lia. by rewrite end_time_succ.
  - by rewrite loaded_flags.
Qed.

(** Queueing a move on an idle stepper starts it and schedules its timer. *)
Lemma wp_queue_step_idle b U p s st a F w pos d oid interval count add :
  HAVE_AVR_OPTIMIZATION = false →
  oid_names s oid OT_stepper p → idle p s st (a :: F) w pos d →
  flag_set st.(s_flags) SF_NEED_RESET = false → u16 count ≠ 0 →
  sched_inv b s U → stepper_time p ∉ U → off b (w + u32 interval) < 2 ^ 31 →
  let m := arg_move interval count add (turns st) in
  wp (command_queue_step [oid; interval; count; add])
    (λ _ s', ∃ st', follows_to p s' (schedule w pos d [m]) (a :: F) st' (after w pos d [m])
               ∧ (∃ U', sched_inv b s' U' ∧ stepper_time p ∈ U') ∧ s'.(irq) = true)
    (λ r s', r = "Timer too close" ∧ ∃ U', sched_inv b s' U') s.
Proof.
  intros Havr Ho [Hst Hss (t & Ht & Hw) Hmo Hc Hpos Hd Hlast] Hreset Hcnt Hinv Hnot Hoff m.
  assert (Hmo' := Hmo). destruct Hmo' as [Hq Hf Hdisj Hdata].
  unfold command_queue_step, stepper_oid_lookup. wp_steps.
  eapply wp_oid_lookup; [done|]. wp_steps. eapply wp_move_alloc; [done| |done].
  intros a0 F0 [= <- <-] s1 Hf1 Hsa Hs1. simpl.
  rewrite (proj2 (Z.eqb_neq _ _)) by done. wp_steps.
  eapply wp_read_obj; [by rewrite Hs1|]. wp_steps.
  fold (turns st). fold (queue_flags st).
  assert (Hn1 : s1.(nodes) = s.(nodes)) by by rewrite Hs1.
  assert (Hnda : a ∉ F) by (destruct Hf as [_ Hf]; by apply NoDup_cons in Hf as []).
  apply wp_write_move; simpl; [by rewrite Hn1|]. rewrite Hn1.
  intros ns2 Hda Hlink Hout _. rewrite Hc. simpl.
  rewrite flag_need_reset, queue_flags_bit, <- flag_need_reset, Hreset by lia. wp_steps.
  eapply (wp_push_move _ st a F [] [] m); [..|intros mq ns3 Hmo3; wp_steps].
  { eapply (moves_ok_new s1 _ st a F [] []); simpl; rewrite ?Hn1; done. }
  { set_solver. }
  { done. }
  { by apply (holds_arg_move ns2). }
  set (st1 := st <| s_flags := queue_flags st |> <| s_mq := mq |>).
  assert (Hss1 : single_sched st1 = true) by (by rewrite <- Hss; apply queue_flags_single).
  match goal with |- wp _ _ _ ?s0 => set (s4 := s0) end.
  assert (Hs4 : s4.(timers) = s.(timers) ∧ s4.(sst) = s.(sst)) by (unfold s4; by rewrite Hs1).
  destruct Hs4 as [Ht4 Hss4].
  eapply wp_mono; [eapply (wp_load_next Havr p s4 st1 t F a [] m [])| |done].
  { apply lookup_insert_eq. }
  { by rewrite Ht4. }
  { by eapply moves_ok_frame; [..|exact Hmo3]. }
  assert (Hm : 0 < Z.of_nat m.(mv_count) < 2 ^ 16).
  { apply (holds_arg_move ns2 a interval count add (turns st)); done. }
  intros res s5 [-> Hpost]. wp_steps. clearbody s4.
  destruct (active_loaded p s4 s5 st1 t F a [] m [] w pos d) as (mq' & Hobj & Hact);
    [done|by rewrite Ht4|done..|].
  destruct Hpost as [_ _ Htm _ _ Hss5 Hi5 _].
  eapply wp_mono; [eapply (wp_sched_add_timer b s5 U (stepper_time p))| |].
  { eapply sched_inv_ext; [exact Hinv| |by rewrite Hss5, Hss4..].
    intros x Hx. rewrite Htm, Ht4, lookup_alter_ne; [done|]. intros <-. set_solver. }
  { done. }
  { done. }
  { done. }
  { rewrite Htm, Ht4, lookup_alter, decide_True, Ht by done. by eexists. }
  { rewrite Htm, Ht4. erewrite wk_alter_eq by done. simpl. unfold load_time.
    rewrite Hss1, off_u32, (wk_lookup _ _ _ Ht), Hw. unfold off.
    by rewrite <- u32_sub_l, u32_add_l, u32_sub_l. }
  - intros [] s6 (_ & (U' & Hinv' & Hlive) & Hwk & _ & []). wp_steps.
    assert (HU' : stepper_time p ∈ U').
    { assert (Hl : stepper_time p ∈ live U') by (rewrite Hlive; apply q_insert_elem; by left).
      by apply list_elem_of_filter in Hl as []. }
    exists (loaded st1 m mq'). split_and!; [|exists U'; split; [by eapply sched_inv_sst|done]|done].
    apply follows_to_loaded; [done|lia| |by apply queue_flags_dir].
    eapply active_frame; [exact Hact|done..| |by apply Hwk].
    eapply chain_lookup; [apply Hinv'|set_solver].
  - intros r s6 (-> & _ & Ht6 & Hss6). split; [done|]. exists U.
    eapply sched_inv_ext; [exact Hinv| |by rewrite Hss6, Hss5, Hss4..].
    intros x Hx. rewrite Ht6, Htm, Ht4, lookup_alter_ne; [done|]. intros <-. set_solver.
Qed.

(** ** Stopping *)

(** What [free_moves] on the stepper at [p] with queue [L] leaves alone. *)
Record free_frame (p : Z) (L : list Z) (s s' : mcu) : Prop := {
  ff_rest : s' = s <| objs := s'.(objs) |> <| nodes := s'.(nodes) |> <| base := s'.(base) |>;
  ff_objs : ∀ q, q ≠ p → s'.(objs) !! q = s.(objs) !! q;
  ff_nodes : ∀ x, x ∉ L → s'.(nodes) !! x = s.(nodes) !! x;
  ff_base : s'.(base) = s.(base) <| move_free_list := s'.(base).(move_free_list) |>;
}.

(** [free_moves] returns all queued nodes to the free list. *)
Lemma wp_free_moves fuel p s st F L ms Q E :
  obj_at s p st → moves_ok s st F L ms → (length L < fuel)%nat →
  (∀ s' mq, obj_at s' p (st <| s_mq := mq |>) →
     moves_ok s' (st <| s_mq := mq |>) (reverse L ++ F) [] [] →
     free_frame p L s s' → Q tt s') →
  wp (free_moves fuel p) Q E s.
Proof.
  revert s st F ms fuel. induction L as [|a L IH]; intros s st F ms fuel Hst Hmo Hfuel HQ;
    (destruct fuel as [|fuel]; [simpl in Hfuel; lia|]); simpl; wp_steps;
    (eapply wp_read_obj; [exact Hst|]); assert (Hmo' := Hmo);
    destruct Hmo' as [Hq Hf Hdisj Hdata].
  - assert (Hemp : move_queue_empty st.(s_mq) = true)
      by (apply bool_decide_eq_true; apply Hq).
    rewrite Hemp. apply wp_ret. apply (HQ s st.(s_mq)); [by destruct st| |].
    { apply Forall2_nil_inv_l in Hdata as ->. by destruct st. }
    by constructor; [destruct s| | |destruct s as [? ? ? ? ? ? ? [] ? ? ? ? ?]].
  - assert (Hemp : move_queue_empty st.(s_mq) = false).
    { apply bool_decide_eq_false. destruct Hq as [[-> _] _]. done. }
    rewrite Hemp. wp_steps. eapply wp_move_queue_pop; [done|]. intros mq Hmq. wp_steps.
    destruct ms as [|m ms]; [by apply Forall2_cons_nil_inv in Hdata|].
    set (s1 := s <| objs ::= <[p := obj_inj (st <| s_mq := mq |>)]> |>).
    eapply (wp_free_popped s1 st (st <| s_mq := mq |>) F a L m ms); try done.
    intros s2 Hmo2 Hn2 Hs2 Hb2. eapply (IH s2 (st <| s_mq := mq |>)).
    + apply (obj_at_frame s1); [by rewrite Hs2|apply lookup_insert_eq].
    + exact Hmo2.
    + simpl in Hfuel. lia.
    + intros s' mq' Hst' Hmo3 [Hr Ho Hn Hb]. apply (HQ s' mq').
      * exact Hst'.
      * rewrite reverse_cons, <- app_assoc. exact Hmo3.
      * constructor.
        -- rewrite Hr at 1. rewrite Hs2. by destruct s.
        -- intros q Hqp. rewrite Ho by done. rewrite Hs2. simpl. by rewrite lookup_insert_ne.
        -- intros x [Hxa HxL]%not_elem_of_cons. by rewrite Hn, Hn2.
        -- rewrite Hb, Hb2. done.
Qed.

Lemma queue_length_nodes ns mh L : queue_is ns mh L → (length L <= size ns)%nat.
Proof.
  intros (Hc & Hnd & _). rewrite <- size_dom.
  rewrite <- (size_list_to_set (C := gset Z) L) by done.
  apply subseteq_size. intros t Ht%elem_of_list_to_set.
  apply elem_of_dom. by eapply lchain_elem_node.
Qed.

(** The flags of a stopped stepper. *)
Definition stop_flags (st : stepper) : Z :=
  Z.lor (Z.land st.(s_flags) (Z.lor SF_INVERT_STEP SF_SINGLE_SCHED)) SF_NEED_RESET.

Lemma stop_flags_bit st k :
  0 <= k → Z.testbit (stop_flags st) k
  = (Z.testbit st.(s_flags) k && ((k =? 2) || (k =? 4))) || (k =? 3).
Proof.
  intros Hk. unfold stop_flags, SF_INVERT_STEP, SF_SINGLE_SCHED, SF_NEED_RESET.
  rewrite Z.lor_spec, Z.land_spec, Z.lor_spec, !Z.shiftl_1_l.
  assert (Hb : ∀ j, 0 <= j → Z.testbit (2 ^ j) k = (k =? j)).
  { intros j Hj. rewrite Z.eqb_sym. by apply Z.pow2_bits_eqb. }
  by rewrite !Hb by lia.
Qed.

(** A stepper after [stepper_stop]. *)
Definition halted (st : stepper) (mq : move_queue_head) : stepper :=
  st <| s_next_step_time := 0 |> <| s_position := u32 (- stepper_get_position st) |>
     <| s_count := 0 |> <| s_flags := stop_flags st |> <| s_mq := mq |>.

(** What [stepper_stop] does to the machine. *)
Record stop_post (b : Z) (U : list timer_id) (p : Z) (s : mcu) (st : stepper)
    (F L : list Z) (s' : mcu) : Prop := {
  sp_obj : ∃ mq, obj_at s' p (halted st mq) ∧ moves_ok s' (halted st mq) (reverse L ++ F) [] [];
  sp_timer : ∃ t, s'.(timers) !! stepper_time p = Some t ∧ t.(waketime) = 0;
  sp_sched : ∃ U', sched_inv b s' U' ∧ live U' = filter (λ t, t ≠ stepper_time p) (live U);
  sp_objs : ∀ q, q ≠ p → s'.(objs) !! q = s.(objs) !! q;
  sp_nodes : ∀ x, x ∉ L → s'.(nodes) !! x = s.(nodes) !! x;
  sp_base : s'.(base) = s.(base) <| move_free_list := s'.(base).(move_free_list) |>;
  sp_signals : s'.(signals) = s.(signals);
  sp_funcs : same_funcs s.(timers) s'.(timers);
  sp_head : s.(sst).(timer_list) ≠ stepper_time p →
            s'.(sst).(timer_list) = s.(sst).(timer_list);
}.

Lemma wp_stepper_stop b U p s st F L ms reason :
  sched_inv b s U → obj_at s p st → is_Some (s.(timers) !! stepper_time p) →
  moves_ok s st F L ms →
  wp (stepper_stop p reason) (λ _, stop_post b U p s st F L) (λ _ _, False) s.
Proof.
  intros Hinv Hst [t Ht] Hmo. unfold stepper_stop. wp_steps.
  eapply wp_mono; [by apply (wp_sched_del_timer b s U)| |done].
  intros [] s1 ((U1 & Hinv1 & Hlive) & _ & Hfn & Hhd & [_ _ _ Hb1 Ho1 Hn1 Hsg1 _ _ _]).
  wp_steps. eapply wp_read_obj; [by eapply obj_at_frame; [|exact Hst]|].
  fold (stop_flags st). set (st1 := st <| s_next_step_time := 0 |>
    <| s_position := u32 (- stepper_get_position st) |> <| s_count := 0 |>
    <| s_flags := stop_flags st |>). wp_steps.
  set (s2 := s1 <| timers ::= alter (λ r, r <| waketime := u32 0 |>) (stepper_time p) |>
    <| objs ::= <[p := obj_inj st1]> |>).
  apply (wp_mono _ (λ _ s3, s3 = s2 <| trace := s3.(trace) |>) _ (λ _ _, False));
    [by apply wp_when; intros; wp_steps| |done].
  intros [] s3 Hs3. wp_steps.
  assert (Hn3 : s3.(nodes) = s.(nodes)) by (by rewrite Hs3).
  assert (Hb3 : s3.(base) = s.(base)) by (by rewrite Hs3).
  eapply (wp_free_moves _ p s3 st1 F L ms).
  { apply (obj_at_frame s2); [by rewrite Hs3|apply lookup_insert_eq]. }
  { eapply (moves_ok_frame s); [done|done|]. destruct Hmo. by constructor. }
  { rewrite Hn3. pose proof (queue_length_nodes _ _ _ (mo_queue _ _ _ _ _ Hmo)). lia. }
  intros s4 mq Hst4 Hmo4 [Hr Hobj Hnod Hbas].
  assert (Ht4 : s4.(timers) = alter (λ r, r <| waketime := u32 0 |>) (stepper_time p) s1.(timers)
                ∧ s4.(sst) = s1.(sst) ∧ s4.(signals) = s.(signals)).
  { split_and!; rewrite Hr; simpl; rewrite Hs3; done. }
  destruct Ht4 as (Ht4 & Hss4 & Hsg4). constructor.
  - exists mq. by split.
  - destruct (same_funcs_is_Some _ _ (stepper_time p) Hfn ltac:(by eexists)) as [t1 Ht1].
    rewrite Ht4, lookup_alter, decide_True, Ht1 by done. by eexists.
  - exists U1. split; [|done]. eapply sched_inv_ext; [exact Hinv1| |by rewrite Hss4..].
    assert (Hnot : stepper_time p ∉ U1).
    { intros Hin. assert (Hl : stepper_time p ∈ live U1) by (by apply list_elem_of_filter).
      rewrite Hlive in Hl. by apply list_elem_of_filter in Hl as []. }
    intros x Hx. rewrite Ht4, lookup_alter_ne; [done|]. intros <-. set_solver.
  - intros q Hq. rewrite Hobj by done. rewrite Hs3. simpl. by rewrite lookup_insert_ne, Ho1.
  - intros x Hx. by rewrite Hnod, Hn3.
  - by rewrite Hbas, Hb3.
  - done.
  - rewrite Ht4. eapply same_funcs_trans; [exact Hfn|]. by apply same_funcs_alter.
  - intros Hne. rewrite Hss4. auto.
Qed.

(** The position survives the stop. *)
Lemma stop_post_idle b U p s st F L s' pos d :
  stop_post b U p s st F L s' → single_sched st = true →
  raw_position st = encode_pos pos d → is_dir d → 0 < pos < 2 ^ 31 →
  ∃ st', idle p s' st' (reverse L ++ F) 0 pos (-1)
    ∧ stepper_get_position st' = pos ∧ flag_set st'.(s_flags) SF_NEED_RESET = true.
Proof.
  intros [(mq & Hst' & Hmo') Htm _ _ _ _ _ _ _] Hss Hraw Hd Hpos.
  assert (Hgp : stepper_get_position st = pos) by by apply (get_position_encode _ pos d).
  assert (Hss1 : single_sched (halted st mq) = true).
  { unfold single_sched in *. apply andb_true_iff in Hss as [H1 H2]. rewrite H1. simpl.
    rewrite flag_single_sched in *. rewrite stop_flags_bit by lia. by rewrite H2. }
  exists (halted st mq). split_and!.
  - constructor; try done.
    + simpl. rewrite Hgp, u32_u32. unfold encode_pos. f_equal; lia.
    + by right.
    + simpl. rewrite flag_last_dir, stop_flags_bit by lia. by rewrite andb_false_r.
  - apply (get_position_encode _ pos (-1)); [|by right|done]. unfold raw_position.
    rewrite Hss1. simpl. rewrite Hgp, Z.sub_0_r, u32_u32. unfold encode_pos. f_equal; lia.
  - simpl. rewrite flag_need_reset, stop_flags_bit by lia. by rewrite orb_true_r.
Qed.

(** A stopped stepper drops moves until its clock is reset. *)
Lemma wp_queue_step_stopped p s st a F w pos d oid interval count add :
  oid_names s oid OT_stepper p → idle p s st (a :: F) w pos d →
  flag_set st.(s_flags) SF_NEED_RESET = true → u16 count ≠ 0 →
  wp (command_queue_step [oid; interval; count; add])
    (λ _ s', idle p s' st (a :: F) w pos d ∧ s'.(timers) = s.(timers)
       ∧ s'.(sst) = s.(sst) ∧ s'.(trace) = s.(trace))
    (λ _ _, False) s.
Proof.
  intros Ho [Hst Hss Htm [Hq Hf _ _] Hc Hpos Hd Hlast] Hreset Hcnt.
  unfold command_queue_step, stepper_oid_lookup. wp_steps.
  eapply wp_oid_lookup; [done|]. wp_steps. eapply wp_move_alloc; [done| |done].
  intros a0 F0 [= <- <-] s1 Hf1 Hsa Hs1. simpl.
  rewrite (proj2 (Z.eqb_neq _ _)) by done. wp_steps.
  eapply wp_read_obj; [by rewrite Hs1|]. wp_steps. fold (turns st). fold (queue_flags st).
  assert (Hn1 : s1.(nodes) = s.(nodes)) by by rewrite Hs1.
  apply wp_write_move; simpl; [by rewrite Hn1|]. rewrite Hn1.
  intros ns2 Hda Hlink Hout Hsa2. rewrite Hc. simpl.
  rewrite flag_need_reset, queue_flags_bit, <- flag_need_reset, Hreset by lia.
  destruct Hf as [Hfc HfN]. apply NoDup_cons in HfN as [HaF HfN].
  wp_steps. apply (wp_move_free a F); simpl; [|done|done|].
  { destruct Hf1 as [Hf1 _]. split; [|done]. simpl. eapply lchain_ext; [|exact Hf1].
    intros k Hk. by rewrite Hn1. }
  intros s3 Hf3 Hns3 Hs3. wp_steps. simpl. split_and!; [|rewrite Hs3; simpl; by rewrite Hs1..].
  constructor; try done; simpl.
  - apply (obj_at_frame s); [|done]. simpl. rewrite Hs3. simpl. by rewrite Hs1.
  - rewrite Hs3. simpl. by rewrite Hs1.
  - constructor; [|done|set_solver|constructor]. destruct Hq as (Hq1 & Hq2 & Hq3). by split_and!.
Qed.

(** [reset_step_clock] makes it accept moves again, from the given time. *)
Lemma wp_reset_step_clock p s st F w pos d oid wt :
  oid_names s oid OT_stepper p → idle p s st F w pos d → is_u32 wt →
  wp (command_reset_step_clock [oid; wt])
    (λ _ s', ∃ st', idle p s' st' F wt pos d ∧ flag_set st'.(s_flags) SF_NEED_RESET = false)
    (λ _ _, False) s.
Proof.
  intros Ho [Hst Hss (t & Ht & Hw) Hmo Hc Hpos Hd Hlast] Hwt.
  unfold command_reset_step_clock, stepper_oid_lookup. wp_steps.
  eapply wp_oid_lookup; [done|]. wp_steps. eapply wp_read_obj; [done|]. rewrite Hc. simpl.
  wp_steps. exists (st <| s_next_step_time := wt |>
    <| s_flags := Z.land st.(s_flags) (u8 (Z.lnot SF_NEED_RESET)) |>). split.
  - constructor; try done; simpl.
    + apply lookup_insert_eq.
    + unfold single_sched in *. simpl. apply andb_true_iff in Hss as [H1 H2]. rewrite H1.
      rewrite flag_single_sched in *. rewrite Z.land_spec, H2. done.
    + rewrite lookup_alter, decide_True, Ht by done. by eexists.
    + by destruct Hmo as [? ? ? ?]; constructor.
    + rewrite flag_last_dir in *. rewrite Z.land_spec, Hlast. by rewrite andb_true_r.
  - simpl. rewrite flag_need_reset, Z.land_spec. by rewrite andb_false_r.
Qed.

(** ** Runs of the step function *)

Fixpoint edge_run (n : nat) (p : Z) : M unit :=
  match n with
  | O => mret tt
  | S n => stepper_event_edge p;; edge_run n p
  end.

Lemma wp_edge_run p s sch k :
  HAVE_AVR_OPTIMIZATION = false →
  follows p s sch → Forall (λ e, 0 < e.2 < 2 ^ 31) sch → (S k < length sch)%nat →
  wp (edge_run (S k) p)
    (λ _ s', follows p s' (drop (S k) sch)
       ∧ (∃ st', obj_at s' p st' ∧ Some (stepper_get_position st') = snd <$> sch !! k)
       ∧ Some (wk s'.(timers) (stepper_time p)) = fst <$> sch !! S k)
    (λ _ _, False) s.
Proof.
  intros Havr. revert s sch. induction k as [|k IH]; intros s sch Hf Hr Hk.
  - destruct sch as [|[tm x] [|[tm' x'] sch]]; simpl in Hk; [lia..|].
    apply Forall_cons in Hr as [Hx Hr]. simpl in Hx. simpl. wp_steps.
    destruct (wp_stepper_event_edge Havr p s tm x _ Hf Hx) as [_ Hwp].
    eapply wp_mono; [exact Hwp| |done].
    intros res s' (st & st' & dirs & _ & Hst' & _ & _ & Hpos & _ & _ & Hfol & Hwk).
    apply wp_ret. simpl. rewrite Hwk. split_and!; [done| |done].
    exists st'. by rewrite Hpos.
  - destruct sch as [|[tm x] sch]; simpl in Hk; [lia|].
    apply Forall_cons in Hr as [Hx Hr]. simpl in Hx.
    change (edge_run (S (S k)) p) with (stepper_event_edge p;; edge_run (S k) p). wp_steps.
    destruct (wp_stepper_event_edge Havr p s tm x _ Hf Hx) as [_ Hwp].
    eapply wp_mono; [exact Hwp| |done].
    intros res s' (st & st' & dirs & _ & Hst' & _ & _ & Hpos & _ & Hsch).
    destruct sch as [|[tm' x'] sch]; [simpl in Hk; lia|]. destruct Hsch as (_ & Hfol & _).
    apply (IH s' _ Hfol Hr). simpl in *. lia.
Qed.

(** ** Dispatch of the step function *)

(** The step function is a good timer callback as long as consecutive steps
    are less than half a turn of the clock apart. *)
Lemma stepper_event_edge_ok p s R tm x sch :
  HAVE_AVR_OPTIMIZATION = false →
  running (wk s.(timers) (stepper_time p)) s (stepper_time p) R →
  follows p s ((tm, x) :: sch) → 0 < x < 2 ^ 31 →
  match sch with [] => True | (tm', _) :: _ => off tm tm' < 2 ^ 31 end →
  wp (stepper_event_edge p)
    (λ res s', callback_post (wk s.(timers) (stepper_time p)) (stepper_time p) res s'
       ∧ stepped p s x sch res s') (λ _ _, False) s.
Proof.
  intros Havr Hrun Hf Hx Hnext.
  destruct (wp_stepper_event_edge Havr p s tm x _ Hf Hx) as [Htm Hwp].
  eapply wp_mono; [exact Hwp| |done]. intros res s' Hst. split; [|done].
  destruct Hst as (st & st' & dirs & _ & _ & _ & _ & _ & Hrw & Hsch).
  exists R. rewrite Htm in *. destruct sch as [|[tm' x'] sch].
  - destruct Hsch as (-> & _ & Hwk). split; [|by left].
    apply (running_rewaked _ s); [done..|]. by rewrite Hwk, off_refl.
  - destruct Hsch as (-> & _ & Hwk). split; [|by right].
    apply (running_rewaked _ s); [done..|]. by rewrite Hwk.
Qed.

(** ** The double-scheduled step function *)

(** The earliest time of the next edge. *)
Definition min_next (s : mcu) (st : stepper) : Z :=
  u32 (u32 (hw_time s.(reads)) + st.(s_step_pulse_ticks)).

Lemma wp_full_min p s st n F L ms :
  HAVE_AVR_OPTIMIZATION = false →
  obj_at s p st → s.(timers) !! stepper_time p = Some n → moves_ok s st F L ms →
  wp (stepper_event_full p)
    (λ res s', res = SF_DONE ∨
       res = SF_RESCHEDULE ∧ timer_is_before (wk s'.(timers) (stepper_time p)) (min_next s st) = false)
    (λ r _, r = "Stepper too far in past") s.
Proof.
  intros Havr Hst Hn Hmo. unfold stepper_event_full. wp_steps.
  eapply wp_read_obj; [done|]. wp_steps. fold (min_next s st).
  change (u32 (u32 (hw_time (reads (s <| trace ::= cons (Ev_gpio_out_toggle (s_step_pin st)) |>)))
    + s_step_pulse_ticks st)) with (min_next s st).
  assert (Hmin : ∀ s1, s1.(timers) = s.(timers) ∨ (∃ n', s1.(timers) !! stepper_time p = Some n') →
    wp (set_waketime (stepper_time p) (min_next s st);; mret SF_RESCHEDULE)
    (λ res s', res = SF_DONE ∨ res = SF_RESCHEDULE ∧
       timer_is_before (wk s'.(timers) (stepper_time p)) (min_next s st) = false)
    (λ r _, r = "Stepper too far in past") s1).
  { intros s1 Hs1. assert (Hn1 : ∃ n1, s1.(timers) !! stepper_time p = Some n1).
    { destruct Hs1 as [->|?]; [by eexists|done]. }
    destruct Hn1 as [n1 Hn1]. wp_steps. right. split; [done|]. simpl.
    erewrite wk_alter_eq by done. simpl. unfold min_next.
    by rewrite u32_u32, timer_is_before_irrefl. }
  destruct (flag_set _ 1); [apply Hmin; by left|].
  destruct (u32 (st.(s_count) - 1) =? 0) eqn:Hc; simpl.
  - wp_steps. set (st1 := st <| s_count := _ |>).
    match goal with |- wp _ _ _ ?s0 => set (s1 := s0) end.
    assert (Hmo1 : moves_ok s1 st1 F L ms) by (destruct Hmo; by constructor).
    assert (Hdata := mo_data _ _ _ _ _ Hmo1). destruct Hdata as [|a m L' ms' Hm Hdata].
    + eapply wp_mono; [eapply (wp_load_next_empty p s1 st1 F); [apply lookup_insert_eq|done]| |done].
      intros res s2 [-> ->]. wp_steps. eapply wp_read_timer; [exact Hn|]. simpl.
      apply wp_ret. by left.
    + eapply wp_mono; [eapply (wp_load_next Havr p s1 st1 n F a L' m ms');
        [apply lookup_insert_eq|done|done]| |done].
      intros res s2 [-> Hpost]. wp_steps.
      assert (Hn2 : s2.(timers) !! stepper_time p = Some (n <| waketime := load_time st1
          (wk s1.(timers) (stepper_time p)) m |>)).
      { rewrite (lp_timers _ _ _ _ _ _ _ _ _ Hpost), lookup_alter, decide_True by done.
        change (timers s1) with (timers s). by rewrite Hn. }
      eapply wp_read_timer; [exact Hn2|]. simpl.
      destruct (timer_is_before _ _) eqn:Hb; simpl.
      * destruct (_ <? _); [by apply wp_shutdown|]. apply Hmin. right. by eexists.
      * apply wp_ret. right. split; [done|]. by rewrite (wk_lookup _ _ _ Hn2).
  - wp_steps. eapply wp_update_obj; [apply lookup_insert_eq|]. simpl.
    destruct (timer_is_before _ _) eqn:Hb; [apply Hmin; by left|].
    wp_steps. right. split; [done|]. simpl. erewrite wk_alter_eq by done. simpl.
    by rewrite u32_u32.
Qed.

End cmd.
