(* ===== verification/StepperThms.v ===== *)
(** * The theorems about steppers, with an example machine *)

From stdpp Require Import sorting.
From S2P Require Import Prelude.
From S2P Require Import State.
From S2P Require Import Machine.
From S2P Require Import Sched.
From S2P Require Import SchedList.
From S2P Require Import SchedSpec.
From S2P Require Import Dispatch.
From S2P Require Import Basecmd.
From S2P Require Import BasecmdSpec.
From S2P Require Import Stepper.
From S2P Require Import StepperSpec.
From S2P Require Import StepperCmd.


(** The steps of a move follow the quadratic law of the protocol: if the
    move (interval, add, count) follows a step at [w], then after k of its
    steps the timer is set to [w + (k+1)*interval + add*k*(k+1)/2] modulo 2^32
    and the reported position has changed by k in the move's direction. *)
Theorem move_step_times `{Board} p s w pos d m ms k :
  HAVE_AVR_OPTIMIZATION = false →
  follows p s (schedule w pos d (m :: ms)) →
  Forall (λ e, 0 < e.2 < 2 ^ 31) (schedule w pos d (m :: ms)) →
  (0 < k < m.(mv_count))%nat →
  let n := Z.of_nat k in
  match edge_run k p s with
  | (Ret _, s') =>
      wk s'.(timers) (stepper_time p)
      = u32 (w + (n + 1) * m.(mv_interval) + m.(mv_add) * ((n + 1) * n / 2))
      ∧ ∃ st, obj_at s' p st
          ∧ stepper_get_position st = pos + n * (if m.(mv_dir) then - d else d)
  | _ => False
  end.
Proof.
  intros Havr Hf Hr Hk n. destruct k as [|j]; [lia|].
  set (d' := if m.(mv_dir) then - d else d).
  assert (Hlk : ∀ i, (i < m.(mv_count))%nat →
    schedule w pos d (m :: ms) !! i
    = Some (u32 (w + m.(mv_interval) + Z.of_nat i * (m.(mv_interval) + m.(mv_add))
        + m.(mv_add) * (Z.of_nat i * (Z.of_nat i - 1) / 2)), pos + (Z.of_nat i + 1) * d')).
  { intros i Hi. simpl. rewrite lookup_app_l_Some with
      (x := (u32 (w + m.(mv_interval) + Z.of_nat i * (m.(mv_interval) + m.(mv_add))
        + m.(mv_add) * (Z.of_nat i * (Z.of_nat i - 1) / 2)), pos + (Z.of_nat i + 1) * d'));
      [done|]. by apply steps_lookup. }
  assert (Hlen : (S j < length (schedule w pos d (m :: ms)))%nat).
  { apply lookup_lt_is_Some. rewrite Hlk by lia. by eexists. }
  pose proof (wp_edge_run p s _ j Havr Hf Hr Hlen) as Hwp. unfold wp in Hwp.
  destruct (edge_run (S j) p s) as [[] s']; [|done..].
  destruct Hwp as (_ & (st & Hst & Hpos) & Hwk).
  rewrite (Hlk j) in Hpos by lia. rewrite (Hlk (S j)) in Hwk by lia.
  injection Hpos as Hpos. injection Hwk as Hwk. split.
  - rewrite Hwk. unfold n. rewrite Nat2Z.inj_succ. f_equal.
    rewrite triangle_succ. ring.
  - exists st. split; [done|]. rewrite Hpos. unfold n. fold d'. lia.
Qed.

(** Queueing a move on a running stepper appends exactly the steps of that
    move to the schedule, in the direction last requested, and changes nothing
    of what was scheduled before. *)
Theorem queue_step_appends `{Board} p s st a F sch w' pos' d' oid interval count add :
  oid_names s oid OT_stepper p → follows_to p s sch (a :: F) st (w', pos', d') →
  u16 count ≠ 0 →
  let m := arg_move interval count add (turns st) in
  match command_queue_step [oid; interval; count; add] s with
  | (Ret _, s') => ∃ st', follows_to p s' (sch ++ schedule w' pos' d' [m]) F st'
               (after w' pos' d' [m]) ∧ s'.(irq) = true ∧ s'.(timers) = s.(timers)
               ∧ s'.(sst) = s.(sst) ∧ s'.(trace) = s.(trace)
  | _ => False
  end.
Proof.
  intros Ho Hf Hc m.
  pose proof (wp_queue_step_active p s st a F sch w' pos' d' oid interval count add Ho Hf Hc)
    as Hwp. unfold wp in Hwp.
  destruct (command_queue_step [oid; interval; count; add] s) as [[] s']; [|done..].
  destruct Hwp as (st' & Hf' & ? & ? & ? & ? & _). by exists st'.
Qed.

(** Queueing a move on an idle stepper starts it: the move becomes its
    schedule and its timer joins the timer list, which stays well formed; a
    first step in the past is refused with a shutdown. *)
Theorem queue_step_starts `{Board} b U p s st a F w pos d oid interval count add :
  HAVE_AVR_OPTIMIZATION = false →
  oid_names s oid OT_stepper p → idle p s st (a :: F) w pos d →
  flag_set st.(s_flags) SF_NEED_RESET = false → u16 count ≠ 0 →
  sched_inv b s U → stepper_time p ∉ U → off b (w + u32 interval) < 2 ^ 31 →
  let m := arg_move interval count add (turns st) in
  match command_queue_step [oid; interval; count; add] s with
  | (Ret _, s') => ∃ st',
      follows_to p s' (schedule w pos d [m]) (a :: F) st' (after w pos d [m])
      ∧ (∃ U', sched_inv b s' U' ∧ stepper_time p ∈ U') ∧ s'.(irq) = true
  | (Shut r, s') => r = "Timer too close" ∧ ∃ U', sched_inv b s' U'
  | (Stuck _, _) => False
  end.
Proof. apply wp_queue_step_idle. Qed.


(** After a stop, queued moves are dropped without side effects, however
    many arrive, until [reset_step_clock] sets the time the next move starts
    from. *)
Theorem stopped_stepper_needs_reset `{Board} p s st a F w pos d oid interval count add wt :
  oid_names s oid OT_stepper p → idle p s st (a :: F) w pos d →
  flag_set st.(s_flags) SF_NEED_RESET = true → u16 count ≠ 0 → is_u32 wt →
  match command_queue_step [oid; interval; count; add] s with
  | (Ret _, s') => idle p s' st (a :: F) w pos d ∧ s'.(timers) = s.(timers)
       ∧ s'.(sst) = s.(sst) ∧ s'.(trace) = s.(trace)
  | _ => False
  end
  ∧ match command_reset_step_clock [oid; wt] s with
    | (Ret _, s') => ∃ st', idle p s' st' (a :: F) wt pos d
        ∧ flag_set st'.(s_flags) SF_NEED_RESET = false
    | _ => False
    end.
Proof.
  intros Ho Hid Hr Hc Hwt. split.
  - pose proof (wp_queue_step_stopped p s st a F w pos d oid interval count add Ho Hid Hr Hc)
      as Hwp. unfold wp in Hwp.
    by destruct (command_queue_step [oid; interval; count; add] s) as [[] ?].
  - pose proof (wp_reset_step_clock p s st (a :: F) w pos d oid wt Ho Hid Hwt) as Hwp.
    unfold wp in Hwp. by destruct (command_reset_step_clock [oid; wt] s) as [[] ?].
Qed.

(** With a minimum pulse width, no edge of the step pin is ever scheduled
    earlier than that width after the current time; a stepper that is more
    than a millisecond late shuts the machine down. *)
Theorem stepper_event_full_min_pulse `{Board} p s st n F L ms :
  HAVE_AVR_OPTIMIZATION = false →
  obj_at s p st → s.(timers) !! stepper_time p = Some n → moves_ok s st F L ms →
  match stepper_event_full p s with
  | (Ret res, s') => res = SF_DONE ∨ res = SF_RESCHEDULE
      ∧ timer_is_before (wk s'.(timers) (stepper_time p)) (min_next s st) = false
  | (Shut r, _) => r = "Stepper too far in past"
  | (Stuck _, _) => False
  end.
Proof. apply wp_full_min. Qed.

(** The step function meets the scheduler's obligation for callbacks: as
    long as consecutive steps are less than half a turn of the clock apart, it
    leaves the timer list fit for requeueing. *)
Theorem stepper_event_is_callback `{Board} p s R tm x sch :
  HAVE_AVR_OPTIMIZATION = false →
  running (wk s.(timers) (stepper_time p)) s (stepper_time p) R →
  follows p s ((tm, x) :: sch) → 0 < x < 2 ^ 31 →
  match sch with [] => True | (tm', _) :: _ => off tm tm' < 2 ^ 31 end →
  match stepper_event_edge p s with
  | (Ret res, s') =>
      callback_post (wk s.(timers) (stepper_time p)) (stepper_time p) res s'
  | _ => False
  end.
Proof.
  intros Havr Hrun Hf Hx Hn.
  pose proof (stepper_event_edge_ok p s R tm x sch Havr Hrun Hf Hx Hn) as Hwp.
  unfold wp in Hwp. destruct (stepper_event_edge p s) as [[] ?]; [|done..]. by destruct Hwp.
Qed.

(** ** An example machine: one stepper, one queued move, one free node *)

Definition demo_timers (linked : bool) : gmap timer_id timer :=
  <[stepper_time 4096 := mk_timer (if linked then Some T_periodic else None) F_null 1000]>
  (<[T_periodic := mk_timer (Some T_sentinel) F_periodic_event 5000]>
  (<[T_sentinel := mk_timer None F_sentinel_event (5000 + 2 ^ 31)]>
  {[T_deleted := mk_timer None F_deleted_event 0]})).

Definition demo (linked : bool) (st : stepper) : mcu :=
  init_mcu <| timers := demo_timers linked |>
    <| sst ::= λ c, c <| timer_list := if linked then stepper_time 4096 else T_periodic |> |>
    <| objs := {[4096 := O_stepper st]} |>
    <| nodes := {[5000 := mk_move_node None (MD_stepper 50 3 4 MF_DIR);
                  5016 := mk_move_node None MD_free]} |>
    <| base ::= λ c, c <| move_free_list := Some 5016 |> <| oid_count := 1 |>
                       <| oids := Some [mk_oid_s OT_stepper 4096] |> |>.

(** In the middle of a move, forwards, with a reversing move queued. *)
Definition st_running : stepper :=
  mk_stepper 100 7 2 0 0 1 2 0x40000002 (mk_move_queue_head (Some 5000) (Some 5000))
    SF_SINGLE_SCHED.
Definition st_idle (flags : Z) : stepper :=
  mk_stepper 0 0 0 0 0 1 2 (u32 (-0x40000000)) (mk_move_queue_head None None) flags.

Definition queued : move := mk_move 50 3 4 true.
Definition demo_schedule : list (Z * Z) :=
  [(1000, 0x40000001); (1100, 0x40000002); (1150, 0x40000001); (1203, 0x40000000);
   (1259, 0x3fffffff); (1318, 0x3ffffffe)].

Lemma demo_moves (b := example_board) linked :
  moves_ok (demo linked st_running) st_running [5016] [5000] [queued].
Proof.
  constructor.
  - split_and!; [|apply NoDup_singleton|done]. split; [done|]. by exists None.
  - split; [|apply NoDup_singleton]. split; [done|]. by exists None.
  - set_solver.
  - apply Forall2_cons. split; [|constructor]. split; [done|simpl; lia].
Qed.

Lemma demo_active (b := example_board) linked :
  active 4096 (demo linked st_running) st_running [5016] [5000] [queued]
    1000 100 7 0x40000000 1.
Proof.
  constructor; try done.
  - eexists. by split.
  - apply demo_moves.
  - by left.
Qed.

Lemma demo_follows (b := example_board) linked :
  follows 4096 (demo linked st_running) demo_schedule.
Proof. do 9 eexists. split; [apply demo_active|]. by vm_compute. Qed.

Lemma demo_follows_to (b := example_board) linked :
  follows_to 4096 (demo linked st_running) demo_schedule [5016] st_running
    (1318, 0x3ffffffe, -1).
Proof. do 7 eexists. split; [apply demo_active|]. by vm_compute. Qed.

Lemma demo_idle (b := example_board) linked flags :
  flag_set flags SF_SINGLE_SCHED = true → flag_set flags SF_LAST_DIR = false →
  idle 4096 (demo linked (st_idle flags)) (st_idle flags) [5016] 1000 0x40000000 (-1).
Proof.
  intros Hs Hl. constructor; try done.
  - eexists. by split.
  - constructor.
    + by split_and!; [|constructor|].
    + split; [|apply NoDup_singleton]. split; [done|]. by exists None.
    + set_solver.
    + constructor.
  - by right.
Qed.

Lemma demo_oid linked st : oid_names (demo linked st) 0 OT_stepper 4096.
Proof. split_and!; done. Qed.

Lemma demo_timers_ok (linked : bool) :
  timers_ok 1000 (demo_timers linked)
    (if linked then [stepper_time 4096; T_periodic] else [T_periodic]).
Proof.
  destruct linked; constructor.
  - apply NoDup_cons. split; [set_solver|apply NoDup_singleton].
  - set_solver.
  - set_solver.
  - repeat (apply Forall_cons_2; [done|]). apply Forall_nil_2.
  - repeat constructor; by vm_compute.
  - done.
  - apply NoDup_singleton.
  - set_solver.
  - set_solver.
  - repeat (apply Forall_cons_2; [done|]). apply Forall_nil_2.
  - repeat constructor.
  - done.
Qed.

Lemma demo_sched (linked : bool) st :
  sched_inv 1000 (demo linked st)
    (if linked then [stepper_time 4096; T_periodic] else [T_periodic]).
Proof.
  constructor; [|apply demo_timers_ok|..]; destruct linked; simpl;
    try done; try set_solver; try (by eexists).
Qed.

Lemma demo_range : Forall (λ e, 0 < e.2 < 2 ^ 31) demo_schedule.
Proof. repeat (apply Forall_cons_2; [simpl; lia|]). apply Forall_nil_2. Qed.

(** ** Witnesses *)


Lemma move_step_times_witness :
  let b := example_board in
  let s := demo true (mk_stepper 107 7 3 0 0 1 2 0x40000003
    (mk_move_queue_head (Some 5000) (Some 5000)) SF_SINGLE_SCHED) in
  match edge_run 2 4096 s with
  | (Ret _, s') =>
      wk s'.(timers) (stepper_time 4096)
      = u32 (900 + (2 + 1) * 100 + 7 * ((2 + 1) * 2 / 2))
      ∧ ∃ st, obj_at s' 4096 st ∧ stepper_get_position st = 0x40000000 + 2 * 1
  | _ => False
  end.
Proof.
  intros b s.
  assert (Hmo : moves_ok s st_running [5016] [5000] [queued])
    by (destruct (demo_moves true); by constructor).
  apply (move_step_times 4096 s 900 0x40000000 1 (mk_move 100 7 3 false) [queued] 2);
    [done| | |simpl; lia].
  - exists (mk_stepper 107 7 3 0 0 1 2 0x40000003
      (mk_move_queue_head (Some 5000) (Some 5000)) SF_SINGLE_SCHED), [5016], [5000], [queued],
      1000, 107, 7, 0x40000000, 1. split; [|by vm_compute].
    constructor; [done|done|by eexists|by destruct Hmo|done|done|simpl; lia|done|by left].
  - repeat (apply Forall_cons_2; [vm_compute; done|]). apply Forall_nil_2.
Defined.

Lemma queue_step_appends_witness :
  let b := example_board in
  let s := demo true st_running in
  let m := arg_move 200 10 0 false in
  match command_queue_step [0; 200; 10; 0] s with
  | (Ret _, s') => ∃ st', follows_to 4096 s'
      (demo_schedule ++ schedule 1318 0x3ffffffe (-1) [m]) [] st'
      (after 1318 0x3ffffffe (-1) [m]) ∧ s'.(irq) = true ∧ s'.(timers) = s.(timers)
      ∧ s'.(sst) = s.(sst) ∧ s'.(trace) = s.(trace)
  | _ => False
  end.
Proof.
  intros b s m.
  apply (queue_step_appends 4096 s st_running 5016 [] demo_schedule 1318 0x3ffffffe (-1)
           0 200 10 0); [apply demo_oid|apply demo_follows_to|done].
Defined.

Lemma queue_step_starts_witness :
  let b := example_board in
  let s := demo false (st_idle SF_SINGLE_SCHED) in
  let m := arg_move 200 10 0 false in
  match command_queue_step [0; 200; 10; 0] s with
  | (Ret _, s') => ∃ st',
      follows_to 4096 s' (schedule 1000 0x40000000 (-1) [m]) [5016] st'
        (after 1000 0x40000000 (-1) [m])
      ∧ (∃ U', sched_inv 1000 s' U' ∧ stepper_time 4096 ∈ U') ∧ s'.(irq) = true
  | (Shut r, s') => r = "Timer too close" ∧ ∃ U', sched_inv 1000 s' U'
  | (Stuck _, _) => False
  end.
Proof.
  intros b s m.
  apply (queue_step_starts 1000 [T_periodic] 4096 s (st_idle SF_SINGLE_SCHED) 5016 []
           1000 0x40000000 (-1) 0 200 10 0);
    [done|apply demo_oid|by apply demo_idle|done|done|apply (demo_sched false)|set_solver|done].
Defined.


Lemma stopped_stepper_needs_reset_witness :
  let b := example_board in
  let st := st_idle (Z.lor SF_SINGLE_SCHED SF_NEED_RESET) in
  let s := demo false st in
  match command_queue_step [0; 200; 10; 0] s with
  | (Ret _, s') => idle 4096 s' st [5016] 1000 0x40000000 (-1) ∧ s'.(timers) = s.(timers)
       ∧ s'.(sst) = s.(sst) ∧ s'.(trace) = s.(trace)
  | _ => False
  end
  ∧ match command_reset_step_clock [0; 7777] s with
    | (Ret _, s') => ∃ st', idle 4096 s' st' [5016] 7777 0x40000000 (-1)
        ∧ flag_set st'.(s_flags) SF_NEED_RESET = false
    | _ => False
    end.
Proof.
  intros b st s.
  apply (stopped_stepper_needs_reset 4096 s st 5016 [] 1000 0x40000000 (-1) 0 200 10 0 7777);
    [apply demo_oid|by apply demo_idle|done|done|unfold is_u32; lia].
Defined.

Lemma stepper_event_full_min_pulse_witness :
  let b := example_board in
  let s := demo true st_running in
  match stepper_event_full 4096 s with
  | (Ret res, s') => res = SF_DONE ∨ res = SF_RESCHEDULE
      ∧ timer_is_before (wk s'.(timers) (stepper_time 4096)) (min_next s st_running) = false
  | (Shut r, _) => r = "Stepper too far in past"
  | (Stuck _, _) => False
  end.
Proof.
  intros b s. apply (stepper_event_full_min_pulse 4096 s st_running
    (mk_timer (Some T_periodic) F_null 1000) [5016] [5000] [queued]);
    [done|done|done|apply demo_moves].
Defined.

Lemma stepper_event_is_callback_witness :
  let b := example_board in
  let s := demo true st_running in
  match stepper_event_edge 4096 s with
  | (Ret res, s') =>
      callback_post (wk s.(timers) (stepper_time 4096)) (stepper_time 4096) res s'
  | _ => False
  end.
Proof.
  intros b s. apply (stepper_event_is_callback 4096 s [T_periodic] 1000 0x40000001
    (tail demo_schedule)); [done| |apply demo_follows|lia|done].
  apply (sched_inv_running 1000). apply (demo_sched true).
Defined.
