(* ===== verification/Trsync.v ===== *)
(** * Trigger synchronisation (src/trsync.c)

    A trsync collects the signals to run when a homing operation ends: on a
    trigger it runs each registered signal once and reports the reason. *)

From S2P Require Import Prelude.
From S2P Require Import State.
From S2P Require Import Machine.
From S2P Require Import Sched.
From S2P Require Import Basecmd.
From S2P Require Import Stepper.

Definition TSF_CAN_TRIGGER : Z := Z.shiftl 1 0.
Definition TSF_REPORT : Z := Z.shiftl 1 2.

(** The timers of the trsync at [p]. *)
Definition report_time (p : Z) : timer_id := T_obj p 0.
Definition expire_time (p : Z) : timer_id := T_obj p 1.

Definition read_signal (a : Z) : M trsync_signal :=
  o ← gets (λ s, s.(signals) !! a); of_option Null_deref o.
Definition write_signal (a : Z) (x : trsync_signal) : M unit :=
  modify (λ s, s <| signals ::= <[a := x]> |>).

Section Trsync.
Context `{Board}.

(** Call the function of a signal.  The signal of a stepper is a member of the
    stepper, so its address stands for the stepper's. *)
Definition run_signal (func : signal_func) (tss reason : Z) : M unit :=
  match func with
  | SIG_null => stuck Null_deref
  | SIG_stepper_stop => stepper_stop tss reason
  end.

(** The loop of [trsync_do_trigger]. *)
Fixpoint dispatch_signals (run : signal_func → Z → Z → M unit) (fuel : nat)
    (p reason : Z) : M unit :=
  match fuel with
  | O => stuck Out_of_fuel
  | S fuel =>
      ts ← read_obj p;
      match ts.(tr_signals) with
      | None => mret tt
      | Some tss =>
          x ← read_signal tss;
          write_obj p (ts <| tr_signals := x.(ts_next) |>);;
          write_signal tss (mk_trsync_signal None SIG_null);;
          run x.(ts_func) tss reason;;
          dispatch_signals run fuel p reason
      end
  end.

Definition trsync_do_trigger (p reason : Z) : M unit :=
  flag ← irq_save;
  ts ← read_obj p;
  (if flag_set ts.(tr_flags) TSF_CAN_TRIGGER then
     write_obj p (ts <| tr_trigger_reason := u8 reason |>
       <| tr_flags := Z.lor (Z.land ts.(tr_flags) (u8 (Z.lnot TSF_CAN_TRIGGER))) TSF_REPORT |>);;
     n ← gets (λ s, size s.(signals));
     dispatch_signals run_signal (S n) p (u8 reason);;
     sched_wake_task W_trsync
   else mret tt);;
  irq_restore flag.

Definition trsync_expire_event (p : Z) : M Z :=
  ts ← read_obj p;
  trsync_do_trigger p ts.(tr_expire_reason);;
  mret SF_DONE.

Definition trsync_report_event (p : Z) : M Z :=
  ts ← read_obj p;
  write_obj p (ts <| tr_flags := Z.lor ts.(tr_flags) TSF_REPORT |>);;
  sched_wake_task W_trsync;;
  t ← read_timer (report_time p);
  set_waketime (report_time p) (t.(waketime) + ts.(tr_report_ticks));;
  mret SF_RESCHEDULE.

Definition command_config_trsync (args : list Z) : M unit :=
  match args with
  | [oid] =>
      p ← oid_alloc oid OT_trsync (sizeof_oid OT_trsync);
      write_obj p (mk_trsync 0 None 0 0 0);;
      modify (λ s, s <| timers ::= λ m,
        <[report_time p := mk_timer None F_trsync_report_event 0]>
        (<[expire_time p := mk_timer None F_trsync_expire_event 0]> m) |>)
  | _ => stuck Out_of_bounds
  end.

Definition trsync_oid_lookup (oid : Z) : M Z := oid_lookup oid OT_trsync.

Definition trsync_add_signal (p tss : Z) (func : signal_func) : M unit :=
  flag ← irq_save;
  x ← read_signal tss;
  if negb (bool_decide (x.(ts_func) = SIG_null)) || bool_decide (func = SIG_null)
  then shutdown "Can't add signal that is already active"
  else
    ts ← read_obj p;
    write_signal tss (mk_trsync_signal ts.(tr_signals) func);;
    write_obj p (ts <| tr_signals := Some tss |>);;
    irq_restore flag.

(** The loop of [trsync_clear]. *)
Fixpoint clear_signals (fuel : nat) (tss : option Z) : M unit :=
  match fuel with
  | O => stuck Out_of_fuel
  | S fuel =>
      match tss with
      | None => mret tt
      | Some a =>
          x ← read_signal a;
          write_signal a (mk_trsync_signal None SIG_null);;
          clear_signals fuel x.(ts_next)
      end
  end.

Definition trsync_clear (p : Z) : M unit :=
  sched_del_timer (report_time p);;
  sched_del_timer (expire_time p);;
  ts ← read_obj p;
  n ← gets (λ s, size s.(signals));
  clear_signals (S n) ts.(tr_signals);;
  update_obj p (λ ts, ts <| tr_signals := None |> <| tr_flags := 0 |>
    <| tr_trigger_reason := 0 |> <| tr_expire_reason := 0 |>).

Definition command_trsync_start (args : list Z) : M unit :=
  match args with
  | [oid; clock; ticks; expire_reason] =>
      p ← trsync_oid_lookup oid;
      irq_disable;;
      trsync_clear p;;
      update_obj p (λ ts, ts <| tr_flags := TSF_CAN_TRIGGER |>);;
      set_waketime (report_time p) clock;;
      update_obj p (λ ts, ts <| tr_report_ticks := ticks |>);;
      when (negb (ticks =? 0)) (sched_add_timer (report_time p));;
      update_obj p (λ ts, ts <| tr_expire_reason := u8 expire_reason |>);;
      irq_enable
  | _ => stuck Out_of_bounds
  end.

Definition command_trsync_set_timeout (args : list Z) : M unit :=
  match args with
  | [oid; clock] =>
      p ← trsync_oid_lookup oid;
      irq_disable;;
      ts ← read_obj p;
      when (flag_set ts.(tr_flags) TSF_CAN_TRIGGER)
        (sched_del_timer (expire_time p);;
         set_waketime (expire_time p) clock;;
         sched_add_timer (expire_time p));;
      irq_enable
  | _ => stuck Out_of_bounds
  end.

Definition trsync_report (oid flags reason clock : Z) : M unit :=
  sendf "trsync_state oid=%c can_trigger=%c trigger_reason=%c clock=%u"
    [A_int oid; A_int (b2z (flag_set flags TSF_CAN_TRIGGER)); A_int reason; A_int clock].

Definition command_trsync_trigger (args : list Z) : M unit :=
  match args with
  | [oid; reason] =>
      let oid := u8 oid in
      p ← trsync_oid_lookup oid;
      irq_disable;;
      trsync_do_trigger p reason;;
      sched_del_timer (report_time p);;
      sched_del_timer (expire_time p);;
      update_obj p (λ ts, ts <| tr_flags := 0 |>);;
      ts ← read_obj p;
      let trigger_reason := ts.(tr_trigger_reason) in
      irq_enable;;
      trsync_report oid 0 trigger_reason 0
  | _ => stuck Out_of_bounds
  end.

Definition trsync_task : M unit :=
  wake ← sched_check_wake W_trsync;
  when wake
    (foreach_oid OT_trsync (λ oid p,
      ts ← read_obj p;
      when (flag_set ts.(tr_flags) TSF_REPORT)
        (time ← timer_read_time;
         irq_disable;;
         ts ← read_obj p;
         let trigger_reason := ts.(tr_trigger_reason) in
         let flags := ts.(tr_flags) in
         write_obj p (ts <| tr_flags := Z.land flags (u8 (Z.lnot TSF_REPORT)) |>);;
         irq_enable;;
         trsync_report oid flags trigger_reason time))).

Definition trsync_shutdown : M unit := foreach_oid OT_trsync (λ _ p, trsync_clear p).

(** [command_stepper_stop_on_trigger] (stepper.c). *)
Definition command_stepper_stop_on_trigger (args : list Z) : M unit :=
  match args with
  | [oid; trsync_oid] =>
      p ← stepper_oid_lookup oid;
      ts ← trsync_oid_lookup trsync_oid;
      trsync_add_signal ts p SIG_stepper_stop
  | _ => stuck Out_of_bounds
  end.

End Trsync.
