(* ===== verification/Endstop.v ===== *)
(** * End stops (src/endstop.c)

    An end stop samples its pin until it has the expected value for
    [sample_count] consecutive samples and then triggers its trsync. *)

From S2P Require Import Prelude.
From S2P Require Import State.
From S2P Require Import Machine.
From S2P Require Import Sched.
From S2P Require Import Basecmd.
From S2P Require Import Stepper.
From S2P Require Import Trsync.

Definition ESF_PIN_HIGH : Z := Z.shiftl 1 0.
Definition ESF_HOMING : Z := Z.shiftl 1 1.

Definition endstop_time (p : Z) : timer_id := T_obj p 0.

(** [(val ? ~e->flags : e->flags) & ESF_PIN_HIGH] *)
Definition endstop_nomatch (flags val : Z) : bool :=
  flag_set (if val =? 0 then flags else Z.lnot flags) ESF_PIN_HIGH.

Section Endstop.
Context `{Board}.

Definition endstop_oversample_event (p : Z) : M Z :=
  e ← read_obj p;
  val ← gpio_in_read e.(e_pin);
  if endstop_nomatch e.(e_flags) val then
    set_func (endstop_time p) F_endstop_event;;
    set_waketime (endstop_time p) e.(e_nextwake);;
    write_obj p (e <| e_trigger_count := e.(e_sample_count) |>);;
    mret SF_RESCHEDULE
  else
    let count := u8 (e.(e_trigger_count) - 1) in
    if count =? 0 then
      ts ← of_option Null_deref e.(e_ts);
      trsync_do_trigger ts e.(e_trigger_reason);;
      mret SF_DONE
    else
      write_obj p (e <| e_trigger_count := count |>);;
      t ← read_timer (endstop_time p);
      set_waketime (endstop_time p) (t.(waketime) + e.(e_sample_time));;
      mret SF_RESCHEDULE.

Definition endstop_event (p : Z) : M Z :=
  e ← read_obj p;
  val ← gpio_in_read e.(e_pin);
  t ← read_timer (endstop_time p);
  let nextwake := u32 (t.(waketime) + e.(e_rest_time)) in
  if endstop_nomatch e.(e_flags) val then
    set_waketime (endstop_time p) nextwake;;
    mret SF_RESCHEDULE
  else
    write_obj p (e <| e_nextwake := nextwake |>);;
    set_func (endstop_time p) F_endstop_oversample_event;;
    endstop_oversample_event p.

Definition command_config_endstop (args : list Z) : M unit :=
  match args with
  | [oid; pin; pull_up] =>
      p ← oid_alloc oid OT_endstop (sizeof_oid OT_endstop);
      write_obj p (mk_endstop 0 0 0 0 None 0 0 0 0);;
      modify (λ s, s <| timers ::= <[endstop_time p := mk_timer None F_null 0]> |>);;
      pin ← gpio_in_setup pin pull_up;
      update_obj p (λ e, e <| e_pin := pin |>)
  | _ => stuck Out_of_bounds
  end.

Definition command_endstop_home (args : list Z) : M unit :=
  match args with
  | [oid; clock; sample_ticks; sample_count; rest_ticks; pin_value; trsync_oid; reason] =>
      p ← oid_lookup oid OT_endstop;
      sched_del_timer (endstop_time p);;
      set_waketime (endstop_time p) clock;;
      update_obj p (λ e, e <| e_sample_time := sample_ticks |>
                           <| e_sample_count := u8 sample_count |>);;
      if u8 sample_count =? 0 then
        update_obj p (λ e, e <| e_ts := None |> <| e_flags := 0 |>)
      else
        update_obj p (λ e, e <| e_rest_time := rest_ticks |>
          <| e_trigger_count := u8 sample_count |>
          <| e_flags := Z.lor ESF_HOMING (if pin_value =? 0 then 0 else ESF_PIN_HIGH) |>);;
        set_func (endstop_time p) F_endstop_event;;
        ts ← trsync_oid_lookup trsync_oid;
        update_obj p (λ e, e <| e_ts := Some ts |> <| e_trigger_reason := u8 reason |>);;
        sched_add_timer (endstop_time p)
  | _ => stuck Out_of_bounds
  end.

Definition command_endstop_query_state (args : list Z) : M unit :=
  match args with
  | [oid] =>
      let oid := u8 oid in
      p ← oid_lookup oid OT_endstop;
      irq_disable;;
      e ← read_obj p;
      let eflags := e.(e_flags) in
      let nextwake := e.(e_nextwake) in
      irq_enable;;
      v ← gpio_in_read e.(e_pin);
      sendf "endstop_state oid=%c homing=%c next_clock=%u pin_value=%c"
        [A_int oid; A_int (b2z (flag_set eflags ESF_HOMING)); A_int nextwake; A_int v]
  | _ => stuck Out_of_bounds
  end.

End Endstop.
