(* ===== verification/TrsyncSpec.v ===== *)
(** * A trigger stops every registered stepper, once

    The signals of a trsync form a linked list through the steppers; a trigger
    empties it, stops each stepper on it, and a second trigger does nothing. *)

From S2P Require Import Prelude.
From S2P Require Import State.
From S2P Require Import Machine.
From S2P Require Import Sched.
From S2P Require Import SchedList.
From S2P Require Import SchedSpec.
From S2P Require Import Dispatch.
From S2P Require Import Basecmd.
From S2P Require Import BasecmdSpec.
From S2P Require Import Stepper.
From S2P Require Import StepperSpec.
From S2P Require Import StepperCmd.
From S2P Require Import StepperThms.
From S2P Require Import Trsync.

(** ** Several steppers sharing the move pool *)

(** The steppers of [Ps], each with the nodes of its queue; [F] is free. *)
Record steppers_ok (s : mcu) (F : list Z) (Ps : list (Z * list Z)) : Prop := {
  sk_free : free_is s F;
  sk_nodup : NoDup (Ps.*1);
  sk_disj : ∀ p L, (p, L) ∈ Ps → ∀ x, x ∈ L → x ∉ F;
  sk_apart : ∀ p L q L', (p, L) ∈ Ps → (q, L') ∈ Ps → p ≠ q → ∀ x, x ∈ L → x ∉ L';
  sk_each : ∀ p L, (p, L) ∈ Ps → ∃ st ms, obj_at s p st
    ∧ is_Some (s.(timers) !! stepper_time p)
    ∧ queue_is s.(nodes) st.(s_mq) L ∧ Forall2 (holds_move s.(nodes)) L ms;
}.

(** The stepper at [p] has been stopped. *)
Definition is_stopped (s : mcu) (p : Z) : Prop :=
  ∃ st, obj_at s p st ∧ st.(s_count) = 0 ∧ st.(s_mq).(mq_first) = None
    ∧ flag_set st.(s_flags) SF_NEED_RESET = true.

Section trsync.
Context `{Board}.

Lemma steppers_ok_moves s F p L Ps :
  steppers_ok s F ((p, L) :: Ps) →
  ∃ st ms, obj_at s p st ∧ is_Some (s.(timers) !! stepper_time p) ∧ moves_ok s st F L ms.
Proof.
  intros Hok. destruct (sk_each _ _ _ Hok p L) as (st & ms & Hst & Ht & Hq & Hd); [set_solver|].
  exists st, ms. split_and!; [done..|]. constructor; try done; [apply Hok|].
  apply (sk_disj _ _ _ Hok p L). set_solver.
Qed.

(** Stopping one stepper leaves the others intact. *)
Lemma steppers_ok_stop b U s s' F p L Ps st :
  steppers_ok s F ((p, L) :: Ps) → stop_post b U p s st F L s' →
  steppers_ok s' (reverse L ++ F) Ps ∧ is_stopped s' p.
Proof.
  intros Hok [(mq & Hst' & Hmo') _ _ Hobjs Hnodes _ _ Hfn _].
  assert (Hin : (p, L) ∈ (p, L) :: Ps) by set_solver.
  assert (Hne : ∀ q L', (q, L') ∈ Ps → q ≠ p).
  { intros q L' Hq ->. pose proof (sk_nodup _ _ _ Hok) as Hnd. simpl in Hnd.
    apply NoDup_cons in Hnd as [Hnd _]. apply Hnd. apply list_elem_of_fmap. by exists (p, L'). }
  split.
  - constructor.
    + apply Hmo'.
    + pose proof (sk_nodup _ _ _ Hok) as Hnd. simpl in Hnd. by apply NoDup_cons in Hnd as [].
    + intros q L' Hq x Hx [Hr|HF]%elem_of_app.
      * apply elem_of_reverse in Hr. rewrite reverse_involutive in Hr.
        refine (sk_apart _ _ _ Hok q L' p L _ Hin (Hne q L' Hq) x Hx Hr). set_solver.
      * refine (sk_disj _ _ _ Hok q L' _ x Hx HF). set_solver.
    + intros q1 L1 q2 L2 H1 H2. apply (sk_apart _ _ _ Hok); set_solver.
    + intros q L' Hq.
      destruct (sk_each _ _ _ Hok q L') as (st1 & ms & Hst & Ht & Hqu & Hd); [set_solver|].
      assert (Hout : ∀ x, x ∈ L' → s'.(nodes) !! x = s.(nodes) !! x).
      { intros x Hx. apply Hnodes. apply (sk_apart _ _ _ Hok q L' p L); [set_solver|done| |done].
        by eapply Hne. }
      exists st1, ms. split_and!.
      * unfold obj_at. rewrite Hobjs; [done|]. by eapply Hne.
      * by eapply same_funcs_is_Some.
      * eapply queue_is_ext; [|done]. intros x Hx. unfold nlink. by rewrite Hout.
      * clear -Hd Hout. induction Hd as [|x m L' ms [Hd Hc] _ IH]; constructor.
        -- split; [|done]. unfold ndata. rewrite Hout; [done|set_solver].
        -- apply IH. set_solver.
  - exists (halted st mq). split_and!; [done|done| |].
    + destruct Hmo' as [[Hq _] _ _ _]. exact Hq.
    + simpl. rewrite flag_need_reset, stop_flags_bit by lia. by rewrite orb_true_r.
Qed.

(** The link stored in a signal. *)
Definition slink (sg : gmap Z trsync_signal) (a : Z) : option (option Z) :=
  ts_next <$> sg !! a.

(** The signals [L] registered at a trsync with list head [hd]. *)
Definition registered (sg : gmap Z trsync_signal) (hd : option Z) (L : list Z) : Prop :=
  lchain (slink sg) hd L ∧ NoDup L
  ∧ ∀ a, a ∈ L → ts_func <$> sg !! a = Some SIG_stepper_stop.

(** What the dispatch of the signals of [Ps] does. *)
Record dispatched_signals (b : Z) (U : list timer_id) (p : Z) (ts : trsync) (s : mcu)
    (Ps : list (Z * list Z)) (s' : mcu) : Prop := {
  ds_obj : obj_at s' p (ts <| tr_signals := None |>);
  ds_stopped : ∀ a, a ∈ Ps.*1 → is_stopped s' a
    ∧ s'.(signals) !! a = Some (mk_trsync_signal None SIG_null);
  ds_sched : ∃ U', sched_inv b s' U' ∧
    ∀ t, t ∈ live U' ↔ t ∈ live U ∧ ∀ a, a ∈ Ps.*1 → t ≠ stepper_time a;
  ds_objs : ∀ q, q ∉ Ps.*1 → q ≠ p → s'.(objs) !! q = s.(objs) !! q;
  ds_signals : ∀ q, q ∉ Ps.*1 → s'.(signals) !! q = s.(signals) !! q;
  ds_head : (∀ a, a ∈ Ps.*1 → s.(sst).(timer_list) ≠ stepper_time a) →
    s'.(sst).(timer_list) = s.(sst).(timer_list);
  ds_funcs : same_funcs s.(timers) s'.(timers);
}.

Lemma wp_read_signal a x Q E s :
  s.(signals) !! a = Some x → Q x s → wp (read_signal a) Q E s.
Proof. intros Hx HQ. unfold read_signal. wp_steps. by eapply wp_some. Qed.

#[export] Instance op_write_signal a x :
  Op (write_signal a x) (λ _, tt) (λ s, s <| signals ::= <[a := x]> |>).
Proof. done. Qed.

Lemma steppers_ok_frame s s' F Ps :
  (∀ q, q ∈ Ps.*1 → s'.(objs) !! q = s.(objs) !! q) → s'.(nodes) = s.(nodes) →
  s'.(base) = s.(base) → s'.(timers) = s.(timers) →
  steppers_ok s F Ps → steppers_ok s' F Ps.
Proof.
  intros Ho Hn Hb Ht [Hf Hnd Hd Ha He]. constructor; try done.
  - destruct Hf. split; [|done]. by rewrite Hn, Hb.
  - intros q L Hq. destruct (He q L Hq) as (st & ms & Hst & Htm & Hqu & Hdat).
    exists st, ms. rewrite Hn, Ht. split_and!; try done. unfold obj_at. rewrite Ho; [done|].
    apply list_elem_of_fmap. by exists (q, L).
Qed.

Lemma registered_cons sg hd a L :
  registered sg hd (a :: L) →
  ∃ x, hd = Some a ∧ sg !! a = Some x ∧ x.(ts_func) = SIG_stepper_stop ∧ a ∉ L
    ∧ registered (<[a := mk_trsync_signal None SIG_null]> sg) x.(ts_next) L.
Proof.
  intros ([-> (q & Hq & Hc)] & Hnd & Hf). unfold slink in Hq.
  specialize (Hf a ltac:(set_solver)) as Hfa.
  destruct (sg !! a) as [x|] eqn:Hx; [|done]. simpl in Hq, Hfa. simplify_eq.
  apply NoDup_cons in Hnd as [Ha Hnd]. exists x. split_and!; try done. split_and!.
  - eapply lchain_ext; [|done]. intros k Hk. unfold slink.
    rewrite lookup_insert_ne; [done|]. by intros ->.
  - done.
  - intros k Hk. rewrite lookup_insert_ne by (by intros ->). apply Hf. set_solver.
Qed.

Lemma wp_dispatch_signals fuel b U p ts s F Ps reason :
  obj_at s p ts → registered s.(signals) ts.(tr_signals) (Ps.*1) → p ∉ Ps.*1 →
  steppers_ok s F Ps → sched_inv b s U → (length Ps < fuel)%nat →
  wp (dispatch_signals run_signal fuel p reason) (λ _, dispatched_signals b U p ts s Ps)
    (λ _ _, False) s.
Proof.
  revert fuel U ts s F. induction Ps as [|[a L] Ps IH]; intros fuel U ts s F Hts Hreg Hp Hok Hinv Hfuel;
    (destruct fuel as [|fuel]; [simpl in Hfuel; lia|]); cbn [dispatch_signals]; wp_steps;
    (eapply wp_read_obj; [exact Hts|]).
  - destruct Hreg as (Hhd & _ & _). simpl in Hhd. rewrite Hhd. apply wp_ret.
    constructor; try done.
    + destruct ts; simpl in *. by subst.
    + set_solver.
    + exists U. split; [done|]. set_solver.
  - simpl in Hreg, Hp. apply registered_cons in Hreg as (x & Hhd & Hx & Hfx & Ha & Hreg).
    rewrite Hhd. wp_steps. eapply wp_read_signal; [done|]. wp_steps. rewrite Hfx. simpl.
    set (ts1 := ts <| tr_signals := x.(ts_next) |>).
    match goal with |- wp _ _ _ ?s0 => set (s1 := s0) end.
    apply not_elem_of_cons in Hp as [Hpa Hp].
    assert (Hok1 : steppers_ok s1 F ((a, L) :: Ps)).
    { eapply steppers_ok_frame; [..|exact Hok]; try done. intros q Hq. unfold s1. simpl.
      rewrite lookup_insert_ne; [done|]. intros <-. simpl in Hq. set_solver. }
    destruct (steppers_ok_moves _ _ _ _ _ Hok1) as (st & ms & Hst & Htm & Hmo).
    eapply wp_mono; [apply (wp_stepper_stop b U a s1 st F L ms); try done;
      by apply (sched_inv_sst b s)| |done].
    intros [] s2 Hstop. destruct (steppers_ok_stop _ _ _ _ _ _ _ _ _ Hok1 Hstop) as [Hok2 Hsp].
    destruct (sp_sched _ _ _ _ _ _ _ _ Hstop) as (U1 & Hinv1 & Hlive1).
    eapply wp_mono; [apply (IH fuel U1 ts1 s2 (reverse L ++ F))| |done].
    + unfold obj_at. rewrite (sp_objs _ _ _ _ _ _ _ _ Hstop) by done. apply lookup_insert_eq.
    + by rewrite (sp_signals _ _ _ _ _ _ _ _ Hstop).
    + done.
    + done.
    + done.
    + simpl in Hfuel. lia.
    + intros [] s3 [Hobj Hstopped (U' & Hinv' & Hlive') Hobjs Hsigs Hhead Hfn].
      constructor; simpl.
      * exact Hobj.
      * intros k [->|Hk]%elem_of_cons; [|by apply Hstopped]. split.
        -- destruct Hsp as (st' & Hst' & Hrest). exists st'. split; [|done].
           unfold obj_at. rewrite Hobjs; [done|done|congruence].
        -- rewrite Hsigs, (sp_signals _ _ _ _ _ _ _ _ Hstop) by done. apply lookup_insert_eq.
      * exists U'. split; [done|]. intros t. rewrite Hlive', Hlive1, list_elem_of_filter.
        set_solver.
      * intros q [Hqa Hq]%not_elem_of_cons Hqp.
        rewrite Hobjs, (sp_objs _ _ _ _ _ _ _ _ Hstop) by done.
        unfold s1. simpl. by rewrite lookup_insert_ne.
      * intros q [Hqa Hq]%not_elem_of_cons.
        rewrite Hsigs, (sp_signals _ _ _ _ _ _ _ _ Hstop) by done.
        unfold s1. simpl. by rewrite lookup_insert_ne.
      * intros Hne. rewrite Hhead; [apply (sp_head _ _ _ _ _ _ _ _ Hstop), Hne; set_solver|].
        intros k Hk. rewrite (sp_head _ _ _ _ _ _ _ _ Hstop) by (apply Hne; set_solver).
        apply Hne. set_solver.
      * eapply same_funcs_trans; [apply (sp_funcs _ _ _ _ _ _ _ _ Hstop)|done].
Qed.

Lemma registered_length sg hd L : registered sg hd L → (length L <= size sg)%nat.
Proof.
  intros (Hc & Hnd & Hf). rewrite <- size_dom.
  rewrite <- (size_list_to_set (C := gset Z) L) by done.
  apply subseteq_size. intros t Ht%elem_of_list_to_set.
  apply elem_of_dom. specialize (Hf t Ht). destruct (sg !! t); [by eexists|done].
Qed.

(** What a trigger does when the trsync can trigger. *)
Record triggered (b : Z) (U : list timer_id) (p : Z) (ts : trsync) (reason : Z) (s : mcu)
    (Ps : list (Z * list Z)) (s' : mcu) : Prop := {
  tg_obj : obj_at s' p (ts <| tr_signals := None |> <| tr_trigger_reason := u8 reason |>
    <| tr_flags := Z.lor (Z.land ts.(tr_flags) (u8 (Z.lnot TSF_CAN_TRIGGER))) TSF_REPORT |>);
  tg_stopped : ∀ a, a ∈ Ps.*1 → is_stopped s' a
    ∧ s'.(signals) !! a = Some (mk_trsync_signal None SIG_null);
  tg_sched : ∃ U', sched_inv b s' U' ∧
    ∀ t, t ∈ live U' ↔ t ∈ live U ∧ ∀ a, a ∈ Ps.*1 → t ≠ stepper_time a;
  tg_head : (∀ a, a ∈ Ps.*1 → s.(sst).(timer_list) ≠ stepper_time a) →
    s'.(sst).(timer_list) = s.(sst).(timer_list);
  tg_wake : s'.(wakes) W_trsync = true;
  tg_irq : s'.(irq) = s.(irq);
}.

Lemma wp_trsync_do_trigger b U p ts s F Ps reason :
  obj_at s p ts → flag_set ts.(tr_flags) TSF_CAN_TRIGGER = true →
  registered s.(signals) ts.(tr_signals) (Ps.*1) → p ∉ Ps.*1 →
  steppers_ok s F Ps → sched_inv b s U →
  wp (trsync_do_trigger p reason) (λ _, triggered b U p ts reason s Ps) (λ _ _, False) s.
Proof.
  intros Hts Hcan Hreg Hp Hok Hinv. unfold trsync_do_trigger, sched_wake_task. wp_steps.
  eapply wp_read_obj; [done|]. rewrite Hcan. wp_steps.
  match goal with |- wp (dispatch_signals _ _ _ _) _ _ ?s0 => set (s1 := s0) end.
  eapply wp_mono; [apply (wp_dispatch_signals _ b U p (ts <| tr_trigger_reason := u8 reason |>
    <| tr_flags := Z.lor (Z.land ts.(tr_flags) (u8 (Z.lnot TSF_CAN_TRIGGER))) TSF_REPORT |>)
    s1 F Ps)| |done].
  - apply lookup_insert_eq.
  - done.
  - done.
  - eapply steppers_ok_frame; [..|exact Hok]; try done. intros q Hq. unfold s1. simpl.
    rewrite lookup_insert_ne; [done|]. by intros <-.
  - by apply (sched_inv_sst b s).
  - apply registered_length in Hreg. rewrite length_fmap in Hreg. simpl. lia.
  - intros [] s2 [Hobj Hst (U' & Hinv' & Hlive) Hobjs Hsig Hhead Hfn]. wp_steps.
    constructor; try done.
    exists U'. split; [|done]. by apply (sched_inv_sst b s2).
Qed.

(** A trsync that has triggered, or was never started, ignores triggers. *)
Lemma trsync_trigger_idle p ts s reason :
  obj_at s p ts → flag_set ts.(tr_flags) TSF_CAN_TRIGGER = false →
  trsync_do_trigger p reason s = (Ret tt, s).
Proof.
  intros Hts Hcan. unfold trsync_do_trigger, read_obj, mbind, M_bind. simpl.
  unfold obj_at in Hts. rewrite Hts. simpl. rewrite Hcan. simpl. by destruct s.
Qed.

Lemma flags_triggered f :
  flag_set (Z.lor (Z.land f (u8 (Z.lnot TSF_CAN_TRIGGER))) TSF_REPORT) TSF_CAN_TRIGGER = false.
Proof.
  change TSF_CAN_TRIGGER with (Z.shiftl 1 (Z.of_nat 0)) at 2.
  rewrite flag_bit, Z.lor_spec, Z.land_spec. by rewrite andb_false_r.
Qed.

End trsync.

(** C12: A trigger on an armed trsync stops every stepper registered with it:
    each is taken off the timer list, its queue is emptied and it refuses
    moves until reset; all signals are unregistered, the reason is recorded
    for the report.  A second trigger, whatever its reason, changes nothing. *)
Theorem trsync_triggers_once `{Board} b U p ts s F Ps reason reason2 :
  obj_at s p ts → flag_set ts.(tr_flags) TSF_CAN_TRIGGER = true →
  registered s.(signals) ts.(tr_signals) (Ps.*1) → p ∉ Ps.*1 →
  steppers_ok s F Ps → sched_inv b s U →
  match trsync_do_trigger p reason s with
  | (Ret _, s') => triggered b U p ts reason s Ps s'
      ∧ trsync_do_trigger p reason2 s' = (Ret tt, s')
  | _ => False
  end.
Proof.
  intros Hts Hcan Hreg Hp Hok Hinv.
  pose proof (wp_trsync_do_trigger b U p ts s F Ps reason Hts Hcan Hreg Hp Hok Hinv) as Hwp.
  unfold wp in Hwp. destruct (trsync_do_trigger p reason s) as [[] s']; [|done..].
  split; [done|]. eapply trsync_trigger_idle; [apply Hwp|]. apply flags_triggered.
Qed.

(** The demo machine with a trsync the stepper is registered with. *)
Definition demo_trsync : trsync := mk_trsync 0 (Some 4096) TSF_CAN_TRIGGER 0 3.
Definition demo_ts : mcu :=
  (demo true st_running) <| objs ::= <[8192 := O_trsync demo_trsync]> |>
    <| signals := {[4096 := mk_trsync_signal None SIG_stepper_stop]} |>.

Lemma demo_steppers : let b := example_board in steppers_ok demo_ts [5016] [(4096, [5000])].
Proof.
  intros b. assert (Hmo := demo_moves true). destruct Hmo as [Hq Hf Hd Hdat].
  constructor.
  - exact Hf.
  - apply NoDup_singleton.
  - intros p L Hp x Hx. assert (L = [5000]) as -> by set_solver. set_solver.
  - set_solver.
  - intros p L Hp. assert (p = 4096 ∧ L = [5000]) as [-> ->] by set_solver.
    exists st_running, [queued]. split_and!; [done|by eexists|exact Hq|exact Hdat].
Qed.

Lemma trsync_triggers_once_witness :
  let b := example_board in
  match trsync_do_trigger 8192 2 demo_ts with
  | (Ret _, s') => triggered 1000 [stepper_time 4096; T_periodic] 8192 demo_trsync 2 demo_ts
      [(4096, [5000])] s' ∧ trsync_do_trigger 8192 5 s' = (Ret tt, s')
  | _ => False
  end.
Proof.
  intros b. apply (trsync_triggers_once 1000 [stepper_time 4096; T_periodic] 8192 demo_trsync
    demo_ts [5016] [(4096, [5000])] 2 5);
    [done|done| |set_solver|apply demo_steppers|].
  - split_and!; [|apply NoDup_singleton|set_solver]. split; [done|]. by exists None.
  - apply (sched_inv_sst 1000 (demo true st_running)); [|done..]. apply (demo_sched true).
Defined.
