(* ===== verification/EndstopSpec.v ===== *)
(** * An end stop triggers after consecutive matching samples only *)

From S2P Require Import Prelude.
From S2P Require Import State.
From S2P Require Import Machine.
From S2P Require Import Sched.
From S2P Require Import SchedList.
From S2P Require Import SchedSpec.
From S2P Require Import Dispatch.
From S2P Require Import Basecmd.
From S2P Require Import BasecmdSpec.
From S2P Require Import Stepper.
From S2P Require Import StepperSpec.
From S2P Require Import StepperCmd.
From S2P Require Import StepperThms.
From S2P Require Import Trsync.
From S2P Require Import TrsyncSpec.
From S2P Require Import Endstop.

Section endstop.
Context `{Board}.

(** Whether the sample the next read returns has the expected value. *)
Definition sample_matches (s : mcu) (e : endstop) : bool :=
  negb (endstop_nomatch e.(e_flags) (b2z (negb (hw_gpio_in e.(e_pin) s.(reads) =? 0)))).

(** [hist] are the samples taken so far, newest first: the counter records how
    many of the latest ones matched. *)
Definition counts (e : endstop) (hist : list bool) : Prop :=
  1 <= e.(e_trigger_count) <= e.(e_sample_count) ∧ e.(e_sample_count) < 256
  ∧ (Z.to_nat (e.(e_sample_count) - e.(e_trigger_count)) <= length hist)%nat
  ∧ Forall (λ v, v = true) (take (Z.to_nat (e.(e_sample_count) - e.(e_trigger_count))) hist).

(** The end stop after a sample that did not trigger. *)
Definition sampled (e : endstop) (v : bool) : endstop :=
  e <| e_trigger_count := if v then e.(e_trigger_count) - 1 else e.(e_sample_count) |>.

Lemma counts_sampled e hist v :
  counts e hist → (v = true → e.(e_trigger_count) ≠ 1) → counts (sampled e v) (v :: hist).
Proof.
  intros (Htc & Hsc & Hlen & Hall) Hv. unfold counts, sampled. simpl. destruct v.
  - specialize (Hv eq_refl). split_and!; [lia..| |].
    + replace (e.(e_sample_count) - (e.(e_trigger_count) - 1))
        with (e.(e_sample_count) - e.(e_trigger_count) + 1) by lia. lia.
    + replace (Z.to_nat (e.(e_sample_count) - (e.(e_trigger_count) - 1)))
        with (S (Z.to_nat (e.(e_sample_count) - e.(e_trigger_count)))) by lia.
      simpl. by constructor.
  - rewrite Z.sub_diag. split_and!; [lia..| ]. constructor.
Qed.

(** The last sample of a trigger completes [sample_count] matching ones. *)
Lemma counts_complete e hist :
  counts e hist → e.(e_trigger_count) = 1 →
  Forall (λ v, v = true) (take (Z.to_nat e.(e_sample_count)) (true :: hist))
  ∧ (Z.to_nat e.(e_sample_count) <= length (true :: hist))%nat.
Proof.
  intros (Htc & Hsc & Hlen & Hall) H1. rewrite H1 in *.
  replace (Z.to_nat e.(e_sample_count)) with (S (Z.to_nat (e.(e_sample_count) - 1))) by lia.
  simpl. split; [by constructor|lia].
Qed.

Lemma endstop_oversample_step p s e n ts hist :
  obj_at s p e → s.(timers) !! endstop_time p = Some n → e.(e_ts) = Some ts → counts e hist →
  let v := sample_matches s e in
  if v && (e.(e_trigger_count) =? 1) then
    endstop_oversample_event p s
    = (trsync_do_trigger ts e.(e_trigger_reason);; mret SF_DONE) (s <| reads ::= S |>)
  else
    ∃ s', endstop_oversample_event p s = (Ret SF_RESCHEDULE, s')
      ∧ obj_at s' p (sampled e v) ∧ counts (sampled e v) (v :: hist)
      ∧ wk s'.(timers) (endstop_time p)
        = (if v then u32 (n.(waketime) + e.(e_sample_time)) else u32 e.(e_nextwake))
      ∧ (∀ x, x ≠ endstop_time p → s'.(timers) !! x = s.(timers) !! x).
Proof.
  intros He Hn Hts Hc v. pose proof Hc as (Htc & Hsc & _ & _). unfold obj_at in He.
  unfold endstop_oversample_event, read_obj, gpio_in_read, read_timer, mbind, M_bind.
  simpl. rewrite He. simpl. unfold v, sample_matches.
  destruct (endstop_nomatch _ _) eqn:Hm; simpl.
  - eexists. split; [done|]. simpl. split_and!.
    + apply lookup_insert_eq.
    + by apply (counts_sampled e hist false).
    + by erewrite wk_alter_eq by (by rewrite lookup_alter, decide_True, Hn).
    + intros x Hx. by rewrite !lookup_alter_ne.
  - rewrite (u8_small (e.(e_trigger_count) - 1)) by lia.
    destruct (Z.eqb_spec e.(e_trigger_count) 1) as [->|Hne].
    + by rewrite Hts.
    + rewrite (proj2 (Z.eqb_neq _ _)) by lia. simpl. rewrite Hn. simpl.
      eexists. split; [done|]. simpl. split_and!.
      * apply lookup_insert_eq.
      * apply (counts_sampled e hist true); done.
      * by erewrite wk_alter_eq.
      * intros x Hx. by rewrite lookup_alter_ne.
Qed.

End endstop.


