(* ===== verification/Command.v ===== *)
(** * Message blocks and command routing (src/command.c)

    The host and the firmware exchange blocks: a length, a sequence number,
    commands encoded as variable length quantities, a checksum and a SYNC byte.
    This file models the parser and the encoder of commands, the framing of
    blocks, the search for the next block in the receive buffer and the dispatch
    of the commands of a block.  A pointer into a buffer is an offset. *)

From S2P Require Import Prelude.
From S2P Require Import Crc16.
From S2P Require Import Vlq.
From S2P Require Import State.
From S2P Require Import Machine.
From S2P Require Import Sched.

Definition MESSAGE_MIN : Z := 5.
Definition MESSAGE_MAX : Z := 64.
Definition MESSAGE_HEADER_SIZE : Z := 2.
Definition MESSAGE_TRAILER_SIZE : Z := 3.
Definition MESSAGE_POS_LEN : Z := 0.
Definition MESSAGE_POS_SEQ : Z := 1.
Definition MESSAGE_TRAILER_CRC : Z := 3.
Definition MESSAGE_TRAILER_SYNC : Z := 1.
Definition MESSAGE_PAYLOAD_MAX : Z := MESSAGE_MAX - MESSAGE_MIN.
Definition MESSAGE_SEQ_MASK : Z := 0x0f.
Definition MESSAGE_DEST : Z := 0x10.
Definition MESSAGE_SYNC : Z := 0x7E.

Definition HF_IN_SHUTDOWN : Z := 0x01.

Definition CF_NEED_SYNC : Z := Z.shiftl 1 0.
Definition CF_NEED_VALID : Z := Z.shiftl 1 1.

Inductive param_type :=
| PT_uint32 | PT_int32 | PT_uint16 | PT_int16 | PT_byte
| PT_string | PT_progmem_buffer | PT_buffer.

(** [struct command_encoder]; [num_params] is the length of the list. *)
Record command_encoder := mk_command_encoder {
  ce_encoded_msgid : Z;
  ce_max_size : Z;
  ce_param_types : list param_type;
}.

(** [struct command_parser]. *)
Record command_parser := mk_command_parser {
  cp_encoded_msgid : Z;
  cp_num_args : Z;
  cp_flags : Z;
  cp_param_types : list param_type;
  cp_func : list Z → M unit;
}.

(** ** Reading a buffer *)

Definition byte_at (buf : list Z) (p : Z) : M Z :=
  of_option Out_of_bounds (buf !! Z.to_nat p).

(** Run a parser at the position [p]; the result has the position after what
    was read. *)
Definition parse_at {A} (f : list Z → option (A * list Z)) (buf : list Z) (p : Z) :
    M (A * Z) :=
  match f (drop (Z.to_nat p) buf) with
  | Some (v, rest) => mret (v, Z.of_nat (length buf) - Z.of_nat (length rest))
  | None => stuck Out_of_bounds
  end.

(** [*args++ = v], into an array of [num_args] elements. *)
Definition store_arg (num_args : Z) (args : list Z) (v : Z) : M (list Z) :=
  if Z.of_nat (length args) <? num_args then mret (args ++ [v]) else stuck Out_of_bounds.

(** [memchr]: the first position of [c] among the first [n] bytes. *)
Fixpoint memchr (buf : list Z) (c : Z) (n : nat) : option Z :=
  match n, buf with
  | S n, b :: buf => if b =? c then Some 0 else Z.succ <$> memchr buf c n
  | _, _ => None
  end.

(** The number of bytes before the first NUL of a string, up to [room]. *)
Fixpoint str_take (s : list Z) (room : nat) : list Z :=
  match room, s with
  | S room, c :: s => if c =? 0 then [] else c :: str_take s room
  | _, _ => []
  end.

(** The bytes of a string constant. *)
Definition str_bytes (s : string) : list Z :=
  map (λ a, Z.of_nat (Ascii.nat_of_ascii a)) (String.list_ascii_of_string s).

Section Command.
Context `{Board}.

(** [command_encode_ptr] and [command_decode_ptr]: a pointer into the receive
    buffer as a 32-bit argument. *)
Definition command_encode_ptr (p : Z) : Z :=
  if 4 <? sizeof_size_t then u32 p else u32 (rx_addr + p).
Definition command_decode_ptr (v : Z) : Z :=
  if 4 <? sizeof_size_t then v else v - rx_addr.

(** The [switch] of [command_parsef]: the arguments and the position after
    one parameter. *)
Definition parse_param (buf : list Z) (maxend num_args : Z) (t : param_type)
    (args : list Z) (p : Z) : M (list Z * Z) :=
  match t with
  | PT_uint32 | PT_int32 | PT_uint16 | PT_int16 | PT_byte =>
      '(v, p) ← parse_at parse_int buf p;
      args ← store_arg num_args args v;
      mret (args, p)
  | PT_buffer =>
      len ← byte_at buf p;
      let p := p + 1 in
      if maxend <? p + len then shutdown "Command parser error"
      else
        args ← store_arg num_args args len;
        args ← store_arg num_args args (command_encode_ptr p);
        mret (args, p + len)
  | PT_string | PT_progmem_buffer => shutdown "Command parser error"
  end.

(** The loop of [command_parsef]. *)
Fixpoint parsef_loop (buf : list Z) (maxend num_args : Z) (types : list param_type)
    (args : list Z) (p : Z) : M (list Z * Z) :=
  match types with
  | [] => mret (args, p)
  | t :: types =>
      if maxend <? p then shutdown "Command parser error"
      else
        '(args, p) ← parse_param buf maxend num_args t args p;
        parsef_loop buf maxend num_args types args p
  end.

Definition command_parsef (buf : list Z) (p maxend : Z) (cp : command_parser) :
    M (list Z * Z) :=
  parsef_loop buf maxend cp.(cp_num_args) cp.(cp_param_types) [] p.

(** ** Encoding *)

(** The loop of [command_encodef]: [p] and [maxend] are relative to the start
    of the block and [out] holds the bytes written from the header on.  The
    variable arguments are consumed in the order of the parameters; a buffer
    takes its length and its bytes. *)
Fixpoint encodef_loop (maxend : Z) (types : list param_type) (args : list arg)
    (out : list Z) : M (list Z) :=
  match types with
  | [] => mret out
  | t :: types =>
      let p := MESSAGE_HEADER_SIZE + Z.of_nat (length out) in
      if maxend <? p then shutdown "Message encode error"
      else
        match t, args with
        | (PT_uint32 | PT_int32 | PT_uint16 | PT_int16 | PT_byte), A_int v :: args =>
            encodef_loop maxend types args (out ++ encode_int (u32 v))
        | PT_string, A_str s :: args =>
            let bs := str_take (str_bytes s) (Z.to_nat (maxend - (p + 1))) in
            encodef_loop maxend types args (out ++ u8 (Z.of_nat (length bs)) :: bs)
        | (PT_progmem_buffer | PT_buffer), A_buf bs :: args =>
            let v := Z.of_nat (length bs) in
            let v := if maxend - p <? v then maxend - p else v in
            encodef_loop maxend types args (out ++ u8 v :: take (Z.to_nat v) bs)
        | _, _ => stuck Bad_object
        end
  end.

(** [command_encodef]: the bytes of the contents and the length of the block. *)
Definition command_encodef (ce : command_encoder) (args : list arg) : M (list Z * Z) :=
  if ce.(ce_max_size) <=? MESSAGE_MIN then mret ([], ce.(ce_max_size))
  else
    let maxend := MESSAGE_HEADER_SIZE + (ce.(ce_max_size) - MESSAGE_MIN) in
    out ← encodef_loop maxend ce.(ce_param_types) args (encode_msgid ce.(ce_encoded_msgid));
    mret (out, MESSAGE_HEADER_SIZE + Z.of_nat (length out) + MESSAGE_TRAILER_SIZE).

(** [command_add_frame]: the whole block around the contents. *)
Definition command_add_frame (contents : list Z) (msglen : Z) : M (list Z) :=
  seq ← gets (λ s, s.(cmd).(next_sequence));
  let buf := u8 msglen :: seq :: contents in
  let crc := crc16_ccitt (take (Z.to_nat (msglen - MESSAGE_TRAILER_SIZE)) buf) in
  mret (buf ++ [u8 (Z.shiftr crc 8); u8 crc; MESSAGE_SYNC]).

Definition command_encode_and_frame (ce : command_encoder) (args : list arg) : M (list Z) :=
  '(contents, msglen) ← command_encodef ce args;
  command_add_frame contents msglen.

(** ** Finding blocks *)

(** The empty message that acknowledges a block or reports a bad one. *)
Definition encode_acknak : command_encoder := mk_command_encoder 0 MESSAGE_MIN [].
Definition command_send_acknak : M unit := command_sendf "" [].

Definition set_sync_state (f : Z → Z) : M unit :=
  modify (λ s, s <| cmd ::= λ c, c <| sync_state ::= f |> |>).

(** The code from the label [need_sync] on. *)
Definition find_need_sync (buf : list Z) (buf_len : Z) : M (Z * Z) :=
  pop ← match memchr buf MESSAGE_SYNC (Z.to_nat buf_len) with
        | Some i => set_sync_state (λ x, Z.land x (Z.lnot CF_NEED_SYNC));; mret (i + 1)
        | None => mret buf_len
        end;
  st ← gets (λ s, s.(cmd).(sync_state));
  if flag_set st CF_NEED_VALID then mret (-1, pop)
  else
    set_sync_state (λ x, Z.lor x CF_NEED_VALID);;
    command_send_acknak;;
    mret (-1, pop).

(** The code from the label [error] on. *)
Definition find_error (buf : list Z) (buf_len : Z) : M (Z * Z) :=
  b0 ← byte_at buf 0;
  if b0 =? MESSAGE_SYNC then mret (-1, 1)
  else
    set_sync_state (λ x, Z.lor x CF_NEED_SYNC);;
    find_need_sync buf buf_len.

(** The checks of the trailer and of the sequence number, once the whole block
    is in the buffer. *)
Definition find_block_trailer (buf : list Z) (buf_len msglen msgseq : Z) : M (Z * Z) :=
  sync ← byte_at buf (msglen - MESSAGE_TRAILER_SYNC);
  if negb (sync =? MESSAGE_SYNC) then find_error buf buf_len
  else
    hi ← byte_at buf (msglen - MESSAGE_TRAILER_CRC);
    lo ← byte_at buf (msglen - MESSAGE_TRAILER_CRC + 1);
    let msgcrc := u16 (Z.lor (Z.shiftl hi 8) lo) in
    let crc := crc16_ccitt (take (Z.to_nat (msglen - MESSAGE_TRAILER_SIZE)) buf) in
    if negb (crc =? msgcrc) then find_error buf buf_len
    else
      set_sync_state (λ x, Z.land x (Z.lnot CF_NEED_VALID));;
      seq ← gets (λ s, s.(cmd).(next_sequence));
      if negb (msgseq =? seq) then command_send_acknak;; mret (-1, msglen)
      else
        modify (λ s, s <| cmd ::= λ c, c <| next_sequence :=
          Z.lor (Z.land (msgseq + 1) MESSAGE_SEQ_MASK) MESSAGE_DEST |> |>);;
        mret (1, msglen).

(** [command_find_block]: the result and [*pop_count]. *)
Definition command_find_block (buf : list Z) (buf_len : Z) : M (Z * Z) :=
  st ← gets (λ s, s.(cmd).(sync_state));
  if negb (buf_len =? 0) && flag_set st CF_NEED_SYNC then find_need_sync buf buf_len
  else if buf_len <? MESSAGE_MIN then mret (0, 0)
  else
    msglen ← byte_at buf MESSAGE_POS_LEN;
    if (msglen <? MESSAGE_MIN) || (MESSAGE_MAX <? msglen) then find_error buf buf_len
    else
      msgseq ← byte_at buf MESSAGE_POS_SEQ;
      if negb (Z.land msgseq (Z.lnot MESSAGE_SEQ_MASK) =? MESSAGE_DEST)
      then find_error buf buf_len
      else if buf_len <? msglen then mret (0, 0)
      else
        find_block_trailer buf buf_len msglen msgseq.

(** ** Dispatch *)

(** [irq_poll] of armcm_irq.c does nothing. *)
Definition irq_poll : M unit := mret tt.

(** [command_index] is the table the build generates from the DECL_COMMAND
    declarations. *)
Definition command_lookup_parser (command_index : list command_parser) (cmdid : Z) :
    M command_parser :=
  if (cmdid =? 0) || (Z.of_nat (length command_index) <=? cmdid)
  then shutdown "Invalid command"
  else of_option Out_of_bounds (command_index !! Z.to_nat cmdid).

(** One iteration of the loop of [command_dispatch]: the position after the
    command. *)
Definition dispatch_one (command_index : list command_parser) (buf : list Z)
    (msgend p : Z) : M Z :=
  '(cmdid, p) ← parse_at command_parse_msgid buf p;
  cp ← command_lookup_parser command_index cmdid;
  '(args, p) ← command_parsef buf p msgend cp;
  sd ← sched_is_shutdown;
  if sd && negb (flag_set cp.(cp_flags) HF_IN_SHUTDOWN) then
    sched_report_shutdown;; mret p
  else
    irq_poll;;
    cp.(cp_func) args;;
    mret p.

(** Every command has at least one byte, so [msglen] iterations are enough. *)
Fixpoint dispatch_loop (fuel : nat) (command_index : list command_parser)
    (buf : list Z) (msgend p : Z) : M unit :=
  match fuel with
  | O => stuck Out_of_fuel
  | S fuel =>
      if p <? msgend then
        p ← dispatch_one command_index buf msgend p;
        dispatch_loop fuel command_index buf msgend p
      else mret tt
  end.

Definition command_dispatch (command_index : list command_parser) (buf : list Z)
    (msglen : Z) : M unit :=
  dispatch_loop (Z.to_nat msglen) command_index buf (msglen - MESSAGE_TRAILER_SIZE)
    MESSAGE_HEADER_SIZE.

Definition command_send_ack : M unit := command_send_acknak.

Definition command_find_and_dispatch (command_index : list command_parser)
    (buf : list Z) (buf_len : Z) : M (Z * Z) :=
  '(ret, pop_count) ← command_find_block buf buf_len;
  when (0 <? ret)
    (command_dispatch command_index buf pop_count;; command_send_ack);;
  mret (ret, pop_count).

End Command.
