(* ===== verification/CommandSpec.v ===== *)
(** * Blocks are found, checked and resynchronised correctly

    The abstract block is [frame seq contents]; [command_find_block] accepts
    exactly the blocks that carry the expected sequence number, always makes
    progress, and finds the next block after garbage. *)

From S2P Require Import Prelude.
From S2P Require Import Crc16.
From S2P Require Import Vlq.
From S2P Require Import State.
From S2P Require Import Machine.
From S2P Require Import Sched.
From S2P Require Import Command.

(** ** Blocks *)

(** The block with the sequence byte [seq] around [contents]. *)
Definition frame (seq : Z) (contents : list Z) : list Z :=
  let head := Z.of_nat (length contents) + MESSAGE_MIN :: seq :: contents in
  let crc := crc16_ccitt head in
  head ++ [crc / 256; crc mod 256; MESSAGE_SYNC].

(** The sequence bytes of blocks sent to the firmware. *)
Definition seq_ok (seq : Z) : Prop := 0x10 <= seq < 0x20.

Lemma frame_length seq c : length (frame seq c) = (length c + 5)%nat.
Proof. unfold frame. simpl. rewrite length_app. simpl. lia. Qed.

#[global] Arguments frame : simpl never.

Lemma seq_mask b : is_byte b →
  (Z.land b (Z.lnot MESSAGE_SEQ_MASK) =? MESSAGE_DEST) = bool_decide (seq_ok b).
Proof.
  intros Hb.
  assert (H := byte_forall (λ b, Bool.eqb (Z.land b (Z.lnot MESSAGE_SEQ_MASK) =? MESSAGE_DEST)
    ((0x10 <=? b) && (b <? 0x20))) ltac:(vm_compute; reflexivity) b Hb).
  apply Bool.eqb_prop in H. rewrite H. unfold seq_ok.
  case_bool_decide; [apply andb_true_intro|apply andb_false_iff];
    rewrite ?Z.leb_le, ?Z.ltb_lt, ?Z.leb_gt, ?Z.ltb_ge; lia.
Qed.

(** The checksum bytes. *)
Lemma crc_bytes hi lo crc : is_byte hi → is_byte lo →
  crc = u16 (Z.lor (Z.shiftl hi 8) lo) ↔ hi = crc / 256 ∧ lo = crc mod 256 ∧ 0 <= crc < 65536.
Proof.
  unfold is_byte. intros Hhi Hlo. rewrite shiftl_mul, lor_disjoint by lia. change (2 ^ 8) with 256.
  rewrite u16_small by lia. split; [intros ->|]; Z.div_mod_to_equations; lia.
Qed.

(** ** The shape of a block in a buffer *)

Lemma split_block (l : list Z) : (5 <= length l)%nat →
  ∃ a b c x y z, l = a :: b :: c ++ [x; y; z].
Proof.
  intros Hl. destruct l as [|a [|b l]]; simpl in Hl; [lia..|].
  exists a, b, (take (length l - 3) l).
  pose proof (take_drop (length l - 3) l) as Heq.
  assert (Hd : length (drop (length l - 3) l) = 3%nat) by (rewrite length_drop; lia).
  destruct (drop (length l - 3) l) as [|x [|y [|z [|]]]]; simpl in Hd; try lia.
  exists x, y, z. by rewrite Heq.
Qed.

Section shape.
Context (a b : Z) (c : list Z) (x y z : Z) (rest : list Z).
Let buf := (a :: b :: c ++ [x; y; z]) ++ rest.
Let n := Z.of_nat (length c) + 5.

Lemma shape_lookup (i : nat) v : (a :: b :: c ++ [x; y; z]) !! i = Some v → buf !! i = Some v.
Proof. intros Hi. unfold buf. by apply lookup_app_l_Some. Qed.

Lemma shape_tail (k : nat) v : [x; y; z] !! k = Some v →
  buf !! Z.to_nat (n - 3 + Z.of_nat k) = Some v.
Proof.
  intros Hk. unfold n.
  replace (Z.to_nat (Z.of_nat (length c) + 5 - 3 + Z.of_nat k)) with (2 + (length c + k))%nat by lia.
  apply shape_lookup. simpl. rewrite lookup_app_r by lia.
  by replace (length c + k - length c)%nat with k by lia.
Qed.

Lemma shape_crc_input : take (Z.to_nat (n - MESSAGE_TRAILER_SIZE)) buf = a :: b :: c.
Proof.
  unfold n, buf, MESSAGE_TRAILER_SIZE.
  replace (Z.to_nat (Z.of_nat (length c) + 5 - 3)) with (S (S (length c))) by lia.
  simpl. by rewrite <- app_assoc, take_app_length.
Qed.
End shape.

Lemma wp_byte_at buf p v Q E s :
  buf !! Z.to_nat p = Some v → Q v s → wp (byte_at buf p) Q E s.
Proof. intros Hp HQ. unfold byte_at. by eapply wp_some. Qed.

(** ** Skipping to a SYNC byte *)

Lemma memchr_range buf c n i : memchr buf c n = Some i → 0 <= i < Z.of_nat n.
Proof.
  revert buf i. induction n as [|n IH]; intros [|b buf] i; simpl; try done.
  destruct (b =? c); [intros [= <-]; lia|].
  destruct (memchr buf c n) eqn:Hm; simpl; intros; simplify_eq. apply IH in Hm. lia.
Qed.

Lemma memchr_app g c rest n :
  c ∉ g → (length g < n)%nat → memchr (g ++ c :: rest) c n = Some (Z.of_nat (length g)).
Proof.
  revert n. induction g as [|b g IH]; intros [|n] Hc Hn; simpl in *; try lia.
  - by rewrite Z.eqb_refl.
  - apply not_elem_of_cons in Hc as [Hb Hc].
    rewrite (proj2 (Z.eqb_neq b c)) by congruence. rewrite IH by (done || lia). simpl. f_equal. lia.
Qed.

(** The memory after bytes were discarded: a nak is sent when none was sent
    since the last valid block. *)
Definition discarded (found : bool) (s : mcu) : mcu :=
  let s := if found
           then s <| cmd ::= λ c, c <| sync_state ::= λ x, Z.land x (Z.lnot CF_NEED_SYNC) |> |>
           else s in
  if flag_set s.(cmd).(sync_state) CF_NEED_VALID then s
  else sent "" [] (s <| cmd ::= λ c, c <| sync_state ::= λ x, Z.lor x CF_NEED_VALID |> |>).

Lemma find_need_sync_eq buf n s :
  find_need_sync buf n s =
    (Ret (-1, from_option Z.succ n (memchr buf MESSAGE_SYNC (Z.to_nat n))),
     discarded (bool_decide (is_Some (memchr buf MESSAGE_SYNC (Z.to_nat n)))) s).
Proof.
  unfold find_need_sync, discarded, command_send_acknak, set_sync_state.
  destruct (memchr buf MESSAGE_SYNC (Z.to_nat n)); simpl; unfold mbind, M_bind, gets, modify;
    simpl; destruct (flag_set _ _); simpl; try done; by rewrite (op_eq (m := command_sendf _ _)).
Qed.

Lemma discarded_cmd found s :
  (discarded found s).(cmd).(next_sequence) = s.(cmd).(next_sequence).
Proof.
  unfold discarded, sent. destruct found; simpl; repeat case_match; done.
Qed.

Lemma discarded_synced s :
  flag_set (discarded true s).(cmd).(sync_state) CF_NEED_SYNC = false.
Proof.
  set (x := s.(cmd).(sync_state)).
  assert (Hclear : ∀ y, Z.land y CF_NEED_SYNC = 0 →
    flag_set (Z.lor (Z.land x (Z.lnot CF_NEED_SYNC)) y) CF_NEED_SYNC = false).
  { intros y Hy. unfold flag_set. rewrite Z.land_lor_distr_l, <- Z.land_assoc, Hy.
    change (Z.land (Z.lnot CF_NEED_SYNC) CF_NEED_SYNC) with 0. by rewrite Z.land_0_r. }
  unfold discarded. destruct (flag_set _ CF_NEED_VALID).
  - simpl. fold x. rewrite <- (Z.lor_0_r (Z.land x _)). by apply Hclear.
  - unfold sent. destruct (in_sendf _); simpl; fold x; by apply Hclear.
Qed.

(** What a rejected block leaves behind. *)
Definition rejected (buf : list Z) (buf_len : Z) (s : mcu) (r : Z * Z) (s' : mcu) : Prop :=
  r.1 = -1 ∧ 1 <= r.2 <= buf_len
  ∧ s'.(cmd).(next_sequence) = s.(cmd).(next_sequence).

Lemma wp_find_need_sync buf n E s :
  1 <= n → wp (find_need_sync buf n) (rejected buf n s) E s.
Proof.
  intros Hn. unfold wp. rewrite find_need_sync_eq. unfold rejected. simpl. split_and!; [done| | |].
  - destruct (memchr _ _ _) as [i|] eqn:Hm; simpl; [apply memchr_range in Hm|]; lia.
  - destruct (memchr _ _ _) as [i|] eqn:Hm; simpl; [apply memchr_range in Hm|]; lia.
  - apply discarded_cmd.
Qed.

Lemma wp_find_error buf n E s :
  1 <= n <= Z.of_nat (length buf) → wp (find_error buf n) (rejected buf n s) E s.
Proof.
  intros Hn. unfold find_error. wp_steps. destruct buf as [|b0 buf]; simpl in Hn; [lia|].
  apply (wp_byte_at _ _ b0); [done|]. destruct (b0 =? MESSAGE_SYNC).
  - wp_steps. unfold rejected. simpl. lia.
  - wp_steps. eapply wp_mono; [apply wp_find_need_sync; lia| |done]. by intros r s' (? & ? & ?).
Qed.

(** ** Accepting a block *)

(** The memory after a block was accepted. *)
Definition accepted (s : mcu) : mcu :=
  s <| cmd ::= λ c, c <| sync_state ::= λ x, Z.land x (Z.lnot CF_NEED_VALID) |>
      <| next_sequence ::= λ q, Z.lor (Z.land (q + 1) MESSAGE_SEQ_MASK) MESSAGE_DEST |> |>.

(** The receiver waits for a SYNC byte. *)
Definition need_sync (s : mcu) : bool := flag_set s.(cmd).(sync_state) CF_NEED_SYNC.

Lemma seq_next_ok q : seq_ok q →
  seq_ok (Z.lor (Z.land (q + 1) MESSAGE_SEQ_MASK) MESSAGE_DEST).
Proof.
  intros Hq. unfold seq_ok in *.
  assert (Hin : q ∈ seqZ 16 16) by (apply elem_of_seqZ; lia).
  assert (Hall : Forall (λ q, 16 <= Z.lor (Z.land (q + 1) MESSAGE_SEQ_MASK) MESSAGE_DEST < 32)
    (seqZ 16 16)) by (vm_compute; repeat constructor; discriminate).
  rewrite Forall_forall in Hall. by apply Hall.
Qed.

(** The bytes a receiver looks at when the buffer starts with a block. *)
Record block_bytes (buf : list Z) (seq : Z) (c : list Z) : Prop := {
  bb_len : buf !! 0%nat = Some (Z.of_nat (length c) + 5);
  bb_seq : buf !! 1%nat = Some seq;
  bb_sync : buf !! Z.to_nat (Z.of_nat (length c) + 5 - 1) = Some MESSAGE_SYNC;
  bb_hi : ∃ hi lo, buf !! Z.to_nat (Z.of_nat (length c) + 5 - 3) = Some hi
    ∧ buf !! Z.to_nat (Z.of_nat (length c) + 5 - 3 + 1) = Some lo
    ∧ u16 (Z.lor (Z.shiftl hi 8) lo)
      = crc16_ccitt (take (Z.to_nat (Z.of_nat (length c) + 5 - 3)) buf);
}.

Lemma frame_block_bytes seq c rest : block_bytes (frame seq c ++ rest) seq c.
Proof.
  set (a := Z.of_nat (length c) + 5). set (crc := crc16_ccitt (a :: seq :: c)).
  pose proof (crc16_ccitt_range (a :: seq :: c)) as Hcrc. fold crc in Hcrc.
  pose proof (shape_tail a seq c (crc / 256) (crc mod 256) MESSAGE_SYNC rest) as Ht.
  pose proof (shape_crc_input a seq c (crc / 256) (crc mod 256) MESSAGE_SYNC rest) as Hin.
  fold a in Ht, Hin. change (frame seq c) with
    (a :: seq :: c ++ [crc / 256; crc mod 256; MESSAGE_SYNC]).
  constructor; [done|done| |]; fold a.
  - rewrite <- (Ht 2%nat); [f_equal; lia|done].
  - exists (crc / 256), (crc mod 256). split_and!.
    + rewrite <- (Ht 0%nat); [f_equal; lia|done].
    + by apply (Ht 1%nat).
    + unfold MESSAGE_TRAILER_SIZE in Hin. rewrite Hin. fold crc.
      rewrite shiftl_mul, lor_disjoint by (try lia; apply Z.mod_pos_bound; lia).
      change (2 ^ 8) with 256. rewrite Z.mul_comm, <- Z.div_mod by lia. by apply u16_small.
Qed.

(** The memory after an intact block with another sequence number. *)
Definition refused (s : mcu) : mcu :=
  sent "" [] (s <| cmd ::= λ c, c <| sync_state ::= λ x, Z.land x (Z.lnot CF_NEED_VALID) |> |>).

Lemma find_block_intact seq c rest n s :
  seq_ok seq → (length c <= 59)%nat → need_sync s = false →
  Z.of_nat (length (frame seq c)) <= n →
  command_find_block (frame seq c ++ rest) n s
  = if seq =? s.(cmd).(next_sequence)
    then (Ret (1, Z.of_nat (length (frame seq c))), accepted s)
    else (Ret (-1, Z.of_nat (length (frame seq c))), refused s).
Proof.
  intros Hseq Hlen Hns Hn. rewrite frame_length in *.
  destruct (frame_block_bytes seq c rest) as [H0 H1 Hsync (hi & lo & Hhi & Hlo & Hcrc)].
  revert H0 H1 Hsync Hhi Hlo Hcrc. generalize (frame seq c ++ rest).
  intros buf H0 H1 Hsync Hhi Hlo Hcrc.
  replace (Z.of_nat (length c + 5)) with (Z.of_nat (length c) + 5) in * by lia.
  set (a := Z.of_nat (length c) + 5) in *.
  unfold command_find_block, find_block_trailer, byte_at, MESSAGE_TRAILER_CRC,
    MESSAGE_TRAILER_SYNC, MESSAGE_TRAILER_SIZE, MESSAGE_MIN, MESSAGE_MAX, MESSAGE_POS_LEN,
    MESSAGE_POS_SEQ.
  unfold need_sync in Hns. unfold mbind, M_bind, gets. rewrite Hns, andb_false_r.
  rewrite (proj2 (Z.ltb_ge n 5)) by lia.
  change (Z.to_nat 0) with 0%nat. change (Z.to_nat 1) with 1%nat. rewrite H0, H1. simpl.
  rewrite (proj2 (Z.ltb_ge a 5)), (proj2 (Z.ltb_ge 64 a)) by lia. simpl.
  rewrite seq_mask, bool_decide_eq_true_2 by (unfold seq_ok, is_byte in *; lia). simpl.
  rewrite (proj2 (Z.ltb_ge n a)) by lia. rewrite Hsync, Hhi, Hlo. simpl.
  rewrite Hcrc, Z.eqb_refl. simpl.
  destruct (Z.eqb_spec seq (next_sequence (cmd s))) as [->|]; simpl; [done|].
  unfold command_send_acknak. by rewrite (op_eq (m := command_sendf _ _)).
Qed.

Lemma find_block_frame seq c rest n s :
  seq_ok seq → (length c <= 59)%nat → need_sync s = false →
  s.(cmd).(next_sequence) = seq →
  Z.of_nat (length (frame seq c)) <= n →
  command_find_block (frame seq c ++ rest) n s
  = (Ret (1, Z.of_nat (length (frame seq c))), accepted s).
Proof. intros. rewrite find_block_intact by done. subst seq. by rewrite Z.eqb_refl. Qed.

(** More bytes are needed to decide. *)
Definition incomplete (buf : list Z) (n : Z) : Prop :=
  n < MESSAGE_MIN ∨ ∃ len, buf !! 0%nat = Some len ∧ n < len <= MESSAGE_MAX.

(** The three results of [command_find_block]. *)
Definition found (buf : list Z) (n : Z) (s : mcu) (r : Z * Z) (s' : mcu) : Prop :=
  (r.1 = 1 ∧ s' = accepted s ∧ need_sync s = false
   ∧ ∃ c, (length c <= 59)%nat ∧ r.2 = Z.of_nat (length (frame s.(cmd).(next_sequence) c))
          ∧ frame s.(cmd).(next_sequence) c `prefix_of` take (Z.to_nat n) buf)
  ∨ (r = (0, 0) ∧ s' = s ∧ incomplete buf n)
  ∨ rejected buf n s r s'.

Lemma found_rejected buf n s s0 r s' :
  s0.(cmd).(next_sequence) = s.(cmd).(next_sequence) →
  rejected buf n s0 r s' → found buf n s r s'.
Proof. intros Heq (H1 & H2 & H3). right. right. split_and!; [done|lia..|congruence]. Qed.

Lemma wp_find_error_found buf n E s s0 :
  1 <= n <= Z.of_nat (length buf) → s0.(cmd).(next_sequence) = s.(cmd).(next_sequence) →
  wp (find_error buf n) (found buf n s) E s0.
Proof.
  intros Hn Heq. eapply wp_mono; [by apply wp_find_error| |done].
  intros r s' Hr. by eapply found_rejected.
Qed.

(** A block whose fields passed the checks is a frame. *)
Lemma checked_frame a b c x y z :
  byte_list [x; y] → z = MESSAGE_SYNC → a = Z.of_nat (length c) + MESSAGE_MIN →
  crc16_ccitt (a :: b :: c) = u16 (Z.lor (Z.shiftl x 8) y) →
  a :: b :: c ++ [x; y; z] = frame b c.
Proof.
  intros Hxy -> -> Hcrc. apply Forall_cons in Hxy as [Hx Hy]. apply Forall_cons in Hy as [Hy _].
  apply crc_bytes in Hcrc as (-> & -> & _); [done..].
Qed.

(** The part of [command_find_block] after the length is known. *)
Lemma wp_find_block_trailer buf n len seq E s :
  byte_list buf → 1 <= n <= Z.of_nat (length buf) → need_sync s = false →
  MESSAGE_MIN <= len → len <= MESSAGE_MAX → len <= n →
  buf !! 0%nat = Some len → buf !! 1%nat = Some seq →
  wp (find_block_trailer buf n len seq) (found buf n s) E s.
Proof.
  intros Hbuf Hn Hsync Hlen1 Hlen2 Hlen Hb0 Hb1. unfold MESSAGE_MIN, MESSAGE_MAX in *.
  destruct (split_block (take (Z.to_nat len) buf)) as (a & b & c & x & y & z & Heq).
  { rewrite length_take. lia. }
  pose proof (f_equal length Heq) as Hc. rewrite length_take in Hc. simpl in Hc.
  rewrite length_app in Hc. simpl in Hc.
  assert (Hab : a = len ∧ b = seq).
  { rewrite <- (take_drop (Z.to_nat len) buf), Heq in Hb0, Hb1. simpl in *. by simplify_eq. }
  destruct Hab as [-> ->]. pose proof (take_drop (Z.to_nat len) buf) as Hsplit.
  rewrite Heq in Hsplit. set (rest := drop (Z.to_nat len) buf) in *.
  assert (Hlc : len = Z.of_nat (length c) + 5) by lia.
  pose proof (shape_tail len seq c x y z rest) as Ht.
  pose proof (shape_crc_input len seq c x y z rest) as Hin.
  rewrite Hsplit, <- Hlc in Ht, Hin.
  unfold find_block_trailer, MESSAGE_TRAILER_CRC, MESSAGE_TRAILER_SYNC.
  wp_steps. apply (wp_byte_at _ _ z).
  { rewrite <- (Ht 2%nat); [f_equal; lia|done]. }
  destruct (Z.eqb_spec z MESSAGE_SYNC) as [Hz|]; [|by apply wp_find_error_found]. simpl.
  wp_steps. apply (wp_byte_at _ _ x).
  { rewrite <- (Ht 0%nat); [f_equal; lia|done]. }
  wp_steps. apply (wp_byte_at _ _ y); [by apply (Ht 1%nat)|].
  rewrite Hin. destruct (Z.eqb_spec (crc16_ccitt (len :: seq :: c))
    (u16 (Z.lor (Z.shiftl x 8) y))) as [Hcrc|]; [|by apply wp_find_error_found]. simpl.
  assert (Hxy : byte_list [x; y]).
  { rewrite <- Hsplit in Hbuf. apply Forall_app in Hbuf as [Hbuf _].
    rewrite !Forall_cons, Forall_app in Hbuf. destruct Hbuf as (_ & _ & _ & Hxyz).
    rewrite !Forall_cons in *. tauto. }
  pose proof (checked_frame len seq c x y z Hxy Hz Hlc Hcrc) as Hf. unfold set_sync_state.
  wp_steps. simpl. destruct (Z.eqb_spec seq (next_sequence (cmd s))) as [Hs|]; simpl.
  - wp_steps. left. simpl. subst seq. split_and!; [done..|]. exists c. rewrite <- Hf.
    split_and!; [lia|simpl; rewrite length_app; simpl; lia|].
    exists (drop (Z.to_nat len) (take (Z.to_nat n) buf)). rewrite <- Heq.
    rewrite <- (take_drop (Z.to_nat len) (take (Z.to_nat n) buf)) at 1.
    by rewrite take_take, Nat.min_l by lia.
  - unfold command_send_acknak. wp_steps. right. right. unfold rejected, sent. simpl.
    split_and!; [done|lia..|by destruct (in_sendf _)].
Qed.

Lemma wp_find_block buf n E s :
  byte_list buf → 0 <= n <= Z.of_nat (length buf) →
  wp (command_find_block buf n) (found buf n s) E s.
Proof.
  intros Hbuf Hn. unfold command_find_block. wp_steps.
  destruct (negb (n =? 0) && flag_set (sync_state (cmd s)) CF_NEED_SYNC) eqn:Hns.
  { apply andb_prop in Hns as [Hn0%negb_true_iff%Z.eqb_neq _].
    eapply wp_mono; [apply wp_find_need_sync; lia| |done]. intros r s'. by apply found_rejected. }
  destruct (Z.ltb_spec n MESSAGE_MIN) as [?|Hmin].
  { wp_steps. right. left. split_and!; [done..|by left]. }
  unfold MESSAGE_MIN in Hmin.
  assert (Hsync : need_sync s = false).
  { apply andb_false_iff in Hns as [Hz%negb_false_iff%Z.eqb_eq|Hns]; [lia|done]. }
  clear Hns. destruct buf as [|len [|seq buf0]] eqn:Hbeq; simpl in Hn; [lia..|].
  rewrite <- Hbeq in *.
  assert (Hn' : 1 <= n <= Z.of_nat (length buf)) by (rewrite Hbeq; simpl; lia).
  wp_steps. apply (wp_byte_at _ _ len); [by rewrite Hbeq|].
  destruct ((len <? MESSAGE_MIN) || (MESSAGE_MAX <? len)) eqn:Hlen;
    [by apply wp_find_error_found|].
  apply orb_false_iff in Hlen as [Hlen1%Z.ltb_ge Hlen2%Z.ltb_ge].
  wp_steps. apply (wp_byte_at _ _ seq); [by rewrite Hbeq|].
  destruct (negb _); [by apply wp_find_error_found|].
  destruct (Z.ltb_spec n len).
  { wp_steps. right. left. split_and!; [done..|]. right. exists len. by rewrite Hbeq. }
  apply wp_find_block_trailer; try done; by rewrite Hbeq.
Qed.

Lemma wp_total {A} (m : M A) (Q : A → mcu → Prop) s :
  wp m Q (λ _ _, False) s → ∃ a s', m s = (Ret a, s') ∧ Q a s'.
Proof. unfold wp. destruct (m s) as [[a| |] s']; [|done..]. eauto. Qed.

(** C23: On any bytes, [command_find_block] returns one of three results.  It
    returns 1 exactly when the receiver is in sync and the buffer starts with a
    complete, intact block that carries the expected sequence number; then it
    reports the length of the block and advances the sequence number.  It
    returns 0, changing nothing, only when the data ends before the block does.
    Otherwise it discards at least one byte and never more than it was given,
    and keeps the sequence number. *)
Theorem find_block_correct buf n s :
  byte_list buf → 0 <= n <= Z.of_nat (length buf) → seq_ok s.(cmd).(next_sequence) →
  ∃ r s', command_find_block buf n s = (Ret r, s')
    ∧ found buf n s r s' ∧ seq_ok s'.(cmd).(next_sequence)
    ∧ (∀ c, need_sync s = false → (length c <= 59)%nat →
         frame s.(cmd).(next_sequence) c `prefix_of` take (Z.to_nat n) buf → r.1 = 1).
Proof.
  intros Hbuf Hn Hseq.
  destruct (wp_total _ _ _ (wp_find_block buf n (λ _ _, False) s Hbuf Hn)) as (r & s' & Heq & Hf).
  exists r, s'. split_and!; [done|done| |].
  - destruct Hf as [(_ & -> & _)|[(_ & -> & _)|(_ & _ & ->)]]; [|done..]. by apply seq_next_ok.
  - intros c Hns Hc [rest Hpre].
    assert (Hlen : Z.of_nat (length (frame (next_sequence (cmd s)) c)) <= n).
    { apply (f_equal length) in Hpre. rewrite length_take, length_app in Hpre. lia. }
    rewrite <- (take_drop (Z.to_nat n) buf), Hpre, <- app_assoc in Heq.
    rewrite find_block_frame in Heq by done. by simplify_eq.
Qed.

(** An example stream: the host's first block with one one-byte command, then
    the beginning of the next one. *)
Definition example_stream : list Z := frame 0x10 [0x05] ++ [0x07; 0x11].

Lemma find_block_correct_witness :
  ∃ r s', command_find_block example_stream 8 init_mcu = (Ret r, s')
    ∧ found example_stream 8 init_mcu r s' ∧ seq_ok s'.(cmd).(next_sequence)
    ∧ (∀ c, need_sync init_mcu = false → (length c <= 59)%nat →
         frame 0x10 c `prefix_of` take (Z.to_nat 8) example_stream → r.1 = 1).
Proof.
  apply (find_block_correct example_stream 8 init_mcu).
  - vm_compute. repeat constructor; discriminate.
  - vm_compute. split; discriminate.
  - vm_compute. split; [discriminate|reflexivity].
Defined.


