(* ===== verification/CommandRun.v ===== *)
(** * The commands of a block are executed safely, in order, with their arguments *)

From S2P Require Import Prelude.
From S2P Require Import Crc16.
From S2P Require Import Vlq.
From S2P Require Import State.
From S2P Require Import Machine.
From S2P Require Import Sched.
From S2P Require Import Command.
From S2P Require Import CommandSpec.

(** ** Parsers the build generates *)

Definition parseable (t : param_type) : Prop :=
  t ≠ PT_string ∧ t ≠ PT_progmem_buffer.

(** The number of argument words of a list of parameters. *)
Fixpoint arg_count (types : list param_type) : Z :=
  match types with
  | [] => 0
  | PT_buffer :: types => 2 + arg_count types
  | _ :: types => 1 + arg_count types
  end.

(** A table entry: every parameter can be parsed and [num_args] is the number
    of words they need. *)
Definition parser_ok (cp : command_parser) : Prop :=
  Forall parseable cp.(cp_param_types) ∧ cp.(cp_num_args) = arg_count cp.(cp_param_types).

Section args.
Context `{Board}.

(** The words of one parameter: a 32-bit value, or for a buffer its length and
    a pointer to that many bytes of the contents of a block. *)
Definition param_words (t : param_type) (ws : list Z) : Prop :=
  match t with
  | PT_buffer => ∃ len p, ws = [len; command_encode_ptr p]
                   ∧ 2 <= p ∧ 0 <= len ∧ p + len <= 61
  | PT_string | PT_progmem_buffer => False
  | _ => ∃ v, ws = [v] ∧ is_u32 v
  end.

(** The arguments a handler receives. *)
Definition args_ok (types : list param_type) (args : list Z) : Prop :=
  ∃ wss, Forall2 param_words types wss ∧ args = concat wss.

(** What the dispatcher needs from the handlers: started in a memory that
    satisfies [I], with well-formed arguments, each of them returns with [I]
    again or shuts down with [E]. *)
Record handlers_ok (index : list command_parser) (I : mcu → Prop)
    (E : string → mcu → Prop) : Prop := {
  ho_parser : ∀ i cp, i ≠ 0%nat → index !! i = Some cp → parser_ok cp;
  ho_func : ∀ i cp args s, i ≠ 0%nat → index !! i = Some cp →
    args_ok cp.(cp_param_types) args → I s → wp (cp.(cp_func) args) (λ _, I) E s;
  ho_sent : ∀ fmt args s, I s → I (sent fmt args s);
  ho_shut : ∀ msg s, I s → E msg (s <| irq := false |>);
}.

(** ** Reading inside a block *)

Section reading.
Context (buf : list Z) (n : Z).
Hypothesis Hbytes : byte_list buf.
Hypothesis Hn : 5 <= n <= 64.
Hypothesis Hend : buf !! Z.to_nat (n - 1) = Some MESSAGE_SYNC.

Lemma wp_parse_int_at p Q E s :
  0 <= p < n → (∀ v p', is_u32 v → p < p' <= n → Q (v, p') s) →
  wp (parse_at parse_int buf p) Q E s.
Proof.
  intros Hp HQ. unfold parse_at.
  assert (Hlen : (Z.to_nat (n - 1) < length buf)%nat) by (by apply lookup_lt_Some in Hend).
  destruct (parse_int_stops (drop (Z.to_nat p) buf) (Z.to_nat (n - 1 - p)) MESSAGE_SYNC)
    as (v & k & Heq & Hk).
  { rewrite lookup_drop. rewrite <- Hend. f_equal. lia. }
  { done. }
  rewrite Heq. apply wp_ret. apply HQ.
  - destruct (parse_int_range _ _ _ (Forall_drop _ _ _ Hbytes) Heq) as (z & _ & -> & _).
    apply u32_range.
  - rewrite drop_drop, length_drop. lia.
Qed.

Lemma wp_parse_msgid_at p Q E s :
  0 <= p < n - 3 → (∀ v p', 0 <= v → p < p' <= n - 2 → Q (v, p') s) →
  wp (parse_at command_parse_msgid buf p) Q E s.
Proof.
  intros Hp HQ. unfold parse_at.
  assert (Hlen : (Z.to_nat (n - 1) < length buf)%nat) by (by apply lookup_lt_Some in Hend).
  assert (Hd : (length (drop (Z.to_nat p) buf) >= 3)%nat) by (rewrite length_drop; lia).
  pose proof (length_drop buf (Z.to_nat p)) as Hd'.
  pose proof (Forall_drop _ (Z.to_nat p) _ Hbytes) as Hb.
  destruct (drop (Z.to_nat p) buf) as [|c [|d r]]; simpl in *; [lia..|].
  rewrite !Forall_cons in Hb. destruct Hb as ([Hc _] & [Hd0 _] & _).
  destruct (flag_set c 0x80); apply HQ; simpl; try lia.
  apply Z.lor_nonneg. split; [|done]. apply Z.shiftl_nonneg, Z.land_nonneg. lia.
Qed.

Lemma wp_store_arg num args v Q E s :
  Z.of_nat (length args) < num → Q (args ++ [v]) s → wp (store_arg num args v) Q E s.
Proof. intros Hl HQ. unfold store_arg. by rewrite (proj2 (Z.ltb_lt _ _)). Qed.

Lemma wp_parse_param t num p acc (E : string → mcu → Prop) s :
  parseable t → Z.of_nat (length acc) + arg_count [t] <= num → 2 <= p <= n - 3 →
  (∀ msg, E msg ((sent "%s: shutdown %s" [A_str msg] s) <| irq := false |>)) →
  wp (parse_param buf (n - 3) num t acc p)
    (λ r s', s' = s ∧ (∃ ws, r.1 = acc ++ ws ∧ param_words t ws
                         ∧ Z.of_nat (length ws) = arg_count [t]) ∧ p < r.2 <= n) E s.
Proof.
  intros [Ht1 Ht2] Hnum Hp HE.
  assert (Hlen : (Z.to_nat (n - 1) < length buf)%nat) by (by apply lookup_lt_Some in Hend).
  destruct t; try done; simpl in Hnum; unfold parse_param;
    try (apply wp_bind, wp_parse_int_at; [lia|]; intros v p' Hv Hp'; apply wp_bind, wp_store_arg;
         [lia|]; wp_steps; split_and!; [done|exists [v]; split_and!; [done|by exists v|done]|simpl; lia..]).
  destruct (lookup_lt_is_Some_2 buf (Z.to_nat p)) as [len Hb]; [lia|].
  apply wp_bind, (wp_byte_at _ _ len); [done|]. cbv zeta.
  pose proof (Forall_lookup_1 _ _ _ _ Hbytes Hb) as Hlb. unfold is_byte in Hlb.
  destruct (Z.ltb_spec (n - 3) (p + 1 + len)); [by apply wp_shutdown|].
  apply wp_bind, wp_store_arg; [lia|]. apply wp_bind, wp_store_arg; [rewrite length_app; simpl; lia|].
  wp_steps. split_and!; [done| |simpl; lia..]. exists [len; command_encode_ptr (p + 1)]. simpl.
  rewrite <- app_assoc. split_and!; [done| |done]. exists len, (p + 1). split_and!; [done|lia..].
Qed.

Lemma arg_count_cons t types : arg_count (t :: types) = arg_count [t] + arg_count types.
Proof. destruct t; simpl; lia. Qed.

Lemma arg_count_nonneg types : 0 <= arg_count types.
Proof. induction types as [|[] types]; simpl; lia. Qed.

Lemma wp_parsef_loop types num p acc (E : string → mcu → Prop) s :
  Forall parseable types → num = Z.of_nat (length acc) + arg_count types → 2 <= p <= n →
  (∀ msg, E msg ((sent "%s: shutdown %s" [A_str msg] s) <| irq := false |>)) →
  wp (parsef_loop buf (n - 3) num types acc p)
    (λ r s', s' = s ∧ (∃ args, r.1 = acc ++ args ∧ args_ok types args) ∧ p <= r.2 <= n) E s.
Proof.
  intros Hty. revert acc p. induction Hty as [|t types Ht Hty IH]; intros acc p Hnum Hp HE; simpl.
  { wp_steps. split_and!; [done| |simpl; lia..]. exists []. rewrite app_nil_r. split; [done|].
    exists []. by split. }
  rewrite arg_count_cons in Hnum. pose proof (arg_count_nonneg types).
  destruct (Z.ltb_spec (n - 3) p) as [|Hpe]; [by apply wp_shutdown|].
  apply wp_bind. eapply wp_mono; [apply wp_parse_param; [done|lia|lia|done]| |done].
  intros [acc' p'] s' (-> & (ws & Hacc & Hws & Hl) & Hp'). simpl in Hacc, Hp'. subst acc'.
  eapply wp_mono; [apply IH; [rewrite length_app; lia|lia|done]| |done].
  intros r s' (-> & (args & Hargs & (wss & Hwss & ->)) & Hr). split_and!; [done| |lia..].
  exists (ws ++ concat wss). rewrite Hargs, app_assoc. split; [done|]. exists (ws :: wss).
  split; [by constructor|done].
Qed.

Section dispatching.
Context (index : list command_parser) (I : mcu → Prop) (E : string → mcu → Prop).
Hypothesis Hok : handlers_ok index I E.

Lemma handlers_shut msg s :
  I s → E msg ((sent "%s: shutdown %s" [A_str msg] s) <| irq := false |>).
Proof. intros HI. by apply Hok.(ho_shut index I E), Hok.(ho_sent index I E). Qed.

Lemma wp_dispatch_one p s :
  I s → 2 <= p < n - 3 →
  wp (dispatch_one index buf (n - 3) p) (λ p' s', I s' ∧ p < p' <= n) E s.
Proof.
  intros HI Hp. unfold dispatch_one.
  apply wp_bind, wp_parse_msgid_at; [lia|]. intros id p1 Hid1 Hp1.
  apply wp_bind. unfold command_lookup_parser.
  destruct ((id =? 0) || (Z.of_nat (length index) <=? id)) eqn:Hid.
  { apply wp_shutdown. by apply handlers_shut. }
  apply orb_false_iff in Hid as [Hid0%Z.eqb_neq Hid%Z.leb_gt].
  destruct (lookup_lt_is_Some_2 index (Z.to_nat id)) as [cp Hcp]; [lia|].
  assert (Hne : Z.to_nat id ≠ 0%nat) by lia.
  destruct (ho_parser _ _ _ Hok _ _ Hne Hcp) as [Hty Hnum].
  rewrite Hcp. simpl. apply wp_ret, wp_bind. unfold command_parsef.
  eapply wp_mono; [apply wp_parsef_loop; [done|simpl; lia|lia|intros; by apply handlers_shut]| |done].
  intros [args p2] s' (-> & (args' & Heq & Hargs) & Hp2). simpl in Heq, Hp2. subst args.
  unfold sched_is_shutdown. wp_steps. destruct (_ && _).
  - unfold sched_report_shutdown. wp_steps. split; [by apply Hok|lia].
  - unfold irq_poll. wp_steps. eapply wp_mono; [by eapply Hok| |done].
    intros [] s' HI'. wp_steps. split; [done|lia].
Qed.

Lemma wp_dispatch_loop fuel p s :
  I s → 2 <= p <= n → n - p < Z.of_nat fuel →
  wp (dispatch_loop fuel index buf (n - 3) p) (λ _, I) E s.
Proof.
  revert p s. induction fuel as [|fuel IH]; intros p s HI Hp Hfuel; simpl; [lia|].
  destruct (Z.ltb_spec p (n - 3)); [|done].
  apply wp_bind. eapply wp_mono; [apply wp_dispatch_one; [done|lia]| |done].
  intros p' s' [HI' Hp']. apply IH; [done|lia..].
Qed.

End dispatching.
End reading.
End args.

Lemma wp_command_dispatch `{Board} index I E seq c rest s :
  handlers_ok index I E → byte_list (frame seq c ++ rest) → (length c <= 59)%nat → I s →
  wp (command_dispatch index (frame seq c ++ rest) (Z.of_nat (length (frame seq c))))
    (λ _, I) E s.
Proof.
  intros Hok Hb Hc HI. unfold command_dispatch. rewrite frame_length.
  eapply wp_dispatch_loop; unfold MESSAGE_HEADER_SIZE; try done; try lia.
  rewrite lookup_app_l by (rewrite frame_length; lia). unfold frame.
  cbv zeta. rewrite lookup_app_r by (simpl; lia). simpl length.
  by replace (Z.to_nat (Z.of_nat (length c + 5) - 1) - S (S (length c)))%nat with 2%nat by lia.
Qed.

(** C11: Dispatch is memory safe and terminates: for a block that
    [command_find_block] accepts (whatever follows it in the buffer, and whatever
    its contents are, well-formed commands or not) and a generated command table,
    [command_dispatch] reads only bytes of the block, writes only inside the
    argument array of each command, calls handlers only with arguments of their
    declared shape (buffers lie inside the contents of the block), and ends
    after finitely many commands, or shuts down. *)
Theorem dispatch_safe `{Board} index I E seq c rest s :
  handlers_ok index I E → byte_list (frame seq c ++ rest) → (length c <= 59)%nat → I s →
  wp (command_dispatch index (frame seq c ++ rest) (Z.of_nat (length (frame seq c))))
    (λ _, I) E s.
Proof. apply wp_command_dispatch. Qed.

(** A table with one command that echoes its two arguments. *)
Definition example_echo (args : list Z) : M unit :=
  match args with
  | [a; b] => sendf "echo a=%c b=%u" [A_int a; A_int b]
  | _ => stuck Out_of_bounds
  end.
Definition example_index : list command_parser :=
  [mk_command_parser 0 0 0 [] (λ _, stuck Null_deref);
   mk_command_parser 1 2 0 [PT_byte; PT_uint32] example_echo].

Lemma example_handlers `{Board} : handlers_ok example_index (λ _, True) (λ _ _, True).
Proof.
  assert (Hi : ∀ i cp, i ≠ 0%nat → example_index !! i = Some cp →
    cp = mk_command_parser 1 2 0 [PT_byte; PT_uint32] example_echo).
  { intros [|[|i]] cp Hi; simpl; [done| |done]. by intros [= <-]. }
  constructor; [| |done..].
  - intros i cp Hne ->%Hi; [|done]. split; [by repeat constructor|done].
  - intros i cp args s Hne ->%Hi; [|done]. intros (wss & Hw & ->) _. simpl in *.
    apply Forall2_cons_inv_l in Hw as (w1 & wss1 & (a & -> & _) & Hw & ->).
    apply Forall2_cons_inv_l in Hw as (w2 & wss2 & (b & -> & _) & Hw & ->).
    apply Forall2_nil_inv_l in Hw as ->. simpl. by wp_steps.
Qed.

Lemma dispatch_safe_witness :
  let b := example_board in
  let blk := frame 0x10 [1; 7; 0x85] in
  wp (command_dispatch example_index (blk ++ []) 8) (λ _ _, True) (λ _ _, True) init_mcu.
Proof.
  intros b blk. apply (dispatch_safe example_index (λ _, True) (λ _ _, True) 0x10 [1; 7; 0x85] []).
  - apply example_handlers.
  - vm_compute. repeat constructor; discriminate.
  - vm_compute. lia.
  - done.
Defined.

(** ** Executing an encoded block *)

(** How the host encodes a command: its id and its arguments. *)
Definition encode_command (c : Z * list Z) : list Z := concat (map encode_int (c.1 :: c.2)).

(** Executing a command: the abstract counterpart of [dispatch_one]. *)
Definition run_command `{Board} (index : list command_parser) (c : Z * list Z) : M unit :=
  cp ← of_option Out_of_bounds (index !! Z.to_nat c.1);
  sd ← sched_is_shutdown;
  if sd && negb (flag_set cp.(cp_flags) HF_IN_SHUTDOWN) then sched_report_shutdown
  else cp.(cp_func) c.2.

Fixpoint run_commands `{Board} (index : list command_parser) (cs : list (Z * list Z)) : M unit :=
  match cs with
  | [] => mret tt
  | c :: cs => run_command index c;; run_commands index cs
  end.

Definition int_param (t : param_type) : bool :=
  match t with PT_string | PT_progmem_buffer | PT_buffer => false | _ => true end.

(** A command of the table with the arguments its integer parameters need. *)
Definition command_ok (index : list command_parser) (c : Z * list Z) : Prop :=
  1 <= c.1 < 2 ^ 12 ∧ Forall is_u32 c.2 ∧
  ∃ cp, index !! Z.to_nat c.1 = Some cp ∧ Forall (λ t, int_param t = true) cp.(cp_param_types)
    ∧ length c.2 = length cp.(cp_param_types) ∧ cp.(cp_num_args) = Z.of_nat (length c.2).

(** An id is encoded the way the optimised parser of the firmware reads it. *)
Lemma encode_int_msgid id : 0 <= id < 2 ^ 12 →
  ∀ p, command_parse_msgid (encode_int id ++ p) = Some (id, p).
Proof.
  intros Hid p. unfold encode_int. rewrite s32_small by lia.
  change (Z.shiftl 3 5) with 96. change (- Z.shiftl 1 5) with (-32).
  change (Z.shiftl 3 12) with 12288. change (- Z.shiftl 1 12) with (-4096).
  change (2 ^ 12) with 4096 in Hid. rewrite land_7f, (land_7f (Z.shiftr id 7)).
  destruct (Z.ltb_spec id 96), (Z.leb_spec (-32) id); try lia; simpl.
  - rewrite Z.mod_small by lia. by rewrite (proj1 (vlq_last id ltac:(lia))).
  - rewrite (proj2 (Z.ltb_lt id 12288)), (proj2 (Z.leb_le (-4096) id)) by lia. simpl.
    rewrite shiftr_div by lia. change (2 ^ 7) with 128.
    assert (Hq : 0 <= id / 128 < 128) by (Z.div_mod_to_equations; lia).
    rewrite (Z.mod_small (id / 128)) by done. destruct (vlq_more _ Hq) as (-> & -> & _ & _).
    rewrite shiftl_mul, lor_disjoint by (try lia; apply Z.mod_pos_bound; lia).
    change (2 ^ 7) with 128. rewrite (Z.mul_comm (id / 128)), <- Z.div_mod by lia. done.
Qed.

Section running.
Context `{Board} (index : list command_parser).

(** Running a parser on what its encoder wrote. *)
Lemma parse_at_encoded {A} (f : list Z → option (A * list Z)) pre enc tail v :
  f (enc ++ tail) = Some (v, tail) →
  parse_at f (pre ++ enc ++ tail) (Z.of_nat (length pre))
  = mret (v, Z.of_nat (length (pre ++ enc))).
Proof.
  intros Hf. unfold parse_at. rewrite Nat2Z.id, drop_app_length, Hf.
  rewrite !length_app. do 2 f_equal. lia.
Qed.

Lemma bind_ret {A B} (a : A) (k : A → M B) : mbind k (mret a) = k a.
Proof. done. Qed.

Lemma parse_param_int t maxend num acc pre v tail :
  int_param t = true → is_u32 v → Z.of_nat (length acc) < num →
  parse_param (pre ++ encode_int v ++ tail) maxend num t acc (Z.of_nat (length pre))
  = mret (acc ++ [v], Z.of_nat (length (pre ++ encode_int v))).
Proof.
  intros Ht Hv Hnum. unfold parse_param.
  destruct t; try done;
    rewrite (parse_at_encoded parse_int _ _ _ v) by (by apply parse_encode_int);
    rewrite bind_ret; unfold store_arg; by rewrite (proj2 (Z.ltb_lt _ _)).
Qed.

Lemma parsef_loop_ints types args maxend num acc pre tail :
  Forall (λ t, int_param t = true) types → length args = length types → Forall is_u32 args →
  num = Z.of_nat (length acc + length args) →
  Z.of_nat (length (pre ++ concat (map encode_int args))) <= maxend →
  parsef_loop (pre ++ concat (map encode_int args) ++ tail) maxend num types acc
    (Z.of_nat (length pre))
  = mret (acc ++ args, Z.of_nat (length (pre ++ concat (map encode_int args)))).
Proof.
  intros Hty. revert args acc pre.
  induction Hty as [|t types Ht Hty IH]; intros [|v args] acc pre Hlen Hu Hnum Hmax; simpl in *;
    try done.
  { by rewrite !app_nil_r. }
  apply Forall_cons in Hu as [Hv Hu].
  rewrite !length_app in Hmax. rewrite (proj2 (Z.ltb_ge _ _)) by lia.
  rewrite <- app_assoc, parse_param_int by (done || lia). rewrite bind_ret.
  rewrite app_assoc. rewrite (IH args (acc ++ [v]) (pre ++ encode_int v)).
  - rewrite <- !app_assoc. done.
  - lia.
  - done.
  - rewrite length_app. simpl. lia.
  - rewrite !length_app. lia.
Qed.

Lemma dispatch_one_encoded c pre tail msgend :
  command_ok index c →
  Z.of_nat (length (pre ++ encode_command c)) <= msgend →
  ∀ s, dispatch_one index (pre ++ encode_command c ++ tail) msgend (Z.of_nat (length pre)) s
  = (run_command index c;; mret (Z.of_nat (length (pre ++ encode_command c)))) s.
Proof.
  destruct c as [id args]. intros (Hid & Hu & cp & Hcp & Hty & Hlen & Hnum) Hmax s. simpl in *.
  unfold dispatch_one, encode_command. simpl.
  rewrite <- app_assoc, (parse_at_encoded command_parse_msgid _ _ _ id)
    by (apply encode_int_msgid; lia).
  rewrite bind_ret. unfold command_lookup_parser.
  pose proof (lookup_lt_Some _ _ _ Hcp) as Hlt.
  rewrite (proj2 (Z.eqb_neq id 0)), (proj2 (Z.leb_gt _ id)) by lia. simpl.
  unfold run_command. simpl. rewrite Hcp. simpl. rewrite !bind_ret. unfold command_parsef.
  rewrite (app_assoc pre), (parsef_loop_ints _ args); try done.
  - rewrite bind_ret. simpl. rewrite <- app_assoc.
    unfold mbind, M_bind, sched_is_shutdown, gets. simpl. by destruct (_ && _).
  - unfold encode_command in Hmax. simpl in Hmax. by rewrite <- app_assoc.
Qed.

Lemma dispatch_loop_encoded cs pre tail fuel :
  Forall (command_ok index) cs →
  (length (concat (map encode_command cs)) < fuel)%nat →
  ∀ s, dispatch_loop fuel index (pre ++ concat (map encode_command cs) ++ tail)
    (Z.of_nat (length (pre ++ concat (map encode_command cs)))) (Z.of_nat (length pre)) s
  = run_commands index cs s.
Proof.
  intros Hcs. revert pre fuel. induction Hcs as [|c cs Hc Hcs IH]; intros pre [|fuel] Hfuel s;
    simpl in *; try lia.
  { by rewrite app_nil_r, Z.ltb_irrefl. }
  assert (Hpos : (1 <= length (encode_command c))%nat).
  { unfold encode_command. simpl. rewrite length_app. pose proof (encode_int_length c.1). lia. }
  rewrite !length_app in *. rewrite (proj2 (Z.ltb_lt _ _)) by lia.
  rewrite <- app_assoc. unfold mbind at 1, M_bind at 1.
  rewrite dispatch_one_encoded by (try done; rewrite length_app; lia).
  unfold mbind, M_bind. destruct (run_command index c s) as [[[]| |] s']; [|done..]. simpl.
  rewrite app_assoc. rewrite <- (IH (pre ++ encode_command c) fuel) by lia.
  rewrite !length_app. by rewrite Nat.add_assoc.
Qed.

End running.
