(* ===== verification/MsgBlock.v ===== *)
(** * The host's side of the wire format (elegoo/chelper/msgblock.c)

    Checking and decoding the blocks the firmware sends, encoding commands for
    it, and extending its 32-bit clock; and the proof that host and firmware
    understand each other's blocks. *)

From S2P Require Import Prelude.
From S2P Require Import Crc16.
From S2P Require Import Vlq.
From S2P Require Import State.
From S2P Require Import Machine.
From S2P Require Import Sched.
From S2P Require Import Command.
From S2P Require Import CommandSpec.
From S2P Require Import CommandRun.

(** ** The code; [None] is an access out of bounds *)

(** The code from the label [error] of [msgblock_check] on. *)
Definition msgblock_resync (buf : list Z) (buf_len : Z) : Z * bool :=
  match memchr buf MESSAGE_SYNC (Z.to_nat buf_len) with
  | Some i => (- (i + 1), false)
  | None => (- buf_len, true)
  end.

(** [msgblock_check]: the result and the new value of [*need_sync]. *)
Definition msgblock_check (need_sync : bool) (buf : list Z) (buf_len : Z) : option (Z * bool) :=
  if buf_len <? MESSAGE_MIN then Some (0, need_sync)
  else
    let error := Some (msgblock_resync buf buf_len) in
    if need_sync then error
    else
      msglen ← buf !! Z.to_nat MESSAGE_POS_LEN;
      if (msglen <? MESSAGE_MIN) || (MESSAGE_MAX <? msglen) then error
      else
        msgseq ← buf !! Z.to_nat MESSAGE_POS_SEQ;
        if negb (Z.land msgseq (Z.lnot MESSAGE_SEQ_MASK) =? MESSAGE_DEST) then error
        else if buf_len <? msglen then Some (0, need_sync)
        else
          sync ← buf !! Z.to_nat (msglen - MESSAGE_TRAILER_SYNC);
          if negb (sync =? MESSAGE_SYNC) then error
          else
            hi ← buf !! Z.to_nat (msglen - MESSAGE_TRAILER_CRC);
            lo ← buf !! Z.to_nat (msglen - MESSAGE_TRAILER_CRC + 1);
            let msgcrc := u16 (Z.lor (Z.shiftl hi 8) lo) in
            let crc := msgblock_crc16_ccitt
                         (take (Z.to_nat (msglen - MESSAGE_TRAILER_SIZE)) buf) in
            if negb (crc =? msgcrc) then error else Some (msglen, need_sync).

(** The loop of [msgblock_decode]: the result and the values read. *)
Fixpoint decode_loop (data_len : nat) (msg : list Z) (p e : Z) : option (Z * list Z) :=
  match data_len with
  | O => Some (if negb (p =? e) then -1 else 0, [])
  | S data_len =>
      if e <=? p then Some (-1, [])
      else
        '(v, rest) ← host_parse_int (drop (Z.to_nat p) msg);
        '(r, vs) ← decode_loop data_len msg (Z.of_nat (length msg) - Z.of_nat (length rest)) e;
        Some (r, v :: vs)
  end.

Definition msgblock_decode (data_len : nat) (msg : list Z) (msg_len : Z) :
    option (Z * list Z) :=
  decode_loop data_len msg MESSAGE_HEADER_SIZE (msg_len - MESSAGE_TRAILER_SIZE).

(** [message_alloc_and_encode]: the contents of the new message.  [qm->msg] has
    MESSAGE_MAX bytes. *)
Fixpoint encode_loop (data : list Z) (msg : list Z) : option (list Z) :=
  match data with
  | [] => Some msg
  | v :: data =>
      let msg := msg ++ host_encode_int v in
      if MESSAGE_MAX <? Z.of_nat (length msg) then None
      else if MESSAGE_PAYLOAD_MAX <? Z.of_nat (length msg) then Some []
      else encode_loop data msg
  end.

Definition message_alloc_and_encode (data : list Z) : option (list Z) := encode_loop data [].

(** [clock_from_clock32], with the field [last_clock] of the estimate. *)
Definition clock_from_clock32 (last_clock clock32 : Z) : Z :=
  u64 (last_clock + s32 (u32 (clock32 - last_clock))).

(** ** Messages to the firmware *)

Lemma encode_loop_spec data msg :
  Z.of_nat (length msg) <= MESSAGE_PAYLOAD_MAX →
  encode_loop data msg = Some (if Z.of_nat (length (msg ++ concat (map encode_int data)))
                                  <=? MESSAGE_PAYLOAD_MAX
                               then msg ++ concat (map encode_int data) else []).
Proof.
  unfold MESSAGE_PAYLOAD_MAX, MESSAGE_MAX, MESSAGE_MIN. change (64 - 5) with 59.
  revert msg. induction data as [|v data IH]; intros msg Hm; simpl.
  { rewrite app_nil_r. by rewrite (proj2 (Z.leb_le _ _)). }
  unfold host_encode_int, MESSAGE_MAX, MESSAGE_PAYLOAD_MAX, MESSAGE_MAX, MESSAGE_MIN.
  change (64 - 5) with 59. pose proof (encode_int_length v). rewrite !length_app.
  rewrite (proj2 (Z.ltb_ge 64 _)) by lia. destruct (Z.ltb_spec 59 (Z.of_nat (length msg + length (encode_int v)))).
  - by rewrite (proj2 (Z.leb_gt _ _)) by lia.
  - rewrite IH by (rewrite length_app; lia). by rewrite <- app_assoc, !length_app.
Qed.

(** ** Messages from the firmware *)

Lemma crc_host buf : msgblock_crc16_ccitt buf = crc16_ccitt buf.
Proof. done. Qed.

Lemma msgblock_check_frame seq c rest n :
  seq_ok seq → (length c <= 59)%nat → Z.of_nat (length (frame seq c)) <= n →
  msgblock_check false (frame seq c ++ rest) n = Some (Z.of_nat (length (frame seq c)), false).
Proof.
  intros Hseq Hlen Hn. rewrite frame_length in *.
  destruct (frame_block_bytes seq c rest) as [H0 H1 Hsync (hi & lo & Hhi & Hlo & Hcrc)].
  revert H0 H1 Hsync Hhi Hlo Hcrc. generalize (frame seq c ++ rest).
  intros buf H0 H1 Hsync Hhi Hlo Hcrc.
  replace (Z.of_nat (length c + 5)) with (Z.of_nat (length c) + 5) in * by lia.
  set (a := Z.of_nat (length c) + 5) in *.
  unfold msgblock_check, MESSAGE_TRAILER_CRC, MESSAGE_TRAILER_SYNC, MESSAGE_TRAILER_SIZE,
    MESSAGE_MIN, MESSAGE_MAX, MESSAGE_POS_LEN, MESSAGE_POS_SEQ.
  rewrite (proj2 (Z.ltb_ge n 5)) by lia.
  change (Z.to_nat 0) with 0%nat. change (Z.to_nat 1) with 1%nat. rewrite H0, H1. simpl.
  rewrite (proj2 (Z.ltb_ge a 5)), (proj2 (Z.ltb_ge 64 a)) by lia. simpl.
  rewrite seq_mask, bool_decide_eq_true_2 by (unfold seq_ok, is_byte in *; lia). simpl.
  rewrite (proj2 (Z.ltb_ge n a)) by lia. rewrite Hsync, Hhi, Hlo. simpl.
  by rewrite crc_host, Hcrc, Z.eqb_refl.
Qed.

(** Decoding what was encoded. *)
Lemma decode_loop_ints vs pre tail :
  Forall is_u32 vs →
  decode_loop (length vs) (pre ++ concat (map encode_int vs) ++ tail) (Z.of_nat (length pre))
    (Z.of_nat (length (pre ++ concat (map encode_int vs)))) = Some (0, vs).
Proof.
  intros Hvs. revert pre. induction Hvs as [|v vs Hv Hvs IH]; intros pre; simpl.
  { by rewrite app_nil_r, Z.eqb_refl. }
  pose proof (encode_int_length v). rewrite !length_app.
  rewrite (proj2 (Z.leb_gt _ _)) by lia.
  rewrite Nat2Z.id, drop_app_length, <- app_assoc. unfold host_parse_int.
  rewrite parse_encode_int by done. simpl.
  specialize (IH (pre ++ encode_int v)). rewrite <- !app_assoc, !length_app in IH.
  rewrite !length_app.
  match goal with |- context [decode_loop _ _ ?p _] =>
    replace p with (Z.of_nat (length pre + length (encode_int v))) by lia end.
  by rewrite IH.
Qed.

(** ** The firmware's encoder *)

Lemma encodef_loop_ints types args maxend out s :
  Forall (λ t, int_param t = true) types → length args = length types →
  MESSAGE_HEADER_SIZE + Z.of_nat (length (out ++ concat (map (λ v, encode_int (u32 v)) args)))
    <= maxend →
  encodef_loop maxend types (map A_int args) out s
  = (Ret (out ++ concat (map (λ v, encode_int (u32 v)) args)), s).
Proof.
  intros Hty. revert args out. induction Hty as [|t types Ht Hty IH]; intros [|v args] out Hlen Hmax;
    simpl in *; try done; [by rewrite app_nil_r|].
  rewrite !length_app in Hmax. rewrite (proj2 (Z.ltb_ge _ _)) by lia.
  rewrite app_assoc, <- IH by (rewrite ?length_app; lia). by destruct t.
Qed.

Lemma add_frame_eq c s : (length c <= 59)%nat →
  command_add_frame c (Z.of_nat (length c) + 5) s
  = (Ret (frame s.(cmd).(next_sequence) c), s).
Proof.
  intros Hc. unfold command_add_frame, mbind, M_bind, gets, MESSAGE_TRAILER_SIZE.
  replace (Z.to_nat (Z.of_nat (length c) + 5 - 3)) with (S (S (length c))) by lia.
  rewrite u8_small by lia. simpl. rewrite firstn_all.
  set (crc := crc16_ccitt _). pose proof (crc16_ccitt_range
    (Z.of_nat (length c) + 5 :: next_sequence (cmd s) :: c)) as Hr. fold crc in Hr.
  rewrite shiftr_div by lia. change (2 ^ 8) with 256.
  rewrite (u8_small (crc / 256)) by (Z.div_mod_to_equations; lia).
  unfold u8. change (2 ^ 8) with 256. done.
Qed.

(** The ids the two encoders agree on. *)
Lemma encode_msgid_int id : 0 <= id < 96 ∨ 128 <= id < 12288 → encode_msgid id = encode_int id.
Proof.
  intros Hid. unfold encode_int, encode_msgid. rewrite s32_small by lia.
  change (Z.shiftl 3 5) with 96. change (- Z.shiftl 1 5) with (-32).
  change (Z.shiftl 3 12) with 12288. change (- Z.shiftl 1 12) with (-4096).
  rewrite (proj2 (Z.leb_le (-32) id)), (proj2 (Z.leb_le (-4096) id)), !andb_true_r by lia.
  destruct Hid.
  - by rewrite (proj2 (Z.leb_gt 128 id)), (proj2 (Z.ltb_lt id 96)) by lia.
  - rewrite (proj2 (Z.leb_le 128 id)), (proj2 (Z.ltb_ge id 96)), (proj2 (Z.ltb_lt id 12288)) by lia.
    rewrite (land_7f (Z.shiftr id 7)), shiftr_div by lia. change (2 ^ 7) with 128.
    assert (0 <= id / 128 < 128) by (Z.div_mod_to_equations; lia).
    rewrite Z.mod_small by done. by rewrite (proj2 (proj2 (proj2 (vlq_more (id / 128) ltac:(done))))).
Qed.

(** The messages that did not fail to encode are the encoded commands. *)
Lemma messages_encoded cs msgs :
  mapM (λ c, message_alloc_and_encode (c.1 :: c.2)) cs = Some msgs →
  Forall (λ m, m ≠ []) msgs → msgs = map encode_command cs.
Proof.
  intros Hm%mapM_Some Hne. induction Hm as [|c m cs msgs Hc Hm IH]; [done|].
  apply Forall_cons in Hne as [Hcm Hne]. simpl. f_equal; [|by apply IH].
  unfold message_alloc_and_encode in Hc. rewrite encode_loop_spec in Hc by done.
  simpl app in Hc. destruct (_ <=? _) in Hc; simplify_eq. done.
Qed.

Lemma dispatch_frame `{Board} index cs seq rest s :
  Forall (command_ok index) cs →
  let blk := frame seq (concat (map encode_command cs)) in
  command_dispatch index (blk ++ rest) (Z.of_nat (length blk)) s = run_commands index cs s.
Proof.
  intros Hcs blk. unfold blk, command_dispatch. rewrite frame_length, Nat2Z.id. unfold frame.
  set (h := [Z.of_nat (length (concat (map encode_command cs))) + MESSAGE_MIN; seq]).
  cbv zeta. set (trailer := [_; _; _]).
  pose proof (dispatch_loop_encoded index cs h (trailer ++ rest)
    (length (concat (map encode_command cs)) + 5) Hcs) as Hd.
  rewrite !length_app in Hd. simpl in Hd |- *. rewrite <- app_assoc.
  rewrite <- Hd by lia. unfold MESSAGE_TRAILER_SIZE. f_equal. lia.
Qed.

(** C3: What the host sends is what the firmware runs: when the host encodes
    commands with [message_alloc_and_encode] and puts them into one block with
    the sequence number the firmware expects, the firmware finds the block and
    the dispatcher runs exactly the handlers of those commands, in that order,
    with exactly those arguments, and then acknowledges the block. *)
Theorem block_executed `{Board} index cs msgs seq rest n s :
  Forall (command_ok index) cs → mapM (λ c, message_alloc_and_encode (c.1 :: c.2)) cs = Some msgs →
  Forall (λ m, m ≠ []) msgs → (length (concat msgs) <= 59)%nat →
  seq_ok seq → s.(cmd).(next_sequence) = seq → need_sync s = false →
  let blk := frame seq (concat msgs) in
  Z.of_nat (length blk) <= n →
  command_find_and_dispatch index (blk ++ rest) n s
  = (run_commands index cs;; command_send_ack;; mret (1, Z.of_nat (length blk))) (accepted s).
Proof.
  intros Hcs Hmsgs Hne Hlen Hseq Hnext Hns blk Hn.
  assert (Hm : msgs = map encode_command cs).
  { by apply messages_encoded. }
  pose proof (find_block_frame seq (concat msgs) rest n s Hseq Hlen Hns Hnext Hn) as Hfind.
  pose proof (dispatch_frame index cs seq rest (accepted s) Hcs) as Hrun. rewrite <- Hm in Hrun.
  fold blk in Hfind, Hrun. clearbody blk. unfold command_find_and_dispatch, mbind, M_bind.
  rewrite Hfind. simpl. rewrite Hrun. by destruct (run_commands index cs (accepted s)) as [[[]| |] s'].
Qed.

Lemma block_executed_witness :
  let b := example_board in
  let blk := frame 0x10 (concat [[1; 7; 0x81; 0x05]; [1; 9; 0x7f]]) in
  command_find_and_dispatch example_index (blk ++ []) 12 init_mcu
  = (run_commands example_index [(1, [7; 133]); (1, [9; 2 ^ 32 - 1])];;
     command_send_ack;; mret (1, 12)) (accepted init_mcu).
Proof.
  intros b blk.
  apply (block_executed example_index [(1, [7; 133]); (1, [9; 2 ^ 32 - 1])]
    [[1; 7; 0x81; 0x05]; [1; 9; 0x7f]] 0x10 [] 12 init_mcu); try done.
  - repeat (apply Forall_cons; split); [| |apply Forall_nil; done].
    + unfold command_ok. simpl. split_and!; [lia..|repeat constructor; lia|].
      exists (mk_command_parser 1 2 0 [PT_byte; PT_uint32] example_echo).
      split_and!; [done|by repeat constructor|done|done].
    + unfold command_ok. simpl. split_and!; [lia..|repeat constructor; lia|].
      exists (mk_command_parser 1 2 0 [PT_byte; PT_uint32] example_echo).
      split_and!; [done|by repeat constructor|done|done].
  - by repeat constructor.
  - vm_compute. lia.
Defined.

(** What the firmware sends is what the host reads: a response with
    integer parameters that fits its declared maximum size is framed without
    changing the firmware's memory, [msgblock_check] accepts the block whatever
    follows it, and [msgblock_decode] returns the message id and the arguments
    as 32-bit values. *)
Theorem host_reads_response `{Board} ce args rest n s :
  let id := ce.(ce_encoded_msgid) in
  0 <= id < 96 ∨ 128 <= id < 12288 →
  Forall (λ t, int_param t = true) ce.(ce_param_types) →
  length args = length ce.(ce_param_types) →
  MESSAGE_MIN < ce.(ce_max_size) <= MESSAGE_MAX →
  let contents := concat (map encode_int (id :: map u32 args)) in
  Z.of_nat (length contents) <= ce.(ce_max_size) - MESSAGE_MIN →
  seq_ok s.(cmd).(next_sequence) → Z.of_nat (length contents) + 5 <= n →
  ∃ blk, command_encode_and_frame ce (map A_int args) s = (Ret blk, s)
    ∧ msgblock_check false (blk ++ rest) n = Some (Z.of_nat (length blk), false)
    ∧ msgblock_decode (S (length args)) blk (Z.of_nat (length blk)) = Some (0, id :: map u32 args).
Proof.
  intros id Hid Hty Hargs Hmax contents Hfit Hseq Hn. unfold MESSAGE_MIN, MESSAGE_MAX in *.
  set (q := s.(cmd).(next_sequence)) in *.
  assert (Hc : (length contents <= 59)%nat) by lia.
  exists (frame q contents). split_and!.
  - unfold command_encode_and_frame, command_encodef, mbind, M_bind, MESSAGE_MIN.
    rewrite (proj2 (Z.leb_gt _ _)) by lia. fold id. rewrite encode_msgid_int by done.
    assert (Hcat : encode_int id ++ concat (map (λ v, encode_int (u32 v)) args) = contents).
    { unfold contents. simpl. by rewrite map_map. }
    rewrite encodef_loop_ints; [|done..|unfold MESSAGE_HEADER_SIZE; rewrite Hcat; lia].
    rewrite Hcat. simpl. unfold MESSAGE_HEADER_SIZE, MESSAGE_TRAILER_SIZE.
    replace (2 + Z.of_nat (length contents) + 3) with (Z.of_nat (length contents) + 5) by lia.
    by rewrite add_frame_eq.
  - apply msgblock_check_frame; [done|done|rewrite frame_length; lia].
  - unfold msgblock_decode. rewrite frame_length. unfold frame.
    set (h := [Z.of_nat (length contents) + MESSAGE_MIN; q]). cbv zeta. set (trailer := [_; _; _]).
    pose proof (decode_loop_ints (id :: map u32 args) h trailer) as Hd.
    fold contents in Hd. rewrite !length_app in Hd. simpl length in Hd. rewrite length_map in Hd.
    change ((Z.of_nat (length contents) + MESSAGE_MIN :: q :: contents) ++ trailer)
      with (h ++ contents ++ trailer).
    rewrite <- Hd; [unfold MESSAGE_TRAILER_SIZE; f_equal; lia|].
    constructor; [unfold is_u32; lia|]. apply Forall_map, Forall_forall. intros v _. apply u32_range.
Qed.

Lemma host_reads_response_witness :
  let b := example_board in
  let ce := mk_command_encoder 77 16 [PT_byte; PT_int32] in
  ∃ blk, command_encode_and_frame ce (map A_int [200; -5]) init_mcu = (Ret blk, init_mcu)
    ∧ msgblock_check false (blk ++ [0]) 10 = Some (Z.of_nat (length blk), false)
    ∧ msgblock_decode 3 blk (Z.of_nat (length blk)) = Some (0, [77; 200; 2 ^ 32 - 5]).
Proof.
  intros b ce. apply (host_reads_response ce [200; -5] [0] 10 init_mcu); try done.
  - left. vm_compute. split; [discriminate|reflexivity].
  - by repeat constructor.
Defined.

(** [clock_from_clock32] recovers the firmware's full 64-bit clock from
    the 32 bits it reports, as long as the true clock is within half a turn of
    the host's latest estimate. *)
Theorem clock_recovered last_clock clock :
  0 <= clock < 2 ^ 64 → - 2 ^ 31 <= clock - last_clock < 2 ^ 31 →
  clock_from_clock32 last_clock (u32 clock) = clock.
Proof.
  intros Hc Hd. unfold clock_from_clock32. rewrite u32_sub_l, s32_u32, s32_small by done.
  unfold u64. rewrite Z.mod_small; lia.
Qed.

Lemma clock_recovered_witness :
  clock_from_clock32 (2 ^ 32 - 100) (u32 (2 ^ 32 + 50)) = 2 ^ 32 + 50.
Proof. apply clock_recovered; lia. Defined.

(** A buffer that does not fit is truncated to the room left in the message
    without counting its length byte: the block is one byte longer than the
    declared maximum size, and the host discards it. *)
Theorem long_buffer_overshoots :
  let b := example_board in
  let ce := mk_command_encoder 5 64 [PT_buffer] in
  ∃ blk, command_encode_and_frame ce [A_buf (repeat 1 100)] init_mcu = (Ret blk, init_mcu)
    ∧ Z.of_nat (length blk) = ce.(ce_max_size) + 1
    ∧ msgblock_check false blk (Z.of_nat (length blk)) = Some (-65, false).
Proof.
  intros b ce. eexists. split; [vm_compute; reflexivity|]. split; vm_compute; reflexivity.
Qed.
