(* ===== verification/Serial.v ===== *)
(** * The serial console (src/generic/serial_irq.c)

    The receive interrupt appends to [receive_buf] while the console task takes
    blocks off its front; [console_sendf] appends blocks to [transmit_buf] while
    the transmit interrupt takes bytes off its front.  The interrupts that hit a
    routine are explicit: lists of received bytes and numbers of transmitted
    ones, at the points where they matter. *)

From S2P Require Import Prelude.
From S2P Require Import State.
From S2P Require Import Machine.
From S2P Require Import Sched.
From S2P Require Import Command.

Definition RX_BUFFER_SIZE : Z := 192.
Definition TX_BUFFER_SIZE : Z := 96.

(** ** Buffers *)

(** [buf] with [bs] stored from the position [pos] on. *)
Definition splice (buf : list Z) (pos : nat) (bs : list Z) : list Z :=
  take pos buf ++ bs ++ drop (pos + length bs) buf.

Definition memmove (buf : list Z) (dst src n : Z) : option (list Z) :=
  if (0 <=? n) && (src + n <=? Z.of_nat (length buf)) && (dst + n <=? Z.of_nat (length buf))
  then Some (splice buf (Z.to_nat dst) (take (Z.to_nat n) (drop (Z.to_nat src) buf)))
  else None.

Definition update_serial (f : serial_state → serial_state) : M unit :=
  modify (λ s, s <| serial ::= f |>).

(** ** Interrupt handlers *)

Definition serial_rx_byte (data : Z) : M unit :=
  when (data =? MESSAGE_SYNC) sched_wake_tasks;;
  r ← gets serial;
  if RX_BUFFER_SIZE <=? r.(receive_pos) then mret tt
  else
    update_serial (λ c, c <| receive_buf := <[Z.to_nat r.(receive_pos) := data]> r.(receive_buf) |>
                          <| receive_pos := r.(receive_pos) + 1 |>).

Fixpoint serial_rx_bytes (bs : list Z) : M unit :=
  match bs with [] => mret tt | b :: bs => serial_rx_byte b;; serial_rx_bytes bs end.

(** [serial_get_tx_byte]: the next byte, if there is one. *)
Definition serial_get_tx_byte : M (option Z) :=
  r ← gets serial;
  if r.(transmit_max) <=? r.(transmit_pos) then mret None
  else
    b ← of_option Out_of_bounds (r.(transmit_buf) !! Z.to_nat r.(transmit_pos));
    update_serial (λ c, c <| transmit_pos := r.(transmit_pos) + 1 |> <| wire ::= λ w, w ++ [b] |>);;
    mret (Some b).

Fixpoint serial_tx_irqs (k : nat) : M unit :=
  match k with O => mret tt | S k => _ ← serial_get_tx_byte; serial_tx_irqs k end.

Definition serial_enable_tx_irq : M unit :=
  modify (λ s, s <| trace ::= cons Ev_enable_tx_irq |>).

(** ** Receiving *)

(** One pass through the loop of [console_pop_input] up to [irq_save], and the
    bytes [bs] received meanwhile: the interrupt stores at positions the
    [memmove] does not touch.  The result is [rpos], [needcopy] and [copied]. *)
Definition pop_input_copy (len copied : Z) (bs : list Z) : M (Z * Z * Z) :=
  rpos ← gets (λ s, s.(serial).(receive_pos));
  let needcopy := u32 (rpos - len) in
  copied ← (if negb (needcopy =? 0) then
     buf ← gets (λ s, s.(serial).(receive_buf));
     buf' ← of_option Out_of_bounds (memmove buf copied (copied + len) (needcopy - copied));
     update_serial (λ c, c <| receive_buf := buf' |>);;
     sched_wake_tasks;;
     mret needcopy
   else mret copied);
  serial_rx_bytes bs;;
  mret (rpos, needcopy, copied).

(** [console_pop_input]: [irqs] are the bytes received during each pass. *)
Fixpoint pop_input_loop (irqs : list (list Z)) (len copied : Z) : M unit :=
  '(rpos, needcopy, copied) ← pop_input_copy len copied (default [] (head irqs));
  flag ← irq_save;
  rpos' ← gets (λ s, s.(serial).(receive_pos));
  if negb (rpos =? rpos') then
    irq_restore flag;;
    match irqs with
    | [] => stuck Out_of_fuel
    | _ :: irqs => pop_input_loop irqs len copied
    end
  else
    update_serial (λ c, c <| receive_pos := needcopy |>);;
    irq_restore flag.

Definition console_pop_input (irqs : list (list Z)) (len : Z) : M unit :=
  pop_input_loop irqs len 0.

(** The text that asks for the boot loader. *)
Definition bootloader_text : list Z :=
  [32; 28; 32] ++ str_bytes "Request Serial Bootloader!! ~".

Section Console.
Context `{Board}.

Definition bootloader_request : M unit :=
  modify (λ s, s <| trace ::= cons Ev_bootloader_request |>).

Definition console_task (command_index : list command_parser) (irqs : list (list Z)) : M unit :=
  r ← gets serial;
  '(ret, pop_count) ← command_find_block r.(receive_buf) r.(receive_pos);
  r ← gets serial;
  when (0 <? ret) (command_dispatch command_index r.(receive_buf) pop_count);;
  when (negb (ret =? 0))
    (r ← gets serial;
     when (CONFIG_HAVE_BOOTLOADER_REQUEST && (ret <? 0) && (pop_count =? 32)
           && bool_decide (take 32 r.(receive_buf) = bootloader_text))
       bootloader_request;;
     console_pop_input irqs pop_count;;
     when (0 <? ret) command_send_ack).

(** ** Transmitting *)

(** Store bytes in [transmit_buf], which has [TX_BUFFER_SIZE] of them. *)
Definition store_tx (pos : Z) (bs : list Z) : M unit :=
  if TX_BUFFER_SIZE <? pos + Z.of_nat (length bs) then stuck Out_of_bounds
  else update_serial (λ c, c <| transmit_buf ::= λ b, splice b (Z.to_nat pos) bs |>).

(** Disable the transmit interrupt and move the pending bytes to the start of
    the buffer; the result is the new [tmax]. *)
Definition sendf_move (tmax : Z) : M Z :=
  update_serial (λ c, c <| transmit_max := 0 |>);;
  tpos ← gets (λ s, s.(serial).(transmit_pos));
  let tmax := tmax - tpos in
  buf ← gets (λ s, s.(serial).(transmit_buf));
  buf' ← of_option Out_of_bounds (memmove buf 0 tpos tmax);
  update_serial (λ c, c <| transmit_buf := buf' |> <| transmit_pos := 0 |>
                        <| transmit_max := tmax |>);;
  serial_enable_tx_irq;;
  mret tmax.

(** [console_sendf] up to the check for space: [tmax], or nothing when the
    message has to be dropped.  [k] bytes are transmitted before the interrupt
    is disabled. *)
Definition sendf_space (max_size : Z) (k : nat) : M (option Z) :=
  r ← gets serial;
  '(tpos, tmax) ← (if r.(transmit_max) <=? r.(transmit_pos) then
      update_serial (λ c, c <| transmit_max := 0 |> <| transmit_pos := 0 |>);; mret (0, 0)
    else mret (r.(transmit_pos), r.(transmit_max)));
  serial_tx_irqs k;;
  if TX_BUFFER_SIZE <? tmax + max_size then
    if TX_BUFFER_SIZE <? tmax + max_size - tpos then mret None
    else
      tmax ← sendf_move tmax; mret (Some tmax)
  else mret (Some tmax).

(** [console_sendf]; [k2] more bytes are transmitted while the message is
    generated. *)
Definition serial_console_sendf (ce : command_encoder) (args : list arg) (k1 k2 : nat) : M unit :=
  o ← sendf_space ce.(ce_max_size) k1;
  match o with
  | None => mret tt
  | Some tmax =>
      blk ← command_encode_and_frame ce args;
      store_tx tmax blk;;
      serial_tx_irqs k2;;
      update_serial (λ c, c <| transmit_max := tmax + Z.of_nat (length blk) |>);;
      serial_enable_tx_irq
  end.

End Console.
