(* ===== verification/SerialSpec.v ===== *)
(** * The console loses, duplicates and reorders no bytes

    Taking a block off the receive buffer races with the receive interrupt, and
    queueing a message races with the transmit interrupt; both keep the byte
    streams intact. *)

From S2P Require Import Prelude.
From S2P Require Import State.
From S2P Require Import Machine.
From S2P Require Import Sched.
From S2P Require Import Command.
From S2P Require Import Serial.

(** ** Buffers *)

Lemma splice_length buf p bs :
  (p + length bs <= length buf)%nat → length (splice buf p bs) = length buf.
Proof. intros. unfold splice. rewrite !length_app, length_take, length_drop. lia. Qed.

Lemma splice_nil buf p : splice buf p [] = buf.
Proof. unfold splice. simpl. by rewrite Nat.add_0_r, take_drop. Qed.

Lemma take_splice_le buf p bs n :
  (n <= p)%nat → (p <= length buf)%nat → take n (splice buf p bs) = take n buf.
Proof.
  intros. unfold splice. rewrite take_app_le by (rewrite length_take; lia).
  by rewrite take_take, Nat.min_l.
Qed.

Lemma take_splice buf p bs :
  (p <= length buf)%nat → take (p + length bs) (splice buf p bs) = take p buf ++ bs.
Proof.
  intros. unfold splice. rewrite app_assoc, take_app_length'; [done|].
  rewrite length_app, length_take. lia.
Qed.

Lemma splice_insert buf p b bs :
  (p < length buf)%nat → splice (<[p := b]> buf) (p + 1) bs = splice buf p (b :: bs).
Proof.
  intros Hp. unfold splice. rewrite insert_take_drop by done.
  rewrite take_app_ge by (rewrite length_take; lia).
  rewrite length_take, Nat.min_l by lia. replace (p + 1 - p)%nat with 1%nat by lia. simpl.
  rewrite take_0. rewrite <- app_assoc. simpl. f_equal. f_equal. f_equal.
  rewrite drop_app_ge by (rewrite length_take; lia). rewrite length_take, Nat.min_l by lia.
  replace (p + 1 + length bs - p)%nat with (S (length bs)) by lia. simpl.
  rewrite drop_drop. f_equal. lia.
Qed.

Lemma take_take_app {A} n (x y : list A) : take n (take n x ++ y) = take n (x ++ y).
Proof. rewrite !take_app, take_take, Nat.min_id. f_equal. f_equal. rewrite length_take. lia. Qed.

(** ** Receiving *)

Record rx_ok (s : mcu) : Prop := {
  rx_len : length s.(serial).(receive_buf) = Z.to_nat RX_BUFFER_SIZE;
  rx_pos : 0 <= s.(serial).(receive_pos) <= RX_BUFFER_SIZE;
}.

(** The bytes waiting to be processed. *)
Definition rx_content (s : mcu) : list Z :=
  take (Z.to_nat s.(serial).(receive_pos)) s.(serial).(receive_buf).

Lemma wp_rx_bytes bs Q E s :
  rx_ok s →
  (∀ s' acc, acc = take (Z.to_nat (RX_BUFFER_SIZE - s.(serial).(receive_pos))) bs →
     rx_ok s' → s'.(serial).(receive_pos) = s.(serial).(receive_pos) + Z.of_nat (length acc) →
     s'.(serial).(receive_buf)
     = splice s.(serial).(receive_buf) (Z.to_nat s.(serial).(receive_pos)) acc → Q tt s') →
  wp (serial_rx_bytes bs) Q E s.
Proof.
  unfold RX_BUFFER_SIZE. revert Q s. induction bs as [|b bs IH]; intros Q s Hok HQ; simpl.
  { apply wp_ret, (HQ s []); [by rewrite take_nil|done|simpl; lia|by rewrite splice_nil]. }
  apply wp_bind. unfold serial_rx_byte. apply wp_bind.
  set (s1 := if b =? MESSAGE_SYNC
             then s <| sst ::= λ c, c <| tasks_status := TS_REQUESTED |> |> else s).
  assert (Hs1 : s1.(serial) = s.(serial)) by (unfold s1; by destruct (b =? MESSAGE_SYNC)).
  assert (Hstep : wp (when (b =? MESSAGE_SYNC) sched_wake_tasks) (λ _ s', s' = s1) E s).
  { unfold s1. apply wp_when; intros ->; [unfold sched_wake_tasks; by wp_steps|done]. }
  eapply wp_mono; [exact Hstep| |done]. intros [] ? ->. wp_steps. rewrite Hs1.
  destruct Hok as [Hlen Hpos]. unfold RX_BUFFER_SIZE in *.
  destruct (Z.leb_spec 192 (receive_pos (serial s))) as [Hfull|Hroom].
  - wp_steps. apply IH; [constructor; rewrite Hs1; done|]. rewrite Hs1.
    intros s' acc -> Hok' Hp' Hb'. apply (HQ s' []).
    + by replace (Z.to_nat (192 - receive_pos (serial s))) with 0%nat by lia.
    + done.
    + rewrite Hp'. replace (Z.to_nat (192 - receive_pos (serial s))) with 0%nat by lia. simpl. lia.
    + rewrite Hb'. by replace (Z.to_nat (192 - receive_pos (serial s))) with 0%nat by lia.
  - unfold update_serial. wp_steps. apply IH.
    { constructor; simpl; rewrite ?length_insert; unfold RX_BUFFER_SIZE; lia || done. }
    simpl. intros s' acc -> Hok' Hp' Hb'. eapply HQ; [done|done| |].
    + rewrite Hp'. replace (Z.to_nat (192 - receive_pos (serial s)))
        with (S (Z.to_nat (192 - (receive_pos (serial s) + 1)))) by lia. simpl. lia.
    + rewrite Hb'. replace (Z.to_nat (192 - receive_pos (serial s)))
        with (S (Z.to_nat (192 - (receive_pos (serial s) + 1)))) by lia. simpl.
      replace (Z.to_nat (receive_pos (serial s) + 1))
        with (Z.to_nat (receive_pos (serial s)) + 1)%nat by lia.
      apply splice_insert. lia.
Qed.

(** The state between two passes of [console_pop_input]: [L] is what has been
    received so far, [copied] bytes of it have been moved to the front, and the
    rest is still where it was received. *)
Record popping (s : mcu) (L : list Z) (len copied : nat) : Prop := {
  pp_ok : rx_ok s;
  pp_pos : s.(serial).(receive_pos) = Z.of_nat (length L);
  pp_moved : take copied s.(serial).(receive_buf) = take copied (drop len L);
  pp_rest : drop (copied + len) (take (length L) s.(serial).(receive_buf)) = drop (copied + len) L;
  pp_range : (copied + len <= length L <= 192)%nat;
}.

(** Receiving keeps the state. *)
Lemma popping_received s s' L len bs :
  popping s L len (length L - len) → rx_ok s' →
  let acc := take (Z.to_nat (RX_BUFFER_SIZE - s.(serial).(receive_pos))) bs in
  s'.(serial).(receive_pos) = s.(serial).(receive_pos) + Z.of_nat (length acc) →
  s'.(serial).(receive_buf)
  = splice s.(serial).(receive_buf) (Z.to_nat s.(serial).(receive_pos)) acc →
  popping s' (take 192 (L ++ bs)) len (length L - len).
Proof.
  intros [[Hlen _] Hpos Hmoved Hrest Hrange] Hok' acc Hpos' Hbuf'.
  unfold RX_BUFFER_SIZE in *. rewrite Hpos in *. rewrite Nat2Z.id in *.
  assert (HL : take 192 (L ++ bs) = L ++ acc).
  { unfold acc. rewrite take_app, take_ge by lia. do 2 f_equal. lia. }
  assert (Hacc : (length acc <= 192 - length L)%nat) by (unfold acc; rewrite length_take; lia).
  rewrite HL. constructor; [done| | | |rewrite length_app; lia].
  - rewrite length_app. lia.
  - rewrite Hbuf', take_splice_le, Hmoved by lia. rewrite drop_app_le by lia.
    rewrite take_app_le by (rewrite length_drop; lia). done.
  - replace (length L - len + len)%nat with (length L) in * by lia.
    rewrite Hbuf', length_app, take_splice by lia. rewrite drop_app_length.
    rewrite drop_app_length'; [done|]. rewrite length_take. lia.
Qed.

(** Moving the rest to the front keeps the state. *)
Lemma popping_moved s s' L len copied :
  popping s L len copied → s'.(serial).(receive_pos) = s.(serial).(receive_pos) →
  let n := (length L - len - copied)%nat in
  s'.(serial).(receive_buf)
  = splice s.(serial).(receive_buf) copied (take n (drop (copied + len) s.(serial).(receive_buf))) →
  popping s' L len (length L - len).
Proof.
  intros [[Hlen Hr] Hpos Hmoved Hrest Hrange] Hpos' n Hbuf'. unfold RX_BUFFER_SIZE in *.
  assert (Hn : length (take n (drop (copied + len) (receive_buf (serial s)))) = n).
  { rewrite length_take, length_drop. lia. }
  constructor.
  - constructor; [rewrite Hbuf', splice_length; [done|lia]|by rewrite Hpos'].
  - by rewrite Hpos'.
  - replace (length L - len)%nat with (copied + n)%nat at 1 by lia.
    pose proof (take_splice (receive_buf (serial s)) copied
      (take n (drop (copied + len) (receive_buf (serial s))))) as Hts.
    rewrite Hn in Hts. rewrite Hbuf', Hts, take_drop_commute by lia.
    replace (copied + len + n)%nat with (length L) by lia. rewrite Hrest, Hmoved.
    rewrite (take_ge (drop len L) (length L - len)) by (rewrite length_drop; lia).
    rewrite <- (take_drop copied (drop len L)) at 2. by rewrite drop_drop, (Nat.add_comm len).
  - rewrite !drop_ge by (rewrite ?length_take; lia). done.
  - lia.
Qed.

Lemma wp_pop_input_copy s L len copied bs E :
  popping s L len copied →
  wp (pop_input_copy (Z.of_nat len) (Z.of_nat copied) bs)
    (λ r s', r = (Z.of_nat (length L), Z.of_nat (length L - len), Z.of_nat (length L - len))
       ∧ popping s' (take 192 (L ++ bs)) len (length L - len)) E s.
Proof.
  intros Hp. pose proof Hp as [[Hlen Hr] Hpos Hmoved Hrest Hrange]. unfold pop_input_copy. wp_steps.
  rewrite Hpos, u32_small by lia. unfold RX_BUFFER_SIZE in *.
  assert (Hrx : ∀ s', popping s' L len (length L - len) →
    wp (serial_rx_bytes bs) (λ _ s', popping s' (take 192 (L ++ bs)) len (length L - len)) E s').
  { intros s' Hs'. apply wp_rx_bytes; [apply Hs'|]. intros s'' acc -> Hok Hp'' Hb''.
    by eapply popping_received. }
  destruct (Z.eqb_spec (Z.of_nat (length L) - Z.of_nat len) 0) as [Hz|Hnz]; simpl.
  - assert (copied = 0%nat ∧ len = length L) as [-> Hl] by lia. wp_steps.
    eapply wp_mono; [apply Hrx| |done].
    + by replace (length L - len)%nat with 0%nat by lia.
    + intros [] s' Hs'. wp_steps. split; [|done]. repeat f_equal; lia.
  - wp_steps. unfold memmove.
    rewrite (proj2 (Z.leb_le 0 _)), !(proj2 (Z.leb_le _ _)) by lia. simpl.
    apply wp_ret. unfold update_serial, sched_wake_tasks. wp_steps.
    eapply wp_mono; [apply Hrx; eapply (popping_moved s); [done|done|]| |done].
    + simpl. rewrite Nat2Z.id. do 2 f_equal; [lia|]. f_equal. lia.
    + intros [] s' Hs'. wp_steps. split; [|done]. repeat f_equal; lia.
Qed.

Lemma wp_pop_input_loop irqs s L len copied E :
  popping s L len copied →
  wp (pop_input_loop irqs (Z.of_nat len) (Z.of_nat copied))
    (λ _ s', rx_ok s' ∧ ∃ k, (k <= length irqs)%nat
       ∧ rx_content s' = drop len (take 192 (L ++ concat (take k irqs)))) E s.
Proof.
  revert s L copied. induction irqs as [|bs irqs IH]; intros s L copied Hp; simpl.
  all: apply wp_bind; eapply wp_mono; [by eapply wp_pop_input_copy| |done].
  all: intros ? s' [-> Hs']; wp_steps; simpl; rewrite (pp_pos _ _ _ _ Hs').
  all: pose proof (pp_range _ _ _ _ Hp) as Hr; pose proof (pp_ok _ _ _ _ Hs') as [Hl Hq].
  - rewrite app_nil_r, take_ge, Z.eqb_refl by lia. simpl. unfold update_serial. wp_steps. split.
    { constructor; simpl; unfold RX_BUFFER_SIZE in *; lia. }
    exists 0%nat. split; [done|]. simpl. rewrite app_nil_r, take_ge by lia.
    unfold rx_content. simpl. rewrite Nat2Z.id, (pp_moved _ _ _ _ Hs').
    rewrite app_nil_r, (take_ge L 192) by lia. apply take_ge. rewrite length_drop. lia.
  - destruct (Z.eqb_spec (Z.of_nat (length L)) (Z.of_nat (length (take 192 (L ++ bs)))))
      as [Heq|Hne]; simpl.
    + unfold update_serial. wp_steps. split.
      { constructor; simpl; unfold RX_BUFFER_SIZE in *; lia. }
      exists 1%nat. split; [simpl; lia|]. simpl. rewrite app_nil_r.
      unfold rx_content. simpl. rewrite Nat2Z.id, (pp_moved _ _ _ _ Hs').
      apply take_ge. rewrite length_drop. lia.
    + wp_steps. eapply wp_mono; [apply IH| |done].
      * destruct Hs' as [[? ?] ? ? ? ?]. by constructor.
      * intros [] s'' (Hok & k & Hk & Hc). split; [done|]. exists (S k). split; [simpl; lia|].
        simpl. rewrite app_assoc, <- take_take_app. done.
Qed.



(** ** Transmitting *)

Record tx_ok (s : mcu) : Prop := {
  tx_len : length s.(serial).(transmit_buf) = Z.to_nat TX_BUFFER_SIZE;
  tx_range : 0 <= s.(serial).(transmit_pos) <= s.(serial).(transmit_max)
             ∧ s.(serial).(transmit_max) <= TX_BUFFER_SIZE;
}.

(** The bytes waiting to be transmitted, and all bytes ever queued. *)
Definition tx_pending (s : mcu) : list Z :=
  drop (Z.to_nat s.(serial).(transmit_pos))
    (take (Z.to_nat s.(serial).(transmit_max)) s.(serial).(transmit_buf)).
Definition tx_stream (s : mcu) : list Z := s.(serial).(wire) ++ tx_pending s.

(** The transmit interrupt moves bytes from the buffer to the wire. *)
Record transmitted (s s' : mcu) : Prop := {
  tr_stream : tx_stream s' = tx_stream s;
  tr_ok : tx_ok s';
  tr_buf : s'.(serial).(transmit_buf) = s.(serial).(transmit_buf);
  tr_max : s'.(serial).(transmit_max) = s.(serial).(transmit_max);
  tr_cmd : s'.(cmd) = s.(cmd);
  tr_pos : s.(serial).(transmit_pos) <= s'.(serial).(transmit_pos);
}.

Lemma transmitted_refl s : tx_ok s → transmitted s s.
Proof. by constructor. Qed.

Lemma transmitted_trans s1 s2 s3 : transmitted s1 s2 → transmitted s2 s3 → transmitted s1 s3.
Proof. intros [] []. constructor; congruence || lia. Qed.

Lemma wp_get_tx_byte E s :
  tx_ok s → wp serial_get_tx_byte (λ _ s', transmitted s s') E s.
Proof.
  intros Hok. pose proof Hok as [Hlen [Hpos Hmax]]. unfold TX_BUFFER_SIZE in *.
  unfold serial_get_tx_byte. wp_steps.
  destruct (Z.leb_spec (transmit_max (serial s)) (transmit_pos (serial s))).
  { wp_steps. by apply transmitted_refl. }
  destruct (lookup_lt_is_Some_2 (transmit_buf (serial s)) (Z.to_nat (transmit_pos (serial s))))
    as [b Hb]; [lia|].
  wp_steps. eapply wp_some; [done|]. unfold update_serial. wp_steps.
  constructor; [|constructor; simpl; unfold TX_BUFFER_SIZE; lia|done..|simpl; lia].
  unfold tx_stream, tx_pending. simpl. rewrite <- app_assoc. f_equal. simpl.
  rewrite (drop_S (take _ (transmit_buf (serial s))) b (Z.to_nat (transmit_pos (serial s)))).
  - do 2 f_equal. lia.
  - rewrite lookup_take, decide_True by lia. done.
Qed.

Lemma wp_tx_irqs k E s : tx_ok s → wp (serial_tx_irqs k) (λ _ s', transmitted s s') E s.
Proof.
  revert s. induction k as [|k IH]; intros s Hok; simpl.
  { by apply transmitted_refl. }
  apply wp_bind. eapply wp_mono; [by apply wp_get_tx_byte| |done]. intros ? s1 H1. simpl in H1.
  eapply wp_mono; [apply IH, H1| |done]. intros ? s2 H2. by eapply transmitted_trans.
Qed.

Lemma pending_length s : tx_ok s →
  Z.of_nat (length (tx_pending s)) = s.(serial).(transmit_max) - s.(serial).(transmit_pos).
Proof.
  intros [Hlen [Hpos Hmax]]. unfold TX_BUFFER_SIZE in *. unfold tx_pending.
  rewrite length_drop, length_take. lia.
Qed.

(** The state when there is room for a message at [tmax]. *)
Record tx_room (s s' : mcu) (tmax max_size : Z) : Prop := {
  ro_stream : tx_stream s' = tx_stream s;
  ro_ok : tx_ok s';
  ro_max : s'.(serial).(transmit_max) = tmax;
  ro_cmd : s'.(cmd) = s.(cmd);
  ro_space : tmax + max_size <= TX_BUFFER_SIZE;
}.

(** Moving the pending bytes to the start of the buffer. *)
Lemma wp_sendf_move E s s0 max_size tmax :
  transmitted s0 s → tmax = s0.(serial).(transmit_max) →
  tmax + max_size - s0.(serial).(transmit_pos) <= TX_BUFFER_SIZE →
  wp (sendf_move tmax) (λ t s', tx_room s0 s' t max_size) E s.
Proof.
  intros [Hst [Hlen [Hpos Hmax]] Hbuf Hm Hcmd Hle] -> Hroom. unfold TX_BUFFER_SIZE in *.
  unfold sendf_move, update_serial. wp_steps. simpl. rewrite <- Hm. unfold memmove.
  rewrite !(proj2 (Z.leb_le _ _)) by lia. simpl. apply wp_ret.
  unfold serial_enable_tx_irq. wp_steps.
  set (n := transmit_max (serial s) - transmit_pos (serial s)).
  assert (Hn : length (take (Z.to_nat n) (drop (Z.to_nat (transmit_pos (serial s)))
                 (transmit_buf (serial s)))) = Z.to_nat n).
  { rewrite length_take, length_drop. lia. }
  constructor; simpl; [|constructor; simpl; [rewrite splice_length, Hlen; [done|]|]|done|done|].
  - rewrite <- Hst. unfold tx_stream, tx_pending. simpl. f_equal. rewrite drop_0.
    pose proof (take_splice (transmit_buf (serial s)) 0 (take (Z.to_nat n)
      (drop (Z.to_nat (transmit_pos (serial s))) (transmit_buf (serial s))))) as Hts.
    rewrite Hn in Hts. simpl in Hts. change (Z.to_nat 0) with 0%nat. rewrite Hts, take_drop_commute by lia.
    do 2 f_equal. lia.
  - rewrite Hn, Hlen. lia.
  - unfold TX_BUFFER_SIZE. lia.
  - unfold TX_BUFFER_SIZE. lia.
Qed.

Lemma wp_sendf_space E s max_size k :
  tx_ok s → 0 <= max_size <= TX_BUFFER_SIZE →
  wp (sendf_space max_size k)
    (λ o s', match o with
             | None => tx_stream s' = tx_stream s ∧ tx_ok s'
                 ∧ TX_BUFFER_SIZE < Z.of_nat (length (tx_pending s)) + max_size
             | Some tmax => tx_room s s' tmax max_size
                 ∧ Z.of_nat (length (tx_pending s)) + max_size <= TX_BUFFER_SIZE
             end) E s.
Proof.
  intros Hok Hsize. rewrite (pending_length s) by done. pose proof Hok as [Hlen [Hpos Hmax]].
  unfold TX_BUFFER_SIZE in *. unfold sendf_space, TX_BUFFER_SIZE. wp_steps.
  destruct (Z.leb_spec (transmit_max (serial s)) (transmit_pos (serial s))) as [Hempty|Hfull].
  - unfold update_serial. wp_steps.
    set (s1 := s <| serial ::= λ c, c <| transmit_max := 0 |> <| transmit_pos := 0 |> |>).
    assert (Hs1 : tx_ok s1) by (constructor; simpl; unfold TX_BUFFER_SIZE; lia).
    apply wp_bind. eapply wp_mono; [by apply wp_tx_irqs| |done]. intros [] s2 [Hst Hok2 Hb Hm Hc Hp].
    rewrite (proj2 (Z.ltb_ge 96 _)) by lia. wp_steps. split; [|lia].
    constructor; [|done|done|done|unfold TX_BUFFER_SIZE; lia].
    rewrite Hst. unfold tx_stream, tx_pending. simpl. f_equal.
    replace (transmit_pos (serial s)) with (transmit_max (serial s)) by lia.
    symmetry. apply drop_ge. rewrite length_take. lia.
  - wp_steps. apply wp_bind. eapply wp_mono; [by apply wp_tx_irqs| |done]. intros [] s2 Htr.
    pose proof Htr as [Hst Hok2 Hb Hm Hc Hp].
    destruct (Z.ltb_spec 96 (transmit_max (serial s) + max_size)); [|].
    + destruct (Z.ltb_spec 96 (transmit_max (serial s) + max_size - transmit_pos (serial s))).
      * wp_steps. split_and!; [done..|lia].
      * wp_steps. eapply wp_mono; [by eapply (wp_sendf_move _ _ s max_size)| |done].
        intros t s' Hr. wp_steps. split; [done|lia].
    + wp_steps. split; [|lia]. by constructor.
Qed.

Lemma wp_store_block E s blk k :
  tx_ok s → s.(serial).(transmit_max) + Z.of_nat (length blk) <= TX_BUFFER_SIZE →
  wp (store_tx s.(serial).(transmit_max) blk;;
      serial_tx_irqs k;;
      update_serial (λ c, c <| transmit_max := s.(serial).(transmit_max) + Z.of_nat (length blk) |>);;
      serial_enable_tx_irq)
    (λ _ s', tx_ok s' ∧ tx_stream s' = tx_stream s ++ blk) E s.
Proof.
  intros [Hlen [Hpos Hmax]] Hroom. unfold TX_BUFFER_SIZE in *. unfold store_tx, TX_BUFFER_SIZE.
  rewrite (proj2 (Z.ltb_ge _ _)) by lia. unfold update_serial. wp_steps.
  set (m := Z.to_nat (transmit_max (serial s))).
  set (s1 := s <| serial ::= λ c, c <| transmit_buf ::= λ b, splice b m blk |> |>).
  assert (Hok1 : tx_ok s1).
  { constructor; simpl; [rewrite splice_length; [done|lia]|unfold TX_BUFFER_SIZE; lia]. }
  eapply wp_mono; [by apply wp_tx_irqs| |done]. intros [] s2 [Hst [Hlen2 Hr2] Hb Hm Hc Hp].
  unfold serial_enable_tx_irq, TX_BUFFER_SIZE in *. wp_steps. simpl in Hm. split.
  { constructor; simpl; unfold TX_BUFFER_SIZE; [done|lia]. }
  assert (Hst1 : tx_stream s1 = tx_stream s).
  { unfold tx_stream, tx_pending. simpl. fold m. by rewrite take_splice_le by lia. }
  rewrite <- Hst1, <- Hst. unfold tx_stream, tx_pending. simpl. rewrite <- app_assoc. f_equal.
  rewrite Hb, Hm. simpl. fold m.
  replace (Z.to_nat (transmit_max (serial s) + Z.of_nat (length blk))) with (m + length blk)%nat by lia.
  rewrite take_splice, (take_splice_le _ m) by lia. rewrite drop_app_le; [done|].
  rewrite length_take. lia.
Qed.

(** Queueing a message while the transmit interrupt is draining the buffer:
    however many bytes the interrupt takes before and during the call,
    [console_sendf] either appends the whole block to the stream of transmitted
    bytes, or, exactly when the pending bytes and the maximum size of the message
    do not fit the buffer together, leaves the stream as it is.  Nothing is torn,
    reordered, or written out of bounds. *)
Theorem console_sendf_keeps_stream `{Board} ce args blk k1 k2 s :
  tx_ok s → 0 <= ce.(ce_max_size) <= TX_BUFFER_SIZE →
  (∀ s1, s1.(cmd) = s.(cmd) → command_encode_and_frame ce args s1 = (Ret blk, s1)) →
  Z.of_nat (length blk) <= ce.(ce_max_size) →
  ∃ s', serial_console_sendf ce args k1 k2 s = (Ret tt, s') ∧ tx_ok s'
    ∧ tx_stream s' = tx_stream s
        ++ (if Z.of_nat (length (tx_pending s)) + ce.(ce_max_size) <=? TX_BUFFER_SIZE
            then blk else []).
Proof.
  intros Hok Hsize Henc Hblk.
  assert (Hwp : wp (serial_console_sendf ce args k1 k2) (λ _ s', tx_ok s' ∧ tx_stream s'
    = tx_stream s ++ (if Z.of_nat (length (tx_pending s)) + ce.(ce_max_size) <=? TX_BUFFER_SIZE
            then blk else [])) (λ _ _, False) s).
  { unfold serial_console_sendf. apply wp_bind.
    eapply wp_mono; [by apply (wp_sendf_space (λ _ _, False))| |done]. intros [tmax|] s1.
    - intros [[Hst Hok1 Hm Hc Hsp] Hfit]. apply wp_bind. unfold wp at 1. rewrite Henc by done.
      rewrite <- Hm in *. rewrite (proj2 (Z.leb_le _ _)) by lia. rewrite <- Hst.
      apply wp_store_block; [done|lia].
    - intros (Hst & Hok1 & Hfull). wp_steps. split; [done|].
      rewrite (proj2 (Z.leb_gt _ _)) by lia. by rewrite app_nil_r. }
  unfold wp in Hwp. destruct (serial_console_sendf ce args k1 k2 s) as [[[]| |] s']; [|done..].
  exists s'. tauto.
Qed.

Lemma console_sendf_keeps_stream_witness :
  let b := example_board in
  let blk := [5; 16; 158; 129; 126] in
  let s := init_mcu <| serial ::= λ c, c <| transmit_max := 94 |> <| transmit_pos := 40 |> |> in
  ∃ s', serial_console_sendf encode_acknak [] 3 7 s = (Ret tt, s') ∧ tx_ok s'
    ∧ tx_stream s' = tx_stream s ++ blk.
Proof.
  intros b blk s. apply (console_sendf_keeps_stream encode_acknak [] blk 3 7 s).
  - constructor; [done|vm_compute; repeat split; discriminate].
  - vm_compute. split; discriminate.
  - intros s1 Hc. unfold command_encode_and_frame, command_encodef, command_add_frame, mbind,
      M_bind, gets. simpl. rewrite Hc. reflexivity.
  - vm_compute. discriminate.
Defined.
