(* ===== verification/SerialQueue.v ===== *)
(** * The host's transport (elegoo/chelper/serialqueue.c, pollreactor.c)

    The background thread of the host: it collects messages from the command
    queues into blocks, keeps them until they are acknowledged, retransmits them,
    and sorts incoming blocks.  Every routine that takes the lock runs to its end
    before another one does, so each is one function on the state.  Doubles are
    the IEEE binary64 numbers of the kernel. *)

From Stdlib Require Import PrimFloat FloatOps.
From S2P Require Import Prelude.
From S2P Require Import Crc16.
From S2P Require Import Vlq.
From S2P Require Import Command.
From S2P Require Import MsgBlock.

(** ** Doubles *)

Notation double := float.

(** Conversion of an integer to the nearest double, and of a double to an
    integer by truncation. *)
Definition double_of_Z (z : Z) : double :=
  SF2Prim (SpecFloat.binary_normalize prec emax z 0 false).
Definition Z_of_double (x : double) : Z :=
  match Prim2SF x with
  | SpecFloat.S754_finite s m e =>
      let z := if 0 <=? e then Zpos m * 2 ^ e else Zpos m / 2 ^ (- e) in
      if s then - z else z
  | _ => 0
  end.

Declare Scope double_scope.
Delimit Scope double_scope with D.
Infix "+" := PrimFloat.add : double_scope.
Infix "-" := PrimFloat.sub : double_scope.
Infix "*" := PrimFloat.mul : double_scope.
Infix "/" := PrimFloat.div : double_scope.
Infix "<?" := PrimFloat.ltb : double_scope.
Infix "<=?" := PrimFloat.leb : double_scope.
Infix "=?" := PrimFloat.eqb : double_scope.

Definition PR_NOW : double := 0%float.
Definition PR_NEVER : double := 9999999999999999%float.
Definition MIN_RTO : double := 0.025%float.
Definition MAX_RTO : double := 5%float.
Definition MIN_REQTIME_DELTA : double := 0.250%float.
Definition MIN_BACKGROUND_DELTA : double := 0.005%float.
Definition MAX_PENDING_BLOCKS : Z := 12.
Definition MAX_CLOCK : Z := 0x7fffffffffffffff.
Definition BACKGROUND_PRIORITY_CLOCK : Z := 0x7fffffff00000000.
Definition CANBUS_PACKET_BITS : Z := (1 + 11 + 3 + 4) + (16 + 2 + 7 + 3).
Definition CANBUS_IFS_BITS : Z := 4.

(** ** State *)

(** [struct pollreactor]: the wake times of its timers. *)
Record pollreactor := mk_pollreactor {
  pr_next_timer : double;
  pr_waketimes : list double;
  pr_must_exit : bool;
}.
#[export] Instance eta_pollreactor : Eta pollreactor :=
  λ r, mk_pollreactor r.(pr_next_timer) r.(pr_waketimes) r.(pr_must_exit).

Definition SQPT_RETRANSMIT : nat := 0.
Definition SQPT_COMMAND : nat := 1.

(** [struct queue_message]; its length is the length of [qm_msg]. *)
Record queue_message := mk_queue_message {
  qm_msg : list Z;
  qm_min_clock : Z;
  qm_req_clock : Z;
  qm_sent_time : double;
  qm_receive_time : double;
  qm_notify_id : Z;
}.
#[export] Instance eta_queue_message : Eta queue_message :=
  λ r, mk_queue_message r.(qm_msg) r.(qm_min_clock) r.(qm_req_clock) r.(qm_sent_time)
         r.(qm_receive_time) r.(qm_notify_id).
Definition qm_len (qm : queue_message) : Z := Z.of_nat (length qm.(qm_msg)).

Record clock_estimate := mk_clock_estimate {
  ce_last_clock : Z;
  ce_conv_clock : Z;
  ce_conv_time : double;
  ce_est_freq : double;
}.

Record command_queue := mk_command_queue {
  cq_upcoming_queue : list queue_message;
  cq_ready_queue : list queue_message;
}.
#[export] Instance eta_command_queue : Eta command_queue :=
  λ r, mk_command_queue r.(cq_upcoming_queue) r.(cq_ready_queue).

Inductive fd_type := SQT_UART | SQT_CAN | SQT_DEBUGFILE.
#[export] Instance fd_type_eq_dec : EqDecision fd_type.
Proof. solve_decision. Defined.

(** [struct serialqueue].  The input buffer is its first [input_pos] bytes;
    [sq_pending_queues] are the keys of the queues in [sq_cqs]; [sq_written] is
    the ghost record of the bytes written to the device, oldest first, and
    [sq_fast_calls] of the messages handed to fast readers.  A fast reader is its
    address and its prefix. *)
Record serialqueue := mk_serialqueue {
  sq_pr : pollreactor;
  sq_serial_fd_type : fd_type;
  sq_input_buf : list Z;
  sq_need_sync : bool;
  sq_receive_waiting : bool;
  sq_receive_window : Z;
  sq_bittime_adjust : double;
  sq_idle_time : double;
  sq_ce : clock_estimate;
  sq_last_receive_sent_time : double;
  sq_send_seq : Z;
  sq_receive_seq : Z;
  sq_ignore_nak_seq : Z;
  sq_last_ack_seq : Z;
  sq_retransmit_seq : Z;
  sq_rtt_sample_seq : Z;
  sq_sent_queue : list queue_message;
  sq_srtt : double;
  sq_rttvar : double;
  sq_rto : double;
  sq_pending_queues : list Z;
  sq_cqs : gmap Z command_queue;
  sq_ready_bytes : Z;
  sq_upcoming_bytes : Z;
  sq_need_ack_bytes : Z;
  sq_last_ack_bytes : Z;
  sq_need_kick_clock : Z;
  sq_notify_queue : list queue_message;
  sq_receive_queue : list queue_message;
  sq_fast_readers : list (Z * list Z);
  sq_old_sent : list queue_message;
  sq_old_receive : list queue_message;
  sq_bytes_write : Z;
  sq_bytes_read : Z;
  sq_bytes_retransmit : Z;
  sq_bytes_invalid : Z;
  sq_written : list Z;
  sq_fast_calls : list (Z * list Z);
}.
#[export] Instance eta_serialqueue : Eta serialqueue :=
  λ r, mk_serialqueue r.(sq_pr) r.(sq_serial_fd_type) r.(sq_input_buf)
         r.(sq_need_sync) r.(sq_receive_waiting) r.(sq_receive_window)
         r.(sq_bittime_adjust) r.(sq_idle_time) r.(sq_ce)
         r.(sq_last_receive_sent_time) r.(sq_send_seq) r.(sq_receive_seq)
         r.(sq_ignore_nak_seq) r.(sq_last_ack_seq) r.(sq_retransmit_seq)
         r.(sq_rtt_sample_seq) r.(sq_sent_queue) r.(sq_srtt) r.(sq_rttvar)
         r.(sq_rto) r.(sq_pending_queues) r.(sq_cqs) r.(sq_ready_bytes)
         r.(sq_upcoming_bytes) r.(sq_need_ack_bytes) r.(sq_last_ack_bytes)
         r.(sq_need_kick_clock) r.(sq_notify_queue) r.(sq_receive_queue)
         r.(sq_fast_readers) r.(sq_old_sent) r.(sq_old_receive)
         r.(sq_bytes_write) r.(sq_bytes_read) r.(sq_bytes_retransmit)
         r.(sq_bytes_invalid) r.(sq_written) r.(sq_fast_calls).

(** ** Helpers *)

Definition pollreactor_update_timer (pr : pollreactor) (pos : nat) (waketime : double) :
    pollreactor :=
  pr <| pr_waketimes ::= <[pos := waketime]> |>
     <| pr_next_timer ::= λ t, if (waketime <? t)%D then waketime else t |>.

Definition pollreactor_get_timer (pr : pollreactor) (pos : nat) : double :=
  default PR_NEVER (pr.(pr_waketimes) !! pos).

Definition update_timer (sq : serialqueue) (pos : nat) (waketime : double) : serialqueue :=
  sq <| sq_pr ::= λ pr, pollreactor_update_timer pr pos waketime |>.

(** [debug_queue_add]: the ring of old messages. *)
Definition debug_queue_add (root : list queue_message) (qm : queue_message) :
    list queue_message := tail (root ++ [qm]).

Definition check_wake_receive (sq : serialqueue) : serialqueue :=
  sq <| sq_receive_waiting := false |>.

Definition calculate_bittime (sq : serialqueue) (bytes : Z) : double :=
  match sq.(sq_serial_fd_type) with
  | SQT_CAN =>
      let pkts := u32 (bytes + 7) / 8 in
      let bits := u32 (bytes * 8 + pkts * CANBUS_PACKET_BITS - CANBUS_IFS_BITS) in
      (sq.(sq_bittime_adjust) * double_of_Z bits)%D
  | _ => (sq.(sq_bittime_adjust) * double_of_Z bytes)%D
  end.

(** [clock_from_time] (msgblock.c). *)
Definition clock_from_time (ce : clock_estimate) (time : double) : Z :=
  u64 (s64 (Z_of_double ((time - ce.(ce_conv_time)) * ce.(ce_est_freq) + 0.5)%D)
       + ce.(ce_conv_clock)).

Definition message_fill (data : list Z) : queue_message :=
  mk_queue_message data 0 0 0%float 0%float 0.

(** [do_write]: the bytes go to the device (on CAN in frames of 8). *)
Definition do_write (sq : serialqueue) (buf : list Z) : serialqueue :=
  sq <| sq_written ::= λ w, w ++ buf |>.

(** ** Receiving *)

(** The loop of [update_receive_seq]: take the acknowledged blocks off the sent
    queue.  The result is the queue left, the blocks removed, and the block that
    carries the acknowledged sequence number, if it was found. *)
Fixpoint ack_sent (sent_queue : list queue_message) (sent_seq rseq : Z) :
    list queue_message * list queue_message * option queue_message :=
  match sent_queue with
  | [] => ([], [], None)
  | sent :: rest =>
      let sent_seq := u64 (sent_seq + 1) in
      if rseq =? sent_seq then (rest, [sent], Some sent)
      else
        let '(q, removed, found) := ack_sent rest sent_seq rseq in
        (q, sent :: removed, found)
  end.

(** The RFC6298 estimate of the round trip time. *)
Definition update_rtt (sq : serialqueue) (eventtime : double) (rseq : Z) : serialqueue :=
  if negb (sq.(sq_rtt_sample_seq) =? 0) && (sq.(sq_rtt_sample_seq) <? rseq)
     && negb (sq.(sq_last_receive_sent_time) =? 0)%D
  then
    let delta := (eventtime - sq.(sq_last_receive_sent_time))%D in
    let sq :=
      if (sq.(sq_srtt) =? 0)%D
      then sq <| sq_rttvar := (delta / 2)%D |> <| sq_srtt := (delta * 10)%D |>
      else sq <| sq_rttvar := ((3 * sq.(sq_rttvar) + abs (sq.(sq_srtt) - delta)) / 4)%D |>
              <| sq_srtt := ((7 * sq.(sq_srtt) + delta) / 8)%D |> in
    let rttvar4 := (sq.(sq_rttvar) * 4)%D in
    let rttvar4 := if (rttvar4 <? 0.001)%D then 0.001%float else rttvar4 in
    let rto := (sq.(sq_srtt) + rttvar4)%D in
    let rto := if (rto <? MIN_RTO)%D then MIN_RTO
               else if (MAX_RTO <? rto)%D then MAX_RTO else rto in
    sq <| sq_rto := rto |> <| sq_rtt_sample_seq := 0 |>
  else sq.

Definition update_receive_seq (sq : serialqueue) (eventtime : double) (rseq : Z) : serialqueue :=
  let '(queue, removed, found) := ack_sent sq.(sq_sent_queue) sq.(sq_receive_seq) rseq in
  let sq := sq <| sq_sent_queue := queue |>
     <| sq_need_ack_bytes := sq.(sq_need_ack_bytes) - foldr Z.add 0 (map qm_len removed) |>
     <| sq_old_sent := fold_left debug_queue_add removed sq.(sq_old_sent) |> in
  let sq :=
    match found with
    | Some sent => sq <| sq_last_receive_sent_time := sent.(qm_receive_time) |>
                      <| sq_last_ack_bytes := qm_len sent |>
    | None => sq <| sq_send_seq := rseq |> <| sq_last_receive_sent_time := 0%float |>
    end in
  let sq := sq <| sq_receive_seq := rseq |> in
  let sq := update_timer sq SQPT_COMMAND PR_NOW in
  let sq := update_rtt sq eventtime rseq in
  match sq.(sq_sent_queue) with
  | [] => update_timer sq SQPT_RETRANSMIT PR_NEVER
  | sent :: _ =>
      update_timer sq SQPT_RETRANSMIT
        (eventtime + sq.(sq_rto) + calculate_bittime sq (qm_len sent))%D
  end.

(** The loop over the notify queue of [handle_message]. *)
Fixpoint notify_loop (queue : list queue_message) (rseq len : Z) (last eventtime : double) :
    list queue_message * list queue_message :=
  match queue with
  | [] => ([], [])
  | qm :: rest =>
      let wake_seq := u64 (rseq - 1 - b2z (MESSAGE_MIN <? len)) in
      if wake_seq <? qm.(qm_req_clock) then (queue, [])
      else
        let '(q, woken) := notify_loop rest rseq len last eventtime in
        (q, qm <| qm_msg := [] |> <| qm_sent_time := last |>
               <| qm_receive_time := eventtime |> :: woken)
  end.

(** The first fast reader whose prefix matches. *)
Fixpoint find_fast_reader (readers : list (Z * list Z)) (data : list Z) (len : Z) : option Z :=
  match readers with
  | [] => None
  | (fr, prefix) :: readers =>
      if (len <? Z.of_nat (length prefix) + MESSAGE_MIN)
         || negb (bool_decide (take (length prefix) (drop 2 data) = prefix))
      then find_fast_reader readers data len
      else Some fr
  end.

(** [handle_message] for the block [data] at the start of the input buffer;
    [now] is the time [get_monotonic] returns. *)
Definition handle_message (sq : serialqueue) (eventtime now : double) (data : list Z) :
    serialqueue :=
  let len := Z.of_nat (length data) in
  let seq_byte := default 0 (data !! Z.to_nat MESSAGE_POS_SEQ) in
  let rseq_delta := Z.land (seq_byte - sq.(sq_receive_seq)) MESSAGE_SEQ_MASK in
  let rseq := u64 (sq.(sq_receive_seq) + rseq_delta) in
  if negb (rseq =? sq.(sq_receive_seq)) && (sq.(sq_send_seq) <? rseq)
     && negb (sq.(sq_receive_seq) =? 1)
  then sq <| sq_bytes_invalid ::= λ b, u32 (b + len) |>
  else
    let sq := if negb (rseq =? sq.(sq_receive_seq)) then update_receive_seq sq eventtime rseq
              else sq in
    let sq := sq <| sq_bytes_read ::= λ b, u32 (b + len) |> in
    let '(nq, woken) := notify_loop sq.(sq_notify_queue) rseq len
                          sq.(sq_last_receive_sent_time) eventtime in
    let sq := sq <| sq_notify_queue := nq |> <| sq_receive_queue ::= λ q, q ++ woken |> in
    let must_wake := negb (bool_decide (woken = [])) in
    let '(sq, must_wake) :=
      if len =? MESSAGE_MIN then
        (if sq.(sq_last_ack_seq) <? rseq then sq <| sq_last_ack_seq := rseq |>
         else if (sq.(sq_ignore_nak_seq) <? rseq) && negb (bool_decide (sq.(sq_sent_queue) = []))
              then update_timer sq SQPT_RETRANSMIT PR_NOW else sq, must_wake)
      else
        let qm := (message_fill data)
          <| qm_sent_time := if sq.(sq_retransmit_seq) <? rseq
                             then sq.(sq_last_receive_sent_time) else 0%float |>
          <| qm_receive_time := (now - calculate_bittime sq len)%D |> in
        (sq <| sq_receive_queue ::= λ q, q ++ [qm] |>, true) in
    let sq := match find_fast_reader sq.(sq_fast_readers) data len with
              | Some fr => sq <| sq_fast_calls ::= λ c, c ++ [(fr, data)] |>
              | None => sq
              end in
    if must_wake then check_wake_receive sq else sq.

(** The loop of [input_event]: every pass takes at least one byte off the
    buffer, so its length bounds the number of passes. *)
Fixpoint input_loop (fuel : nat) (sq : serialqueue) (eventtime now : double) :
    option serialqueue :=
  match fuel with
  | O => None
  | S fuel =>
      '(len, need_sync) ← msgblock_check sq.(sq_need_sync) sq.(sq_input_buf)
                            (Z.of_nat (length sq.(sq_input_buf)));
      let sq := sq <| sq_need_sync := need_sync |> in
      if len =? 0 then Some sq
      else
        let '(sq, len) :=
          if 0 <? len then
            (handle_message sq eventtime now (take (Z.to_nat len) sq.(sq_input_buf)), len)
          else (sq <| sq_bytes_invalid ::= λ b, u32 (b - len) |>, - len) in
        input_loop fuel (sq <| sq_input_buf ::= drop (Z.to_nat len) |>) eventtime now
  end.

(** [input_event], for [data] read from the device. *)
Definition input_event (sq : serialqueue) (eventtime now : double) (data : list Z) :
    option serialqueue :=
  let sq := sq <| sq_input_buf ::= λ b, b ++ data |> in
  input_loop (S (length sq.(sq_input_buf))) sq eventtime now.

Definition kick_event (sq : serialqueue) : serialqueue :=
  update_timer sq SQPT_COMMAND PR_NOW.

(** ** Transmitting *)

(** [retransmit_event]: the new state and wake time. *)
Definition retransmit_event (sq : serialqueue) (eventtime : double) : serialqueue * double :=
  let buf := MESSAGE_SYNC :: concat (map qm_msg sq.(sq_sent_queue)) in
  let buflen := Z.of_nat (length buf) in
  let first_buflen := match sq.(sq_sent_queue) with [] => 0 | qm :: _ => qm_len qm + 1 end in
  let sq := do_write sq buf in
  let sq := sq <| sq_bytes_retransmit ::= λ b, u32 (b + buflen) |> in
  let sq :=
    if (pollreactor_get_timer sq.(sq_pr) SQPT_RETRANSMIT =? PR_NOW)%D then
      sq <| sq_ignore_nak_seq := if sq.(sq_receive_seq) <? sq.(sq_retransmit_seq)
                                 then sq.(sq_retransmit_seq) else sq.(sq_receive_seq) |>
    else
      sq <| sq_rto := let r := (sq.(sq_rto) * 2)%D in if (MAX_RTO <? r)%D then MAX_RTO else r |>
         <| sq_ignore_nak_seq := sq.(sq_send_seq) |> in
  let sq := sq <| sq_retransmit_seq := sq.(sq_send_seq) |> <| sq_rtt_sample_seq := 0 |>
               <| sq_idle_time := (eventtime + calculate_bittime sq buflen)%D |> in
  (sq, (eventtime + sq.(sq_rto) + calculate_bittime sq first_buflen)%D).

(** The highest priority message: the one with the lowest [req_clock] at the
    head of a ready queue; the first of them wins. *)
Fixpoint select_message (cqs : gmap Z command_queue) (pending : list Z) (min_clock : Z)
    (best : option (Z * queue_message)) : option (Z * queue_message) :=
  match pending with
  | [] => best
  | q :: pending =>
      match (cqs !! q) ≫= λ c, head c.(cq_ready_queue) with
      | Some m => if m.(qm_req_clock) <? min_clock
                  then select_message cqs pending m.(qm_req_clock) (Some (q, m))
                  else select_message cqs pending min_clock best
      | None => select_message cqs pending min_clock best
      end
  end.

(** Taking a message off its queue; an empty queue leaves the pending list. *)
Definition take_message (sq : serialqueue) (cq : Z) (qm : queue_message) : serialqueue :=
  let sq := sq <| sq_cqs ::= alter (λ c, c <| cq_ready_queue ::= tail |>) cq |> in
  let empty := match sq.(sq_cqs) !! cq with
               | Some c => bool_decide (c.(cq_ready_queue) = []) && bool_decide (c.(cq_upcoming_queue) = [])
               | None => false
               end in
  let sq := if empty then sq <| sq_pending_queues ::= filter (λ q, q ≠ cq) |> else sq in
  let sq := sq <| sq_ready_bytes ::= λ b, b - qm_len qm |> in
  if negb (qm.(qm_notify_id) =? 0)
  then sq <| sq_notify_queue ::= λ q, q ++ [qm <| qm_req_clock := sq.(sq_send_seq) |>] |>
  else sq.

(** The loop of [build_and_send_command] that collects the contents of a block;
    [None] is the NULL pointer when no message is ready although bytes are. *)
Fixpoint collect_messages (fuel : nat) (sq : serialqueue) (contents : list Z) :
    option (serialqueue * list Z) :=
  match fuel with
  | O => None
  | S fuel =>
      if sq.(sq_ready_bytes) =? 0 then Some (sq, contents)
      else
        '(cq, qm) ← select_message sq.(sq_cqs) sq.(sq_pending_queues) MAX_CLOCK None;
        let len := MESSAGE_HEADER_SIZE + Z.of_nat (length contents) in
        if MESSAGE_MAX - MESSAGE_TRAILER_SIZE <? len + qm_len qm then Some (sq, contents)
        else collect_messages fuel (take_message sq cq qm) (contents ++ qm.(qm_msg))
  end.

(** The header and the trailer of a block. *)
Definition host_frame (send_seq : Z) (contents : list Z) : list Z :=
  let len := MESSAGE_HEADER_SIZE + Z.of_nat (length contents) + MESSAGE_TRAILER_SIZE in
  let buf := u8 len :: u8 (Z.lor MESSAGE_DEST (Z.land send_seq MESSAGE_SEQ_MASK)) :: contents in
  let crc := msgblock_crc16_ccitt buf in
  buf ++ [u8 (Z.shiftr crc 8); Z.land crc 0xff; MESSAGE_SYNC].

(** Storing the new block in the sent queue. *)
Definition store_block (sq : serialqueue) (blk : list Z) (pending : Z) (eventtime : double) :
    serialqueue :=
  let len := Z.of_nat (length blk) in
  let idletime := if (sq.(sq_idle_time) <? eventtime)%D then eventtime else sq.(sq_idle_time) in
  let idletime := (idletime + calculate_bittime sq (pending + len))%D in
  let out := mk_queue_message blk 0 0 eventtime idletime 0 in
  let sq := if bool_decide (sq.(sq_sent_queue) = [])
            then update_timer sq SQPT_RETRANSMIT (idletime + sq.(sq_rto))%D else sq in
  let sq := if sq.(sq_rtt_sample_seq) =? 0
            then sq <| sq_rtt_sample_seq := sq.(sq_send_seq) |> else sq in
  sq <| sq_send_seq := u64 (sq.(sq_send_seq) + 1) |>
     <| sq_need_ack_bytes ::= λ b, b + len |>
     <| sq_sent_queue ::= λ q, q ++ [out] |>.

(** [build_and_send_command]: the new state and the block. *)
Definition build_and_send_command (fuel : nat) (sq : serialqueue) (pending : Z)
    (eventtime : double) : option (serialqueue * list Z) :=
  '(sq, contents) ← collect_messages fuel sq [];
  let blk := host_frame sq.(sq_send_seq) contents in
  Some (store_block sq blk pending eventtime, blk).

(** ** Scheduling of transmissions *)

(** Moving the messages of one queue whose time has come to its ready queue;
    [stalled] is the earliest clock of a message that has to wait. *)
Fixpoint promote_messages (upcoming ready : list queue_message) (ack_clock stalled moved : Z) :
    command_queue * Z * Z :=
  match upcoming with
  | [] => (mk_command_queue [] ready, stalled, moved)
  | qm :: rest =>
      if ack_clock <? qm.(qm_min_clock)
      then (mk_command_queue upcoming ready,
            if qm.(qm_min_clock) <? stalled then qm.(qm_min_clock) else stalled, moved)
      else promote_messages rest (ready ++ [qm]) ack_clock stalled (moved + qm_len qm)
  end.

(** The loop of [check_send_command] over the pending queues. *)
Fixpoint promote_queues (sq : serialqueue) (pendingq : list Z) (ack_clock : Z)
    (pending : Z) (idletime : double) (min_stalled min_ready : Z) : serialqueue * Z * Z :=
  match pendingq with
  | [] => (sq, min_stalled, min_ready)
  | q :: pendingq =>
      match sq.(sq_cqs) !! q with
      | None => promote_queues sq pendingq ack_clock pending idletime min_stalled min_ready
      | Some c =>
          let '(c, min_stalled, moved) :=
            promote_messages c.(cq_upcoming_queue) c.(cq_ready_queue) ack_clock min_stalled 0 in
          let sq := sq <| sq_cqs ::= <[q := c]> |> <| sq_upcoming_bytes ::= λ b, b - moved |>
                       <| sq_ready_bytes ::= λ b, b + moved |> in
          let min_ready :=
            match head c.(cq_ready_queue) with
            | Some qm =>
                let bgtime := if negb (pending =? 0) then idletime else sq.(sq_idle_time) in
                let bgoffset := (MIN_REQTIME_DELTA + MIN_BACKGROUND_DELTA)%D in
                let req_clock := if qm.(qm_req_clock) =? BACKGROUND_PRIORITY_CLOCK
                                 then clock_from_time sq.(sq_ce) (bgtime + bgoffset)%D
                                 else qm.(qm_req_clock) in
                if req_clock <? min_ready then req_clock else min_ready
            | None => min_ready
            end in
          promote_queues sq pendingq ack_clock pending idletime min_stalled min_ready
      end
  end.

(** An acknowledgement is needed before more blocks can be sent. *)
Definition need_ack (sq : serialqueue) : bool :=
  (MAX_PENDING_BLOCKS <=? u64 (sq.(sq_send_seq) - sq.(sq_receive_seq)))
  && negb (sq.(sq_receive_seq) =? 2 ^ 64 - 1)
  || (sq.(sq_receive_seq) <? sq.(sq_send_seq)) && negb (sq.(sq_receive_window) =? 0)
     && (sq.(sq_receive_window) <?
           sq.(sq_need_ack_bytes) + MESSAGE_MAX
           + (if sq.(sq_last_ack_seq) <? sq.(sq_receive_seq) then sq.(sq_last_ack_bytes) else 0)).

(** [check_send_command]: the new state and the time of the next transmission. *)
Definition check_send_command (sq : serialqueue) (pending : Z) (eventtime : double) :
    serialqueue * double :=
  if need_ack sq then (sq, PR_NEVER)
  else
    let idletime := if (sq.(sq_idle_time) <? eventtime)%D then eventtime else sq.(sq_idle_time) in
    let idletime := (idletime + calculate_bittime sq (pending + MESSAGE_MIN))%D in
    let ack_clock := clock_from_time sq.(sq_ce) idletime in
    let '(sq, min_stalled_clock, min_ready_clock) :=
      promote_queues sq sq.(sq_pending_queues) ack_clock pending idletime MAX_CLOCK MAX_CLOCK in
    if MESSAGE_PAYLOAD_MAX <=? sq.(sq_ready_bytes) then (sq, PR_NOW)
    else if (sq.(sq_ce).(ce_est_freq) =? 0)%D then
      if negb (sq.(sq_ready_bytes) =? 0) then (sq, PR_NOW)
      else (sq <| sq_need_kick_clock := MAX_CLOCK |>, PR_NEVER)
    else
      let reqclock_delta := u64 (Z_of_double (MIN_REQTIME_DELTA * sq.(sq_ce).(ce_est_freq))%D) in
      if min_ready_clock <=? u64 (ack_clock + reqclock_delta) then (sq, PR_NOW)
      else
        let wantclock := u64 (min_ready_clock - reqclock_delta) in
        let wantclock := if min_stalled_clock <? wantclock then min_stalled_clock else wantclock in
        (sq <| sq_need_kick_clock := wantclock |>,
         (idletime + double_of_Z (u64 (wantclock - ack_clock)) / sq.(sq_ce).(ce_est_freq))%D).

(** [command_event]: the new state and wake time; [fuel] bounds the number of
    blocks, and of messages in a block. *)
Fixpoint command_loop (fuel : nat) (sq : serialqueue) (buf : list Z) (eventtime : double) :
    option (serialqueue * double) :=
  match fuel with
  | O => None
  | S fuel =>
      let buflen := Z.of_nat (length buf) in
      let '(sq, waketime) := check_send_command sq buflen eventtime in
      let now := (waketime =? PR_NOW)%D in
      let full := MESSAGE_MAX * MAX_PENDING_BLOCKS <? buflen + MESSAGE_MAX in
      let '(sq, buf) :=
        if (negb now || full) && negb (buflen =? 0) then
          let sq := do_write sq buf in
          let sq := sq <| sq_bytes_write ::= λ b, u32 (b + buflen) |> in
          let idletime := if (sq.(sq_idle_time) <? eventtime)%D then eventtime
                          else sq.(sq_idle_time) in
          (sq <| sq_idle_time := (idletime + calculate_bittime sq buflen)%D |>, [])
        else (sq, buf) in
      if negb now then Some (sq, waketime)
      else
        '(sq, blk) ← build_and_send_command fuel sq (Z.of_nat (length buf)) eventtime;
        command_loop fuel sq (buf ++ blk) eventtime
  end.

Definition command_event (fuel : nat) (sq : serialqueue) (eventtime : double) :
    option (serialqueue * double) := command_loop fuel sq [] eventtime.

(** ** The interface of the other threads *)

(** [serialqueue_alloc]: the initial state. *)
Definition serialqueue_alloc (ty : fd_type) : serialqueue :=
  let pr := mk_pollreactor PR_NEVER [PR_NEVER; PR_NEVER] false in
  let empty := mk_queue_message [] 0 0 0%float 0%float 0 in
  let debug := decide (ty = SQT_DEBUGFILE) in
  mk_serialqueue pr ty [] false false 0 0%float 0%float
    (mk_clock_estimate 0 0 0%float 0%float) 0%float
    1 (if debug then 2 ^ 64 - 1 else 1) 0 0 0 0 [] 0%float 0%float
    (if debug then PR_NEVER else MIN_RTO) [] ∅ 0 0 0 0 MAX_CLOCK [] [] []
    (repeat empty 100) (repeat empty 100) 0 0 0 0 [] [].

Definition serialqueue_alloc_commandqueue (sq : serialqueue) (cq : Z) : serialqueue :=
  sq <| sq_cqs ::= <[cq := mk_command_queue [] []]> |>.

Definition serialqueue_add_fastreader (sq : serialqueue) (fr : Z) (prefix : list Z) : serialqueue :=
  sq <| sq_fast_readers ::= λ r, r ++ [(fr, prefix)] |>.

Definition serialqueue_rm_fastreader (sq : serialqueue) (fr : Z) : serialqueue :=
  sq <| sq_fast_readers ::= List.filter (λ r, negb (r.1 =? fr)) |>.

(** The clocks of a message for [serialqueue_send_batch]. *)
Definition fix_min_clock (qm : queue_message) : queue_message :=
  if (u64 (qm.(qm_min_clock) + 2 ^ 31) <? qm.(qm_req_clock))
     && negb (qm.(qm_req_clock) =? BACKGROUND_PRIORITY_CLOCK)
  then qm <| qm_min_clock := u64 (qm.(qm_req_clock) - 2 ^ 31) |> else qm.

(** [serialqueue_send_batch]: the new state and whether the background thread
    has to be woken. *)
Definition serialqueue_send_batch (sq : serialqueue) (cq : Z) (msgs : list queue_message) :
    option (serialqueue * bool) :=
  let msgs := map fix_min_clock msgs in
  let len := foldr Z.add 0 (map qm_len msgs) in
  if len =? 0 then Some (sq, false)
  else
    qm ← head msgs;
    c ← sq.(sq_cqs) !! cq;
    let sq := if bool_decide (c.(cq_ready_queue) = []) && bool_decide (c.(cq_upcoming_queue) = [])
              then sq <| sq_pending_queues ::= λ q, q ++ [cq] |> else sq in
    let sq := sq <| sq_cqs ::= <[cq := c <| cq_upcoming_queue ::= λ q, q ++ msgs |>]> |>
                 <| sq_upcoming_bytes ::= λ b, b + len |> in
    if qm.(qm_min_clock) <? sq.(sq_need_kick_clock)
    then Some (sq <| sq_need_kick_clock := 0 |>, true) else Some (sq, false).

Definition serialqueue_send_one (sq : serialqueue) (cq : Z) (qm : queue_message) :
    option (serialqueue * bool) := serialqueue_send_batch sq cq [qm].

Definition serialqueue_send (sq : serialqueue) (cq : Z) (msg : list Z)
    (min_clock req_clock notify_id : Z) : option (serialqueue * bool) :=
  serialqueue_send_one sq cq
    ((message_fill msg) <| qm_min_clock := min_clock |> <| qm_req_clock := req_clock |>
                        <| qm_notify_id := notify_id |>).

(** [serialqueue_pull]: the next received message; without one the caller waits,
    or gets nothing when the background thread is exiting. *)
Definition serialqueue_pull (sq : serialqueue) : serialqueue * option queue_message :=
  match sq.(sq_receive_queue) with
  | [] => (if sq.(sq_pr).(pr_must_exit) then sq else sq <| sq_receive_waiting := true |>, None)
  | qm :: rest =>
      let sq := sq <| sq_receive_queue := rest |> in
      (if negb (qm_len qm =? 0)
       then sq <| sq_old_receive ::= λ q, debug_queue_add q qm |> else sq, Some qm)
  end.

Definition serialqueue_set_wire_frequency (sq : serialqueue) (frequency : double) : serialqueue :=
  sq <| sq_bittime_adjust := match sq.(sq_serial_fd_type) with
                             | SQT_CAN => (1 / frequency)%D
                             | _ => (10 / frequency)%D
                             end |>.

Definition serialqueue_set_receive_window (sq : serialqueue) (receive_window : Z) : serialqueue :=
  sq <| sq_receive_window := receive_window |>.

Definition serialqueue_set_clock_est (sq : serialqueue) (est_freq conv_time : double)
    (conv_clock last_clock : Z) : serialqueue :=
  sq <| sq_ce := mk_clock_estimate last_clock conv_clock conv_time est_freq |>.

Definition serialqueue_get_clock_est (sq : serialqueue) : clock_estimate := sq.(sq_ce).

(** [serialqueue_extract_old]: the recorded messages; the ring is replaced by an
    empty one. *)
Definition serialqueue_extract_old (sq : serialqueue) (sentq : bool) (max : nat) :
    serialqueue * list queue_message :=
  let empty := mk_queue_message [] 0 0 0%float 0%float 0 in
  let current := if sentq then sq.(sq_old_sent) else sq.(sq_old_receive) in
  let sq := if sentq then sq <| sq_old_sent := repeat empty 100 |>
            else sq <| sq_old_receive := repeat empty 100 |> in
  (sq, take max (List.filter (λ qm, negb (qm_len qm =? 0)) current)).
