(* ===== verification/Link.v ===== *)
(** * The link delivers every block once and in order

    The host and the firmware with two lossy channels between them, as a
    transition system whose steps are the routines of serialqueue.c and
    command.c.  The theorem: whatever is lost and retransmitted, the blocks the
    firmware accepts are a prefix of the blocks the host has built. *)

From Stdlib Require Import PrimFloat.
From stdpp Require Import sorting.
From S2P Require Import Prelude.
From S2P Require Import Crc16.
From S2P Require Import Vlq.
From S2P Require Import State.
From S2P Require Import Machine.
From S2P Require Import Sched.
From S2P Require Import SchedList.
From S2P Require Import SchedSpec.
From S2P Require Import Command.
From S2P Require Import CommandSpec.
From S2P Require Import CommandRun.
From S2P Require Import MsgBlock.
From S2P Require Import SerialQueue.

(** ** Sequence numbers on the wire *)

(** The sequence byte of the block with number [i]. *)
Definition seq_byte (i : Z) : Z := 0x10 + i mod 16.

Lemma seq_byte_ok i : seq_ok (seq_byte i).
Proof. unfold seq_ok, seq_byte. pose proof (Z.mod_pos_bound i 16). lia. Qed.

Lemma seq_byte_inj i j : seq_byte i = seq_byte j → -16 < i - j < 16 → i = j.
Proof. unfold seq_byte. intros. Z.div_mod_to_equations. lia. Qed.

Lemma seq_mask_mod i : Z.land i MESSAGE_SEQ_MASK = i mod 16.
Proof. apply (land_ones_mod 4). lia. Qed.

Lemma lor_dest x : 0 <= x < 16 → Z.lor MESSAGE_DEST x = 16 + x.
Proof.
  intros Hx. unfold MESSAGE_DEST. change 0x10 with (1 * 2 ^ 4). rewrite lor_disjoint by lia. lia.
Qed.

Lemma seq_byte_next i :
  Z.lor (Z.land (seq_byte i + 1) MESSAGE_SEQ_MASK) MESSAGE_DEST = seq_byte (i + 1).
Proof.
  rewrite seq_mask_mod, Z.lor_comm, lor_dest by (apply Z.mod_pos_bound; lia).
  unfold seq_byte. Z.div_mod_to_equations. lia.
Qed.

Lemma host_frame_eq i c : (length c <= 59)%nat → host_frame i c = frame (seq_byte i) c.
Proof.
  intros Hc. unfold host_frame, frame, MESSAGE_HEADER_SIZE, MESSAGE_TRAILER_SIZE, MESSAGE_MIN.
  rewrite seq_mask_mod, lor_dest by (apply Z.mod_pos_bound; lia). fold (seq_byte i).
  rewrite (u8_small (2 + _ + 3)) by lia.
  rewrite u8_small by (pose proof (seq_byte_ok i); unfold seq_ok in *; lia).
  replace (2 + Z.of_nat (length c) + 3) with (Z.of_nat (length c) + 5) by lia.
  rewrite crc_host, land_ff, shiftr_div by lia. set (crc := crc16_ccitt _).
  pose proof (crc16_ccitt_range (Z.of_nat (length c) + 5 :: seq_byte i :: c)) as Hr. fold crc in Hr.
  change (2 ^ 8) with 256. by rewrite u8_small by (Z.div_mod_to_equations; lia).
Qed.

(** ** The host's part of the protocol *)

(** What the routines of the host do to the window of unacknowledged blocks. *)
Record window := mk_window
  { w_send : Z; w_receive : Z; w_written : list Z; w_sent : list (list Z) }.
Definition window_of (sq : serialqueue) : window :=
  mk_window sq.(sq_send_seq) sq.(sq_receive_seq) sq.(sq_written) (map qm_msg sq.(sq_sent_queue)).

Lemma ack_sent_spec queue r a :
  0 <= r < a → a <= r + Z.of_nat (length queue) → a < 2 ^ 64 →
  ∃ removed found, ack_sent queue r a = (drop (Z.to_nat (a - r)) queue, removed, Some found).
Proof.
  revert r. induction queue as [|qm queue IH]; intros r Hr Ha Hb; simpl in *; [lia|].
  unfold u64. rewrite Z.mod_small by lia. destruct (Z.eqb_spec a (r + 1)) as [->|Hne].
  - replace (Z.to_nat (r + 1 - r)) with 1%nat by lia. eauto.
  - destruct (IH (r + 1)) as (removed & found & ->); [lia..|].
    replace (Z.to_nat (a - r)) with (S (Z.to_nat (a - (r + 1)))) by lia. eauto.
Qed.

Lemma window_update_rtt sq t a : window_of (update_rtt sq t a) = window_of sq.
Proof. unfold update_rtt. destruct (_ && _); [|done]. by destruct (PrimFloat.eqb (sq_srtt sq) 0). Qed.

Lemma window_update_timer sq i t : window_of (update_timer sq i t) = window_of sq.
Proof. done. Qed.

Lemma window_update_receive_seq sq t a :
  0 <= sq.(sq_receive_seq) < a → a < 2 ^ 64 →
  a <= sq.(sq_receive_seq) + Z.of_nat (length sq.(sq_sent_queue)) →
  window_of (update_receive_seq sq t a)
  = mk_window sq.(sq_send_seq) a sq.(sq_written)
      (drop (Z.to_nat (a - sq.(sq_receive_seq))) (map qm_msg sq.(sq_sent_queue))).
Proof.
  intros Hr Hb Ha. unfold update_receive_seq.
  destruct (ack_sent_spec (sq_sent_queue sq) (sq_receive_seq sq) a) as (removed & found & ->);
    [lia..|].
  rewrite <- fmap_drop. set (sq1 := update_rtt _ t a).
  assert (Hw : window_of sq1 = mk_window (sq_send_seq sq) a (sq_written sq)
    (map qm_msg (drop (Z.to_nat (a - sq_receive_seq sq)) (sq_sent_queue sq)))).
  { unfold sq1. by rewrite window_update_rtt. }
  destruct (sq_sent_queue sq1); by rewrite window_update_timer.
Qed.

Lemma rseq_recovered r a : 0 <= r <= a → a - r < 16 → a < 2 ^ 64 →
  u64 (r + Z.land (seq_byte a - r) MESSAGE_SEQ_MASK) = a.
Proof.
  intros Hr Ha Hb. rewrite seq_mask_mod.
  assert (Hd : (seq_byte a - r) mod 16 = a - r).
  { unfold seq_byte. symmetry. apply (Z.mod_unique _ _ (1 - a / 16)); [lia|].
    pose proof (Z.div_mod a 16). lia. }
  rewrite Hd. unfold u64. rewrite Z.mod_small; lia.
Qed.

Lemma window_handle_message sq t now data a :
  data !! 1%nat = Some (seq_byte a) → 0 <= sq.(sq_receive_seq) <= a → a < 2 ^ 64 →
  a - sq.(sq_receive_seq) < 16 → a <= sq.(sq_send_seq) →
  a <= sq.(sq_receive_seq) + Z.of_nat (length sq.(sq_sent_queue)) →
  window_of (handle_message sq t now data)
  = mk_window sq.(sq_send_seq) a sq.(sq_written)
      (drop (Z.to_nat (a - sq.(sq_receive_seq))) (map qm_msg sq.(sq_sent_queue))).
Proof.
  intros Hseq Hr Hb Hd Hs Hlen. unfold handle_message.
  change (Z.to_nat MESSAGE_POS_SEQ) with 1%nat. rewrite Hseq. simpl default.
  rewrite rseq_recovered by done. rewrite (proj2 (Z.ltb_ge _ a)) by done.
  rewrite andb_false_r. simpl.
  set (sq1 := if negb (a =? sq_receive_seq sq) then update_receive_seq sq t a else sq).
  assert (Hw : window_of sq1 = mk_window (sq_send_seq sq) a (sq_written sq)
    (drop (Z.to_nat (a - sq_receive_seq sq)) (map qm_msg (sq_sent_queue sq)))).
  { unfold sq1. destruct (Z.eqb_spec a (sq_receive_seq sq)) as [->|Hne]; simpl.
    - by rewrite Z.sub_diag.
    - apply window_update_receive_seq; lia. }
  rewrite <- Hw. clearbody sq1. clear.
  destruct (notify_loop _ _ _ _ _) as [nq woken].
  destruct (Z.of_nat (length data) =? MESSAGE_MIN); simpl.
  - destruct (sq_last_ack_seq sq1 <? a); [|destruct (_ && _)]; simpl;
      destruct (find_fast_reader _ _ _), (negb _); done.
  - by destruct (find_fast_reader _ _ _).
Qed.

(** Collecting messages changes the queues only and stays within a block. *)
Lemma window_take_message sq cq qm : window_of (take_message sq cq qm) = window_of sq.
Proof. unfold take_message. by repeat case_match. Qed.

Lemma collect_messages_window fuel sq c sq' c' :
  collect_messages fuel sq c = Some (sq', c') → (length c <= 59)%nat →
  window_of sq' = window_of sq ∧ (length c' <= 59)%nat.
Proof.
  revert sq c. induction fuel as [|fuel IH]; intros sq c Hc Hlen; simpl in Hc; [done|].
  destruct (sq_ready_bytes sq =? 0); [by simplify_eq|].
  destruct (select_message _ _ _ _) as [[cq qm]|]; simpl in Hc; [|done].
  unfold MESSAGE_MAX, MESSAGE_TRAILER_SIZE, MESSAGE_HEADER_SIZE in Hc.
  destruct (Z.ltb_spec (64 - 3) (2 + Z.of_nat (length c) + qm_len qm)); [by simplify_eq|].
  apply IH in Hc as [-> Hc']; [by rewrite window_take_message|].
  unfold qm_len in *. rewrite length_app. lia.
Qed.

Lemma window_build fuel sq pending t sq' blk :
  build_and_send_command fuel sq pending t = Some (sq', blk) →
  ∃ c, (length c <= 59)%nat ∧ blk = host_frame sq.(sq_send_seq) c
    ∧ window_of sq' = mk_window (u64 (sq.(sq_send_seq) + 1)) sq.(sq_receive_seq) sq.(sq_written)
                        (map qm_msg sq.(sq_sent_queue) ++ [blk]).
Proof.
  unfold build_and_send_command. intros Hb.
  destruct (collect_messages fuel sq []) as [[sq1 c]|] eqn:Hc; simpl in Hb; [|done].
  injection Hb as <- <-. apply collect_messages_window in Hc as [Hw Hlen]; [|simpl; lia].
  unfold window_of in Hw. injection Hw as Hs Hr Hwr Hq. exists c. rewrite Hs.
  split_and!; [done..|]. unfold store_block, window_of.
  rewrite <- Hq, <- Hs, <- Hr, <- Hwr. destruct (bool_decide (sq_sent_queue sq1 = [])); simpl;
    destruct (sq_rtt_sample_seq sq1 =? 0); simpl; by rewrite map_app.
Qed.

Lemma window_retransmit sq t :
  window_of (retransmit_event sq t).1
  = mk_window sq.(sq_send_seq) sq.(sq_receive_seq)
      (sq.(sq_written) ++ MESSAGE_SYNC :: concat (map qm_msg sq.(sq_sent_queue)))
      (map qm_msg sq.(sq_sent_queue)).
Proof. unfold retransmit_event. by destruct (PrimFloat.eqb _ PR_NOW). Qed.

Lemma window_promote sq pq ack p idle st rd :
  window_of (promote_queues sq pq ack p idle st rd).1.1 = window_of sq.
Proof.
  revert sq st rd. induction pq as [|q pq IH]; intros sq st rd; simpl; [done|].
  destruct (sq_cqs sq !! q) as [c|]; [|apply IH].
  destruct (promote_messages _ _ _ _ _) as [[c' st'] moved]. by rewrite IH.
Qed.

Lemma window_check sq p t : window_of (check_send_command sq p t).1 = window_of sq.
Proof.
  unfold check_send_command. destruct (need_ack sq); [done|].
  pose proof (window_promote sq (sq_pending_queues sq)) as Hw.
  set (idle := PrimFloat.add _ _). specialize (Hw (clock_from_time (sq_ce sq) idle) p idle MAX_CLOCK MAX_CLOCK).
  destruct (promote_queues _ _ _ _ _ _ _) as [[sq1 st] rd]. simpl in Hw. rewrite <- Hw.
  by repeat case_match.
Qed.

(** A transmission is allowed only when the window has room. *)
Lemma check_now_window sq p t :
  PrimFloat.eqb (check_send_command sq p t).2 PR_NOW = true → need_ack sq = false.
Proof. unfold check_send_command. by destruct (need_ack sq). Qed.

Lemma window_send_batch sq cq msgs sq' w :
  serialqueue_send_batch sq cq msgs = Some (sq', w) → window_of sq' = window_of sq.
Proof.
  unfold serialqueue_send_batch. intros Hs.
  destruct (_ =? 0); [by simplify_eq|].
  destruct (head _) as [qm|]; simpl in Hs; [|done].
  destruct (sq_cqs sq !! cq) as [c|]; simpl in Hs; [|done].
  destruct (bool_decide _ && bool_decide _), (_ <? _); by simplify_eq.
Qed.

(** ** The transition system *)

(** The bytes the host has written between two states, cut into blocks by the
    length each block starts with; a byte that is not a length stands alone. *)
Definition written (h h' : serialqueue) : list Z :=
  drop (length h.(sq_written)) h'.(sq_written).

Fixpoint split_blocks (fuel : nat) (bs : list Z) : list (list Z) :=
  match fuel, bs with
  | S fuel, b :: _ =>
      let n := if (MESSAGE_MIN <=? b) && (b <=? MESSAGE_MAX) then Z.to_nat b else 1%nat in
      take n bs :: split_blocks fuel (drop n bs)
  | _, _ => []
  end.
Definition blocks_of (bs : list Z) : list (list Z) := split_blocks (length bs) bs.

(** The contents of a block. *)
Definition block_contents (blk : list Z) : list Z := take (length blk - 5) (drop 2 blk).

(** The host, the blocks in flight to the firmware, the firmware, the blocks in
    flight to the host, the contents of the blocks the host has built, and of
    those the firmware has accepted. *)
Record link := mk_link {
  lk_host : serialqueue;
  lk_wire : list (list Z);
  lk_mcu : mcu;
  lk_replies : list (list Z);
  lk_history : list (list Z);
  lk_delivered : list (list Z);
}.

Section link.
(** The command table, the encoders of the responses and the list of shutdown
    handlers, which the build generates; the command handlers keep the invariant
    [J] or shut down in a state with [K], from which the shutdown processing
    gets back to [J]. *)
Context {B : Board} (index : list command_parser) (enc : string → list arg → list Z).
Context (shutdownfuncs : M unit) (J K : mcu → Prop).

(** The blocks of the responses the firmware has sent between two states. *)
Definition responses (seq : Z) (evs : list event) : list (list Z) :=
  omap (λ e, match e with Ev_send fmt args => Some (frame seq (enc fmt args)) | _ => None end)
    (rev evs).
Definition replies (m m' : mcu) : list (list Z) :=
  responses m'.(cmd).(next_sequence)
    (take (length m'.(trace) - length m.(trace)) m'.(trace)).

Inductive link_step : link → link → Prop :=
| L_queue h w m r hist del cq msgs h' wake :
    (* another thread queues messages *)
    serialqueue_send_batch h cq msgs = Some (h', wake) →
    link_step (mk_link h w m r hist del) (mk_link h' w m r hist del)
| L_command h w m r hist del fuel t h' wt :
    (* the host builds and writes blocks *)
    h.(sq_send_seq) < 2 ^ 63 → command_event fuel h t = Some (h', wt) →
    byte_list (written h h') →
    link_step (mk_link h w m r hist del)
      (mk_link h' (w ++ blocks_of (written h h')) m r
         (hist ++ map block_contents (blocks_of (written h h'))) del)
| L_retransmit h w m r hist del t :
    let h' := (retransmit_event h t).1 in
    link_step (mk_link h w m r hist del)
      (mk_link h' (w ++ blocks_of (written h h')) m r hist del)
| L_lose_block h w1 blk w2 m r hist del :
    link_step (mk_link h (w1 ++ blk :: w2) m r hist del) (mk_link h (w1 ++ w2) m r hist del)
| L_receive h u w m r hist del rest ret m' :
    (* the firmware processes what is at the front of its buffer *)
    rest `prefix_of` concat w →
    command_find_and_dispatch index (u ++ rest) (Z.of_nat (length (u ++ rest))) m
      = (Ret (ret, Z.of_nat (length u)), m') →
    link_step (mk_link h (u :: w) m r hist del)
      (mk_link h w m' (r ++ replies m m') hist
         (if 0 <? ret then del ++ [block_contents u] else del))
| L_shutdown h u w m r hist del rest msg m1 m' :
    (* a command shuts the firmware down: its block stays in the buffer *)
    rest `prefix_of` concat w →
    command_find_and_dispatch index (u ++ rest) (Z.of_nat (length (u ++ rest))) m
      = (Shut msg, m1) →
    run_shutdown shutdownfuncs msg m1 = (Ret tt, m') →
    link_step (mk_link h (u :: w) m r hist del)
      (mk_link h (u :: w) m' (r ++ replies m m') hist (del ++ [block_contents u]))
| L_run h w m r hist del m' cs :
    (* timers and other tasks of the firmware run and send responses *)
    J m' → m'.(cmd) = m.(cmd) →
    link_step (mk_link h w m r hist del)
      (mk_link h w m' (r ++ map (frame m.(cmd).(next_sequence)) cs) hist del)
| L_lose_reply h w m r1 blk r2 hist del :
    link_step (mk_link h w m (r1 ++ blk :: r2) hist del) (mk_link h w m (r1 ++ r2) hist del)
| L_reply h w m blk r hist del t now :
    link_step (mk_link h w m (blk :: r) hist del)
      (mk_link (handle_message h t now blk) w m r hist del).

(** A new connection, at the block number [b]. *)
Definition connected (b : Z) (lk : link) : Prop :=
  1 <= b < 2 ^ 63 ∧ lk.(lk_host).(sq_send_seq) = b ∧ lk.(lk_host).(sq_receive_seq) = b
  ∧ lk.(lk_host).(sq_sent_queue) = [] ∧ lk.(lk_wire) = [] ∧ lk.(lk_replies) = []
  ∧ lk.(lk_mcu).(cmd).(next_sequence) = seq_byte b ∧ need_sync lk.(lk_mcu) = false
  ∧ lk.(lk_mcu).(cmd).(in_sendf) = false ∧ J lk.(lk_mcu)
  ∧ lk.(lk_history) = [] ∧ lk.(lk_delivered) = [].

(** What the theorems need from the firmware's handlers: they leave the state
    of the receiver and what has been sent alone, and the shutdown processing
    ends the sending that was interrupted. *)
Definition sends_from (c : cmd_state) (tr : list event) (s : mcu) : Prop :=
  s.(cmd) = c ∧ tr `suffix_of` s.(trace).
Record firmware_ok : Prop := {
  fo_handlers : ∀ c tr, handlers_ok index (λ s, J s ∧ sends_from c tr s)
                          (λ _ s, K s ∧ sends_from c tr s);
  fo_shutdown : ∀ c tr msg s, K s → sends_from c tr s →
    wp (run_shutdown shutdownfuncs msg)
      (λ _ s', J s' ∧ sends_from (c <| in_sendf := false |>) tr s') (λ _ _, False) s;
  fo_cmd : ∀ s c, J s → J (s <| cmd := c |>);
}.

(** ** The invariant *)

(** Blocks with the numbers [W], in the order of arrival, can not be confused
    with a block that is 16 numbers away: [hi] bounds what the firmware may
    expect when the block arrives. *)
Fixpoint unambiguous (W : list Z) (hi : Z) : Prop :=
  match W with
  | [] => True
  | i :: W => hi - 16 < i ∧ unambiguous W (Z.max hi (i + 1))
  end.

Lemma unambiguous_mono W hi hi' : unambiguous W hi → hi' <= hi → unambiguous W hi'.
Proof.
  revert hi hi'. induction W as [|i W IH]; intros hi hi' HW Hle; simpl in *; [done|].
  destruct HW as [H1 H2]. split; [lia|]. eapply IH; [done|lia].
Qed.

Lemma unambiguous_lose W1 i W2 hi : unambiguous (W1 ++ i :: W2) hi → unambiguous (W1 ++ W2) hi.
Proof.
  revert hi. induction W1 as [|j W1 IH]; intros hi HW; simpl in *.
  - destruct HW as [_ HW]. eapply unambiguous_mono; [done|lia].
  - destruct HW as [? HW]. auto.
Qed.

Lemma unambiguous_snoc W i q hi :
  unambiguous W hi → Forall (λ j, j < q) W → hi <= q → q - 16 < i → unambiguous (W ++ [i]) hi.
Proof.
  revert hi. induction W as [|j W IH]; intros hi HW Hq Hhi Hi; simpl in *.
  - split; [lia|done].
  - apply Forall_cons in Hq as [Hj Hq]. destruct HW as [? HW]. split; [done|].
    apply IH; [done..|lia|lia].
Qed.

Lemma unambiguous_app W V q hi :
  unambiguous W hi → Forall (λ j, j < q) W → hi <= q → Forall (λ i, q - 16 < i < q) V →
  unambiguous (W ++ V) hi.
Proof.
  revert W. induction V as [|i V IH]; intros W HW Hq Hhi HV; simpl.
  - by rewrite app_nil_r.
  - apply Forall_cons in HV as [Hi HV]. rewrite cons_middle, app_assoc. apply IH; [|..|done|done].
    + apply (unambiguous_snoc _ _ q); [done..|lia].
    + apply Forall_app. split; [done|]. constructor; [lia|done].
Qed.

(** *** Blocks in a stream of bytes *)

Definition is_frame (u : list Z) : Prop := ∃ seq c, (length c <= 59)%nat ∧ u = frame seq c.

Lemma frame_head seq c : ∃ tl, frame seq c = Z.of_nat (length c) + 5 :: tl.
Proof. by eexists. Qed.

Lemma split_frames us fuel :
  Forall is_frame us → (length (concat us) <= fuel)%nat → split_blocks fuel (concat us) = us.
Proof.
  intros Hus. revert fuel. induction Hus as [|u us (seq & c & Hc & ->) Hus IH]; intros fuel Hf.
  { by destruct fuel. }
  rewrite concat_cons in *. rewrite length_app, frame_length in Hf. destruct fuel as [|fuel]; [lia|].
  destruct (frame_head seq c) as [tl Htl]. rewrite Htl. simpl. unfold MESSAGE_MIN, MESSAGE_MAX.
  rewrite (proj2 (Z.leb_le 5 _)), (proj2 (Z.leb_le _ 64)) by lia. simpl.
  assert (Hn : Z.to_nat (Z.of_nat (length c) + 5) = length (frame seq c)) by (rewrite frame_length; lia).
  rewrite Hn, app_comm_cons, <- Htl, take_app_length, drop_app_length. f_equal. apply IH. lia.
Qed.

Lemma blocks_of_frames us : Forall is_frame us → blocks_of (concat us) = us.
Proof. intros Hus. by apply split_frames. Qed.

Lemma blocks_of_sync us :
  Forall is_frame us → blocks_of (MESSAGE_SYNC :: concat us) = [MESSAGE_SYNC] :: us.
Proof.
  intros Hus. unfold blocks_of. simpl. f_equal. by apply split_frames.
Qed.

(** [blk] is the block with the number [i]. *)
Definition is_block (b : Z) (hist : list (list Z)) (i : Z) (blk : list Z) : Prop :=
  b <= i ∧ ∃ c, hist !! Z.to_nat (i - b) = Some c ∧ (length c <= 59)%nat
            ∧ blk = frame (seq_byte i) c.

Lemma is_block_lt b hist i blk : is_block b hist i blk → i < b + Z.of_nat (length hist).
Proof. intros (Hb & c & Hc%lookup_lt_Some & _). lia. Qed.

Lemma is_block_app b hist c i blk : is_block b hist i blk → is_block b (hist ++ [c]) i blk.
Proof.
  intros (Hb & c' & Hc & ? & ?). split; [done|]. exists c'. split_and!; [|done..].
  by apply lookup_app_l_Some.
Qed.

Lemma is_blocks_app b hist c W w :
  Forall2 (is_block b hist) W w → Forall2 (is_block b (hist ++ [c])) W w.
Proof. intros H. eapply Forall2_impl; [done|]. intros. by apply is_block_app. Qed.

Lemma is_blocks_lt b hist W w :
  Forall2 (is_block b hist) W w → Forall (λ i, i < b + Z.of_nat (length hist)) W.
Proof. induction 1; constructor; [|done]. by eapply is_block_lt. Qed.

Lemma is_blocks_length b hist W w :
  Forall2 (is_block b hist) W w → Forall (λ blk, (length blk <= 64)%nat) w.
Proof.
  induction 1 as [|i blk W w (_ & c & _ & Hc & ->) _ IH]; constructor; [|done].
  rewrite frame_length. lia.
Qed.

Lemma block_contents_frame seq c : block_contents (frame seq c) = c.
Proof.
  unfold block_contents. rewrite frame_length. unfold frame. simpl.
  replace (length c + 5 - 5)%nat with (length c) by lia. apply take_app_length.
Qed.

Lemma block_not_sync b hist i blk : is_block b hist i blk → blk ≠ [MESSAGE_SYNC].
Proof.
  intros (_ & c & _ & _ & ->) Hf. apply (f_equal length) in Hf. rewrite frame_length in Hf.
  simpl in Hf. lia.
Qed.

(** The blocks on the wire, without the SYNC bytes of retransmissions. *)
Definition wire_blocks (w : list (list Z)) : list (list Z) :=
  filter (λ u, u ≠ [MESSAGE_SYNC]) w.

Lemma wire_blocks_app w v : wire_blocks (w ++ v) = wire_blocks w ++ wire_blocks v.
Proof. apply filter_app. Qed.

Lemma wire_blocks_cons u w :
  wire_blocks (u :: w) = if decide (u = [MESSAGE_SYNC]) then wire_blocks w else u :: wire_blocks w.
Proof.
  unfold wire_blocks. rewrite filter_cons. by repeat case_decide.
Qed.

Lemma wire_blocks_frames us : Forall is_frame us → wire_blocks us = us.
Proof.
  induction 1 as [|u us (seq & c & _ & ->) Hus IH]; [done|].
  rewrite wire_blocks_cons, IH, decide_False; [done|]. intros Hf. apply (f_equal length) in Hf.
  rewrite frame_length in Hf. simpl in Hf. lia.
Qed.

(** The numbers [b], [r] (acknowledged), [m] (accepted) and [q] (built) bound
    each other, the sent queue holds the blocks from [r] to [q], and what is in
    flight is unambiguous. *)
Record link_inv (b : Z) (lk : link) : Prop := {
  li_b : 1 <= b;
  li_q : lk.(lk_host).(sq_send_seq) = b + Z.of_nat (length lk.(lk_history));
  li_q_max : lk.(lk_host).(sq_send_seq) <= 2 ^ 63 + 12;
  li_r : b <= lk.(lk_host).(sq_receive_seq);
  li_window : lk.(lk_host).(sq_send_seq) - lk.(lk_host).(sq_receive_seq) <= 12;
  li_m : lk.(lk_host).(sq_receive_seq) <= b + Z.of_nat (length lk.(lk_delivered))
         <= lk.(lk_host).(sq_send_seq);
  li_sent : Forall2 (is_block b lk.(lk_history))
    (seqZ lk.(lk_host).(sq_receive_seq)
          (lk.(lk_host).(sq_send_seq) - lk.(lk_host).(sq_receive_seq)))
    (map qm_msg lk.(lk_host).(sq_sent_queue));
  li_wire : ∃ W, Forall2 (is_block b lk.(lk_history)) W (wire_blocks lk.(lk_wire))
    ∧ unambiguous W (b + Z.of_nat (length lk.(lk_delivered)));
  li_replies : ∃ A, Forall2 (λ a blk, blk !! 1%nat = Some (seq_byte a)) A lk.(lk_replies)
    ∧ StronglySorted Z.le A
    ∧ Forall (λ a, lk.(lk_host).(sq_receive_seq) <= a
                   <= b + Z.of_nat (length lk.(lk_delivered))) A;
  li_next : lk.(lk_mcu).(cmd).(next_sequence)
            = seq_byte (b + Z.of_nat (length lk.(lk_delivered)));
  li_sync : need_sync lk.(lk_mcu) = false;
  li_prefix : lk.(lk_delivered) `prefix_of` lk.(lk_history);
}.

Lemma connected_inv b lk : connected b lk → link_inv b lk.
Proof.
  intros (Hb & Hs & Hr & Hq & Hw & Hre & Hn & Hsync & _ & _ & Hh & Hd).
  constructor; rewrite ?Hs, ?Hr, ?Hq, ?Hw, ?Hre, ?Hh, ?Hd; simpl; try lia; try done.
  - rewrite Z.sub_diag. constructor.
  - exists []. by split.
  - exists []. split_and!; [done|constructor|constructor].
  - by rewrite Z.add_0_r.
Qed.

(** Steps of the host that keep the window keep the invariant. *)
Lemma link_inv_window b h h' w m r hist del :
  h'.(sq_send_seq) = h.(sq_send_seq) → h'.(sq_receive_seq) = h.(sq_receive_seq) →
  map qm_msg h'.(sq_sent_queue) = map qm_msg h.(sq_sent_queue) →
  link_inv b (mk_link h w m r hist del) → link_inv b (mk_link h' w m r hist del).
Proof.
  intros Hs Hr Hq []. simpl in *. constructor; simpl; rewrite ?Hs, ?Hr, ?Hq; done.
Qed.

Lemma need_ack_room b h w m r hist del :
  need_ack h = false → link_inv b (mk_link h w m r hist del) →
  h.(sq_send_seq) - h.(sq_receive_seq) < 12.
Proof.
  intros Hnow [Hb Hq Hqm Hr Hwin Hm _ _ _ _ _ _]. simpl in *. unfold need_ack in Hnow.
  apply orb_false_iff in Hnow as [Hnow _]. unfold MAX_PENDING_BLOCKS, u64 in Hnow.
  apply andb_false_iff in Hnow as [Hlt%Z.leb_gt|Hr64].
  - rewrite Z.mod_small in Hlt by lia. done.
  - apply negb_false_iff, Z.eqb_eq in Hr64. lia.
Qed.

Lemma link_inv_build b h w m r hist del fuel pending t h' blk :
  h.(sq_send_seq) - h.(sq_receive_seq) < 12 → h.(sq_receive_seq) < 2 ^ 63 →
  build_and_send_command fuel h pending t = Some (h', blk) →
  link_inv b (mk_link h w m r hist del) →
  is_frame blk ∧ h'.(sq_receive_seq) = h.(sq_receive_seq) ∧ h'.(sq_written) = h.(sq_written)
  ∧ link_inv b (mk_link h' (w ++ [blk]) m r (hist ++ [block_contents blk]) del).
Proof.
  intros Hroom Hmax Hbuild [Hb Hq _ Hr Hwin Hm Hsent (W & HW & Hun) (A & HA) Hn Hsy Hp]. simpl in *.
  apply window_build in Hbuild as (c & Hlen & Hblk & Hw). unfold window_of in Hw.
  injection Hw as Hs2 Hr2 Hw2 Hq2. unfold u64 in *. rewrite Z.mod_small in Hs2 by lia.
  rewrite host_frame_eq in Hblk by done. subst blk. rewrite block_contents_frame.
  assert (Hfr : is_frame (frame (seq_byte (sq_send_seq h)) c)) by (eexists _, _; eauto).
  assert (Hnew : is_block b (hist ++ [c]) (sq_send_seq h) (frame (seq_byte (sq_send_seq h)) c)).
  { split; [lia|]. exists c. split_and!; [|done..]. rewrite Hq.
    replace (Z.to_nat (b + Z.of_nat (length hist) - b)) with (length hist) by lia.
    by apply list_lookup_middle. }
  split_and!; [done..|].
  constructor; simpl; rewrite ?Hs2, ?Hr2, ?Hq2, ?length_app; simpl; try lia; try done.
  - replace (sq_send_seq h + 1 - sq_receive_seq h) with (sq_send_seq h - sq_receive_seq h + 1) by lia.
    rewrite seqZ_app by lia. apply Forall2_app; [by apply is_blocks_app|].
    replace (sq_receive_seq h + (sq_send_seq h - sq_receive_seq h)) with (sq_send_seq h) by lia.
    by constructor.
  - exists (W ++ [sq_send_seq h]). rewrite wire_blocks_app.
    rewrite (wire_blocks_frames [_]) by (by constructor). split.
    + apply Forall2_app; [by apply is_blocks_app|]. by constructor.
    + apply (unambiguous_snoc _ _ (sq_send_seq h)); [done| |lia..].
      rewrite Hq. by eapply is_blocks_lt.
  - exists A. by rewrite ?Hr2.
  - by apply prefix_app_r.
Qed.

(** [command_event]: what it writes are the blocks it builds. *)
Lemma command_loop_inv b fuel : ∀ sq blks w m r hist del t sq' wt,
  command_loop fuel sq (concat blks) t = Some (sq', wt) → sq.(sq_receive_seq) < 2 ^ 63 →
  link_inv b (mk_link sq (w ++ blks) m r hist del) →
  ∃ blks', Forall is_frame blks' ∧ sq'.(sq_written) = sq.(sq_written) ++ concat (blks ++ blks')
    ∧ link_inv b (mk_link sq' (w ++ blks ++ blks') m r (hist ++ map block_contents blks') del).
Proof.
  induction fuel as [|fuel IH]; intros sq blks w m r hist del t sq' wt Hl Hmax Hinv; [done|].
  simpl in Hl. set (buflen := Z.of_nat (length (concat blks))) in Hl.
  pose proof (window_check sq buflen t) as Hchk. pose proof (check_now_window sq buflen t) as Hack.
  destruct (check_send_command sq buflen t) as [sq1 wt1]. simpl in Hchk, Hack.
  unfold window_of in Hchk. injection Hchk as Hs1 Hr1 Hw1 Hq1.
  set (now := PrimFloat.eqb wt1 PR_NOW) in *.
  match type of Hl with (let '(_, _) := (if ?c then _ else _) in _) = _ => set (flush := c) in Hl end.
  assert (Hnil : buflen = 0 → concat blks = []) by (intros; apply nil_length_inv; lia).
  destruct now eqn:Hnow; simpl in Hl.
  - (* a block is built, after the buffer has been written or not *)
    match type of Hl with (let '(_, _) := ?p in _) = _ => set (fl := p) in Hl end.
    assert (Hfl : ∃ sq2 blks1 blks2, fl = (sq2, concat blks2) ∧ blks = blks1 ++ blks2
      ∧ sq_send_seq sq2 = sq_send_seq sq ∧ sq_receive_seq sq2 = sq_receive_seq sq
      ∧ map qm_msg (sq_sent_queue sq2) = map qm_msg (sq_sent_queue sq)
      ∧ sq_written sq2 = sq_written sq ++ concat blks1).
    { unfold fl. destruct flush.
      - eexists _, blks, []. rewrite app_nil_r. split_and!; [reflexivity|done..|]. simpl. by rewrite Hw1.
      - exists sq1, [], blks. rewrite app_nil_r. by split_and!. }
    destruct Hfl as (sq2 & blks1 & blks2 & -> & -> & Hs2 & Hr2 & Hq2 & Hw2).
    destruct (build_and_send_command _ _ _ _) as [[sq3 blk]|] eqn:Hbuild; simpl in Hl; [|done].
    pose proof (need_ack_room _ _ _ _ _ _ _ (Hack eq_refl) Hinv) as Hroom.
    apply (link_inv_window _ _ sq2) in Hinv; [|done..].
    edestruct link_inv_build as (Hf & Hr3 & Hw3 & Hinv3); [..|exact Hbuild|exact Hinv|]; [lia|lia|].
    replace (concat blks2 ++ blk) with (concat (blks2 ++ [blk])) in Hl
      by (rewrite concat_app; simpl; by rewrite app_nil_r).
    destruct (IH _ _ (w ++ blks1) m r (hist ++ [block_contents blk]) del _ _ _ Hl)
      as (blks' & Hfr & Hw' & Hinv'); [lia| |].
    { by rewrite <- !app_assoc in *. }
    exists (blk :: blks'). split_and!; [by constructor| |].
    + rewrite Hw', Hw3, Hw2, !concat_app. simpl. by rewrite app_nil_r, <- !app_assoc.
    + rewrite <- !app_assoc in *. done.
  - (* the buffer is written and the event ends *)
    exists []. rewrite !app_nil_r. destruct flush eqn:Hflush; injection Hl as <- _.
    + split_and!; [done|simpl; by rewrite Hw1|]. by apply (link_inv_window _ sq).
    + unfold flush in Hflush. apply negb_false_iff, Z.eqb_eq, Hnil in Hflush.
      split_and!; [done|by rewrite Hflush, app_nil_r|]. by apply (link_inv_window _ sq).
Qed.

Lemma command_event_inv b fuel h w m r hist del t h' wt :
  h.(sq_send_seq) < 2 ^ 63 → command_event fuel h t = Some (h', wt) →
  link_inv b (mk_link h w m r hist del) →
  Forall is_frame (blocks_of (written h h')) ∧ written h h' = concat (blocks_of (written h h'))
  ∧ link_inv b (mk_link h' (w ++ blocks_of (written h h')) m r
                  (hist ++ map block_contents (blocks_of (written h h'))) del).
Proof.
  intros Hmax Hl Hinv. pose proof (li_m _ _ Hinv) as Hm. simpl in Hm.
  destruct (command_loop_inv b fuel h [] w m r hist del t h' wt) as (blks & Hf & Hw & Hinv');
    [done|lia|by rewrite app_nil_r|]. simpl in Hw, Hinv'.
  unfold written. rewrite Hw, drop_app_length, blocks_of_frames by done. done.
Qed.

Lemma sent_frames b h w m r hist del :
  link_inv b (mk_link h w m r hist del) → Forall is_frame (map qm_msg h.(sq_sent_queue)).
Proof.
  intros Hinv. pose proof (li_sent _ _ Hinv) as Hs. simpl in Hs. revert Hs. generalize (seqZ
    (sq_receive_seq h) (sq_send_seq h - sq_receive_seq h)). intros W.
  induction 1 as [|i u W us (_ & c & _ & Hc & ->) _ IH]; constructor; [|done]. by eexists _, _.
Qed.

Lemma retransmit_written b h w m r hist del t :
  link_inv b (mk_link h w m r hist del) →
  blocks_of (written h (retransmit_event h t).1) = [MESSAGE_SYNC] :: map qm_msg h.(sq_sent_queue).
Proof.
  intros Hinv. assert (Hw : sq_written (retransmit_event h t).1
    = sq_written h ++ MESSAGE_SYNC :: concat (map qm_msg (sq_sent_queue h)))
    by exact (f_equal w_written (window_retransmit h t)).
  unfold written. rewrite Hw, drop_app_length. apply blocks_of_sync. by eapply sent_frames.
Qed.

Lemma link_inv_retransmit b h w m r hist del t :
  link_inv b (mk_link h w m r hist del) →
  link_inv b (mk_link (retransmit_event h t).1
                (w ++ [MESSAGE_SYNC] :: map qm_msg h.(sq_sent_queue)) m r hist del).
Proof.
  intros Hinv. pose proof (sent_frames _ _ _ _ _ _ _ Hinv) as Hf. pose proof (window_retransmit h t) as Hwr.
  apply (link_inv_window _ h); [exact (f_equal w_send Hwr)|exact (f_equal w_receive Hwr)
    |exact (f_equal w_sent Hwr)|].
  destruct Hinv as [Hb Hq Hqm Hr Hwin Hm Hsent (W & HW & Hun) HA Hn Hsy Hp]. simpl in *.
  constructor; simpl; try done.
  exists (W ++ seqZ (sq_receive_seq h) (sq_send_seq h - sq_receive_seq h)).
  rewrite wire_blocks_app, wire_blocks_cons, decide_True by done.
  rewrite (wire_blocks_frames (map qm_msg _)) by done.
  split; [by apply Forall2_app|]. apply (unambiguous_app _ _ (sq_send_seq h)); [done| |lia|].
  - rewrite Hq. by eapply is_blocks_lt.
  - apply Forall_forall. intros i Hi%elem_of_seqZ. lia.
Qed.

Lemma link_inv_lose_block b h w1 u w2 m r hist del :
  link_inv b (mk_link h (w1 ++ u :: w2) m r hist del) →
  link_inv b (mk_link h (w1 ++ w2) m r hist del).
Proof.
  intros [Hb Hq Hqm Hr Hwin Hm Hsent (W & HW & Hun) HA Hn Hsy Hp]. simpl in *.
  constructor; simpl; try done. rewrite !wire_blocks_app, wire_blocks_cons in *.
  destruct (decide _); [by exists W|].
  apply Forall2_app_inv_r in HW as (W1 & W' & HW1 & HW2 & ->).
  apply Forall2_cons_inv_r in HW2 as (i & W2 & Hi & HW2 & ->).
  exists (W1 ++ W2). split; [by apply Forall2_app|]. by eapply unambiguous_lose.
Qed.

(** Only the receiver's part of the firmware matters. *)
Lemma link_inv_mcu b h w m m' r hist del :
  m'.(cmd) = m.(cmd) →
  link_inv b (mk_link h w m r hist del) → link_inv b (mk_link h w m' r hist del).
Proof.
  intros Hc []. simpl in *. unfold need_sync in *.
  constructor; simpl; unfold need_sync; rewrite ?Hc; done.
Qed.

(** Responses carry the number the firmware expects next. *)
Definition carries (seq : Z) (blk : list Z) : Prop := blk !! 1%nat = Some seq.

Lemma link_inv_replies b h w m r hist del rs :
  Forall (carries m.(cmd).(next_sequence)) rs →
  link_inv b (mk_link h w m r hist del) → link_inv b (mk_link h w m (r ++ rs) hist del).
Proof.
  intros Hrs [Hb Hq Hqm Hr Hwin Hm Hsent HW (A & HA & Hso & Hbd) Hn Hsy Hp]. simpl in *.
  constructor; simpl; try done. set (j := b + Z.of_nat (length del)) in *.
  exists (A ++ replicate (length rs) j). split_and!.
  - apply Forall2_app; [done|]. rewrite Hn in Hrs. clear -Hrs.
    induction Hrs; simpl; constructor; done.
  - apply StronglySorted_app. split_and!; [|done|].
    + intros x y Hx [-> _]%elem_of_replicate. rewrite Forall_forall in Hbd. apply Hbd in Hx. lia.
    + induction (length rs) as [|n IH]; simpl; constructor; [done|].
      apply Forall_forall. intros y [-> _]%elem_of_replicate. lia.
  - apply Forall_app. split; [done|]. apply Forall_forall. intros y [-> _]%elem_of_replicate. lia.
Qed.

Lemma link_inv_lose_reply b h w m r1 blk r2 hist del :
  link_inv b (mk_link h w m (r1 ++ blk :: r2) hist del) →
  link_inv b (mk_link h w m (r1 ++ r2) hist del).
Proof.
  intros [Hb Hq Hqm Hr Hwin Hm Hsent HW (A & HA & Hso & Hbd) Hn Hsy Hp]. simpl in *.
  constructor; simpl; try done.
  apply Forall2_app_inv_r in HA as (A1 & A' & HA1 & HA2 & ->).
  apply Forall2_cons_inv_r in HA2 as (a & A2 & Ha & HA2 & ->).
  exists (A1 ++ A2). split_and!; [by apply Forall2_app| |].
  - rewrite StronglySorted_app in *. destruct Hso as (H1 & H2 & H3%StronglySorted_inv).
    split_and!; [|done|tauto]. intros x y Hx Hy. apply H1; [done|by right].
  - rewrite Forall_app, Forall_cons in *. tauto.
Qed.

(** *** The firmware receives *)

(** The firmware accepts only the block it expects. *)
Lemma find_block_number b hist i blk rest m j :
  is_block b hist i blk → need_sync m = false → m.(cmd).(next_sequence) = seq_byte j →
  -16 < i - j < 16 →
  command_find_block (blk ++ rest) (Z.of_nat (length (blk ++ rest))) m
  = if i =? j then (Ret (1, Z.of_nat (length blk)), accepted m)
    else (Ret (-1, Z.of_nat (length blk)), refused m).
Proof.
  intros (Hb & c & Hc & Hlen & ->) Hsy Hn Hij.
  rewrite (find_block_intact (seq_byte i) c rest _ m (seq_byte_ok i) Hlen Hsy)
    by (rewrite length_app; lia).
  rewrite Hn. destruct (Z.eqb_spec i j) as [->|Hne]; [by rewrite Z.eqb_refl|].
  rewrite (proj2 (Z.eqb_neq _ _)); [done|]. intros Heq. by apply seq_byte_inj in Heq.
Qed.

Lemma accepted_sync m : need_sync (accepted m) = need_sync m.
Proof. unfold accepted, need_sync, flag_set. simpl. by rewrite <- Z.land_assoc. Qed.

Lemma refused_cmd m :
  (refused m).(cmd).(next_sequence) = m.(cmd).(next_sequence)
  ∧ need_sync (refused m) = need_sync m ∧ (refused m).(cmd).(in_sendf) = m.(cmd).(in_sendf).
Proof.
  unfold refused, need_sync, sent, flag_set.
  assert (Hs : ∀ x, Z.land (Z.land x (Z.lnot CF_NEED_VALID)) CF_NEED_SYNC = Z.land x CF_NEED_SYNC)
    by (intros x; by rewrite <- Z.land_assoc).
  destruct (in_sendf _) eqn:Hf; simpl in *; by rewrite Hs.
Qed.

(** The number of the block that arrives next. *)
Lemma link_inv_head b h u w m r hist del :
  link_inv b (mk_link h (u :: w) m r hist del) →
  let j := b + Z.of_nat (length del) in
  u = [MESSAGE_SYNC]
  ∨ ∃ i, is_block b hist i u ∧ -16 < i - j < 16
      ∧ ∃ W, Forall2 (is_block b hist) W (wire_blocks w) ∧ unambiguous W (Z.max j (i + 1)).
Proof.
  intros [Hb Hq Hqm Hr Hwin Hm Hsent (W & HW & Hun) HA Hn Hsy Hp] j. simpl in *.
  rewrite wire_blocks_cons in HW. destruct (decide _) as [->|]; [by left|right].
  apply Forall2_cons_inv_r in HW as (i & W' & Hi & HW & ->). simpl in Hun.
  exists i. split_and!; [done|unfold j; lia| |exists W'; tauto].
  apply is_block_lt in Hi. unfold j. lia.
Qed.

Lemma link_inv_accept b h u w w' m m' r hist del :
  let j := b + Z.of_nat (length del) in
  is_block b hist j u → m'.(cmd) = (accepted m).(cmd) →
  (∃ W, Forall2 (is_block b hist) W (wire_blocks w') ∧ unambiguous W (j + 1)) →
  link_inv b (mk_link h w m r hist del) →
  link_inv b (mk_link h w' m' r hist (del ++ [block_contents u])).
Proof.
  intros j Hi Hcmd (W & HW & Hun).
  intros [Hb Hq Hqm Hr Hwin Hm Hsent _ (A & HA & Hso & Hbd) Hn Hsy Hp].
  simpl in *. destruct Hi as (_ & c & Hc & Hlen & ->). rewrite block_contents_frame.
  replace (Z.to_nat (j - b)) with (length del) in Hc by lia.
  assert (Hdel : del ++ [c] `prefix_of` hist).
  { destruct Hp as [tl ->]. exists (drop 1 tl). rewrite lookup_app_r, Nat.sub_diag in Hc by lia.
    destruct tl as [|c' tl]; simplify_eq/=. by rewrite <- app_assoc. }
  pose proof (prefix_length _ _ Hdel) as Hpl. rewrite length_app in Hpl. simpl in Hpl.
  constructor; simpl; rewrite ?length_app; simpl; try lia; try done.
  - exists W. split; [done|]. eapply unambiguous_mono; [done|lia].
  - exists A. split_and!; [done..|]. eapply Forall_impl; [done|]. simpl. lia.
  - rewrite Hcmd. simpl. rewrite Hn, seq_byte_next. f_equal. lia.
  - transitivity (need_sync (accepted m)); [unfold need_sync; by rewrite Hcmd|].
    by rewrite accepted_sync.
Qed.

Lemma link_inv_skip b h u w m m' r hist del :
  m'.(cmd).(next_sequence) = m.(cmd).(next_sequence) → need_sync m' = need_sync m →
  link_inv b (mk_link h (u :: w) m r hist del) → link_inv b (mk_link h w m' r hist del).
Proof.
  intros Hn' Hs' Hinv. apply (link_inv_lose_block _ _ [] u w) in Hinv. simpl in Hinv.
  destruct Hinv as [Hb Hq Hqm Hr Hwin Hm Hsent HW HA Hn Hsy Hp]. simpl in *.
  constructor; simpl; rewrite ?Hn', ?Hs'; done.
Qed.

Lemma link_inv_handle b h blk w m r hist del t now :
  link_inv b (mk_link h w m (blk :: r) hist del) →
  link_inv b (mk_link (handle_message h t now blk) w m r hist del).
Proof.
  intros [Hb Hq Hqm Hr Hwin Hm Hsent HW (A & HA & Hso & Hbd) Hn Hsy Hp]. simpl in *.
  apply Forall2_cons_inv_r in HA as (a & A' & Ha & HA & ->).
  apply Forall_cons in Hbd as [Hab Hbd]. apply StronglySorted_inv in Hso as [Hso Hge].
  pose proof (Forall2_length _ _ _ Hsent) as Hl. rewrite length_seqZ, length_map in Hl.
  assert (Hw : window_of (handle_message h t now blk) = mk_window (sq_send_seq h) a (sq_written h)
    (drop (Z.to_nat (a - sq_receive_seq h)) (map qm_msg (sq_sent_queue h)))).
  { apply window_handle_message; [done|lia..]. }
  injection Hw as Hs' Hr' _ Hq'. constructor; simpl; rewrite ?Hs', ?Hr', ?Hq'; try lia; try done.
  - replace (sq_send_seq h - sq_receive_seq h)
      with ((a - sq_receive_seq h) + (sq_send_seq h - a)) in Hsent by lia.
    rewrite seqZ_app in Hsent by lia. apply Forall2_app_inv_l in Hsent as (k1 & k2 & H1 & H2 & ->).
    apply Forall2_length in H1. rewrite length_seqZ in H1. rewrite drop_app_length' by done.
    by replace (sq_receive_seq h + (a - sq_receive_seq h)) with a in H2 by lia.
  - exists A'. split_and!; [done..|]. rewrite Forall_forall in Hge, Hbd |- *.
    intros x Hx. specialize (Hge x Hx). specialize (Hbd x Hx). lia.
Qed.

(** *** What a unit at the front of the receive buffer does *)

Lemma replies_carry m m' : Forall (carries m'.(cmd).(next_sequence)) (replies m m').
Proof.
  unfold replies, responses. apply Forall_forall. intros blk Hblk.
  apply list_elem_of_omap in Hblk as (e & _ & He). destruct e; simplify_eq. done.
Qed.

Lemma replies_last m m' fmt args evs :
  m'.(trace) = Ev_send fmt args :: evs ++ m.(trace) →
  last (replies m m') = Some (frame m'.(cmd).(next_sequence) (enc fmt args)).
Proof.
  intros Ht. unfold replies. rewrite Ht. simpl length. rewrite length_app.
  replace (S (length evs + length (trace m)) - length (trace m))%nat with (S (length evs)) by lia.
  simpl. rewrite take_app_length. unfold responses. simpl. rewrite omap_app. simpl.
  by rewrite last_snoc.
Qed.

Record link_ok (b : Z) (lk : link) : Prop := {
  lo_inv : link_inv b lk;
  lo_bytes : Forall byte_list lk.(lk_history);
  lo_J : J lk.(lk_mcu);
  lo_idle : lk.(lk_mcu).(cmd).(in_sendf) = false;
}.

Hypothesis Hfw : firmware_ok.

Lemma frame_bytes seq c :
  is_byte seq → (length c <= 59)%nat → byte_list c → byte_list (frame seq c).
Proof.
  intros Hs Hl Hc. unfold frame, MESSAGE_MIN.
  set (crc := crc16_ccitt _).
  assert (Hr : 0 <= crc < 2 ^ 16) by apply crc16_ccitt_range.
  clearbody crc. unfold is_byte in *.
  apply Forall_app. split; repeat (apply Forall_cons_2;
    [unfold MESSAGE_SYNC; Z.div_mod_to_equations; lia|]); done.
Qed.

Lemma wire_bytes b hist W w :
  Forall byte_list hist → Forall2 (is_block b hist) W (wire_blocks w) → byte_list (concat w).
Proof.
  intros Hh. revert W. induction w as [|u w IH]; intros W HW; [done|].
  rewrite wire_blocks_cons in HW. rewrite concat_cons. apply Forall_app.
  destruct (decide _) as [->|]; [split; [by repeat constructor|by eapply IH]|].
  apply Forall2_cons_inv_r in HW as (i & W' & (_ & c & Hc & Hl & ->) & HW & ->).
  split; [|by eapply IH]. apply frame_bytes; [|done|].
  - pose proof (seq_byte_ok i). unfold seq_ok, is_byte in *. lia.
  - eapply (Forall_lookup_1 byte_list); eauto.
Qed.

(** A block with the expected number: it runs and is acknowledged, or shuts the
    firmware down. *)
Definition ran (m : mcu) (n : nat) (o : outcome (Z * Z) * mcu) : Prop :=
  match o with
  | (Ret p, m') => p = (1, Z.of_nat n) ∧ J m' ∧ m'.(cmd) = (accepted m).(cmd)
      ∧ ∃ evs, m'.(trace) = Ev_send "" [] :: evs ++ m.(trace)
  | (Shut _, m1) => K m1 ∧ sends_from (accepted m).(cmd) m.(trace) m1
  | _ => False
  end.

Lemma dispatch_block m seq c rest :
  J m → m.(cmd).(in_sendf) = false → need_sync m = false → (length c <= 59)%nat →
  byte_list (frame seq c ++ rest) →
  command_find_block (frame seq c ++ rest) (Z.of_nat (length (frame seq c ++ rest))) m
    = (Ret (1, Z.of_nat (length (frame seq c))), accepted m) →
  ran m (length (frame seq c)) (command_find_and_dispatch index (frame seq c ++ rest)
    (Z.of_nat (length (frame seq c ++ rest))) m).
Proof.
  intros HJ Hidle Hsy Hc Hb Hfind. unfold command_find_and_dispatch, mbind, M_bind. rewrite Hfind.
  set (n := length (frame seq c)).
  assert (Hd : wp (command_dispatch index (frame seq c ++ rest) (Z.of_nat n))
    (λ _ s, J s ∧ sends_from (accepted m).(cmd) m.(trace) s)
    (λ _ s, K s ∧ sends_from (accepted m).(cmd) m.(trace) s) (accepted m)).
  { apply wp_command_dispatch; [apply Hfw|done|done|]. split; [by apply Hfw|done]. }
  unfold wp in Hd. simpl. unfold mbind, M_bind.
  destruct (command_dispatch _ _ _ _) as [[[]| |] m1]; [|done..].
  destruct Hd as (HJ1 & Hc1 & (evs & Ht)).
  assert (Hack : command_send_ack m1 = (Ret tt, sent "" [] m1)).
  { pose proof (op_command_sendf "" [] m1) as Ho. exact Ho. }
  rewrite Hack. unfold ran. simpl. unfold sent. rewrite Hc1. simpl. rewrite Hidle. simpl.
  split_and!; [done| |done|exists evs; by rewrite Ht].
  pose proof (ho_sent _ _ _ (fo_handlers Hfw (cmd m1) (trace m1)) "" [] m1) as Hs.
  destruct Hs as [Hs _]; [done|]. unfold sent in Hs. rewrite Hc1 in Hs. simpl in Hs.
  by rewrite Hidle in Hs.
Qed.

Lemma receive_sync rest m :
  need_sync m = false →
  let n := Z.of_nat (length ([MESSAGE_SYNC] ++ rest)) in
  command_find_and_dispatch index ([MESSAGE_SYNC] ++ rest) n m
  = (Ret (if n <? MESSAGE_MIN then (0, 0) else (-1, 1)), m).
Proof.
  intros Hsy n. unfold command_find_and_dispatch, command_find_block, mbind, M_bind, gets. simpl.
  unfold need_sync in Hsy. rewrite Hsy, ?andb_false_r. by destruct (n <? MESSAGE_MIN).
Qed.

Lemma receive_block b h i u w m r hist del rest :
  link_ok b (mk_link h (u :: w) m r hist del) → is_block b hist i u →
  -16 < i - (b + Z.of_nat (length del)) < 16 → rest `prefix_of` concat w →
  let o := command_find_and_dispatch index (u ++ rest) (Z.of_nat (length (u ++ rest))) m in
  if i =? b + Z.of_nat (length del) then ran m (length u) o
  else o = (Ret (-1, Z.of_nat (length u)), refused m).
Proof.
  intros [Hinv Hby HJ Hid] Hi Hij Hrest o.
  pose proof (li_wire _ _ Hinv) as (W & HW & _). pose proof (li_sync _ _ Hinv) as Hsy.
  pose proof (li_next _ _ Hinv) as Hn. simpl in *.
  pose proof (find_block_number b hist i u rest m _ Hi Hsy Hn Hij) as Hf.
  apply wire_bytes in HW; [|done]. rewrite concat_cons in HW.
  destruct Hrest as [tl Htl]. rewrite Htl, app_assoc in HW. apply Forall_app in HW as [HW _].
  destruct (Z.eqb_spec i (b + Z.of_nat (length del))) as [Heq|Hne].
  - destruct Hi as (_ & c & Hc & Hl & ->). by apply dispatch_block.
  - unfold o, command_find_and_dispatch, mbind, M_bind. by rewrite Hf.
Qed.

Lemma J_refused m : J m → J (refused m).
Proof.
  intros HJ. unfold refused. set (m1 := m <| cmd ::= _ |>).
  assert (HJ1 : J m1) by (by apply (fo_cmd Hfw)).
  by destruct (ho_sent _ _ _ (fo_handlers Hfw (cmd m1) (trace m1)) "" [] m1) as [Hs _].
Qed.

Lemma cmd_idle c : c.(in_sendf) = false → c <| in_sendf := false |> = c.
Proof. destruct c. simpl. by intros ->. Qed.

(** Accepting a block, with the unit gone or kept in the buffer. *)
Lemma link_ok_accept b h u w m m' r hist del keep :
  let j := b + Z.of_nat (length del) in
  link_ok b (mk_link h (u :: w) m r hist del) → is_block b hist j u →
  (∃ W, Forall2 (is_block b hist) W (wire_blocks w) ∧ unambiguous W (Z.max j (j + 1))) →
  J m' → m'.(cmd) = (accepted m).(cmd) →
  link_ok b (mk_link h (if keep : bool then u :: w else w) m' (r ++ replies m m') hist
               (del ++ [block_contents u])).
Proof.
  intros j [Hinv Hby HJ Hid] Hi (W & HW & Hun) HJ' Hcmd. rewrite Z.max_r in Hun by lia.
  constructor; [|done|done|by simpl; rewrite Hcmd].
  apply link_inv_replies; [simpl; apply replies_carry|].
  eapply (link_inv_accept b h u (u :: w)); [done|done| |done].
  destruct keep; [|by exists W].
  exists (j :: W). rewrite wire_blocks_cons, decide_False by (by eapply block_not_sync).
  split; [by constructor|]. simpl. split; [lia|]. eapply unambiguous_mono; [done|lia].
Qed.

Lemma link_receive_ok b h u w m r hist del rest ret m' :
  link_ok b (mk_link h (u :: w) m r hist del) → rest `prefix_of` concat w →
  command_find_and_dispatch index (u ++ rest) (Z.of_nat (length (u ++ rest))) m
    = (Ret (ret, Z.of_nat (length u)), m') →
  link_ok b (mk_link h w m' (r ++ replies m m') hist
    (if 0 <? ret then del ++ [block_contents u] else del)).
Proof.
  intros Hok Hrest Ho. pose proof Hok as [Hinv Hby HJ Hid].
  destruct (link_inv_head _ _ _ _ _ _ _ _ Hinv) as [->|(i & Hi & Hij & HW)].
  - rewrite receive_sync in Ho by apply (li_sync _ _ Hinv).
    destruct (_ <? MESSAGE_MIN); simplify_eq. simpl in *.
    unfold replies. rewrite Nat.sub_diag. simpl. unfold responses. simpl. rewrite app_nil_r.
    constructor; try done. by eapply link_inv_skip.
  - pose proof (receive_block _ _ _ _ _ _ _ _ _ _ Hok Hi Hij Hrest) as Hb. cbv zeta in Hb.
    rewrite Ho in Hb. destruct (Z.eqb_spec i (b + Z.of_nat (length del))) as [->|Hne].
    + destruct Hb as ([= ->] & HJ' & Hcmd & _). simpl.
      by apply (link_ok_accept _ _ _ _ _ _ _ _ _ false).
    + injection Hb as -> ->. simpl. destruct (refused_cmd m) as (Hn & Hs & Hi').
      constructor; [|done|by apply J_refused|by simpl; rewrite Hi'].
      apply link_inv_replies; [simpl; apply replies_carry|]. by eapply link_inv_skip.
Qed.

Lemma link_shutdown_ok b h u w m r hist del rest msg m1 m' :
  link_ok b (mk_link h (u :: w) m r hist del) → rest `prefix_of` concat w →
  command_find_and_dispatch index (u ++ rest) (Z.of_nat (length (u ++ rest))) m
    = (Shut msg, m1) →
  run_shutdown shutdownfuncs msg m1 = (Ret tt, m') →
  link_ok b (mk_link h (u :: w) m' (r ++ replies m m') hist (del ++ [block_contents u])).
Proof.
  intros Hok Hrest Ho Hrun. pose proof Hok as [Hinv Hby HJ Hid].
  destruct (link_inv_head _ _ _ _ _ _ _ _ Hinv) as [->|(i & Hi & Hij & HW)].
  { by rewrite receive_sync in Ho by apply (li_sync _ _ Hinv). }
  pose proof (receive_block _ _ _ _ _ _ _ _ _ _ Hok Hi Hij Hrest) as Hb. cbv zeta in Hb.
  rewrite Ho in Hb. destruct (Z.eqb_spec i (b + Z.of_nat (length del))) as [->|Hne]; [|done].
  destruct Hb as [HK Hs]. pose proof (fo_shutdown Hfw _ _ msg _ HK Hs) as Hw. unfold wp in Hw.
  rewrite Hrun in Hw. destruct Hw as (HJ' & Hcmd & _). rewrite cmd_idle in Hcmd by done.
  by apply (link_ok_accept _ _ _ _ _ _ _ _ _ true).
Qed.

Lemma block_contents_bytes us :
  byte_list (concat us) → Forall byte_list (map block_contents us).
Proof.
  induction us as [|u us IH]; [done|]. rewrite concat_cons. intros [Hu Hus]%Forall_app.
  constructor; [|auto]. by apply Forall_take, Forall_drop.
Qed.

Lemma link_step_ok b lk lk' : link_ok b lk → link_step lk lk' → link_ok b lk'.
Proof.
  intros Hok Hstep. pose proof Hok as [Hinv Hby HJ Hid].
  destruct Hstep as [? ? ? ? ? ? ? ? ? ? Hs|? ? ? ? ? ? ? ? ? ? Hmax Hev Hwr| | | |
    |? ? ? ? ? ? ? ? HJ' Hcmd| |].
  - apply window_send_batch in Hs. constructor; try done. apply (link_inv_window _ h); [..|done].
    + exact (f_equal w_send Hs).
    + exact (f_equal w_receive Hs).
    + exact (f_equal w_sent Hs).
  - destruct (command_event_inv _ _ _ _ _ _ _ _ _ _ _ Hmax Hev Hinv) as (Hf & Heq & Hinv').
    constructor; try done. simpl. apply Forall_app. split; [done|].
    apply block_contents_bytes. by rewrite <- Heq.
  - constructor; try done. subst h'. rewrite (retransmit_written _ _ _ _ _ _ _ t Hinv).
    by apply link_inv_retransmit.
  - constructor; try done. by eapply link_inv_lose_block.
  - by eapply link_receive_ok.
  - by eapply link_shutdown_ok.
  - constructor; try done; [|by simpl; rewrite Hcmd].
    apply (link_inv_mcu _ _ _ m); [done|]. apply link_inv_replies; [|done].
    simpl. clear. by induction cs; constructor.
  - constructor; try done. by eapply link_inv_lose_reply.
  - constructor; try done. by apply link_inv_handle.
Qed.

Lemma link_rtc_ok b lk lk' : link_ok b lk → rtc link_step lk lk' → link_ok b lk'.
Proof.
  intros Hok Hr. induction Hr as [|x y z Hxy Hyz IH]; [done|].
  apply IH. by eapply link_step_ok.
Qed.

Lemma connected_ok b lk : connected b lk → link_ok b lk.
Proof.
  intros Hc. pose proof (connected_inv _ _ Hc) as Hinv.
  destruct Hc as (_ & _ & _ & _ & _ & _ & _ & _ & Hid & HJ & Hh & _).
  constructor; try done. by rewrite Hh.
Qed.

Lemma link_reachable_ok b lk0 lk : connected b lk0 → rtc link_step lk0 lk → link_ok b lk.
Proof. intros Hc. by apply link_rtc_ok, connected_ok. Qed.

(** ** Delivery *)

(** The last reply tells the host the number [j]. *)
Definition tells (j : Z) (rs : list (list Z)) : Prop :=
  ∃ rep, last rs = Some rep ∧ carries (seq_byte j) rep.

Lemma tells_app j rs rs' : tells j rs' → tells j (rs ++ rs').
Proof.
  intros (rep & Hl & Hc). exists rep. split; [|done].
  rewrite last_app. by rewrite Hl.
Qed.

(** A block the firmware has already accepted is answered with the number it
    expects. *)
Lemma receive_old b h i u w m r hist del :
  let j := b + Z.of_nat (length del) in
  link_ok b (mk_link h (u :: w) m r hist del) → is_block b hist i u → j - 16 < i < j →
  ∃ m' rs, link_step (mk_link h (u :: w) m r hist del) (mk_link h w m' (r ++ rs) hist del)
    ∧ tells j rs.
Proof.
  intros j Hok Hi Hij. pose proof Hok as [Hinv _ _ Hid]. simpl in Hid.
  pose proof (receive_block _ _ _ _ _ _ _ _ _ [] Hok Hi ltac:(lia) (prefix_nil _)) as Hb.
  cbv zeta in Hb. rewrite (proj2 (Z.eqb_neq _ _)) in Hb by lia.
  exists (refused m), (replies m (refused m)). split.
  { exact (L_receive h u w m r hist del [] _ _ (prefix_nil _) Hb). }
  assert (Ht : trace (refused m) = Ev_send "" [] :: [] ++ trace m).
  { unfold refused, sent. simpl. by rewrite Hid. }
  eexists. split; [by eapply replies_last|]. unfold carries.
  rewrite (proj1 (refused_cmd m)). pose proof (li_next _ _ Hinv) as Hn. simpl in Hn. by rewrite Hn.
Qed.

(** The firmware processes the next block: it expects the block after it then. *)
Lemma receive_head b h i u w m r hist del :
  let j := b + Z.of_nat (length del) in
  link_ok b (mk_link h (u :: w) m r hist del) → is_block b hist i u → j - 16 < i <= j →
  ∃ m' rs del', rtc link_step (mk_link h (u :: w) m r hist del)
                  (mk_link h w m' (r ++ rs) hist del')
    ∧ b + Z.of_nat (length del') = Z.max j (i + 1) ∧ tells (b + Z.of_nat (length del')) rs.
Proof.
  intros j Hok Hi Hij. destruct (decide (i = j)) as [->|Hne].
  2: { destruct (receive_old b h i u w m r hist del) as (m' & rs & Hstep & Ht); [done..|lia|].
       exists m', rs, del. split_and!; [by apply rtc_once|lia|done]. }
  pose proof (receive_block _ _ _ _ _ _ _ _ _ [] Hok Hi ltac:(lia) (prefix_nil _)) as Hb.
  cbv zeta in Hb. fold j in Hb. rewrite Z.eqb_refl in Hb. unfold ran in Hb.
  destruct (command_find_and_dispatch _ _ _ _) as [[p|msg|e] m1] eqn:Ho; [| |done].
  - destruct Hb as (-> & HJ & Hcmd & evs & Ht).
    eexists m1, (replies m m1), (del ++ [block_contents u]). split_and!.
    + apply rtc_once. exact (L_receive h u w m r hist del [] 1 _ (prefix_nil _) Ho).
    + rewrite length_app. simpl. lia.
    + eexists. split; [by eapply replies_last|]. unfold carries. rewrite Hcmd. simpl.
      rewrite length_app. simpl. pose proof (li_next _ _ (lo_inv _ _ Hok)) as Hn. simpl in Hn.
      rewrite Hn, seq_byte_next. do 2 f_equal. lia.
  - destruct Hb as [HK Hs]. pose proof (fo_shutdown Hfw _ _ msg _ HK Hs) as Hw. unfold wp in Hw.
    destruct (run_shutdown _ _ _) as [[[]| |] m2] eqn:Hrun; [|done..].
    pose proof (L_shutdown h u w m r hist del [] msg m1 m2 (prefix_nil _) Ho Hrun) as Hstep.
    pose proof (link_step_ok _ _ _ Hok Hstep) as Hok2.
    destruct (receive_old _ _ _ _ _ _ _ _ _ Hok2 Hi) as (m' & rs & Hstep' & Ht).
    { rewrite length_app. simpl. lia. }
    rewrite <- app_assoc in Hstep'.
    eexists m', _, _. split_and!; [eapply rtc_l; [exact Hstep|apply rtc_once, Hstep']| |].
    + rewrite length_app. simpl. lia.
    + by apply tells_app.
Qed.

(** A complete retransmission that arrives brings the firmware up to date, and
    the last reply says so. *)
Lemma drain_wire b h k : ∀ i w m r hist del,
  link_ok b (mk_link h w m r hist del) →
  Forall2 (is_block b hist) (seqZ i (Z.of_nat (S k))) w →
  b + Z.of_nat (length del) - 16 < i <= b + Z.of_nat (length del) →
  i + Z.of_nat (S k) = h.(sq_send_seq) →
  ∃ m' r' del', rtc link_step (mk_link h w m r hist del) (mk_link h [] m' (r ++ r') hist del')
    ∧ b + Z.of_nat (length del') = h.(sq_send_seq) ∧ tells h.(sq_send_seq) r'.
Proof.
  induction k as [|k IH]; intros i w m r hist del Hok HW Hi Hq;
    rewrite Nat2Z.inj_succ, seqZ_cons in HW by lia; rewrite Z.pred_succ in HW;
    apply Forall2_cons_inv_l in HW as (u & w' & Hb & HW & ->);
    destruct (receive_head _ _ _ _ _ _ _ _ _ Hok Hb Hi) as (m1 & rs & del1 & Hrtc & Hd & Ht);
    pose proof (link_rtc_ok _ _ _ Hok Hrtc) as Hok1;
    pose proof (li_m _ _ (lo_inv _ _ Hok1)) as Hm1; simpl in Hm1.
  - apply Forall2_nil_inv_l in HW as ->. exists m1, rs, del1.
    assert (Heq : b + Z.of_nat (length del1) = sq_send_seq h) by lia. rewrite <- Heq.
    by split_and!.
  - destruct (IH (Z.succ i) w' m1 (r ++ rs) hist del1) as (m' & r' & del' & Hrtc' & Hend & Ht');
      [done|done|lia|lia|].
    exists m', (rs ++ r'), del'. split_and!; [|done|by apply tells_app].
    etransitivity; [exact Hrtc|]. by rewrite app_assoc.
Qed.

(** Processing all replies brings the host up to the number of the last one. *)
Lemma drain_replies b h m r hist del :
  link_ok b (mk_link h [] m r hist del) → tells (b + Z.of_nat (length del)) r →
  ∃ h', rtc link_step (mk_link h [] m r hist del) (mk_link h' [] m [] hist del)
    ∧ h'.(sq_receive_seq) = b + Z.of_nat (length del).
Proof.
  revert h. induction r as [|x r IH]; intros h Hok (rep & Hlast & Hrep); [done|].
  pose proof (L_reply h [] m x r hist del 0%float 0%float) as Hstep.
  pose proof (link_step_ok _ _ _ Hok Hstep) as Hok'.
  destruct r as [|y r].
  2: { destruct (IH _ Hok') as (h' & Hrtc & Hr); [by exists rep|].
       exists h'. split; [by eapply rtc_l|done]. }
  simpl in Hlast. injection Hlast as <-. eexists. split; [by apply rtc_once|].
  destruct Hok as [[Hb Hq Hqm Hr Hwin Hm Hsent HW (A & HA & Hso & Hbd) Hn Hsy Hp] _ _ _]. simpl in *.
  apply Forall2_cons_inv_r in HA as (a & A' & Ha & HA & ->). apply Forall_cons in Hbd as [Hab _].
  pose proof (Forall2_length _ _ _ Hsent) as Hl. rewrite length_seqZ, length_map in Hl.
  assert (a = b + Z.of_nat (length del)) as ->.
  { unfold carries in Hrep. rewrite Hrep in Ha. injection Ha as Ha. apply seq_byte_inj in Ha; lia. }
  pose proof (window_handle_message h 0%float 0%float x _ Hrep) as Hw.
  apply (f_equal w_receive) in Hw; [done|lia..].
Qed.

Lemma all_acknowledged b h w m r hist del :
  link_ok b (mk_link h w m r hist del) → h.(sq_receive_seq) = h.(sq_send_seq) →
  del = hist ∧ h.(sq_sent_queue) = [].
Proof.
  intros [[Hb Hq Hqm Hr Hwin Hm Hsent _ _ _ _ Hp] _ _ _] Heq. simpl in *. split.
  - apply prefix_length_eq; [done|lia].
  - apply Forall2_length in Hsent. rewrite length_seqZ, length_map, Heq, Z.sub_diag in Hsent.
    by destruct (sq_sent_queue h).
Qed.

Lemma retransmission_delivers b h m hist del :
  link_ok b (mk_link h [] m [] hist del) →
  ∃ h' m', rtc link_step (mk_link h [] m [] hist del) (mk_link h' [] m' [] hist hist)
    ∧ h'.(sq_sent_queue) = [].
Proof.
  intros Hok. pose proof Hok as [Hinv _ _ _]. pose proof (li_m _ _ Hinv) as Hm.
  pose proof (li_window _ _ Hinv) as Hwin. simpl in Hm, Hwin.
  destruct (decide (sq_receive_seq h = sq_send_seq h)) as [Heq|Hne].
  { destruct (all_acknowledged _ _ _ _ _ _ _ Hok Heq) as [-> Hs]. exists h, m. by split. }
  pose proof (L_retransmit h [] m [] hist del 0%float) as Hstep. cbv zeta in Hstep.
  rewrite (retransmit_written _ _ _ _ _ _ _ 0%float Hinv) in Hstep. simpl app in Hstep.
  pose proof (window_retransmit h 0%float) as Hw.
  pose proof (f_equal w_send Hw) as Hs. pose proof (f_equal w_receive Hw) as Hr.
  clear Hw. revert Hstep Hs Hr. unfold window_of, w_send, w_receive.
  generalize (retransmit_event h 0%float).1. intros h1 Hstep Hs Hr.
  pose proof (link_step_ok _ _ _ Hok Hstep) as Hok1.
  pose proof (li_sent _ _ Hinv) as Hsent. simpl in Hsent.
  set (us := map qm_msg (sq_sent_queue h)) in *.
  replace (sq_send_seq h - sq_receive_seq h)
    with (Z.of_nat (S (Z.to_nat (sq_send_seq h - sq_receive_seq h - 1)))) in Hsent by lia.
  assert (Hsync : link_step (mk_link h1 ([MESSAGE_SYNC] :: us) m [] hist del)
    (mk_link h1 us m ([] ++ replies m m) hist del)).
  { apply (L_receive h1 [MESSAGE_SYNC] us m [] hist del (concat us) (-1)); [done|].
    rewrite receive_sync by apply (li_sync _ _ Hinv). rewrite (proj2 (Z.ltb_ge _ _)); [done|].
    rewrite seqZ_cons in Hsent by lia. inversion Hsent as [|? u ? us' (_ & c & _ & _ & ->)]. subst.
    unfold MESSAGE_MIN. rewrite concat_cons, !length_app, frame_length.
    change (length [MESSAGE_SYNC]) with 1%nat. lia. }
  pose proof (link_step_ok _ _ _ Hok1 Hsync) as Hok2.
  destruct (drain_wire b h1 _ _ us m _ hist del Hok2 Hsent) as (m' & r' & del' & Hrtc & Hd & Ht);
    [lia|lia|].
  pose proof (link_rtc_ok _ _ _ Hok2 Hrtc) as Hok3.
  destruct (drain_replies _ _ _ _ _ _ Hok3) as (h' & Hrtc' & Hrec).
  { rewrite Hd. by apply tells_app. }
  pose proof (link_rtc_ok _ _ _ Hok3 Hrtc') as Hok4.
  pose proof (li_q _ _ (lo_inv _ _ Hok4)) as Hq4. pose proof (li_q _ _ (lo_inv _ _ Hok3)) as Hq3.
  simpl in Hq3, Hq4. destruct (all_acknowledged _ _ _ _ _ _ _ Hok4) as [-> Hempty]; [lia|].
  exists h', m'. split; [|done].
  eapply rtc_l; [exact Hstep|]. eapply rtc_l; [exact Hsync|]. etransitivity; [exact Hrtc|exact Hrtc'].
Qed.

Lemma retransmit_buffer b lk :
  link_ok b lk →
  (length lk.(lk_host).(sq_sent_queue) <= 12)%nat
  ∧ (length (MESSAGE_SYNC :: concat (map qm_msg lk.(lk_host).(sq_sent_queue))) <= 64 * 12 + 1)%nat.
Proof.
  intros [Hinv _ _ _].
  pose proof (Forall2_length _ _ _ (li_sent _ _ Hinv)) as Hl. rewrite length_seqZ, length_map in Hl.
  pose proof (li_window _ _ Hinv). assert (Hn : (length (sq_sent_queue (lk_host lk)) <= 12)%nat) by lia.
  split; [done|]. simpl.
  assert (Hb : Forall (λ blk, (length blk <= 64)%nat) (map qm_msg (sq_sent_queue (lk_host lk)))).
  { eapply is_blocks_length, Hinv. }
  assert (Hcat : ∀ l : list (list Z), Forall (λ blk, (length blk <= 64)%nat) l →
    (length (concat l) <= 64 * length l)%nat).
  { induction 1; simpl; [lia|]. rewrite length_app. lia. }
  apply Hcat in Hb. rewrite length_map in Hb. lia.
Qed.

End link.

(** C1: The link is reliable although its channels are not: from a new
    connection, after any interleaving of queueing, sending, retransmitting,
    receiving (with the commands of each accepted block run to their end or into
    a shutdown) and answering, with any blocks lost in either direction, the
    blocks the firmware has accepted are exactly the first ones the host has
    built, each once and in order, although the wire carries only four bits of
    the sequence number; and at most 12 blocks are unacknowledged, so that the
    buffer of [retransmit_event] is never exceeded. *)
Theorem link_delivers_in_order {B : Board} index enc shutdownfuncs J K b lk0 lk :
  firmware_ok index shutdownfuncs J K → connected J b lk0 →
  rtc (link_step index enc shutdownfuncs J) lk0 lk →
  lk.(lk_delivered) `prefix_of` lk.(lk_history)
  ∧ (length lk.(lk_host).(sq_sent_queue) <= 12)%nat
  ∧ (length (MESSAGE_SYNC :: concat (map qm_msg lk.(lk_host).(sq_sent_queue))) <= 64 * 12 + 1)%nat.
Proof.
  intros Hfw Hc Hr. pose proof (link_reachable_ok _ _ _ _ K Hfw b lk0 lk Hc Hr) as Hok.
  split; [apply Hok|]. by eapply retransmit_buffer.
Qed.


(** ** An example run: a block is sent, lost, and still unacknowledged *)

Definition example_host : serialqueue :=
  (serialqueue_alloc_commandqueue (serialqueue_alloc SQT_UART) 1)
    <| sq_send_seq := 5 |> <| sq_receive_seq := 5 |>.
Definition example_queued : serialqueue :=
  default example_host (fst <$> serialqueue_send_batch example_host 1 [message_fill [1; 7; 5]]).
Definition example_sent : serialqueue * double :=
  default (example_host, 0%float) (command_event 4 example_queued 0%float).
Definition example_mcu : mcu :=
  init_mcu <| cmd ::= λ c, c <| next_sequence := seq_byte 5 |> |>.
Definition example_link : link := mk_link example_host [] example_mcu [] [] [].
Definition example_J (s : mcu) : Prop := is_Some (s.(timers) !! T_periodic).
Definition example_step `{Board} : link → link → Prop :=
  link_step example_index (λ _ _, []) sendf_shutdown example_J.

Lemma example_firmware `{Board} : firmware_ok example_index sendf_shutdown example_J example_J.
Proof.
  constructor.
  - intros c tr. pose proof example_handlers as [Hp _ _ _].
    assert (Hsent : ∀ fmt args s, example_J s ∧ sends_from c tr s →
      example_J (sent fmt args s) ∧ sends_from c tr (sent fmt args s)).
    { intros fmt args s (HJ & Hc & Ht). unfold sent, sends_from. destruct (in_sendf _); [done|].
      split_and!; [done..|]. by apply suffix_cons_r. }
    constructor; [done| |done|done].
    intros [|[|i]] cp args s Hne Hcp; simpl in Hcp; [done|injection Hcp as <-|done].
    intros (wss & Hw & ->) HI. simpl in *.
    apply Forall2_cons_inv_l in Hw as (w1 & wss1 & (a & -> & _) & Hw & ->).
    apply Forall2_cons_inv_l in Hw as (w2 & wss2 & (b & -> & _) & Hw & ->).
    apply Forall2_nil_inv_l in Hw as ->. simpl. wp_steps. by apply Hsent.
  - intros c tr msg s [n Hn] [Hc Ht]. unfold run_shutdown. wp_steps.
    apply (wp_mono _ (λ _ s', s'.(timers) !! T_periodic = Some n ∧ sends_from c tr s')
      _ (λ _ _, False)); [| |done].
    { apply wp_when; intros _; by wp_steps. }
    clear Hn Hc Ht. intros [] s1 (Hn & Hc & Ht). unfold sched_timer_reset, sendf_shutdown. wp_steps.
    eapply wp_read_timer; [done|]. wp_steps. unfold sent, sends_from, example_J. simpl.
    rewrite Hc. simpl. split_and!; [|done|by repeat apply suffix_cons_r].
    rewrite !lookup_alter. repeat case_decide; try done. by rewrite Hn.
  - done.
Qed.

Lemma example_connected `{Board} : connected example_J 5 example_link.
Proof.
  unfold connected. simpl. split_and!; try done; try lia. by eexists.
Qed.

Lemma example_run :
  let b := example_board in
  rtc example_step example_link (mk_link example_sent.1 [] example_mcu [] [[1; 7; 5]] []).
Proof.
  intros b. apply (rtc_l _ _ (mk_link example_queued [] example_mcu [] [] [])).
  { apply (L_queue _ _ _ _ _ _ _ _ _ _ 1 [message_fill [1; 7; 5]] _ true). vm_compute. reflexivity. }
  pose proof (L_command example_index (λ _ _, []) sendf_shutdown example_J example_queued []
    example_mcu [] [] [] 4 0%float example_sent.1 example_sent.2) as Hstep.
  eapply rtc_l; [apply Hstep|].
  - by vm_compute.
  - vm_compute. reflexivity.
  - vm_compute. repeat constructor; discriminate.
  - apply rtc_once.
    apply (L_lose_block _ _ _ _ example_sent.1 [] (frame (seq_byte 5) [1; 7; 5]) []).
Qed.

Lemma link_delivers_in_order_witness :
  ([] : list (list Z)) `prefix_of` [[1; 7; 5]]
  ∧ (length example_sent.1.(sq_sent_queue) <= 12)%nat
  ∧ (length (MESSAGE_SYNC :: concat (map qm_msg example_sent.1.(sq_sent_queue))) <= 64 * 12 + 1)%nat.
Proof.
  pose (b := example_board).
  exact (link_delivers_in_order _ _ _ _ _ 5 example_link _ example_firmware example_connected example_run).
Defined.

