(* ===== verification/Trdispatch.v ===== *)
(** * Trigger dispatch on the host (elegoo/chelper/trdispatch.c)

    While the printer homes, several micro-controllers may have to stop together.
    Each reports its state; the host passes the first trigger on to all of them,
    and extends the timeout of each as long as all the others keep reporting.
    Objects are named by their addresses; the handler runs under the lock of the
    dispatcher, so it is one function on the state. *)

From Stdlib Require Import PrimFloat FloatOps FloatAxioms.
From S2P Require Import Prelude.
From S2P Require Import Crc16.
From S2P Require Import Vlq.
From S2P Require Import Command.
From S2P Require Import MsgBlock.
From S2P Require Import SerialQueue.

(** ** State *)

Record trdispatch := mk_trdispatch {
  tdm_list : list Z;
  is_active : Z;
  can_trigger : Z;
  dispatch_reason : Z;
}.
#[export] Instance eta_trdispatch : Eta trdispatch :=
  λ r, mk_trdispatch r.(tdm_list) r.(is_active) r.(can_trigger) r.(dispatch_reason).

(** [fr_prefix] is the prefix of the embedded fast reader, which is the first
    field of the object and has its address. *)
Record trdispatch_mcu := mk_trdispatch_mcu {
  fr_prefix : list Z;
  tdm_sq : Z;
  tdm_cq : Z;
  trsync_oid : Z;
  set_timeout_msgtag : Z;
  trigger_msgtag : Z;
  last_status_clock : Z;
  expire_clock : Z;
  expire_ticks : Z;
  min_extend_ticks : Z;
  tdm_ce : clock_estimate;
}.
#[export] Instance eta_trdispatch_mcu : Eta trdispatch_mcu :=
  λ r, mk_trdispatch_mcu r.(fr_prefix) r.(tdm_sq) r.(tdm_cq) r.(trsync_oid)
         r.(set_timeout_msgtag) r.(trigger_msgtag) r.(last_status_clock) r.(expire_clock)
         r.(expire_ticks) r.(min_extend_ticks) r.(tdm_ce).

(** The objects of the host; [kicks] are the serial queues whose background
    thread was woken. *)
Record host := mk_host {
  td : trdispatch;
  tdms : gmap Z trdispatch_mcu;
  sqs : gmap Z serialqueue;
  kicks : list Z;
}.
#[export] Instance eta_host : Eta host := λ r, mk_host r.(td) r.(tdms) r.(sqs) r.(kicks).

(** ** Operations; [None] is a bad pointer *)

Definition clock_to_time (ce : clock_estimate) (clock : Z) : double :=
  (ce.(ce_conv_time) + double_of_Z (s64 (clock - ce.(ce_conv_clock))) / ce.(ce_est_freq))%D.

(** [message_alloc_and_encode] and [serialqueue_send_one]. *)
Definition send_message (h : host) (m : trdispatch_mcu) (msg : list Z) (req_clock : Z) :
    option host :=
  contents ← message_alloc_and_encode msg;
  sq ← h.(sqs) !! m.(tdm_sq);
  '(sq, mustwake) ← serialqueue_send_one sq m.(tdm_cq)
                      ((message_fill contents) <| qm_req_clock := req_clock |>);
  Some (h <| sqs ::= <[m.(tdm_sq) := sq]> |>
          <| kicks ::= λ k, if mustwake : bool then k ++ [m.(tdm_sq)] else k |>).

Definition send_trsync_trigger (h : host) (m : trdispatch_mcu) : option host :=
  send_message h m [m.(trigger_msgtag); m.(trsync_oid); h.(td).(dispatch_reason)] 0.

Definition send_trsync_set_timeout (h : host) (m : trdispatch_mcu) : option host :=
  send_message h m [m.(set_timeout_msgtag); m.(trsync_oid); u32 m.(expire_clock)] m.(expire_clock).

Fixpoint trigger_loop (ids : list Z) (h : host) : option host :=
  match ids with
  | [] => Some h
  | id :: ids =>
      m ← h.(tdms) !! id;
      h ← send_trsync_trigger h m;
      trigger_loop ids h
  end.

(** The two smallest status times, and whose the smallest is. *)
Fixpoint min_loop (h : host) (ids : list Z) (min_time next_min_time : double)
    (min_tdm : option Z) : option (double * double * option Z) :=
  match ids with
  | [] => Some (min_time, next_min_time, min_tdm)
  | id :: ids =>
      m ← h.(tdms) !! id;
      let status_time := clock_to_time m.(tdm_ce) m.(last_status_clock) in
      if (status_time <? next_min_time)%D then
        if (status_time <? min_time)%D then min_loop h ids status_time min_time (Some id)
        else min_loop h ids min_time status_time min_tdm
      else min_loop h ids min_time next_min_time min_tdm
  end.

(** The new time of expiry, if it is far enough from the last one.  The C
    comparison is between unsigned integers, since [min_extend_ticks] is. *)
Definition new_expire (m : trdispatch_mcu) (status_time : double) : option Z :=
  let expire := u64 (clock_from_time m.(tdm_ce) status_time + m.(expire_ticks)) in
  if m.(min_extend_ticks) <=? u64 (s64 (expire - m.(expire_clock))) then Some expire else None.

Definition set_timeout (h : host) (id : Z) (m : trdispatch_mcu) (status_time : double) : option host :=
  match new_expire m status_time with
  | Some expire =>
      let m := m <| expire_clock := expire |> in
      send_trsync_set_timeout (h <| tdms ::= <[id := m]> |>) m
  | None => Some h
  end.

Fixpoint timeout_loop (ids : list Z) (min_time next_min_time : double) (min_tdm : option Z)
    (h : host) : option host :=
  match ids with
  | [] => Some h
  | id :: ids =>
      m ← h.(tdms) !! id;
      let status_time := if decide (Some id = min_tdm) then next_min_time else min_time in
      h ← set_timeout h id m status_time;
      timeout_loop ids min_time next_min_time min_tdm h
  end.

(** The minimum of the others when there are no others is one's own. *)
Definition update_timeouts (h : host) : option host :=
  let ids := h.(td).(tdm_list) in
  '(min_time, next_min_time, min_tdm) ← min_loop h ids PR_NEVER PR_NEVER None;
  let next_min_time := if (next_min_time =? PR_NEVER)%D then min_time else next_min_time in
  timeout_loop ids min_time next_min_time min_tdm h.

Definition handle_trsync_state (h : host) (id : Z) (data : list Z) : option host :=
  tdm ← h.(tdms) !! id;
  '(ret, fields) ← msgblock_decode 5 data (Z.of_nat (length data));
  if negb (ret =? 0) then Some h
  else
    oid ← fields !! 1%nat;
    if negb (oid =? tdm.(trsync_oid)) then Some h
    else
      m_can_trigger ← fields !! 2%nat;
      clock ← fields !! 4%nat;
      if h.(td).(can_trigger) =? 0 then Some h
      else if m_can_trigger =? 0 then
        trigger_loop h.(td).(tdm_list) (h <| td ::= λ t, t <| can_trigger := 0 |> |>)
      else
        sq ← h.(sqs) !! tdm.(tdm_sq);
        let ce := serialqueue_get_clock_est sq in
        let tdm := tdm <| tdm_ce := ce |>
                       <| last_status_clock := clock_from_clock32 ce.(ce_last_clock) clock |> in
        update_timeouts (h <| tdms ::= <[id := tdm]> |>).

(** The loops of [trdispatch_start] and [trdispatch_stop]. *)
Fixpoint each_reader (f : serialqueue → Z → trdispatch_mcu → serialqueue) (ids : list Z) (h : host) :
    option host :=
  match ids with
  | [] => Some h
  | id :: ids =>
      m ← h.(tdms) !! id;
      sq ← h.(sqs) !! m.(tdm_sq);
      each_reader f ids (h <| sqs ::= <[m.(tdm_sq) := f sq id m]> |>)
  end.

Definition trdispatch_start (h : host) (reason : Z) : option host :=
  if negb (h.(td).(is_active) =? 0) || bool_decide (h.(td).(tdm_list) = []) then Some h
  else
    let h := h <| td ::= λ t, t <| dispatch_reason := reason |> <| is_active := 1 |>
                                <| can_trigger := 1 |> |> in
    each_reader (λ sq id m, serialqueue_add_fastreader sq id m.(fr_prefix)) h.(td).(tdm_list) h.

Definition trdispatch_stop (h : host) : option host :=
  if h.(td).(is_active) =? 0 then Some h
  else
    let h := h <| td ::= λ t, t <| is_active := 0 |> |> in
    each_reader (λ sq id _, serialqueue_rm_fastreader sq id) h.(td).(tdm_list) h.

Definition trdispatch_alloc : trdispatch := mk_trdispatch [] 0 0 0.

(** [id] is the address of the new object. *)
Definition trdispatch_mcu_alloc (h : host) (id sq cq oid timeout_tag trigger_tag state_tag : Z) :
    option host :=
  prefix ← message_alloc_and_encode [state_tag; oid];
  let m := mk_trdispatch_mcu prefix sq cq oid timeout_tag trigger_tag 0 0 0 0
             (mk_clock_estimate 0 0 0%float 0%float) in
  Some (h <| tdms ::= <[id := m]> |> <| td ::= λ t, t <| tdm_list ::= λ l, l ++ [id] |> |>).

Definition trdispatch_mcu_setup (h : host) (id status_clock expire ticks extend_ticks : Z) :
    option host :=
  m ← h.(tdms) !! id;
  sq ← h.(sqs) !! m.(tdm_sq);
  Some (h <| tdms ::= <[id := m <| last_status_clock := status_clock |> <| expire_clock := expire |>
                                <| expire_ticks := ticks |> <| min_extend_ticks := extend_ticks |>
                                <| tdm_ce := serialqueue_get_clock_est sq |>]> |>).
