(* ===== verification/TrdispatchSpec.v ===== *)
(** * Trigger dispatch: triggers reach everybody, timeouts follow the others

    The order of the doubles that are numbers, the search for the two smallest
    status times, and what a report of a micro-controller makes the host do. *)

From Stdlib Require Import PrimFloat SpecFloat FloatOps FloatAxioms.
From S2P Require Import Prelude.
From S2P Require Import Crc16.
From S2P Require Import Vlq.
From S2P Require Import Command.
From S2P Require Import MsgBlock.
From S2P Require Import SerialQueue.
From S2P Require Import Trdispatch.

(** ** The order of doubles *)

(** The place of a number in the order: its class, exponent and mantissa. *)
Definition rank_of (x : spec_float) : Z * Z * Z :=
  match x with
  | S754_infinity true => (-2, 0, 0)
  | S754_finite true m e => (-1, - e, Zneg m)
  | S754_zero _ => (0, 0, 0)
  | S754_finite false m e => (1, e, Zpos m)
  | S754_infinity false => (2, 0, 0)
  | S754_nan => (3, 0, 0)
  end.
Definition rank (x : double) : Z * Z * Z := rank_of (Prim2SF x).
Definition number (x : double) : Prop := Prim2SF x ≠ S754_nan.

Definition before (x y : Z * Z * Z) : Prop :=
  x.1.1 < y.1.1 ∨ x.1.1 = y.1.1 ∧ (x.1.2 < y.1.2 ∨ x.1.2 = y.1.2 ∧ x.2 < y.2).

Lemma SFltb_rank x y :
  x ≠ S754_nan → y ≠ S754_nan → SFltb x y = true ↔ before (rank_of x) (rank_of y).
Proof.
  unfold SFltb, before. intros Hx Hy.
  destruct x as [sx|sx| |sx mx ex], y as [sy|sy| |sy my ey]; try done;
    try destruct sx; try destruct sy; cbn; try (split; intros; (done || lia)).
  - destruct (Z.compare_spec ex ey); [|split; intros; (done || lia)..].
    change (Pos.compare_cont Eq mx my) with (Pos.compare mx my).
    destruct (Pos.compare_spec mx my); cbn; split; intros; (done || lia).
  - destruct (Z.compare_spec ex ey); [|split; intros; (done || lia)..].
    change (Pos.compare_cont Eq mx my) with (Pos.compare mx my).
    destruct (Pos.compare_spec mx my); cbn; split; intros; (done || lia).
Qed.

Lemma SFeqb_rank x y :
  x ≠ S754_nan → y ≠ S754_nan → SFeqb x y = true → rank_of x = rank_of y.
Proof.
  unfold SFeqb. intros Hx Hy.
  destruct x as [sx|sx| |sx mx ex], y as [sy|sy| |sy my ey]; try done;
    try destruct sx; try destruct sy; cbn; try done.
  all: destruct (Z.compare_spec ex ey); try done; change (Pos.compare_cont Eq mx my) with (Pos.compare mx my);
    destruct (Pos.compare_spec mx my); try done; congruence.
Qed.

Lemma ltb_rank x y : number x → number y → (x <? y)%D = true ↔ before (rank x) (rank y).
Proof. intros Hx Hy. rewrite FloatAxioms.ltb_spec. by apply SFltb_rank. Qed.

Lemma ltb_rank_false x y : number x → number y → (x <? y)%D = false ↔ ¬ before (rank x) (rank y).
Proof. intros Hx Hy. rewrite <- ltb_rank, not_true_iff_false by done. done. Qed.

(** Decide a goal about the order from comparisons of numbers. *)
Ltac order :=
  repeat match goal with
  | H : (?x <? ?y)%D = true |- _ => apply ltb_rank in H; [|done..]
  | H : (?x <? ?y)%D = false |- _ => apply ltb_rank_false in H; [|done..]
  | |- (?x <? ?y)%D = true => apply ltb_rank; [done..|]
  | |- (?x <? ?y)%D = false => apply ltb_rank_false; [done..|]
  end; unfold before in *; lia.

(** ** The smallest times *)

Section smallest.
Context (time : Z → double).

(** [T] is the smallest time of the members of [ids] other than [id]; the only
    member is its own measure. *)
Definition others_reach (ids : list Z) (id : Z) (T : double) : Prop :=
  (ids = [id] ∧ T = time id)
  ∨ ∃ c, c ∈ ids ∧ c ≠ id ∧ T = time c ∧ ∀ b, b ∈ ids → b ≠ id → (time b <? T)%D = false.

(** What the search knows after the members [pre]. *)
Definition found (pre : list Z) (mn nx : double) (mt : option Z) : Prop :=
  match mt with
  | None => pre = [] ∧ mn = PR_NEVER ∧ nx = PR_NEVER
  | Some a =>
      a ∈ pre ∧ mn = time a ∧ (∀ b, b ∈ pre → (time b <? mn)%D = false)
      ∧ (pre = [a] ∧ nx = PR_NEVER
         ∨ ∃ c, c ∈ pre ∧ c ≠ a ∧ nx = time c ∧ ∀ b, b ∈ pre → b ≠ a → (time b <? nx)%D = false)
  end.

Definition timely (id : Z) : Prop := number (time id) ∧ (time id <? PR_NEVER)%D = true.

Lemma number_never : number PR_NEVER.
Proof. by vm_compute. Qed.
Hint Resolve number_never : core.

Lemma found_step pre x mn nx mt :
  found pre mn nx mt → Forall timely (pre ++ [x]) → x ∉ pre →
  if (time x <? nx)%D then
    if (time x <? mn)%D then found (pre ++ [x]) (time x) mn (Some x)
    else found (pre ++ [x]) mn (time x) mt
  else found (pre ++ [x]) mn nx mt.
Proof.
  intros Hf [Hpre [[Hn Ht] _]%Forall_cons]%Forall_app Hx. rewrite Forall_forall in Hpre.
  assert (Hnum : ∀ b, b ∈ pre → number (time b)) by (intros b Hb; by apply Hpre).
  destruct mt as [a|]; simpl in Hf.
  2: { destruct Hf as (-> & -> & ->). rewrite Ht. split_and!; [set_solver|done| |by left].
       intros b ->%list_elem_of_singleton. order. }
  destruct Hf as (Ha & -> & Hmin & Hnx). pose proof (Hnum a Ha).
  assert (Hnxn : number nx) by (destruct Hnx as [[_ ->]|(c & Hc & _ & -> & _)]; auto).
  destruct (time x <? nx)%D eqn:E1; [destruct (time x <? time a)%D eqn:E2|]; simpl.
  - split_and!; [set_solver|done| |right; exists a; split_and!; [set_solver|set_solver|done|]].
    + intros b [Hb| ->%list_elem_of_singleton]%elem_of_app; [|order].
      pose proof (Hnum b Hb). specialize (Hmin b Hb). order.
    + intros b [Hb| ->%list_elem_of_singleton]%elem_of_app; [|done]. auto.
  - split_and!; [set_solver|done| |right; exists x; split_and!; [set_solver|set_solver|done|]].
    + intros b [Hb| ->%list_elem_of_singleton]%elem_of_app; auto.
    + intros b [Hb| ->%list_elem_of_singleton]%elem_of_app Hba; [|order]. pose proof (Hnum b Hb).
      destruct Hnx as [[-> _]|(c & _ & _ & _ & Hc)]; [set_solver|]. specialize (Hc b Hb Hba). order.
  - destruct Hnx as [[_ ->]|(c & Hc & Hca & -> & Hcb)]; [congruence|].
    pose proof (Hmin c Hc). pose proof (Hnum c Hc).
    split_and!; [set_solver|done| |right; exists c; split_and!; [set_solver|done|done|]].
    + intros b [Hb| ->%list_elem_of_singleton]%elem_of_app; [auto|order].
    + intros b [Hb| ->%list_elem_of_singleton]%elem_of_app Hba; auto.
Qed.

Lemma found_reach ids mn nx mt id :
  found ids mn nx mt → Forall timely ids → id ∈ ids →
  let nx' := if (nx =? PR_NEVER)%D then mn else nx in
  others_reach ids id (if decide (Some id = mt) then nx' else mn).
Proof.
  intros Hf Ht Hid. rewrite Forall_forall in Ht. destruct mt as [a|]; simpl in Hf.
  2: { destruct Hf as (-> & _). by apply elem_of_nil in Hid. }
  destruct Hf as (Ha & -> & Hmin & Hnx). simpl. destruct (decide (Some id = Some a)) as [[= ->]|Hne].
  2: { right. exists a. split_and!; [done|congruence|done|]. auto. }
  destruct Hnx as [[-> ->]|(c & Hc & Hca & -> & Hcb)]; [by left|].
  assert ((time c =? PR_NEVER)%D = false) as ->; [|right; exists c; split_and!; auto].
  destruct (Ht c Hc) as [Hn Hlt]. apply not_true_iff_false. rewrite FloatAxioms.eqb_spec.
  intros Heq%SFeqb_rank; [|done..]. apply ltb_rank in Hlt; [|done..].
  unfold rank, before in Hlt. rewrite Heq in Hlt. lia.
Qed.

End smallest.

(** ** Sending *)

(** The messages that wait in a command queue of a serial queue. *)
Definition upcoming (h : host) (at_ : Z * Z) : option (list queue_message) :=
  sq ← h.(sqs) !! at_.1; c ← sq.(sq_cqs) !! at_.2; Some c.(cq_upcoming_queue).

Definition queue_of (m : trdispatch_mcu) : Z * Z := (m.(tdm_sq), m.(tdm_cq)).

(** A message of three integers, as [serialqueue_send_batch] queues it. *)
Definition message3 (a b c req_clock : Z) : queue_message :=
  fix_min_clock ((message_fill (encode_int a ++ encode_int b ++ encode_int c))
                   <| qm_req_clock := req_clock |>).

Lemma encode3 a b c :
  message_alloc_and_encode [a; b; c] = Some (encode_int a ++ encode_int b ++ encode_int c).
Proof.
  unfold message_alloc_and_encode. rewrite encode_loop_spec by done.
  cbn [map concat]. rewrite app_nil_r, app_nil_l, !length_app.
  pose proof (encode_int_length a). pose proof (encode_int_length b). pose proof (encode_int_length c).
  rewrite (proj2 (Z.leb_le _ _)); [done|]. unfold MESSAGE_PAYLOAD_MAX, MESSAGE_MAX, MESSAGE_MIN. lia.
Qed.

(** What a send leaves alone. *)
Definition same_objects (h h' : host) : Prop := h'.(td) = h.(td) ∧ h'.(tdms) = h.(tdms).

Lemma qm_len_message3 a b c r : qm_len (message3 a b c r) ≠ 0.
Proof.
  unfold message3, fix_min_clock, qm_len. pose proof (encode_int_length a).
  destruct (_ && _); simpl; rewrite length_app; lia.
Qed.

Lemma send_one_spec sq k qm c :
  sq.(sq_cqs) !! k = Some c → qm_len (fix_min_clock qm) ≠ 0 →
  ∃ sq' w, serialqueue_send_one sq k qm = Some (sq', w)
    ∧ sq'.(sq_cqs)
      = <[k := c <| cq_upcoming_queue ::= λ q, q ++ [fix_min_clock qm] |>]> sq.(sq_cqs).
Proof.
  intros Hc Hlen. unfold serialqueue_send_one, serialqueue_send_batch. cbn [map foldr head].
  rewrite Z.add_0_r, (proj2 (Z.eqb_neq _ _)) by done. rewrite Hc. cbn [mbind option_bind].
  destruct (_ && _), (_ <? _); by eexists _, _.
Qed.

Lemma send_message_spec h m a b c r q :
  upcoming h (queue_of m) = Some q →
  ∃ h', send_message h m [a; b; c] r = Some h' ∧ same_objects h h'
    ∧ upcoming h' (queue_of m) = Some (q ++ [message3 a b c r])
    ∧ ∀ k, k ≠ queue_of m → upcoming h' k = upcoming h k.
Proof.
  unfold send_message, upcoming, queue_of. rewrite encode3. cbn [mbind option_bind fst snd].
  intros Hup. destruct (sqs h !! tdm_sq m) as [sq|] eqn:Hsq; [|done]. cbn [mbind option_bind] in *.
  destruct (sq_cqs sq !! tdm_cq m) as [cq|] eqn:Hcq; [|done]. cbn [mbind option_bind] in *.
  injection Hup as <-.
  destruct (send_one_spec sq (tdm_cq m) _ cq Hcq (qm_len_message3 a b c r)) as (sq' & w & Hs & Hcqs).
  rewrite Hs. cbn [mbind option_bind]. eexists. split; [done|]. split; [done|]. split.
  - cbn. rewrite lookup_insert_eq. cbn. rewrite Hcqs, lookup_insert_eq. done.
  - intros [s k] Hk. cbn. destruct (decide (s = tdm_sq m)) as [->|Hne]; [|by rewrite lookup_insert_ne].
    rewrite lookup_insert_eq, Hsq. cbn. rewrite Hcqs, lookup_insert_ne; [done|congruence].
Qed.

(** ** The loops over the micro-controllers *)

(** The objects of [ids] exist, with a command queue of their own each. *)
Record linked (h : host) (ids : list Z) : Prop := {
  li_nodup : NoDup ids;
  li_mcu : ∀ id, id ∈ ids → ∃ m q, h.(tdms) !! id = Some m ∧ upcoming h (queue_of m) = Some q;
  li_queues : ∀ id id' m m', id ∈ ids → id' ∈ ids → h.(tdms) !! id = Some m →
    h.(tdms) !! id' = Some m' → queue_of m = queue_of m' → id = id';
}.

(** A queue of none of [ids]. *)
Definition unrelated (h : host) (ids : list Z) (k : Z * Z) : Prop :=
  ∀ id m, id ∈ ids → h.(tdms) !! id = Some m → k ≠ queue_of m.

Lemma linked_cons h id ids m :
  linked h (id :: ids) → h.(tdms) !! id = Some m → unrelated h ids (queue_of m).
Proof.
  intros [Hnd Hm Hq] Hid j mj Hj Hmj Heq. apply NoDup_cons in Hnd as [Hni _].
  rewrite (Hq id j m mj) in Hni; [done|set_solver..|done|done|done].
Qed.

(** A step that concerns the first micro-controller only. *)
Lemma linked_step h h' id ids m m' :
  linked h (id :: ids) → h.(tdms) !! id = Some m → queue_of m' = queue_of m →
  h'.(tdms) = <[id := m']> h.(tdms) →
  (∀ k, k ≠ queue_of m → upcoming h' k = upcoming h k) → linked h' ids.
Proof.
  intros Hl Hid Hqm Ht Hup. pose proof (linked_cons _ _ _ _ Hl Hid) as Hun.
  destruct Hl as [Hnd Hm Hq]. apply NoDup_cons in Hnd as [Hni Hnd].
  assert (Hlk : ∀ j, j ∈ ids → tdms h' !! j = tdms h !! j)
    by (intros j Hj; rewrite Ht, lookup_insert_ne; [done|set_solver]).
  constructor; [done| |].
  - intros j Hj. destruct (Hm j ltac:(set_solver)) as (mj & q & Hmj & Huj). exists mj, q.
    rewrite (Hlk j Hj), Hup; [done|]. intros Heq. by apply (Hun j mj Hj Hmj).
  - intros i j mi mj Hi Hj Hmi Hmj. rewrite Hlk in Hmi, Hmj by done.
    apply Hq; set_solver.
Qed.

Lemma unrelated_step h h' id ids m m' k :
  h.(tdms) !! id = Some m → queue_of m' = queue_of m → id ∉ ids →
  h'.(tdms) = <[id := m']> h.(tdms) →
  unrelated h (id :: ids) k → k ≠ queue_of m ∧ unrelated h' ids k.
Proof.
  intros Hid Hqm Hni Ht Hk. split; [by apply (Hk id m); [set_solver|]|].
  intros j mj Hj Hmj. rewrite Ht, lookup_insert_ne in Hmj by set_solver. apply (Hk j mj); set_solver.
Qed.

Definition trigger_message (h : host) (m : trdispatch_mcu) : queue_message :=
  message3 m.(trigger_msgtag) m.(trsync_oid) h.(td).(dispatch_reason) 0.

Lemma trigger_loop_spec ids : ∀ h, linked h ids →
  ∃ h', trigger_loop ids h = Some h' ∧ same_objects h h'
    ∧ (∀ id m q, id ∈ ids → h.(tdms) !! id = Some m → upcoming h (queue_of m) = Some q →
         upcoming h' (queue_of m) = Some (q ++ [trigger_message h m]))
    ∧ ∀ k, unrelated h ids k → upcoming h' k = upcoming h k.
Proof.
  induction ids as [|id ids IH]; intros h Hl.
  { exists h. split_and!; try done. intros id m q Hid. by apply elem_of_nil in Hid. }
  destruct (li_mcu _ _ Hl id ltac:(set_solver)) as (m & q & Hm & Hq). cbn [trigger_loop]. rewrite Hm.
  cbn [mbind option_bind]. unfold send_trsync_trigger.
  destruct (send_message_spec h m m.(trigger_msgtag) m.(trsync_oid) h.(td).(dispatch_reason) 0 q Hq)
    as (h1 & -> & [Htd Htdms] & Hup & Hoth). cbn [mbind option_bind].
  assert (Hins : tdms h1 = <[id := m]> (tdms h)) by (by rewrite Htdms, insert_id).
  pose proof (li_nodup _ _ Hl) as [Hni _]%NoDup_cons.
  destruct (IH h1 (linked_step h h1 id ids m m Hl Hm eq_refl Hins Hoth))
    as (h2 & -> & [Htd2 Htdms2] & Hup2 & Hoth2).
  exists h2. split; [done|]. split; [split; congruence|]. split.
  - intros j mj qj [->|Hj]%elem_of_cons Hmj Hqj.
    + replace mj with m in * by congruence. replace qj with q in * by congruence.
      rewrite Hoth2; [done|]. intros i mi Hi Hmi. rewrite Htdms in Hmi.
      apply (linked_cons _ _ _ _ Hl Hm i mi Hi Hmi).
    + pose proof (linked_cons _ _ _ _ Hl Hm j mj Hj Hmj) as Hne. specialize (Hup2 j mj qj Hj).
      unfold trigger_message in *. rewrite Htd in Hup2. apply Hup2; [by rewrite Htdms|].
      by rewrite Hoth.
  - intros k Hk. destruct (unrelated_step h h1 id ids m m k Hm eq_refl Hni Hins Hk) as [Hne Hk1].
    by rewrite Hoth2, Hoth.
Qed.

(** What a timeout loop does to one micro-controller. *)
Definition extended (m : trdispatch_mcu) (T : double) : trdispatch_mcu :=
  match new_expire m T with Some expire => m <| expire_clock := expire |> | None => m end.
Definition timeout_messages (m : trdispatch_mcu) (T : double) : list queue_message :=
  match new_expire m T with
  | Some expire => [message3 m.(set_timeout_msgtag) m.(trsync_oid) (u32 expire) expire]
  | None => []
  end.

Lemma set_timeout_spec h id m T q :
  h.(tdms) !! id = Some m → upcoming h (queue_of m) = Some q →
  ∃ h1, set_timeout h id m T = Some h1 ∧ h1.(td) = h.(td)
    ∧ h1.(tdms) = <[id := extended m T]> h.(tdms)
    ∧ upcoming h1 (queue_of m) = Some (q ++ timeout_messages m T)
    ∧ ∀ k, k ≠ queue_of m → upcoming h1 k = upcoming h k.
Proof.
  intros Hm Hq. unfold set_timeout, extended, timeout_messages. destruct (new_expire m T) as [e|].
  - set (m1 := m <| expire_clock := e |>). set (h0 := h <| tdms ::= <[id := m1]> |>).
    assert (Hq0 : upcoming h0 (queue_of m1) = Some q) by done. unfold send_trsync_set_timeout.
    destruct (send_message_spec h0 m1 m1.(set_timeout_msgtag) m1.(trsync_oid) (u32 m1.(expire_clock))
      m1.(expire_clock) q Hq0) as (h1 & Hs & [Htd Htdms] & Hup & Hoth).
    exists h1. by split_and!.
  - exists h. rewrite app_nil_r. split_and!; try done. by rewrite insert_id.
Qed.

Lemma timeout_loop_spec mn nx mt ids : ∀ h, linked h ids →
  let T id := if decide (Some id = mt) then nx else mn in
  ∃ h', timeout_loop ids mn nx mt h = Some h' ∧ h'.(td) = h.(td)
    ∧ (∀ id m q, id ∈ ids → h.(tdms) !! id = Some m → upcoming h (queue_of m) = Some q →
         h'.(tdms) !! id = Some (extended m (T id))
         ∧ upcoming h' (queue_of m) = Some (q ++ timeout_messages m (T id)))
    ∧ (∀ id, id ∉ ids → h'.(tdms) !! id = h.(tdms) !! id)
    ∧ ∀ k, unrelated h ids k → upcoming h' k = upcoming h k.
Proof.
  induction ids as [|id ids IH]; intros h Hl T.
  { exists h. split_and!; try done. intros id m q Hid. by apply elem_of_nil in Hid. }
  destruct (li_mcu _ _ Hl id ltac:(set_solver)) as (m & q & Hm & Hq). cbn [timeout_loop]. rewrite Hm.
  cbn [mbind option_bind]. fold (T id).
  destruct (set_timeout_spec h id m (T id) q Hm Hq) as (h1 & -> & Htd & Hins & Hup & Hoth).
  cbn [mbind option_bind].
  assert (Hqe : queue_of (extended m (T id)) = queue_of m)
    by (unfold extended; by destruct (new_expire m (T id))).
  pose proof (li_nodup _ _ Hl) as [Hni _]%NoDup_cons.
  destruct (IH h1 (linked_step h h1 id ids m _ Hl Hm Hqe Hins Hoth))
    as (h2 & -> & Htd2 & Hup2 & Hrest2 & Hoth2). fold T in Hup2.
  exists h2. split; [done|]. split; [congruence|]. split_and!.
  - intros j mj qj [->|Hj]%elem_of_cons Hmj Hqj.
    + replace mj with m in * by congruence. replace qj with q in * by congruence.
      rewrite Hrest2, Hins, lookup_insert_eq by done. split; [done|]. rewrite Hoth2; [done|].
      intros i mi Hi Hmi. rewrite Hins, lookup_insert_ne in Hmi by set_solver.
      apply (linked_cons _ _ _ _ Hl Hm i mi Hi Hmi).
    + pose proof (linked_cons _ _ _ _ Hl Hm j mj Hj Hmj) as Hne.
      apply (Hup2 j mj qj Hj); [rewrite Hins, lookup_insert_ne; [done|set_solver]|by rewrite Hoth].
  - intros j Hj. rewrite Hrest2, Hins, lookup_insert_ne; [done|set_solver..].
  - intros k Hk. destruct (unrelated_step h h1 id ids m _ k Hm Hqe Hni Hins Hk) as [Hne Hk1].
    by rewrite Hoth2, Hoth.
Qed.

(** ** Reports *)

Definition status_time (h : host) (id : Z) : double :=
  match h.(tdms) !! id with
  | Some m => clock_to_time m.(tdm_ce) m.(last_status_clock)
  | None => PR_NEVER
  end.

Lemma min_loop_found h ids : ∀ pre mn nx mt,
  found (status_time h) pre mn nx mt → NoDup (pre ++ ids) →
  Forall (timely (status_time h)) (pre ++ ids) → (∀ id, id ∈ ids → is_Some (h.(tdms) !! id)) →
  ∃ mn' nx' mt', min_loop h ids mn nx mt = Some (mn', nx', mt')
    ∧ found (status_time h) (pre ++ ids) mn' nx' mt'.
Proof.
  induction ids as [|x ids IH]; intros pre mn nx mt Hf Hnd Ht Hsome.
  { rewrite app_nil_r. by exists mn, nx, mt. }
  replace (pre ++ x :: ids) with ((pre ++ [x]) ++ ids) in * by (by rewrite <- app_assoc).
  cbn [min_loop]. destruct (Hsome x ltac:(set_solver)) as [m Hm]. rewrite Hm. cbn [mbind option_bind].
  assert (Hx : clock_to_time (tdm_ce m) (last_status_clock m) = status_time h x)
    by (unfold status_time; by rewrite Hm).
  rewrite Hx. pose proof (found_step (status_time h) pre x mn nx mt Hf) as Hstep.
  apply NoDup_app in Hnd as (Hnd1 & Hdisj & Hnd2).
  assert (Hxp : x ∉ pre) by (apply NoDup_app in Hnd1 as (_ & Hd & _); set_solver).
  specialize (Hstep (proj1 (proj1 (Forall_app _ _ _) Ht)) Hxp).
  destruct (_ <? nx)%D; [destruct (_ <? mn)%D|].
  all: apply IH; [done| by apply NoDup_app|done|set_solver].
Qed.

(** A report: the state of the trigger object [oid], whether it can still
    trigger, and its clock. *)
Definition report (data : list Z) (oid can clock : Z) : Prop :=
  ∃ tag reason,
    msgblock_decode 5 data (Z.of_nat (length data)) = Some (0, [tag; oid; can; reason; clock]).

Lemma decode_loop_length n : ∀ msg p e vs,
  decode_loop n msg p e = Some (0, vs) → length vs = n.
Proof.
  induction n as [|n IH]; intros msg p e vs; cbn [decode_loop].
  { by intros [= _ <-]. }
  destruct (e <=? p); [done|]. destruct (host_parse_int _) as [[v rest]|]; [|done]. cbn [mbind option_bind].
  destruct (decode_loop n _ _ _) as [[r vs']|] eqn:Hd; [|done]. cbn [mbind option_bind].
  intros [= -> <-]. simpl. f_equal. by apply (IH _ _ _ _ Hd).
Qed.

(** After the first trigger reports are ignored. *)
Lemma handle_ignored h id data tdm r :
  h.(td).(can_trigger) = 0 → h.(tdms) !! id = Some tdm →
  msgblock_decode 5 data (Z.of_nat (length data)) = Some r → handle_trsync_state h id data = Some h.
Proof.
  intros Hc Hid Hd. destruct r as [ret fields]. unfold handle_trsync_state. rewrite Hid, Hd, Hc.
  cbn [mbind option_bind]. destruct (Z.eqb_spec ret 0) as [->|]; [|done]. simpl.
  apply decode_loop_length in Hd. do 5 (destruct fields as [|? fields]; [done|]).
  cbn. by destruct (negb _).
Qed.

(** The state of the host when it has noted a report. *)
Definition noted (h : host) (id clock : Z) (tdm : trdispatch_mcu) (sq : serialqueue) : host :=
  h <| tdms ::= <[id := tdm <| tdm_ce := sq.(sq_ce) |>
                            <| last_status_clock :=
                                 clock_from_clock32 sq.(sq_ce).(ce_last_clock) clock |>]> |>.

Lemma linked_noted h id clock tdm sq ids :
  linked h ids → h.(tdms) !! id = Some tdm → linked (noted h id clock tdm sq) ids.
Proof.
  intros [Hnd Hm Hq] Hid.
  assert (Hlk : ∀ j m', tdms (noted h id clock tdm sq) !! j = Some m' →
    ∃ m, tdms h !! j = Some m ∧ queue_of m' = queue_of m).
  { intros j m'. simpl. destruct (decide (j = id)) as [->|Hne].
    - rewrite lookup_insert_eq. intros [= <-]. by exists tdm.
    - rewrite lookup_insert_ne by done. intros ?. by exists m'. }
  constructor; [done| |].
  - intros j Hj. destruct (Hm j Hj) as (m & q & Hmj & Hqj). simpl.
    destruct (decide (j = id)) as [->|Hne].
    + rewrite lookup_insert_eq. eexists _, q. split; [done|]. by simplify_eq.
    + rewrite lookup_insert_ne by done. by exists m, q.
  - intros i j mi mj Hi Hj (m1 & Hm1 & Hq1)%Hlk (m2 & Hm2 & Hq2)%Hlk Heq.
    apply (Hq i j m1 m2); congruence.
Qed.

(** C30: the first report of a trigger reaches everybody.  When a micro-controller
    reports that its trigger object has triggered (or timed out) while the
    dispatcher is armed, a command to trigger, with the reason of the dispatcher,
    is appended to the command queue of every micro-controller; the dispatcher is
    disarmed, and any later report of any micro-controller changes nothing. *)
Theorem trigger_reaches_all h id data tdm clock :
  linked h h.(td).(tdm_list) → h.(td).(can_trigger) ≠ 0 →
  h.(tdms) !! id = Some tdm → report data tdm.(trsync_oid) 0 clock →
  ∃ h', handle_trsync_state h id data = Some h' ∧ h'.(td).(can_trigger) = 0
    ∧ (∀ j m q, j ∈ h.(td).(tdm_list) → h.(tdms) !! j = Some m → upcoming h (queue_of m) = Some q →
         upcoming h' (queue_of m) = Some (q ++ [trigger_message h m]))
    ∧ ∀ j m data' r, h.(tdms) !! j = Some m →
        msgblock_decode 5 data' (Z.of_nat (length data')) = Some r →
        handle_trsync_state h' j data' = Some h'.
Proof.
  intros Hl Hc Hid (tag & reason & Hd).
  set (h1 := h <| td ::= λ t, t <| can_trigger := 0 |> |>).
  assert (Hl1 : linked h1 h.(td).(tdm_list)) by (by destruct Hl).
  destruct (trigger_loop_spec _ h1 Hl1) as (h' & Hrun & [Htd Htdms] & Hup & _).
  exists h'. split_and!.
  - unfold handle_trsync_state. rewrite Hid, Hd. cbn. rewrite Z.eqb_refl. cbn.
    by rewrite (proj2 (Z.eqb_neq _ _) Hc).
  - by rewrite Htd.
  - exact Hup.
  - intros j m data' r Hj Hr. apply (handle_ignored h' j data' m r); [by rewrite Htd|by rewrite Htdms|done].
Qed.


(** ** An example: two micro-controllers *)

Definition example_sq : serialqueue :=
  serialqueue_set_clock_est (serialqueue_alloc_commandqueue (serialqueue_alloc SQT_UART) 0)
    1000%float 0%float 0 5000.

Definition example_host : option host :=
  let h := mk_host trdispatch_alloc ∅ {[ 10 := example_sq; 20 := example_sq ]} [] in
  h ← trdispatch_mcu_alloc h 1 10 0 3 60 61 50;
  h ← trdispatch_mcu_alloc h 2 20 0 4 60 61 50;
  h ← trdispatch_mcu_setup h 1 4000 4250 250 50;
  h ← trdispatch_mcu_setup h 2 4100 4250 250 50;
  trdispatch_start h 2.

Definition armed_host : host :=
  default (mk_host trdispatch_alloc ∅ ∅ []) example_host.

(** A report, as the firmware frames it. *)
Definition report_block (oid can clock : Z) : list Z :=
  [0; 0] ++ concat (map encode_int [50; oid; can; 0; clock]) ++ [0; 0; 0].

Lemma armed_linked : linked armed_host armed_host.(td).(tdm_list).
Proof.
  assert (Hl : armed_host.(td).(tdm_list) = [1; 2]) by (by vm_compute). rewrite Hl. constructor.
  - repeat constructor; set_solver.
  - intros id [->|[->|[]%elem_of_nil]%elem_of_cons]%elem_of_cons; by eexists _, _; split; vm_compute.
  - intros i j mi mj [->|[->|[]%elem_of_nil]%elem_of_cons]%elem_of_cons
      [->|[->|[]%elem_of_nil]%elem_of_cons]%elem_of_cons Hi Hj Hq; try done;
      vm_compute in Hi; vm_compute in Hj; by simplify_eq.
Qed.

Lemma trigger_reaches_all_witness :
  ∃ h', handle_trsync_state armed_host 1 (report_block 3 0 4200) = Some h'
    ∧ h'.(td).(can_trigger) = 0
    ∧ (∀ j m q, j ∈ armed_host.(td).(tdm_list) → armed_host.(tdms) !! j = Some m →
         upcoming armed_host (queue_of m) = Some q →
         upcoming h' (queue_of m) = Some (q ++ [trigger_message armed_host m]))
    ∧ ∀ j m data' r, armed_host.(tdms) !! j = Some m →
        msgblock_decode 5 data' (Z.of_nat (length data')) = Some r →
        handle_trsync_state h' j data' = Some h'.
Proof.
  eapply (trigger_reaches_all armed_host 1 (report_block 3 0 4200) _ 4200).
  - apply armed_linked.
  - by vm_compute.
  - by vm_compute.
  - exists 50, 0. by vm_compute.
Defined.

Lemma armed_timely tdm sq :
  armed_host.(tdms) !! 1 = Some tdm → armed_host.(sqs) !! tdm.(tdm_sq) = Some sq →
  Forall (timely (status_time (noted armed_host 1 4200 tdm sq))) armed_host.(td).(tdm_list).
Proof.
  intros Ht Hs. vm_compute in Ht. injection Ht as <-. vm_compute in Hs. injection Hs as <-.
  assert (Hl : armed_host.(td).(tdm_list) = [1; 2]) by (vm_compute; reflexivity). rewrite Hl.
  constructor; [|constructor; [|constructor]]; split; (vm_compute; (discriminate || reflexivity)).
Qed.


(** A difference that is negative passes the test for a minimal extension: here
    the expiry moves from 4250 back to 3250. *)
Lemma timeout_moves_back :
  (handle_trsync_state armed_host 2 (report_block 4 1 3000)
     ≫= λ h, h.(tdms) !! 1 ≫= λ m, Some m.(expire_clock)) = Some 3250
  ∧ (armed_host.(tdms) !! 1 ≫= λ m, Some (m.(expire_clock), m.(min_extend_ticks))) = Some (4250, 50).
Proof. vm_compute. split; reflexivity. Qed.
