(* ===== verification/Hal.v ===== *)
(** * The board layer the devices use (src/stm32/gpio.c, adc.c, hard_pwm.c, spi.c, i2c.c)

    Register accesses are events of the trace; inputs come from the board.  Only
    the interface of the hardware units is modelled. *)

From S2P Require Import Prelude.
From S2P Require Import State.
From S2P Require Import Machine.
From S2P Require Import Sched.
From S2P Require Import Command.

Definition emit (e : event) : M unit := modify (λ s, s <| trace ::= cons e |>).

Section Hal.
Context `{Board}.

Definition gpio_out_toggle (pin : Z) : M unit :=
  flag ← irq_save; gpio_out_toggle_noirq pin;; irq_restore flag.
Definition gpio_out_reset (pin val : Z) : M unit :=
  emit (Ev_gpio_out_reset pin (b2z (negb (val =? 0)))).
Definition gpio_in_reset (pin pull_up : Z) : M unit := emit (Ev_gpio_in_reset pin pull_up).

(** ** Analog to digital converter *)

Definition gpio_adc_setup (pin : Z) : M Z :=
  if adc_valid pin then emit (Ev_adc_setup pin);; mret pin else shutdown "Not a valid ADC pin".
(** The number of ticks to wait for the sample, 0 when it is ready. *)
Definition gpio_adc_sample (pin : Z) : M Z :=
  n ← gets reads; modify (λ s, s <| reads ::= S |>);; mret (u32 (hw_adc_sample pin n)).
Definition gpio_adc_read (pin : Z) : M Z :=
  n ← gets reads; modify (λ s, s <| reads ::= S |>);; mret (u16 (hw_adc_read pin n)).
Definition gpio_adc_cancel_sample (pin : Z) : M unit := emit (Ev_adc_cancel pin).

(** ** Pulse width modulation *)

(** The pin and the value are parameters of type [uint8_t]. *)
Definition gpio_pwm_setup (pin cycle_time val : Z) : M Z :=
  if pwm_valid (u8 pin) then emit (Ev_pwm_setup (u8 pin) cycle_time (u8 val));; mret (u8 pin)
  else shutdown "Not a valid PWM pin".
Definition gpio_pwm_write (pin val : Z) : M unit := emit (Ev_pwm_write pin val).

(** ** Buses *)

Definition spi_setup (bus mode rate : Z) : M Z :=
  if spi_valid bus then emit (Ev_spi_setup bus mode rate);; mret bus
  else shutdown "Invalid spi bus".
Definition spi_prepare (config : Z) : M unit := emit (Ev_spi_prepare config).

(** [spi_transfer]: the bytes received for the bytes sent. *)
Fixpoint spi_transfer (config : Z) (data : list Z) : M (list Z) :=
  match data with
  | [] => mret []
  | b :: data =>
      emit (Ev_spi_byte config b);;
      n ← gets reads;
      modify (λ s, s <| reads ::= S |>);;
      rest ← spi_transfer config data;
      mret (u8 (hw_spi_in config n) :: rest)
  end.

Definition i2c_setup (bus rate addr : Z) : M Z :=
  if i2c_valid bus then emit (Ev_i2c_setup bus rate addr);; mret bus
  else shutdown "Unsupported i2c bus".
Definition i2c_write (config : Z) (data : list Z) : M unit := emit (Ev_i2c_write config data).
Definition i2c_read (config : Z) (reg : list Z) (len : Z) : M (list Z) :=
  emit (Ev_i2c_read config reg len);;
  n ← gets reads;
  modify (λ s, s <| reads ::= λ k, (k + Z.to_nat len)%nat |>);;
  mret (map (λ i, u8 (hw_i2c_in config (n + i))) (seq 0 (Z.to_nat len))).

(** ** Memory the commands point to *)

(** The bytes of a buffer argument. *)
Definition read_buffer (ptr len : Z) : M (list Z) :=
  buf ← gets (λ s, s.(serial).(receive_buf));
  let p := command_decode_ptr ptr in
  if (0 <=? p) && (p + len <=? Z.of_nat (length buf))
  then mret (take (Z.to_nat len) (drop (Z.to_nat p) buf)) else stuck Out_of_bounds.

(** Store bytes at a buffer argument. *)
Definition write_buffer (ptr : Z) (bs : list Z) : M unit :=
  buf ← gets (λ s, s.(serial).(receive_buf));
  let p := command_decode_ptr ptr in
  if (0 <=? p) && (p + Z.of_nat (length bs) <=? Z.of_nat (length buf))
  then modify (λ s, s <| serial ::= λ c, c <| receive_buf ::= λ b,
         take (Z.to_nat p) b ++ bs ++ drop (Z.to_nat p + length bs) b |> |>)
  else stuck Out_of_bounds.

End Hal.

#[export] Instance op_emit e : Op (emit e) (λ _, tt) (λ s, s <| trace ::= cons e |>).
Proof. done. Qed.

(** The first timer of an object, and its operations. *)
Definition obj_timer (p : Z) : timer_id := T_obj p 0.

Definition add_waketime (t : timer_id) (d : Z) : M unit :=
  n ← read_timer t; set_waketime t (n.(waketime) + d).

(** The cleared timer of a new object. *)
Definition new_timer (t : timer_id) (f : timer_func) : M unit :=
  modify (λ s, s <| timers ::= <[t := mk_timer None f 0]> |>).
