(* ===== verification/Devices.v ===== *)
(** * Periodic inputs and scheduled outputs (src/adccmds.c, gpiocmds.c,
    pwmcmds.c, pulse_counter.c, buttons.c) *)

From S2P Require Import Prelude.
From S2P Require Import State.
From S2P Require Import Machine.
From S2P Require Import Sched.
From S2P Require Import Basecmd.
From S2P Require Import Hal.

Section Devices.
Context `{Board}.

(** ** Analog inputs (adccmds.c) *)

Definition analog_in_event (p : Z) : M Z :=
  a ← read_obj p;
  sample_delay ← gpio_adc_sample a.(a_pin);
  if negb (sample_delay =? 0) then
    add_waketime (obj_timer p) sample_delay;; mret SF_RESCHEDULE
  else
    value ← gpio_adc_read a.(a_pin);
    let '(state, value) := if a.(a_sample_count) <=? a.(a_state) then (0, value)
                           else (a.(a_state), u16 (value + a.(a_value))) in
    let a := a <| a_value := value |> <| a_state := u8 (state + 1) |> in
    write_obj p a;;
    if a.(a_state) <? a.(a_sample_count) then
      add_waketime (obj_timer p) a.(a_sample_time);; mret SF_RESCHEDULE
    else
      (if (a.(a_min_value) <=? a.(a_value)) && (a.(a_value) <=? a.(a_max_value)) then
         update_obj p (λ a, a <| a_invalid_count := 0 |>)
       else
         update_obj p (λ a, a <| a_invalid_count ::= λ c, u8 (c + 1) |>);;
         a ← read_obj p;
         when (a.(a_range_check_count) <=? a.(a_invalid_count))
           (try_shutdown "ADC out of range";;
            update_obj p (λ a, a <| a_invalid_count := 0 |>)));;
      sched_wake_task W_analog;;
      update_obj p (λ a, a <| a_next_begin_time ::= λ t, u32 (t + a.(a_rest_time)) |>);;
      a ← read_obj p;
      set_waketime (obj_timer p) a.(a_next_begin_time);;
      mret SF_RESCHEDULE.

Definition command_config_analog_in (args : list Z) : M unit :=
  match args with
  | [oid; pin] =>
      pin ← gpio_adc_setup pin;
      p ← oid_alloc oid OT_analog_in (sizeof_oid OT_analog_in);
      write_obj p (mk_analog_in 0 0 0 0 0 0 pin 0 0 1 0);;
      new_timer (obj_timer p) F_analog_in_event
  | _ => stuck Out_of_bounds
  end.

Definition command_query_analog_in (args : list Z) : M unit :=
  match args with
  | [oid; clock; sample_ticks; sample_count; rest_ticks; min_value; max_value; range_check] =>
      p ← oid_lookup oid OT_analog_in;
      sched_del_timer (obj_timer p);;
      a ← read_obj p;
      gpio_adc_cancel_sample a.(a_pin);;
      set_waketime (obj_timer p) clock;;
      write_obj p (a <| a_next_begin_time := clock |> <| a_sample_time := sample_ticks |>
        <| a_sample_count := u8 sample_count |> <| a_state := u8 (u8 sample_count + 1) |>
        <| a_rest_time := rest_ticks |> <| a_min_value := u16 min_value |>
        <| a_max_value := u16 max_value |> <| a_range_check_count := u8 range_check |>);;
      if u8 sample_count =? 0 then mret tt else sched_add_timer (obj_timer p)
  | _ => stuck Out_of_bounds
  end.

Definition analog_in_task : M unit :=
  w ← sched_check_wake W_analog;
  if negb w then mret tt
  else
    foreach_oid OT_analog_in (λ oid p,
      a ← read_obj p;
      if negb (a.(a_state) =? a.(a_sample_count)) then mret tt
      else
        irq_disable;;
        a ← read_obj p;
        if negb (a.(a_state) =? a.(a_sample_count)) then irq_enable
        else
          let value := a.(a_value) in
          let next_begin_time := a.(a_next_begin_time) in
          write_obj p (a <| a_state ::= λ s, u8 (s + 1) |>);;
          irq_enable;;
          sendf "analog_in_state oid=%c next_clock=%u value=%hu"
            [A_int oid; A_int next_begin_time; A_int value]).

Definition analog_in_shutdown : M unit :=
  foreach_oid OT_analog_in (λ _ p,
    a ← read_obj p;
    gpio_adc_cancel_sample a.(a_pin);;
    when (negb (a.(a_sample_count) =? 0))
      (let next := u32 (a.(a_next_begin_time) + a.(a_rest_time)) in
       write_obj p (a <| a_state := u8 (a.(a_sample_count) + 1) |> <| a_next_begin_time := next |>);;
       set_waketime (obj_timer p) next;;
       sched_add_timer (obj_timer p))).

(** ** Digital outputs (gpiocmds.c) *)

Definition DF_ON : Z := Z.shiftl 1 0.
Definition DF_TOGGLING : Z := Z.shiftl 1 1.
Definition DF_CHECK_END : Z := Z.shiftl 1 2.
Definition DF_DEFAULT_ON : Z := Z.shiftl 1 4.

(** The contents of a [struct digital_move]. *)
Definition read_digital (mn : Z) : M (Z * Z) :=
  n ← read_node mn;
  match n.(mn_data) with
  | MD_digital waketime on_duration => mret (waketime, on_duration)
  | _ => stuck Bad_object
  end.

Definition digital_toggle_event (p : Z) : M Z :=
  d ← read_obj p;
  gpio_out_toggle_noirq d.(d_pin);;
  let flags := Z.lxor d.(d_flags) DF_ON in
  write_obj p (d <| d_flags := flags |>);;
  t ← read_timer (obj_timer p);
  let waketime := u32 (t.(waketime) + (if flag_set flags DF_ON then d.(d_on_duration)
                                       else d.(d_off_duration))) in
  if flag_set flags DF_CHECK_END && negb (timer_is_before waketime d.(d_end_time)) then
    set_func (obj_timer p) F_digital_load_event;;
    set_waketime (obj_timer p) d.(d_end_time);;
    mret SF_RESCHEDULE
  else
    set_waketime (obj_timer p) waketime;;
    mret SF_RESCHEDULE.

(** The flags and end time of a new setting, from the code "Calculate next
    end_time and flags". *)
Definition digital_next (d : digital_out_s) (waketime on_duration : Z) : Z * Z :=
  let flags := if negb (on_duration =? 0) then DF_ON else 0 in
  if (flags =? 0) || (d.(d_cycle_time) <=? on_duration) then
    if negb (Bool.eqb (flags =? 0) (negb (flag_set d.(d_flags) DF_DEFAULT_ON)))
       && negb (d.(d_max_duration) =? 0)
    then (Z.lor flags DF_CHECK_END, u32 (waketime + d.(d_max_duration)))
    else (flags, 0)
  else
    let flags := Z.lor flags DF_TOGGLING in
    if negb (d.(d_max_duration) =? 0)
    then (Z.lor flags DF_CHECK_END, u32 (waketime + d.(d_max_duration)))
    else (flags, 0).

Definition digital_load_event (p : Z) : M Z :=
  d ← read_obj p;
  if move_queue_empty d.(d_mq) then shutdown "Missed scheduling of next digital out event"
  else
    '(mn, mq) ← move_queue_pop d.(d_mq);
    write_obj p (d <| d_mq := mq |>);;
    '(_, on_duration) ← read_digital mn;
    gpio_out_write d.(d_pin) (if negb (on_duration =? 0) then DF_ON else 0);;
    move_free mn;;
    t ← read_timer (obj_timer p);
    let '(flags, end_time) := digital_next d t.(waketime) on_duration in
    '(flags, end_time) ← (if negb (move_queue_empty mq) then
       nn ← of_option Null_deref (move_queue_first mq);
       '(wake, _) ← read_digital nn;
       if flag_set flags DF_CHECK_END && timer_is_before end_time wake
       then shutdown "Scheduled digital out event will exceed max_duration"
       else mret (Z.lor flags DF_CHECK_END, wake)
     else mret (flags, end_time));
    let d := d <| d_mq := mq |> <| d_end_time := end_time |>
               <| d_flags := Z.lor flags (Z.land d.(d_flags) DF_DEFAULT_ON) |> in
    write_obj p d;;
    if negb (flag_set flags DF_TOGGLING) then
      if negb (flag_set flags DF_CHECK_END) then mret SF_DONE
      else set_waketime (obj_timer p) end_time;; mret SF_RESCHEDULE
    else
      let waketime := u32 (t.(waketime) + on_duration) in
      if flag_set flags DF_CHECK_END && negb (timer_is_before waketime end_time) then
        set_waketime (obj_timer p) end_time;; mret SF_RESCHEDULE
      else
        set_func (obj_timer p) F_digital_toggle_event;;
        set_waketime (obj_timer p) waketime;;
        write_obj p (d <| d_on_duration := on_duration |>
                       <| d_off_duration := u32 (d.(d_cycle_time) - on_duration) |>);;
        mret SF_RESCHEDULE.

Definition command_config_digital_out (args : list Z) : M unit :=
  match args with
  | [oid; pin; value; default_value; max_duration] =>
      pin ← gpio_out_setup pin (b2z (negb (value =? 0)));
      p ← oid_alloc oid OT_digital_out (sizeof_oid OT_digital_out);
      new_timer (obj_timer p) F_null;;
      write_obj p (mk_digital_out_s 0 0 0 pin max_duration 0 (mk_move_queue_head None None)
        (Z.lor (if negb (value =? 0) then DF_ON else 0)
               (if negb (default_value =? 0) then DF_DEFAULT_ON else 0)));;
      mq ← move_queue_setup (sizeof_move OT_digital_out);
      update_obj p (λ d, d <| d_mq := mq |>)
  | _ => stuck Out_of_bounds
  end.

Definition command_set_digital_out_pwm_cycle (args : list Z) : M unit :=
  match args with
  | [oid; cycle_ticks] =>
      p ← oid_lookup oid OT_digital_out;
      irq_disable;;
      d ← read_obj p;
      if negb (move_queue_empty d.(d_mq))
      then shutdown "Can not set soft pwm cycle ticks while updates pending"
      else
        write_obj p (d <| d_cycle_time := cycle_ticks |>);;
        irq_enable
  | _ => stuck Out_of_bounds
  end.

Definition command_queue_digital_out (args : list Z) : M unit :=
  match args with
  | [oid; time; on_ticks] =>
      p ← oid_lookup oid OT_digital_out;
      m ← move_alloc;
      update_node m (λ n, n <| mn_data := MD_digital time on_ticks |>);;
      irq_disable;;
      d ← read_obj p;
      '(first_on_queue, mq) ← move_queue_push m d.(d_mq);
      write_obj p (d <| d_mq := mq |>);;
      if first_on_queue =? 0 then irq_enable
      else
        let flags := d.(d_flags) in
        if flag_set flags DF_CHECK_END && timer_is_before d.(d_end_time) time
        then shutdown "Scheduled digital out event will exceed max_duration"
        else
          write_obj p (d <| d_mq := mq |> <| d_end_time := time |>
                         <| d_flags := Z.lor flags DF_CHECK_END |>);;
          t ← read_timer (obj_timer p);
          when (negb (flag_set flags DF_TOGGLING && timer_is_before t.(waketime) time))
            (sched_del_timer (obj_timer p);;
             set_waketime (obj_timer p) time;;
             set_func (obj_timer p) F_digital_load_event;;
             sched_add_timer (obj_timer p));;
          irq_enable
  | _ => stuck Out_of_bounds
  end.

Definition command_update_digital_out (args : list Z) : M unit :=
  match args with
  | [oid; value] =>
      p ← oid_lookup oid OT_digital_out;
      sched_del_timer (obj_timer p);;
      d ← read_obj p;
      if negb (move_queue_empty d.(d_mq))
      then shutdown "update_digital_out not valid with active queue"
      else
        let flags := d.(d_flags) in
        let on_flag := if negb (u8 value =? 0) then DF_ON else 0 in
        gpio_out_write d.(d_pin) on_flag;;
        if negb (Bool.eqb (on_flag =? 0) (negb (flag_set flags DF_DEFAULT_ON)))
           && negb (d.(d_max_duration) =? 0)
        then
          now ← timer_read_time;
          let end_time := u32 (now + d.(d_max_duration)) in
          set_waketime (obj_timer p) end_time;;
          set_func (obj_timer p) F_digital_load_event;;
          write_obj p (d <| d_end_time := end_time |> <| d_flags :=
            Z.lor (Z.lor (Z.land flags DF_DEFAULT_ON) on_flag) DF_CHECK_END |>);;
          sched_add_timer (obj_timer p)
        else
          write_obj p (d <| d_flags := Z.lor (Z.land flags DF_DEFAULT_ON) on_flag |>)
  | _ => stuck Out_of_bounds
  end.

Definition digital_out_shutdown : M unit :=
  foreach_oid OT_digital_out (λ _ p,
    d ← read_obj p;
    gpio_out_write d.(d_pin) (Z.land d.(d_flags) DF_DEFAULT_ON);;
    write_obj p (d <| d_flags := if flag_set d.(d_flags) DF_DEFAULT_ON
                                 then Z.lor DF_ON DF_DEFAULT_ON else 0 |>
                   <| d_mq ::= move_queue_clear |>)).

Definition command_set_digital_out (args : list Z) : M unit :=
  match args with
  | [pin; value] => _ ← gpio_out_setup pin value; mret tt
  | _ => stuck Out_of_bounds
  end.

(** ** Hardware pulse width modulation (pwmcmds.c) *)

Definition read_pwm (mn : Z) : M (Z * Z) :=
  n ← read_node mn;
  match n.(mn_data) with
  | MD_pwm waketime value => mret (waketime, value)
  | _ => stuck Bad_object
  end.

Definition pwm_end_event (p : Z) : M Z := shutdown "Missed scheduling of next hard pwm event".

Definition pwm_event (p : Z) : M Z :=
  o ← read_obj p;
  '(mn, mq) ← move_queue_pop o.(pw_mq);
  write_obj p (o <| pw_mq := mq |>);;
  '(_, value) ← read_pwm mn;
  gpio_pwm_write o.(pw_pin) value;;
  move_free mn;;
  t ← read_timer (obj_timer p);
  if move_queue_empty mq then
    if (value =? o.(pw_default_value)) || (o.(pw_max_duration) =? 0) then mret SF_DONE
    else
      set_waketime (obj_timer p) (t.(waketime) + o.(pw_max_duration));;
      set_func (obj_timer p) F_pwm_end_event;;
      mret SF_RESCHEDULE
  else
    nn ← of_option Null_deref (move_queue_first mq);
    '(wake, _) ← read_pwm nn;
    if negb (value =? o.(pw_default_value)) && negb (o.(pw_max_duration) =? 0)
       && timer_is_before (u32 (t.(waketime) + o.(pw_max_duration))) wake
    then shutdown "Scheduled pwm event will exceed max_duration"
    else set_waketime (obj_timer p) wake;; mret SF_RESCHEDULE.

Definition command_config_pwm_out (args : list Z) : M unit :=
  match args with
  | [oid; pin; cycle_ticks; value; default_value; max_duration] =>
      pin ← gpio_pwm_setup pin cycle_ticks value;
      p ← oid_alloc oid OT_pwm_out (sizeof_oid OT_pwm_out);
      new_timer (obj_timer p) F_pwm_event;;
      write_obj p (mk_pwm_out_s pin max_duration (u16 default_value)
                     (mk_move_queue_head None None));;
      mq ← move_queue_setup (sizeof_move OT_pwm_out);
      update_obj p (λ o, o <| pw_mq := mq |>)
  | _ => stuck Out_of_bounds
  end.

Definition command_queue_pwm_out (args : list Z) : M unit :=
  match args with
  | [oid; clock; value] =>
      p ← oid_lookup oid OT_pwm_out;
      m ← move_alloc;
      update_node m (λ n, n <| mn_data := MD_pwm clock (u16 value) |>);;
      irq_disable;;
      o ← read_obj p;
      '(need_add_timer, mq) ← move_queue_push m o.(pw_mq);
      write_obj p (o <| pw_mq := mq |>);;
      irq_enable;;
      if need_add_timer =? 0 then mret tt
      else
        sched_del_timer (obj_timer p);;
        t ← read_timer (obj_timer p);
        if bool_decide (t.(func) = F_pwm_end_event) && timer_is_before t.(waketime) clock
        then shutdown "Scheduled pwm event will exceed max_duration"
        else
          set_func (obj_timer p) F_pwm_event;;
          set_waketime (obj_timer p) clock;;
          sched_add_timer (obj_timer p)
  | _ => stuck Out_of_bounds
  end.

Definition pwm_shutdown : M unit :=
  foreach_oid OT_pwm_out (λ _ p,
    o ← read_obj p;
    gpio_pwm_write o.(pw_pin) o.(pw_default_value);;
    set_func (obj_timer p) F_pwm_event;;
    write_obj p (o <| pw_mq ::= move_queue_clear |>)).

Definition command_set_pwm_out (args : list Z) : M unit :=
  match args with
  | [pin; cycle_ticks; value] => _ ← gpio_pwm_setup pin cycle_ticks value; mret tt
  | _ => stuck Out_of_bounds
  end.

(** ** Pulse counters (pulse_counter.c) *)

Definition CF_PENDING : Z := 1.

Definition counter_event (p : Z) : M Z :=
  c ← read_obj p;
  t ← read_timer (obj_timer p);
  let time := t.(waketime) in
  let last_value := Z.land c.(c_count) 1 in
  value ← gpio_in_read c.(c_pin);
  let c := if negb (last_value =? value)
           then c <| c_count ::= λ n, u32 (n + 1) |> <| c_last_count_time := time |> else c in
  write_obj p c;;
  when (timer_is_before c.(c_next_sample_time) time)
    (write_obj p (c <| c_flags ::= λ f, Z.lor f CF_PENDING |>
                    <| c_next_sample_time := u32 (time + c.(c_sample_ticks)) |>);;
     sched_wake_task W_counter);;
  set_waketime (obj_timer p) (time + c.(c_poll_ticks));;
  mret SF_RESCHEDULE.

Definition command_config_counter (args : list Z) : M unit :=
  match args with
  | [oid; pin; pull_up] =>
      p ← oid_alloc oid OT_counter (sizeof_oid OT_counter);
      new_timer (obj_timer p) F_null;;
      write_obj p (mk_counter 0 0 0 0 0 0 0);;
      pin ← gpio_in_setup pin pull_up;
      update_obj p (λ c, c <| c_pin := pin |>);;
      set_func (obj_timer p) F_counter_event
  | _ => stuck Out_of_bounds
  end.

Definition command_query_counter (args : list Z) : M unit :=
  match args with
  | [oid; clock; poll_ticks; sample_ticks] =>
      p ← oid_lookup oid OT_counter;
      sched_del_timer (obj_timer p);;
      set_waketime (obj_timer p) clock;;
      update_obj p (λ c, c <| c_poll_ticks := poll_ticks |> <| c_sample_ticks := sample_ticks |>
                           <| c_next_sample_time := clock |>);;
      sched_add_timer (obj_timer p)
  | _ => stuck Out_of_bounds
  end.

Definition counter_task : M unit :=
  w ← sched_check_wake W_counter;
  if negb w then mret tt
  else
    foreach_oid OT_counter (λ oid p,
      c ← read_obj p;
      if negb (flag_set c.(c_flags) CF_PENDING) then mret tt
      else
        irq_disable;;
        t ← read_timer (obj_timer p);
        c ← read_obj p;
        write_obj p (c <| c_flags ::= λ f, Z.land f (Z.lnot CF_PENDING) |>);;
        irq_enable;;
        sendf "counter_state oid=%c next_clock=%u count=%u count_clock=%u"
          [A_int oid; A_int t.(waketime); A_int c.(c_count); A_int c.(c_last_count_time)]).

(** ** Buttons (buttons.c) *)

Definition BF_NO_RETRANSMIT : Z := 0x80.
Definition BF_PENDING : Z := 0xff.
Definition BF_ACKED : Z := 0xfe.

(** The loop that reads the pins: one bit per button. *)
Fixpoint read_buttons (pins : list Z) (bit status : Z) : M Z :=
  match pins with
  | [] => mret status
  | pin :: pins =>
      val ← gpio_in_read pin;
      read_buttons pins (u8 (Z.shiftl bit 1)) (if negb (val =? 0) then Z.lor status bit else status)
  end.

(** The debouncing: the new state and whether to report it. *)
Definition debounce (b : buttons) (status : Z) : buttons * bool :=
  let diff := Z.lxor status b.(b_pressed) in
  let debounced := u8 (Z.lnot (Z.lxor status b.(b_last_pressed))) in
  if negb (diff =? 0) && flag_set diff debounced then
    let pressed := Z.lor (Z.land b.(b_pressed) (Z.lnot debounced)) (Z.land status debounced) in
    let b := b <| b_pressed := pressed |> in
    if b.(b_report_count) <? 8 then
      (b <| b_reports ::= <[Z.to_nat b.(b_report_count) := pressed]> |>
         <| b_report_count := b.(b_report_count) + 1 |>
         <| b_retransmit_state := BF_PENDING |>, true)
    else (b, false)
  else (b, false).

Definition buttons_event (p : Z) : M Z :=
  b ← read_obj p;
  status ← read_buttons (take (Z.to_nat b.(b_button_count)) b.(b_pins)) 1 0;
  let '(b, report) := debounce b status in
  when report (sched_wake_task W_buttons);;
  let b := b <| b_last_pressed := status |> in
  b ← (let retransmit_state := b.(b_retransmit_state) in
       if negb (flag_set retransmit_state BF_NO_RETRANSMIT) then
         let retransmit_state := u8 (retransmit_state - 1) in
         when (flag_set retransmit_state BF_NO_RETRANSMIT) (sched_wake_task W_buttons);;
         mret (b <| b_retransmit_state := retransmit_state |>)
       else mret b);
  write_obj p b;;
  add_waketime (obj_timer p) b.(b_rest_ticks);;
  mret SF_RESCHEDULE.

(** The size of a [struct gpio_in]: a register pointer and a bit mask. *)
Definition sizeof_gpio_in : Z := 8.

Definition command_config_buttons (args : list Z) : M unit :=
  match args with
  | [oid; button_count] =>
      let button_count := u8 button_count in
      if 8 <? button_count then shutdown "Max of 8 buttons"
      else
        p ← oid_alloc oid OT_buttons (sizeof_oid OT_buttons + sizeof_gpio_in * button_count);
        write_obj p (mk_buttons 0 0 0 0 (repeat 0 8) 0 0 0 button_count
                       (repeat 0 (Z.to_nat button_count)));;
        new_timer (obj_timer p) F_buttons_event
  | _ => stuck Out_of_bounds
  end.

Definition command_buttons_add (args : list Z) : M unit :=
  match args with
  | [oid; pos; pin; pull_up] =>
      p ← oid_lookup oid OT_buttons;
      b ← read_obj p;
      let pos := u8 pos in
      if b.(b_button_count) <=? pos then shutdown "Set button past maximum button count"
      else
        pin ← gpio_in_setup pin pull_up;
        update_obj p (λ b, b <| b_pins ::= <[Z.to_nat pos := pin]> |>)
  | _ => stuck Out_of_bounds
  end.

Definition command_buttons_query (args : list Z) : M unit :=
  match args with
  | [oid; clock; rest_ticks; retransmit_count; invert] =>
      p ← oid_lookup oid OT_buttons;
      sched_del_timer (obj_timer p);;
      set_waketime (obj_timer p) clock;;
      update_obj p (λ b, b <| b_rest_ticks := rest_ticks |> <| b_pressed := u8 invert |>
        <| b_last_pressed := u8 invert |> <| b_ack_count := 0 |> <| b_report_count := 0 |>
        <| b_retransmit_state := BF_ACKED |> <| b_retransmit_count := u8 retransmit_count |>);;
      if BF_NO_RETRANSMIT <=? u8 retransmit_count
      then shutdown "Invalid buttons retransmit count"
      else if rest_ticks =? 0 then mret tt
      else sched_add_timer (obj_timer p)
  | _ => stuck Out_of_bounds
  end.

(** The loop of [command_buttons_ack] that moves the reports left. *)
Fixpoint shift_reports (k : nat) (i count : nat) (reports : list Z) : option (list Z) :=
  match k with
  | O => Some reports
  | S k =>
      r ← reports !! (i + count)%nat;
      shift_reports k (S i) count (<[i := r]> reports)
  end.

Definition command_buttons_ack (args : list Z) : M unit :=
  match args with
  | [oid; count] =>
      p ← oid_lookup oid OT_buttons;
      let count := u8 count in
      update_obj p (λ b : buttons, b <| b_ack_count ::= λ c, u8 (c + count) |>);;
      irq_disable;;
      b ← read_obj p;
      (if b.(b_report_count) <=? count then
         write_obj p (b <| b_report_count := 0 |> <| b_retransmit_state := BF_ACKED |>)
       else
         let pending := b.(b_report_count) - count in
         reports ← of_option Out_of_bounds
                     (shift_reports (Z.to_nat pending) 0 (Z.to_nat count) b.(b_reports));
         write_obj p (b <| b_reports := reports |> <| b_report_count := pending |>));;
      irq_enable
  | _ => stuck Out_of_bounds
  end.

Definition buttons_task : M unit :=
  w ← sched_check_wake W_buttons;
  if negb w then mret tt
  else
    foreach_oid OT_buttons (λ oid p,
      b ← read_obj p;
      if negb (b.(b_retransmit_state) =? BF_PENDING) then mret tt
      else
        irq_disable;;
        b ← read_obj p;
        let report_count := b.(b_report_count) in
        if report_count =? 0 then irq_enable
        else
          write_obj p (b <| b_retransmit_state := b.(b_retransmit_count) |>);;
          irq_enable;;
          sendf "buttons_state oid=%c ack_count=%c state=%*s"
            [A_int oid; A_int b.(b_ack_count); A_buf (take (Z.to_nat report_count) b.(b_reports))]).

End Devices.
