(* ===== verification/DevicesSpec.v ===== *)
(** * Safety of outputs and inputs (src/gpiocmds.c, adccmds.c)

    A pin that drives a heater is switched off when the host falls silent, and a
    temperature that stays out of range stops the machine. *)

From S2P Require Import Prelude.
From S2P Require Import State.
From S2P Require Import Machine.
From S2P Require Import Sched.
From S2P Require Import SchedList.
From S2P Require Import SchedSpec.
From S2P Require Import Basecmd.
From S2P Require Import BasecmdSpec.
From S2P Require Import Hal.
From S2P Require Import Devices.

Section outputs.
Context `{B : Board}.

(** ** Digital outputs *)

Definition out_at (s : mcu) (p : Z) (d : digital_out_s) (n : timer) : Prop :=
  obj_at s p d ∧ s.(timers) !! obj_timer p = Some n.

(** The timer events of the output at [p], one after the other, with the wake
    time of each: what the scheduler runs for it while no command concerns it. *)
Definition out_event (f : timer_func) (p : Z) : M Z :=
  match f with
  | F_digital_load_event => digital_load_event p
  | F_digital_toggle_event => digital_toggle_event p
  | _ => stuck Bad_object
  end.

Fixpoint out_events (fuel : nat) (p : Z) (s : mcu) : list Z * (outcome Z * mcu) :=
  match fuel with
  | O => ([], (Stuck Out_of_fuel, s))
  | S fuel =>
      match s.(timers) !! obj_timer p with
      | None => ([], (Stuck Null_deref, s))
      | Some n =>
          match out_event n.(func) p s with
          | (Ret res, s') =>
              if res =? SF_RESCHEDULE then
                let '(ws, r) := out_events fuel p s' in (n.(waketime) :: ws, r)
              else ([n.(waketime)], (Ret res, s'))
          | r => ([n.(waketime)], r)
          end
      end
  end.

(** A timer event of the machine that runs to an end without its own loop. *)
Lemma wp_ret_inv {A} (m : M A) (P : A → mcu → Prop) s :
  wp m P (λ _ _, False) s → ∃ a s', m s = (Ret a, s') ∧ P a s'.
Proof.
  unfold wp. destruct (m s) as [[a|r|f] s']; [|done..]. intros HP. by exists a, s'.
Qed.

Lemma wp_shut_inv {A} (m : M A) msg s :
  wp m (λ _ _, False) (λ r _, r = msg) s → ∃ s', m s = (Shut msg, s').
Proof. unfold wp. destruct (m s) as [[a|r|f] s']; [done| |done]. intros ->. by exists s'. Qed.

Lemma before_unwrapped x y :
  - 2 ^ 31 <= x - y < 2 ^ 31 → timer_is_before (u32 x) (u32 y) = (x <? y).
Proof. intros Hxy. unfold timer_is_before. int_lia. Qed.

(** How long the pin keeps its level after the toggle that sets [flags]. *)
Definition phase (d : digital_out_s) (flags : Z) : Z :=
  if flag_set flags DF_ON then d.(d_on_duration) else d.(d_off_duration).

(** The flags of an output that toggles until an end time. *)
Definition toggling (flags : Z) : Prop :=
  flag_set flags DF_CHECK_END = true ∧ 0 <= flags < 32.

Lemma toggling_flip flags : toggling flags → toggling (Z.lxor flags DF_ON).
Proof.
  intros [Hc Hr]. assert (∃ k : nat, flags = Z.of_nat k ∧ (k < 32)%nat) as (k & -> & Hk)
    by (exists (Z.to_nat flags); lia).
  do 32 (destruct k as [|k]; [vm_compute in Hc |- *; (discriminate || (split; [done|split; done]))|]).
  lia.
Qed.

Lemma wp_toggle p s d n W E' :
  out_at s p d n → toggling d.(d_flags) → n.(waketime) = u32 W → d.(d_end_time) = u32 E' →
  W < E' < W + 2 ^ 31 → 0 < d.(d_on_duration) < 2 ^ 31 → 0 < d.(d_off_duration) < 2 ^ 31 →
  let flags := Z.lxor d.(d_flags) DF_ON in
  let W' := W + phase d flags in
  wp (digital_toggle_event p) (λ r s', r = SF_RESCHEDULE ∧
    out_at s' p (d <| d_flags := flags |>)
      (if W' <? E' then n <| waketime := u32 W' |>
       else n <| func := F_digital_load_event |> <| waketime := u32 E' |>)) (λ _ _, False) s.
Proof.
  intros [Hd Hn] Ht Hw He HW Hon Hoff flags W'. unfold digital_toggle_event.
  wp_steps. eapply wp_read_obj; [exact Hd|]. wp_steps. eapply wp_read_timer; [exact Hn|].
  fold flags. fold (phase d flags). rewrite Hw, He, u32_add_l. fold W'.
  destruct (toggling_flip _ Ht) as [Hce _]. fold flags in Hce. rewrite Hce. cbn [andb].
  assert (Hph : 0 < phase d flags < 2 ^ 31) by (unfold phase; destruct (flag_set flags DF_ON); lia).
  rewrite before_unwrapped by (unfold W'; lia).
  destruct (W' <? E') eqn:Hb; cbn [negb]; wp_steps; (split; [done|]); split.
  - apply obj_at_write.
  - simpl. rewrite lookup_alter_eq, Hn. simpl. by rewrite u32_u32.
  - apply obj_at_write.
  - simpl. rewrite lookup_alter_eq, lookup_alter_eq, Hn. simpl. by rewrite u32_u32.
Qed.

(** The message of the shutdown. *)
Definition MISSED : string := "Missed scheduling of next digital out event".

Lemma load_missed p s d n :
  out_at s p d n → d.(d_mq).(mq_first) = None →
  ∃ s', digital_load_event p s = (Shut MISSED, s').
Proof.
  intros [Hd _] Hq. apply wp_shut_inv. unfold digital_load_event. wp_steps.
  eapply wp_read_obj; [exact Hd|]. unfold move_queue_empty. rewrite Hq. simpl. by apply wp_shutdown.
Qed.

(** The wake times of a run that starts at [W] and ends at [E']. *)
Definition times_within (W E' : Z) (ws : list Z) : Prop :=
  last ws = Some (u32 E') ∧ Forall (λ t, ∃ T, t = u32 T ∧ W <= T <= E') ws.

Lemma times_within_cons W W' E' ws :
  W <= W' → W <= E' → times_within W' E' ws → times_within W E' (u32 W :: ws).
Proof.
  intros HW HE [Hl Hall]. split.
  - destruct ws; [done|]. done.
  - constructor; [exists W; split; [done|lia]|]. eapply Forall_impl; [exact Hall|].
    intros t (T & -> & HT). exists T. split; [done|lia].
Qed.

Lemma out_events_missed fuel p s d n E' :
  out_at s p d n → d.(d_mq).(mq_first) = None → n.(func) = F_digital_load_event →
  n.(waketime) = u32 E' →
  ∃ ws s', out_events (S fuel) p s = (ws, (Shut MISSED, s')) ∧ times_within E' E' ws.
Proof.
  intros Ho Hq Hf Hw. cbn [out_events]. destruct (load_missed p s d n Ho Hq) as (s' & Hs).
  destruct Ho as [_ ->]. rewrite Hf. cbn [out_event]. rewrite Hs. exists [waketime n], s'.
  split; [done|]. rewrite Hw. split; [done|]. constructor; [|done]. exists E'. split; [done|lia].
Qed.

Lemma out_events_toggle fuel : ∀ p s d n W E',
  out_at s p d n → d.(d_mq).(mq_first) = None → n.(func) = F_digital_toggle_event →
  toggling d.(d_flags) → n.(waketime) = u32 W → d.(d_end_time) = u32 E' →
  W < E' < W + 2 ^ 31 → 0 < d.(d_on_duration) < 2 ^ 31 → 0 < d.(d_off_duration) < 2 ^ 31 →
  E' - W < Z.of_nat fuel →
  ∃ ws s', out_events fuel p s = (ws, (Shut MISSED, s')) ∧ times_within W E' ws.
Proof.
  induction fuel as [|fuel IH]; intros p s d n W E' Ho Hq Hf Ht Hw He HW Hon Hoff Hfuel; [lia|].
  pose proof (wp_toggle p s d n W E' Ho Ht Hw He HW Hon Hoff) as Hwp. cbv zeta in Hwp.
  set (flags := Z.lxor d.(d_flags) DF_ON) in *.
  assert (Hph : 0 < phase d flags < 2 ^ 31) by (unfold phase; destruct (flag_set flags DF_ON); lia).
  apply wp_ret_inv in Hwp as (r & s1 & Hrun & -> & Ho1).
  cbn [out_events]. destruct Ho as [_ ->]. rewrite Hf. cbn [out_event]. rewrite Hrun, Z.eqb_refl.
  rewrite Hw. destruct (Z.ltb_spec (W + phase d flags) E') as [Hlt|Hge].
  - destruct (IH p s1 _ _ (W + phase d flags) E' Ho1) as (ws & s' & Hev & Hin);
      try done; [by apply toggling_flip|lia..|].
    rewrite Hev. eexists _, s'. split; [done|]. eapply times_within_cons; [| |exact Hin]; lia.
  - destruct fuel as [|fuel]; [lia|].
    destruct (out_events_missed fuel p s1 _ _ E' Ho1) as (ws & s' & Hev & Hin); try done.
    rewrite Hev. eexists _, s'. split; [done|]. eapply times_within_cons; [| |exact Hin]; lia.
Qed.

(** ** Loading a setting *)

(** The setting leaves the pin in its default state for good. *)
Definition rests (d : digital_out_s) (on : Z) : bool :=
  ((on =? 0) || (d.(d_cycle_time) <=? on))
  && Bool.eqb (on =? 0) (negb (flag_set d.(d_flags) DF_DEFAULT_ON)).

Definition toggles (d : digital_out_s) (on : Z) : bool :=
  negb ((on =? 0) || (d.(d_cycle_time) <=? on)).

Lemma digital_next_end d w on :
  rests d on = false → d.(d_max_duration) ≠ 0 →
  digital_next d w on
  = (if toggles d on then 7 else if on =? 0 then 4 else 5, u32 (w + d.(d_max_duration))).
Proof.
  unfold rests, toggles, digital_next. intros Hr Hm. rewrite (proj2 (Z.eqb_neq _ _) Hm).
  destruct (on =? 0) eqn:Ho; simpl in *.
  - destruct (flag_set _ _); simpl in *; [done|discriminate].
  - destruct (_ <=? on) eqn:Hc; simpl in *; [|done].
    destruct (flag_set _ _); simpl in *; [discriminate|done].
Qed.

Lemma land_16 x : Z.land x 16 = 0 ∨ Z.land x 16 = 16.
Proof.
  destruct (Z.testbit x 4) eqn:Hb; [right|left]; apply Z.bits_inj'; intros k Hk;
    rewrite Z.land_spec, ?Z.bits_0; change 16 with (2 ^ 4); rewrite Z.pow2_bits_eqb by lia;
    destruct (Z.eqb_spec 4 k) as [<-|]; by rewrite ?Hb, ?andb_true_r, ?andb_false_r.
Qed.

Lemma loaded_flags_toggling d on :
  toggling (Z.lor (if toggles d on then 7 else if on =? 0 then 4 else 5) (Z.land d.(d_flags) DF_DEFAULT_ON)).
Proof.
  change DF_DEFAULT_ON with 16. destruct (land_16 d.(d_flags)) as [-> | ->];
    destruct (toggles d on), (on =? 0); by vm_compute.
Qed.

(** The queue holds one setting. *)
Definition one_setting (s : mcu) (d : digital_out_s) (on : Z) : Prop :=
  ∃ a nd w0, d.(d_mq).(mq_first) = Some a ∧ s.(nodes) !! a = Some nd
    ∧ nd.(mn_data) = MD_digital w0 on ∧ nd.(mn_next) = None.

Lemma wp_load_setting p s d n w on :
  out_at s p d n → n.(waketime) = u32 w → one_setting s d on →
  rests d on = false → 0 < d.(d_max_duration) < 2 ^ 31 → d.(d_cycle_time) < 2 ^ 31 → 0 <= on →
  let E' := w + d.(d_max_duration) in
  wp (digital_load_event p) (λ r s', r = SF_RESCHEDULE ∧ ∃ d',
    d'.(d_mq).(mq_first) = None ∧ d'.(d_end_time) = u32 E' ∧ toggling d'.(d_flags) ∧
    if toggles d on && (w + on <? E')
    then out_at s' p d' (n <| func := F_digital_toggle_event |> <| waketime := u32 (w + on) |>)
         ∧ d'.(d_on_duration) = on ∧ d'.(d_off_duration) = u32 (d.(d_cycle_time) - on)
    else out_at s' p d' (n <| waketime := u32 E' |>)) (λ _ _, False) s.
Proof.
  intros [Hd Hn] Hw (a & nd & w0 & Hfirst & Hnd & Hdata & Hnext) Hr HD Hcyc Hon E'.
  unfold digital_load_event. wp_steps. eapply wp_read_obj; [exact Hd|].
  unfold move_queue_empty at 1. rewrite Hfirst. cbn [bool_decide decide]. simpl.
  unfold move_queue_pop. wp_steps. eapply wp_some; [exact Hfirst|]. wp_steps.
  eapply wp_read_node; [exact Hnd|]. wp_steps. rewrite Hnext.
  unfold read_digital. wp_steps. eapply wp_read_node; [exact Hnd|]. rewrite Hdata. wp_steps.
  unfold move_free. wp_steps. apply wp_update_node; [by exists nd|]. wp_steps.
  eapply wp_read_timer; [exact Hn|]. rewrite Hw, digital_next_end by (done || lia).
  unfold move_queue_empty. simpl. wp_steps. rewrite !u32_add_l. fold E'.
  pose proof (loaded_flags_toggling d on) as Htog.
  destruct (toggles d on) eqn:Htg; simpl.
  - assert (Hlt : 0 < on < d.(d_cycle_time)) by (unfold toggles in Htg; lia).
    rewrite before_unwrapped by lia. wp_steps.
    destruct (w + on <? E'); cbn [negb]; wp_steps; (split; [done|]); eexists.
    + split; [|split; [|split; [|split; [split; [apply obj_at_write|]|]]]]; try done.
      simpl. rewrite !lookup_alter_eq, Hn. simpl. by rewrite u32_u32.
    + split; [|split; [|split; [|split; [apply obj_at_write|]]]]; try done.
      simpl. rewrite lookup_alter_eq, Hn. simpl. by rewrite u32_u32.
  - assert (flag_set (if on =? 0 then 4 else 5) DF_TOGGLING = false
      ∧ flag_set (if on =? 0 then 4 else 5) DF_CHECK_END = true) as [-> ->] by (by destruct (on =? 0)).
    cbn [negb]. wp_steps. split; [done|]. eexists.
    split; [|split; [|split; [|split; [apply obj_at_write|]]]]; try done.
    simpl. rewrite lookup_alter_eq, Hn. simpl. by rewrite u32_u32.
Qed.

(** From the event that loads a setting on. *)
Lemma out_events_load fuel p s d n w on :
  out_at s p d n → n.(func) = F_digital_load_event → n.(waketime) = u32 w → one_setting s d on →
  rests d on = false → 0 < d.(d_max_duration) < 2 ^ 31 → d.(d_cycle_time) < 2 ^ 31 → 0 <= on →
  d.(d_max_duration) + 2 <= Z.of_nat fuel →
  ∃ ws s', out_events fuel p s = (ws, (Shut MISSED, s')) ∧ times_within w (w + d.(d_max_duration)) ws.
Proof.
  intros Ho Hf Hw Hq Hr HD Hcyc Hon Hfuel. set (E' := w + d.(d_max_duration)).
  pose proof (wp_load_setting p s d n w on Ho Hw Hq Hr HD Hcyc Hon) as Hwp. cbv zeta in Hwp. fold E' in Hwp.
  apply wp_ret_inv in Hwp as (r & s1 & Hrun & -> & d' & Hq1 & He1 & Ht1 & Hcase).
  destruct fuel as [|fuel]; [lia|]. cbn [out_events]. destruct Ho as [_ ->]. rewrite Hf. cbn [out_event].
  rewrite Hrun, Z.eqb_refl, Hw.
  destruct (toggles d on) eqn:Htg, (Z.ltb_spec (w + on) E') as [Hlt|Hge]; cbn [andb] in Hcase.
  1: { assert (Hc : 0 < on < d.(d_cycle_time)) by (unfold toggles in Htg; lia).
       destruct Hcase as (Ho1 & Hon1 & Hoff1). rewrite u32_small in Hoff1 by lia.
       destruct (out_events_toggle fuel p s1 d' _ (w + on) E' Ho1) as (ws & s' & Hev & Hin);
         try done; try lia.
       rewrite Hev. eexists _, s'. split; [done|]. eapply times_within_cons; [| |exact Hin]; lia. }
  all: destruct fuel as [|fuel]; [lia|];
    destruct (out_events_missed fuel p s1 d' _ E' Hcase) as (ws & s' & Hev & Hin); try done;
    rewrite Hev; eexists _, s'; (split; [done|]); (eapply times_within_cons; [| |exact Hin]; lia).
Qed.

(** ** Shutting down *)

Definition shutdown_write (d : digital_out_s) : event :=
  Ev_gpio_out_write d.(d_pin) (b2z (flag_set d.(d_flags) DF_DEFAULT_ON)).

Definition at_default (d : digital_out_s) : digital_out_s :=
  d <| d_flags := if flag_set d.(d_flags) DF_DEFAULT_ON then Z.lor DF_ON DF_DEFAULT_ON else 0 |>
    <| d_mq ::= move_queue_clear |>.

(** The body of [digital_out_shutdown]. *)
Definition shutdown_body (_ p : Z) : M unit :=
  d ← read_obj p;
  gpio_out_write d.(d_pin) (Z.land d.(d_flags) DF_DEFAULT_ON);;
  write_obj p (at_default d).

Lemma shutdown_body_run i p s d :
  obj_at s p d →
  shutdown_body i p s
  = (Ret tt, s <| trace ::= cons (shutdown_write d) |>
               <| objs ::= <[p := O_digital_out_s (at_default d)]> |>).
Proof.
  intros Hd. unfold obj_at in Hd. unfold shutdown_body, read_obj, mbind, M_bind. simpl.
  by rewrite Hd.
Qed.

Lemma shutdown_iter L : ∀ s,
  NoDup L.*2 → (∀ i p, (i, p) ∈ L → ∃ d, obj_at (A := digital_out_s) s p d) →
  ∃ s' evs, iter_oids L shutdown_body s = (Ret tt, s') ∧ s'.(trace) = evs ++ s.(trace)
    ∧ (∀ e, e ∈ evs ↔ ∃ i p d, (i, p) ∈ L ∧ obj_at s p d ∧ e = shutdown_write d)
    ∧ (∀ i p d, (i, p) ∈ L → obj_at s p d → obj_at s' p (at_default d))
    ∧ (∀ p, p ∉ L.*2 → s'.(objs) !! p = s.(objs) !! p).
Proof.
  induction L as [|[i p] L IH]; intros s Hnd Hobj.
  { exists s, []. split_and!; try done; [|set_solver]. intros e. split; [set_solver|].
    intros (i & p & d & Hin & _). set_solver. }
  rewrite fmap_cons in Hnd. apply NoDup_cons in Hnd as [Hni Hnd]. simpl in Hni.
  destruct (Hobj i p ltac:(set_solver)) as [d Hd]. cbn [iter_oids]. unfold mbind, M_bind at 1.
  rewrite (shutdown_body_run i p s d Hd).
  set (s1 := s <| trace ::= cons (shutdown_write d) |> <| objs ::= <[p := O_digital_out_s (at_default d)]> |>).
  assert (Hne : ∀ j q, (j, q) ∈ L → q ≠ p).
  { intros j q Hq ->. apply Hni. change p with ((j, p).2). by apply list_elem_of_fmap_2. }
  assert (Hs1 : ∀ j q (d' : digital_out_s), (j, q) ∈ L → obj_at s1 q d' ↔ obj_at s q d').
  { intros j q d' Hq. unfold obj_at, s1. simpl. rewrite lookup_insert_ne; [done|]. intros ->. by apply (Hne j q). }
  destruct (IH s1 Hnd) as (s' & evs & Hrun & Htr & Hev & Hat & Hfr).
  { intros j q Hq. destruct (Hobj j q ltac:(set_solver)) as [d' Hd']. exists d'. by apply (Hs1 j). }
  exists s', (evs ++ [shutdown_write d]). split; [exact Hrun|]. split_and!.
  - rewrite Htr. unfold s1. simpl. by rewrite <- app_assoc.
  - intros e. rewrite elem_of_app, Hev, list_elem_of_singleton. split.
    + intros [(j & q & d' & Hq & Hd' & ->)| ->].
      * exists j, q, d'. split; [set_solver|]. by rewrite <- (Hs1 j).
      * exists i, p, d. set_solver.
    + intros (j & q & d' & [Heq|Hq]%elem_of_cons & Hd' & ->).
      * right. simplify_eq. unfold obj_at in *. simpl in *. by simplify_eq.
      * left. exists j, q, d'. by rewrite (Hs1 j).
  - intros j q d' [Heq|Hq]%elem_of_cons Hd'; simplify_eq.
    + unfold obj_at in *. rewrite Hfr by done. unfold s1. simpl. rewrite lookup_insert_eq.
      simpl in *. by simplify_eq.
    + apply (Hat j q d' Hq). by apply (Hs1 j).
  - intros q Hq. rewrite fmap_cons in Hq. rewrite Hfr by set_solver. unfold s1. simpl.
    rewrite lookup_insert_ne; [done|]. set_solver.
Qed.

End outputs.

(** C27: an output whose host falls silent is given up after [max_duration].  When
    the event at time [w] loads the last queued setting, one that does not leave
    the pin in its default state for good, and no command follows, then the
    timer events of the output, toggles of a software PWM included, all come at
    times from [w] to [w + max_duration], and the last of them, at
    [w + max_duration], shuts the machine down. *)
Theorem digital_out_max_duration `{B : Board} p s d n w on :
  out_at s p d n → n.(func) = F_digital_load_event → n.(waketime) = u32 w → one_setting s d on →
  rests d on = false → 0 < d.(d_max_duration) < 2 ^ 31 → d.(d_cycle_time) < 2 ^ 31 → 0 <= on →
  ∃ ws s', out_events (Z.to_nat (d.(d_max_duration) + 2)) p s = (ws, (Shut MISSED, s'))
    ∧ times_within w (w + d.(d_max_duration)) ws.
Proof.
  intros Ho Hf Hw Hq Hr HD Hcyc Hon. apply out_events_load with n on; try done. lia.
Qed.

Definition example_out : digital_out_s :=
  mk_digital_out_s 0 0 0 5 1000 100 (mk_move_queue_head (Some 64) (Some 64)) 0.
Definition example_out_timer : timer := mk_timer None F_digital_load_event 4294967000.
Definition example_out_mcu : mcu :=
  init_mcu <| objs := {[4096 := O_digital_out_s example_out]} |>
    <| timers ::= <[obj_timer 4096 := example_out_timer]> |>
    <| nodes := {[64 := mk_move_node None (MD_digital 4294967000 30)]} |>.

Lemma digital_out_max_duration_witness :
  let b := example_board in
  ∃ ws s', out_events 1002 4096 example_out_mcu = (ws, (Shut MISSED, s'))
    ∧ times_within 4294967000 (4294967000 + 1000) ws.
Proof.
  intros b.
  apply (digital_out_max_duration 4096 example_out_mcu example_out example_out_timer 4294967000 30).
  - split; reflexivity.
  - reflexivity.
  - reflexivity.
  - eexists 64, _, _. split; [reflexivity|]. split; [reflexivity|]. split; reflexivity.
  - reflexivity.
  - split; reflexivity.
  - reflexivity.
  - lia.
Defined.

(** A shutdown puts every digital output into its default state: for every
    configured output the default level is written to its pin, no other pin is
    written, its flags record the default and its queue is empty. *)
Theorem digital_out_shutdown_defaults `{B : Board} s :
  oids_ok s.(base) → NoDup (oids_of s.(base) OT_digital_out).*2 →
  (∀ i p, (i, p) ∈ oids_of s.(base) OT_digital_out → ∃ d, obj_at (A := digital_out_s) s p d) →
  ∃ s' evs, digital_out_shutdown s = (Ret tt, s') ∧ s'.(trace) = evs ++ s.(trace)
    ∧ (∀ e, e ∈ evs ↔ ∃ i p d, (i, p) ∈ oids_of s.(base) OT_digital_out ∧ obj_at s p d
                               ∧ e = shutdown_write d)
    ∧ (∀ i p d, (i, p) ∈ oids_of s.(base) OT_digital_out → obj_at s p d → obj_at s' p (at_default d)).
Proof.
  intros Hok Hnd Hobj. destruct (shutdown_iter _ s Hnd Hobj) as (s' & evs & Hrun & Htr & Hev & Hat & _).
  exists s', evs. split_and!; try done. rewrite <- Hrun.
  apply (foreach_oid_iter OT_digital_out shutdown_body s); [|done].
  intros i p s0. unfold shutdown_body, read_obj, mbind, M_bind. simpl.
  destruct (objs s0 !! p) as [o|]; [|done]. simpl. by destruct o.
Qed.

Definition example_outs : mcu :=
  init_mcu <| objs := {[4096 := O_digital_out_s example_out; 8192 := O_digital_out_s example_out]} |>
    <| base ::= λ c, c <| oid_count := 2 |>
         <| oids := Some [mk_oid_s OT_digital_out 4096; mk_oid_s OT_digital_out 8192] |> |>.

Lemma digital_out_shutdown_defaults_witness :
  let b := example_board in
  ∃ s' evs, digital_out_shutdown example_outs = (Ret tt, s')
    ∧ s'.(trace) = evs ++ example_outs.(trace)
    ∧ (∀ e, e ∈ evs ↔ ∃ i p d, (i, p) ∈ oids_of example_outs.(base) OT_digital_out
                               ∧ obj_at example_outs p d ∧ e = shutdown_write d)
    ∧ (∀ i p d, (i, p) ∈ oids_of example_outs.(base) OT_digital_out → obj_at example_outs p d →
         obj_at s' p (at_default d)).
Proof.
  intros b. apply (digital_out_shutdown_defaults example_outs).
  - split; reflexivity.
  - repeat constructor; set_solver.
  - intros i p Hin. change (oids_of _ _) with [(0, 4096); (1, 8192)] in Hin.
    exists example_out. apply elem_of_cons in Hin as [Heq|Hin]; [injection Heq as -> ->; reflexivity|].
    apply list_elem_of_singleton in Hin. injection Hin as -> ->. reflexivity.
Defined.

(** ** Analog inputs *)

Section inputs.
Context `{B : Board}.

Definition sum (vs : list Z) : Z := foldr Z.add 0 vs.

(** How many of the results, newest first, were out of range in a row. *)
Fixpoint bad_run (results : list bool) : nat :=
  match results with
  | false :: results => S (bad_run results)
  | _ => O
  end.

Lemma bad_run_all results k :
  (k <= bad_run results)%nat → (k <= length results)%nat ∧ Forall (λ ok, ok = false) (take k results).
Proof.
  revert k. induction results as [|[] results IH]; intros k Hk; simpl in *.
  - replace k with 0%nat by lia. by split; [lia|].
  - replace k with 0%nat by lia. by split; [lia|].
  - destruct k as [|k]; [by split; [lia|]|]. destruct (IH k) as [Hl Hf]; [lia|].
    simpl. split; [lia|]. by constructor.
Qed.

(** The input has had the [results], newest first, and has the [samples] of an
    unfinished one. *)
Record adc_ok (a : analog_in) (results : list bool) (samples : list Z) : Prop := {
  ao_invalid : a.(a_invalid_count) = Z.of_nat (bad_run results);
  ao_below : a.(a_invalid_count) < a.(a_range_check_count) < 256;
  ao_count : 1 <= a.(a_sample_count) < 255;
  ao_state : 0 <= a.(a_state) <= a.(a_sample_count) + 1;
  ao_samples : a.(a_state) < a.(a_sample_count) →
    a.(a_state) = Z.of_nat (length samples) ∧ a.(a_value) = u16 (sum samples);
}.

(** The samples with the next one, and the result they give when complete. *)
Definition next_samples (s : mcu) (a : analog_in) (samples : list Z) : list Z :=
  (if a.(a_sample_count) <=? a.(a_state) then [] else samples)
  ++ [u16 (hw_adc_read a.(a_pin) (S s.(reads)))].
Definition in_range (a : analog_in) (vs : list Z) : bool :=
  (a.(a_min_value) <=? u16 (sum vs)) && (u16 (sum vs) <=? a.(a_max_value)).

(** The input after a sample, and after a result. *)
Definition sampled (a : analog_in) (vs : list Z) : analog_in :=
  a <| a_value := u16 (sum vs) |> <| a_state := Z.of_nat (length vs) |>.
Definition finished (a : analog_in) (vs : list Z) : analog_in :=
  (sampled a vs)
    <| a_invalid_count := if in_range a vs then 0 else a.(a_invalid_count) + 1 |>
    <| a_next_begin_time := u32 (a.(a_next_begin_time) + a.(a_rest_time)) |>.

Lemma sum_app l1 l2 : sum (l1 ++ l2) = sum l1 + sum l2.
Proof. unfold sum. induction l1; simpl; lia. Qed.

(** The value and the state that the code computes. *)
Lemma next_value s a results samples :
  adc_ok a results samples →
  let v := u16 (hw_adc_read a.(a_pin) (S s.(reads))) in
  let vs := next_samples s a samples in
  (if a.(a_sample_count) <=? a.(a_state) then (0, v) else (a.(a_state), u16 (v + a.(a_value))))
  = (Z.of_nat (length vs) - 1, u16 (sum vs)) ∧ 1 <= Z.of_nat (length vs) <= a.(a_sample_count).
Proof.
  intros [_ _ Hc Hst Hs] v vs. unfold vs, next_samples. fold v.
  destruct (Z.leb_spec a.(a_sample_count) a.(a_state)) as [Hge|Hlt].
  - simpl. rewrite Z.add_0_r. unfold v. rewrite (u16_small (u16 _)) by apply u16_range. split; [done|lia].
  - destruct (Hs Hlt) as [-> ->]. rewrite sum_app, length_app. simpl. split; [|lia].
    f_equal; [lia|]. rewrite Z.add_0_r, Z.add_comm. unfold u16. by rewrite Zplus_mod_idemp_l.
Qed.

Definition at_input (s : mcu) (p : Z) (a : analog_in) (n : timer) : Prop :=
  obj_at s p a ∧ s.(timers) !! obj_timer p = Some n.

(** The end of an event that has a result. *)
Lemma wp_finish p s a n Q E :
  obj_at s p a → s.(timers) !! obj_timer p = Some n →
  (∀ s', at_input s' p (a <| a_next_begin_time := u32 (a.(a_next_begin_time) + a.(a_rest_time)) |>)
           (n <| waketime := u32 (a.(a_next_begin_time) + a.(a_rest_time)) |>) →
     s'.(wakes) W_analog = true → Q SF_RESCHEDULE s') →
  wp (sched_wake_task W_analog;;
      update_obj p (λ a : analog_in, a <| a_next_begin_time ::= λ t, u32 (t + a.(a_rest_time)) |>);;
      a ← read_obj p;
      set_waketime (obj_timer p) a.(a_next_begin_time);;
      mret SF_RESCHEDULE) Q E s.
Proof.
  intros Ha Hn HQ. unfold sched_wake_task, sched_wake_tasks. wp_steps.
  eapply wp_update_obj; [exact Ha|]. wp_steps. eapply wp_read_obj; [apply obj_at_write|]. wp_steps.
  apply HQ; [|done]. split; [apply obj_at_write|]. simpl. rewrite lookup_alter_eq, Hn. simpl.
  by rewrite u32_u32.
Qed.

(** A ready sample: the whole event, by cases. *)
Lemma analog_in_step p s a n results samples :
  at_input s p a n → adc_ok a results samples →
  u32 (hw_adc_sample a.(a_pin) s.(reads)) = 0 → s.(sst).(shutdown_status) = 0 →
  let vs := next_samples s a samples in
  let count := if in_range a vs then 0 else a.(a_invalid_count) + 1 in
  wp (analog_in_event p)
    (λ r s', r = SF_RESCHEDULE
       ∧ if Z.of_nat (length vs) <? a.(a_sample_count)
         then at_input s' p (sampled a vs) (n <| waketime := u32 (n.(waketime) + a.(a_sample_time)) |>)
         else (in_range a vs = true ∨ count < a.(a_range_check_count))
              ∧ at_input s' p (finished a vs)
                  (n <| waketime := u32 (a.(a_next_begin_time) + a.(a_rest_time)) |>)
              ∧ s'.(wakes) W_analog = true)
    (λ r _, r = "ADC out of range" ∧ Z.of_nat (length vs) = a.(a_sample_count)
       ∧ in_range a vs = false ∧ a.(a_range_check_count) <= count) s.
Proof.
  intros [Ha Hn] Hok Hready Hrun vs count. pose proof (next_value s a results samples Hok) as [Hval Hlen].
  fold vs in Hval, Hlen. destruct Hok as [Hinv Hbelow Hcnt Hst _].
  unfold analog_in_event. wp_steps. eapply wp_read_obj; [exact Ha|]. unfold gpio_adc_sample, gpio_adc_read.
  wp_steps. rewrite Hready. cbn [negb Z.eqb]. wp_steps. simpl reads. rewrite Hval.
  replace (Z.of_nat (length vs) - 1 + 1) with (Z.of_nat (length vs)) by lia.
  rewrite (u8_small (Z.of_nat (length vs))) by lia. fold (sampled a vs). wp_steps.
  set (s1 := s <| reads ::= S |> <| reads ::= S |> <| objs ::= <[p := obj_inj (sampled a vs)]> |>).
  assert (Ha1 : obj_at s1 p (sampled a vs)) by apply obj_at_write.
  assert (Hn1 : timers s1 !! obj_timer p = Some n) by done.
  change (a_state (sampled a vs)) with (Z.of_nat (length vs)).
  change (a_sample_count (sampled a vs)) with (a_sample_count a).
  destruct (Z.ltb_spec (Z.of_nat (length vs)) (a_sample_count a)) as [Hlt|Hge].
  - unfold add_waketime. wp_steps. eapply wp_read_timer; [exact Hn1|]. wp_steps. split; [done|].
    split; [exact Ha1|]. simpl. by rewrite lookup_alter_eq, Hn.
  - change ((a_min_value (sampled a vs) <=? a_value (sampled a vs))
      && (a_value (sampled a vs) <=? a_max_value (sampled a vs))) with (in_range a vs).
    wp_steps. destruct (in_range a vs) eqn:Hr.
    + eapply wp_update_obj; [exact Ha1|].
      eapply (wp_finish p _ _ n); [apply obj_at_write|done|].
      intros s' Hs' Hw. split; [done|]. split; [by left|]. split; [|done].
      unfold finished. rewrite Hr. exact Hs'.
    + wp_steps. eapply wp_update_obj; [exact Ha1|]. wp_steps.
      eapply wp_read_obj; [apply obj_at_write|]. simpl.
      rewrite (u8_small (a_invalid_count a + 1)) by lia. apply wp_when; intros Hc.
      * wp_steps. apply wp_try_shutdown; [|done]. intros _. unfold count. split_and!; try done; lia.
      * eapply (wp_finish p _ ((sampled a vs) <| a_invalid_count ::= λ c, u8 (c + 1) |>) n);
          [apply lookup_insert_eq|done|].
        intros s' Hs' Hw. split; [done|]. split; [right; unfold count; lia|]. split; [|done].
        unfold finished. rewrite Hr, <- (u8_small (a_invalid_count a + 1)) by lia. exact Hs'.
Qed.

Lemma adc_ok_sampled a results samples vs :
  adc_ok a results samples → Z.of_nat (length vs) < a.(a_sample_count) → adc_ok (sampled a vs) results vs.
Proof. intros [? ? ? ? _] Hl. constructor; simpl; try done; lia. Qed.

Lemma adc_ok_finished a results samples vs :
  adc_ok a results samples → Z.of_nat (length vs) = a.(a_sample_count) →
  in_range a vs = true ∨ a.(a_invalid_count) + 1 < a.(a_range_check_count) →
  adc_ok (finished a vs) (in_range a vs :: results) [].
Proof.
  intros [Hi Hb ? ? _] Hl Hc. constructor; simpl; [| |done|lia|lia].
  - destruct (in_range a vs); lia.
  - destruct (in_range a vs); [lia|]. destruct Hc; [done|lia].
Qed.

End inputs.

(** A temperature that stays out of range stops the machine.  Each result is
    the sum, modulo 2^16, of [sample_count] samples.  The input counts the results
    that were out of range in a row: it shuts the machine down exactly when a
    result completes [range_check_count] of them, and otherwise schedules the
    next sample or, with the result handed to the task, the next measurement. *)
Theorem analog_in_range_check `{B : Board} p s a n results samples :
  at_input s p a n → adc_ok a results samples →
  u32 (hw_adc_sample a.(a_pin) s.(reads)) = 0 → s.(sst).(shutdown_status) = 0 →
  let vs := next_samples s a samples in
  match analog_in_event p s with
  | (Ret r, s') =>
      r = SF_RESCHEDULE ∧
      if Z.of_nat (length vs) <? a.(a_sample_count)
      then adc_ok (sampled a vs) results vs
           ∧ at_input s' p (sampled a vs) (n <| waketime := u32 (n.(waketime) + a.(a_sample_time)) |>)
      else adc_ok (finished a vs) (in_range a vs :: results) []
           ∧ at_input s' p (finished a vs)
               (n <| waketime := u32 (a.(a_next_begin_time) + a.(a_rest_time)) |>)
           ∧ s'.(wakes) W_analog = true
  | (Shut r, _) =>
      r = "ADC out of range" ∧ Z.of_nat (length vs) = a.(a_sample_count)
      ∧ let recent := take (Z.to_nat a.(a_range_check_count)) (in_range a vs :: results) in
        Z.of_nat (length recent) = a.(a_range_check_count) ∧ Forall (λ ok, ok = false) recent
  | (Stuck _, _) => False
  end.
Proof.
  intros Hat Hok Hready Hrun vs.
  pose proof (analog_in_step p s a n results samples Hat Hok Hready Hrun) as Hwp. cbv zeta in Hwp. fold vs in Hwp.
  pose proof (next_value s a results samples Hok) as [_ Hlen]. fold vs in Hlen.
  unfold wp in Hwp. destruct (analog_in_event p s) as [[r|r|f] s'].
  - destruct Hwp as [-> Hwp]. split; [done|].
    destruct (Z.ltb_spec (Z.of_nat (length vs)) (a_sample_count a)).
    + split; [by apply adc_ok_sampled with samples|done].
    + destruct Hwp as (Hc & Hs & Hw). split; [|done]. apply adc_ok_finished with samples; [done|lia|].
      destruct (in_range a vs); [by left|right]. destruct Hc; [done|lia].
  - destruct Hwp as (-> & Hl & Hr & Hc). rewrite Hr in Hc |- *. split; [done|]. split; [done|].
    destruct Hok as [Hi Hb _ _ _].
    destruct (bad_run_all (false :: results) (Z.to_nat a.(a_range_check_count))) as [Hn Hf]; [simpl; lia|].
    split; [|done]. rewrite length_take. lia.
  - done.
Qed.

Lemma analog_in_range_check_witness :
  let b := example_board in
  let a := mk_analog_in 1000 10 5000 0 100 200 3 0 2 2 1 in
  let s := init_mcu <| reads := 1%nat |> <| objs := {[4096 := O_analog_in a]} |>
    <| timers ::= <[obj_timer 4096 := mk_timer None F_analog_in_event 300]> |> in
  ∃ s', analog_in_event 4096 s = (Ret SF_RESCHEDULE, s')
    ∧ adc_ok (finished a [2000]) [false] [] ∧ s'.(wakes) W_analog = true.
Proof.
  intros b a s. assert (Hok : adc_ok a [] []) by (constructor; simpl; lia).
  pose proof (analog_in_range_check 4096 s a (mk_timer None F_analog_in_event 300) [] []
    (conj eq_refl eq_refl) Hok eq_refl eq_refl) as Hw.
  assert (Hrun : ∃ s', analog_in_event 4096 s = (Ret SF_RESCHEDULE, s'))
    by (eexists; vm_compute; reflexivity).
  destruct Hrun as [s' Hrun]. exists s'. split; [exact Hrun|].
  cbv zeta in Hw. rewrite Hrun in Hw. destruct Hw as (_ & Hadc & _ & Hwake). split; [exact Hadc|exact Hwake].
Defined.
