(* ===== verification/LoadCell.v ===== *)
(** * The fixed point filter and the load cell end stop (src/sos_filter.c,
    src/load_cell_endstop.c)

    Signed overflow is taken to wrap around, as the compiler's arithmetic on the
    two's complement registers of the target does. *)

From S2P Require Import Prelude.
From S2P Require Import State.
From S2P Require Import Machine.
From S2P Require Import Sched.
From S2P Require Import Basecmd.
From S2P Require Import Stepper.
From S2P Require Import Trsync.
From S2P Require Import Hal.

Definition FIXEDQ1_FRAC_BITS : Z := 31 - 1.
Definition FIXEDQ1_ROUNDING : Z := Z.shiftl 1 (FIXEDQ1_FRAC_BITS - 1).
Definition FIXEDQ16 : Z := 16.
Definition FIXEDQ16_FRAC_BITS : Z := 31 - FIXEDQ16.
Definition FIXEDQ48_FRAC_BITS : Z := FIXEDQ16_FRAC_BITS.
Definition FIXEDQ33_FRAC_BITS : Z := FIXEDQ1_FRAC_BITS.
Definition MAX_SECTIONS : Z := 6.
Definition SECTION_WIDTH : Z := 5.
Definition MAX_TRIGGER_GRAMS : Z := Z.shiftl 1 FIXEDQ16 - 1.

Definition FLAG_IS_HOMING : Z := Z.shiftl 1 0.
Definition FLAG_IS_TRIGGERED : Z := Z.shiftl 1 1.
Definition FLAG_IS_HOMING_TRIGGER : Z := Z.shiftl 1 2.
Definition FLAG_IS_AWAIT_HOMING : Z := Z.shiftl 1 3.

Definition LOAD_CELL_ERROR_NONE : Z := 0.
Definition LOAD_CELL_ERROR_SAFETY_LIMIT : Z := 1.
Definition LOAD_CELL_ERROR_DRIFT_LIMIT : Z := 2.
Definition LOAD_CELL_ERROR_WATCHDOG : Z := 3.
Definition DEFAULT_SAMPLE_COUNT : Z := 2.

Definition overflows_int32 (value : Z) : bool := (2 ^ 31 - 1 <? value) || (value <? - 2 ^ 31).

Section LoadCell.
Context `{Board}.

(** ** Second order sections (sos_filter.c) *)

Definition fixed_mul (coeff value : Z) : M Z :=
  let product := s64 (coeff * value + FIXEDQ1_ROUNDING) in
  let result := Z.shiftr product FIXEDQ1_FRAC_BITS in
  if overflows_int32 result then shutdown "fixed_mul: overflow" else mret (s32 result).

(** An element of a two-dimensional array. *)
Definition get2 (m : list (list Z)) (i j : nat) : M Z :=
  of_option Out_of_bounds (row ← m !! i; row !! j).
Definition set2 (m : list (list Z)) (i j : nat) (v : Z) : list (list Z) :=
  alter (λ row, <[j := v]> row) i m.

(** The body of the loop of [sosfilt] for one section. *)
Definition sosfilt_section (p : Z) (section : nat) (cur_val : Z) : M Z :=
  sf ← read_obj p;
  f0 ← get2 sf.(sf_filter) section 0;
  s0 ← get2 sf.(sf_filter_state) section 0;
  m0 ← fixed_mul f0 cur_val;
  let next_val := s32 (m0 + s0) in
  f1 ← get2 sf.(sf_filter) section 1;
  m1 ← fixed_mul f1 cur_val;
  f3 ← get2 sf.(sf_filter) section 3;
  m3 ← fixed_mul f3 next_val;
  s1 ← get2 sf.(sf_filter_state) section 1;
  update_obj p (λ sf, sf <| sf_filter_state ::= λ st, set2 st section 0 (s32 (m1 - m3 + s1)) |>);;
  f2 ← get2 sf.(sf_filter) section 2;
  m2 ← fixed_mul f2 cur_val;
  f4 ← get2 sf.(sf_filter) section 4;
  m4 ← fixed_mul f4 next_val;
  update_obj p (λ sf, sf <| sf_filter_state ::= λ st, set2 st section 1 (s32 (m2 - m4)) |>);;
  mret next_val.

Fixpoint sosfilt_loop (k : nat) (p : Z) (section : nat) (cur_val : Z) : M Z :=
  match k with
  | O => mret cur_val
  | S k => v ← sosfilt_section p section cur_val; sosfilt_loop k p (S section) v
  end.

Definition sosfilt (p unfiltered_value : Z) : M Z :=
  sf ← read_obj p;
  if sf.(sf_is_filter_ready) =? 0 then shutdown "sos_filter not initialized"
  else if sf.(sf_n_sections) =? 0 then mret unfiltered_value
  else sosfilt_loop (Z.to_nat sf.(sf_n_sections)) p 0 unfiltered_value.

Definition reset_filter_state (p : Z) : M unit :=
  update_obj p (λ sf, sf <| sf_filter_state := repeat [0; 0] (Z.to_nat MAX_SECTIONS) |>).

Definition reset_filter (p n_sections : Z) : M unit :=
  if MAX_SECTIONS <? n_sections then shutdown "sos_filter: too many filter sections"
  else update_obj p (λ sf, sf <| sf_n_sections := n_sections |> <| sf_last_section_idx := -1 |>
                              <| sf_is_filter_ready := 0 |>).

Definition command_config_sos_filter (args : list Z) : M unit :=
  match args with
  | [oid] =>
      p ← oid_alloc oid OT_sos_filter (sizeof_oid OT_sos_filter);
      write_obj p (mk_sos_filter 0 0 0 (repeat (repeat 0 5) (Z.to_nat MAX_SECTIONS))
                     (repeat [0; 0] (Z.to_nat MAX_SECTIONS)));;
      reset_filter p 0
  | _ => stuck Out_of_bounds
  end.

Definition sos_filter_oid_lookup (oid : Z) : M Z := oid_lookup oid OT_sos_filter.

(** The checks of [command_config_filter_section]. *)
Definition filter_section_check (p n_sections section_idx : Z) : M unit :=
  if section_idx <=? 0 then reset_filter p n_sections
  else
    sf ← read_obj p;
    if negb (n_sections =? sf.(sf_n_sections)) then shutdown "Filter size mismatch"
    else if negb (section_idx =? sf.(sf_last_section_idx) + 1)
    then shutdown "Filter section out of order"
    else mret tt.

Definition command_config_filter_section (args : list Z) : M unit :=
  match args with
  | [oid; n_sections; section_idx; sos0; sos1; sos2; sos3; sos4] =>
      p ← sos_filter_oid_lookup oid;
      let n_sections := u8 n_sections in
      let section_idx := u8 section_idx in
      filter_section_check p n_sections section_idx;;
      when (0 <? n_sections)
        (sf ← read_obj p;
         if Z.of_nat (length sf.(sf_filter)) <=? section_idx then stuck Out_of_bounds
         else
           write_obj p (sf <| sf_filter ::= <[Z.to_nat section_idx :=
                                map s32 [sos0; sos1; sos2; sos3; sos4]]> |>
                           <| sf_last_section_idx := s8 section_idx |>));;
      sf ← read_obj p;
      when (sf.(sf_last_section_idx) =? sf.(sf_n_sections) - 1)
        (write_obj p (sf <| sf_is_filter_ready := 1 |>))
  | _ => stuck Out_of_bounds
  end.

(** ** The end stop (load_cell_endstop.c) *)

Definition round_fixedQ48 (fixed_value : Z) : Z := Z.shiftr fixed_value FIXEDQ48_FRAC_BITS.

Definition counts_to_grams (lce : load_cell_endstop) (counts : Z) : Z :=
  let delta := s32 (counts - lce.(lc_tare_counts)) in
  let product := delta * lce.(lc_grams_per_count) in
  Z.shiftr product (FIXEDQ33_FRAC_BITS - FIXEDQ48_FRAC_BITS).

Definition is_flag_set (mask : Z) (lce : load_cell_endstop) : bool := flag_set mask lce.(lc_flags).
Definition set_flag (mask : Z) (lce : load_cell_endstop) : load_cell_endstop :=
  lce <| lc_flags ::= λ f, Z.lor f mask |>.
Definition clear_flag (mask : Z) (lce : load_cell_endstop) : load_cell_endstop :=
  lce <| lc_flags ::= λ f, u8 (Z.land f (Z.lnot mask)) |>.

(** Tell the trsync, or the pin that another board watches. *)
Definition lce_signal (lce : load_cell_endstop) (reason : Z) : M unit :=
  if negb (lce.(lc_use_gpio) =? 0) then gpio_out_write lce.(lc_output_pin) 0
  else ts ← of_option Null_deref lce.(lc_ts); trsync_do_trigger ts reason.

Definition lce_release (lce : load_cell_endstop) : M unit :=
  when (negb (lce.(lc_use_gpio) =? 0)) (gpio_out_write lce.(lc_output_pin) 1).

Definition try_trigger (p : Z) : M unit :=
  update_obj p (set_flag FLAG_IS_TRIGGERED);;
  lce ← read_obj p;
  when (is_flag_set FLAG_IS_HOMING lce && negb (is_flag_set FLAG_IS_HOMING_TRIGGER lce))
    (write_obj p (set_flag FLAG_IS_HOMING_TRIGGER lce);;
     lce_signal lce lce.(lc_trigger_reason)).

Definition try_trigger_error (p : Z) : M unit :=
  lce ← read_obj p;
  when (is_flag_set FLAG_IS_HOMING lce) (lce_signal lce lce.(lc_error_reason)).

(** The part of [load_cell_endstop_report_sample] that updates the count. *)
Definition lce_count (p sample ticks : Z) (is_homing is_trigger is_homing_triggered : bool) : M unit :=
  lce ← read_obj p;
  if is_trigger && (0 <? lce.(lc_trigger_count)) then
    let lce := if is_homing && negb is_homing_triggered
                  && (lce.(lc_trigger_count) =? lce.(lc_sample_count))
               then lce <| lc_trigger_ticks := ticks |> <| lc_trigger_sample := sample |>
               else lce in
    let lce := lce <| lc_trigger_count ::= λ c, u8 (c - 1) |> in
    write_obj p lce;;
    when (lce.(lc_trigger_count) =? 0)
      (write_obj p (lce <| lc_trigger_emit_ticks := ticks |> <| lc_trigger_emit_sample := sample |>);;
       try_trigger p)
  else if negb is_trigger && (lce.(lc_trigger_count) <? lce.(lc_sample_count)) then
    let lce := lce <| lc_trigger_count ::= λ c, u8 (c + 1) |> in
    let lce := if lce.(lc_sample_count) <? lce.(lc_trigger_count)
               then lce <| lc_trigger_count := lce.(lc_sample_count) |> else lce in
    let lce := clear_flag FLAG_IS_TRIGGERED lce in
    write_obj p lce;;
    lce_release lce;;
    when (is_homing && negb is_homing_triggered)
      (update_obj p (λ l, l <| lc_trigger_ticks := 0 |>))
  else mret tt.

(** C's [abs] on the value converted to [int]. *)
Definition abs_int (x : Z) : Z := s32 (Z.abs (s32 x)).

(** The decision whether a sample counts as a touch. *)
Definition lce_detect (p sample : Z) : M (bool * Z) :=
  lce ← read_obj p;
  let raw_grams := counts_to_grams lce sample in
  is_trigger ← (if negb (overflows_int32 raw_grams) then
     sf ← of_option Null_deref lce.(lc_sf);
     filtered_grams ← sosfilt sf (s32 raw_grams);
     mret (filtered_grams <=? s32 (- lce.(lc_trigger_grams_fixed)))
   else
     write_obj p (lce <| lc_error := LOAD_CELL_ERROR_DRIFT_LIMIT |>);;
     try_trigger_error p;;
     mret true);
  mret (is_trigger, raw_grams).

Definition load_cell_endstop_report_sample (p sample ticks : Z) : M unit :=
  update_obj p (λ l : load_cell_endstop,
    l <| lc_last_sample := sample |> <| lc_last_sample_ticks := ticks |>
      <| lc_watchdog_count := 0 |>);;
  lce ← read_obj p;
  let starts := is_flag_set FLAG_IS_AWAIT_HOMING lce
                && negb (timer_is_before ticks lce.(lc_homing_clock)) in
  let lce := if starts then set_flag FLAG_IS_HOMING (clear_flag FLAG_IS_AWAIT_HOMING lce) else lce in
  write_obj p lce;;
  let is_homing := is_flag_set FLAG_IS_HOMING lce in
  let is_safety_trigger := (sample <=? lce.(lc_safety_counts_min))
                           || (lce.(lc_safety_counts_max) <=? sample) in
  when (is_homing && is_safety_trigger)
    (write_obj p (lce <| lc_error := LOAD_CELL_ERROR_SAFETY_LIMIT |>);; try_trigger_error p);;
  if negb is_homing then
    update_obj p (clear_flag FLAG_IS_TRIGGERED);;
    lce_release lce
  else
    lce ← read_obj p;
    if lce.(lc_trigger_grams) =? 0 then
      write_obj p (clear_flag FLAG_IS_TRIGGERED lce);;
      lce_release lce
    else
      '(is_trigger, raw_grams) ← lce_detect p sample;
      lce ← read_obj p;
      let is_homing_triggered := is_flag_set FLAG_IS_HOMING_TRIGGER lce in
      let is_trigger :=
        if is_flag_set FLAG_IS_TRIGGERED lce
        then (lce.(lc_trigger_grams) <=? abs_int (round_fixedQ48 raw_grams)) || is_trigger
        else is_trigger in
      lce_count p sample ticks is_homing is_trigger is_homing_triggered.

Definition watchdog_event (p : Z) : M Z :=
  lce ← read_obj p;
  if negb (is_flag_set FLAG_IS_HOMING lce) || negb (is_flag_set FLAG_IS_AWAIT_HOMING lce)
     || is_flag_set FLAG_IS_HOMING_TRIGGER lce
  then mret SF_DONE
  else
    irq_disable;;
    when (lce.(lc_watchdog_max) <? lce.(lc_watchdog_count))
      (write_obj p (lce <| lc_error := LOAD_CELL_ERROR_WATCHDOG |>);; try_trigger_error p);;
    update_obj p (λ l : load_cell_endstop, l <| lc_watchdog_count ::= λ c, u8 (c + 1) |>);;
    irq_enable;;
    add_waketime (obj_timer p) lce.(lc_rest_ticks);;
    mret SF_RESCHEDULE.

Definition set_endstop_range (p safety_counts_min safety_counts_max tare_counts trigger_grams
    grams_per_count : Z) : M unit :=
  if safety_counts_max <? safety_counts_min then shutdown "Safety range reversed"
  else if MAX_TRIGGER_GRAMS <? trigger_grams then shutdown "trigger_grams too large"
  else if (grams_per_count <? 0) || (Z.shiftl 1 FIXEDQ1_FRAC_BITS <=? grams_per_count)
  then shutdown "grams_per_count is invalid"
  else
    update_obj p (λ l, l <| lc_safety_counts_min := safety_counts_min |>
      <| lc_safety_counts_max := safety_counts_max |> <| lc_tare_counts := tare_counts |>
      <| lc_trigger_grams := trigger_grams |>
      <| lc_trigger_grams_fixed := s32 (Z.shiftl trigger_grams FIXEDQ16_FRAC_BITS) |>
      <| lc_grams_per_count := grams_per_count |>);;
    lce ← read_obj p;
    sf ← of_option Null_deref lce.(lc_sf);
    reset_filter_state sf.

Definition new_load_cell_endstop : load_cell_endstop :=
  mk_load_cell_endstop 0 0 0 0 0 None 0 0 0 0 0 0 0 DEFAULT_SAMPLE_COUNT DEFAULT_SAMPLE_COUNT
    0 0 0 0 0 0 None 0 0 0 0.

Definition command_config_load_cell_endstop (args : list Z) : M unit :=
  match args with
  | oid :: sos_filter_oid :: _ =>
      p ← oid_alloc oid OT_load_cell_endstop (sizeof_oid OT_load_cell_endstop);
      new_timer (obj_timer p) F_null;;
      write_obj p new_load_cell_endstop;;
      sf ← sos_filter_oid_lookup sos_filter_oid;
      update_obj p (λ l : load_cell_endstop, l <| lc_sf := Some sf |>);;
      set_endstop_range p 0 0 0 0 0
  | _ => stuck Out_of_bounds
  end.

Definition load_cell_endstop_oid_lookup (oid : Z) : M Z := oid_lookup oid OT_load_cell_endstop.

Definition command_config_load_cell_endstop_with_pin (args : list Z) : M unit :=
  match args with
  | [oid; sos_filter_oid; pin] =>
      command_config_load_cell_endstop args;;
      p ← load_cell_endstop_oid_lookup oid;
      pin ← gpio_out_setup pin 1;
      update_obj p (λ l, l <| lc_output_pin := pin |> <| lc_use_gpio := 1 |>)
  | _ => stuck Out_of_bounds
  end.

Definition command_set_range_load_cell_endstop (args : list Z) : M unit :=
  match args with
  | [oid; safety_counts_min; safety_counts_max; tare_counts; trigger_grams; grams_per_count] =>
      p ← load_cell_endstop_oid_lookup oid;
      set_endstop_range p (s32 safety_counts_min) (s32 safety_counts_max) (s32 tare_counts)
        trigger_grams (s32 grams_per_count)
  | _ => stuck Out_of_bounds
  end.

Definition command_load_cell_endstop_home (args : list Z) : M unit :=
  match args with
  | [oid; trsync_oid; trigger_reason; error_reason; clock; sample_count; rest_ticks; timeout] =>
      p ← load_cell_endstop_oid_lookup oid;
      sched_del_timer (obj_timer p);;
      update_obj p (λ l, (clear_flag FLAG_IS_AWAIT_HOMING (clear_flag FLAG_IS_HOMING
        (clear_flag FLAG_IS_HOMING_TRIGGER l)))
        <| lc_trigger_ticks := 0 |> <| lc_ts := None |> <| lc_error := LOAD_CELL_ERROR_NONE |>);;
      if error_reason =? 0 then mret tt
      else
        lce ← read_obj p;
        when (lce.(lc_use_gpio) =? 0)
          (ts ← trsync_oid_lookup trsync_oid;
           update_obj p (λ l : load_cell_endstop, l <| lc_ts := Some ts |>));;
        set_waketime (obj_timer p) clock;;
        update_obj p (λ l : load_cell_endstop,
          l <| lc_trigger_reason := u8 trigger_reason |> <| lc_error_reason := u8 error_reason |>
            <| lc_homing_clock := clock |> <| lc_sample_count := u8 sample_count |>
            <| lc_rest_ticks := rest_ticks |> <| lc_watchdog_max := u8 timeout |>
            <| lc_watchdog_count := 0 |>);;
        lce ← read_obj p;
        sf ← of_option Null_deref lce.(lc_sf);
        reset_filter_state sf;;
        set_func (obj_timer p) F_watchdog_event;;
        sched_add_timer (obj_timer p);;
        update_obj p (set_flag FLAG_IS_AWAIT_HOMING)
  | _ => stuck Out_of_bounds
  end.

Definition command_load_cell_endstop_query_state (args : list Z) : M unit :=
  match args with
  | [oid] =>
      p ← load_cell_endstop_oid_lookup oid;
      lce ← read_obj p;
      output "trigger_ticks=%u trigger_emit_ticks=%u"
        [A_int lce.(lc_trigger_ticks); A_int lce.(lc_trigger_emit_ticks)];;
      sendf "load_cell_endstop_state oid=%c homing=%c homing_triggered=%c is_triggered=%c trigger_ticks=%u trigger_emit_ticks=%u trigger_sample=%i trigger_emit_sample=%i sample=%i sample_ticks=%u error=%c"
        [A_int (u8 oid); A_int (b2z (is_flag_set FLAG_IS_HOMING lce));
         A_int (b2z (is_flag_set FLAG_IS_HOMING_TRIGGER lce));
         A_int (b2z (is_flag_set FLAG_IS_TRIGGERED lce));
         A_int lce.(lc_trigger_ticks); A_int lce.(lc_trigger_emit_ticks);
         A_int lce.(lc_trigger_sample); A_int lce.(lc_trigger_emit_sample);
         A_int lce.(lc_last_sample); A_int lce.(lc_last_sample_ticks); A_int lce.(lc_error)]
  | _ => stuck Out_of_bounds
  end.

End LoadCell.

(** The check of the order of the sections does not stop at the number of
    sections: seven commands in order, for a filter of one section, write behind
    the table of six sections. *)
Fixpoint configure_sections (n : nat) (idx : Z) : M unit :=
  match n with
  | O => mret tt
  | S n =>
      command_config_filter_section [0; 1; idx; 0; 0; 0; 0; 0];;
      configure_sections n (idx + 1)
  end.

Definition example_filter : mcu :=
  init_mcu <| objs := {[4096 := O_sos_filter (mk_sos_filter 0 0 0
                         (repeat (repeat 0 5) (Z.to_nat MAX_SECTIONS)) (repeat [0; 0] 6))]} |>
    <| base ::= λ c, c <| oid_count := 1 |> <| oids := Some [mk_oid_s OT_sos_filter 4096] |> |>.

Lemma sections_overrun :
  (configure_sections 6 0 example_filter).1 = Ret tt
  ∧ (configure_sections 7 0 example_filter).1 = Stuck Out_of_bounds.
Proof. vm_compute. split; reflexivity. Qed.
