(* ===== verification/Tmcuart.v ===== *)
(** * The single-wire uart of the motor drivers (src/tmcuart.c) *)

From S2P Require Import Prelude.
From S2P Require Import State.
From S2P Require Import Machine.
From S2P Require Import Sched.
From S2P Require Import Basecmd.
From S2P Require Import Hal.

Definition TU_LINE_HIGH : Z := Z.shiftl 1 0.
Definition TU_ACTIVE : Z := Z.shiftl 1 1.
Definition TU_READ_SYNC : Z := Z.shiftl 1 2.
Definition TU_REPORT : Z := Z.shiftl 1 3.
Definition TU_PULLUP : Z := Z.shiftl 1 4.
Definition TU_SINGLE_WIRE : Z := Z.shiftl 1 5.

(** [DIV_ROUND_CLOSEST] (compiler.h) on [int] operands: the division truncates. *)
Definition DIV_ROUND_CLOSEST (x divisor : Z) : Z := Z.quot (s32 (x + divisor / 2)) divisor.

(** The bit of a byte array at a bit position. *)
Definition bit_at (data : list Z) (pos : Z) : option Z :=
  b ← data !! Z.to_nat (Z.shiftr pos 3);
  Some (Z.land (Z.shiftr b (Z.land pos 7)) 1).

Section Tmcuart.
Context `{Board}.

Definition tmcuart_reset_line (p : Z) : M unit :=
  t ← read_obj p;
  (if flag_set t.(tu_flags) TU_SINGLE_WIRE then gpio_out_reset t.(tu_tx_pin) 1
   else gpio_out_write t.(tu_tx_pin) 1);;
  write_obj p (t <| tu_flags :=
    Z.lor (Z.land t.(tu_flags) (Z.lor TU_PULLUP TU_SINGLE_WIRE)) TU_LINE_HIGH |>).

Definition tmcuart_finalize (p : Z) : M Z :=
  tmcuart_reset_line p;;
  update_obj p (λ t, t <| tu_flags ::= λ f, Z.lor f TU_REPORT |>);;
  sched_wake_task W_tmcuart;;
  mret SF_DONE.

Definition tmcuart_read_event (p : Z) : M Z :=
  t ← read_obj p;
  v ← gpio_in_read t.(tu_rx_pin);
  let pos := t.(tu_pos) in
  let mask := u8 (Z.shiftl 1 (Z.land pos 7)) in
  let i := Z.to_nat (Z.shiftr pos 3) in
  data ← of_option Out_of_bounds (t.(tu_data) !! i);
  let data := if negb (v =? 0) then Z.lor data mask else u8 (Z.land data (Z.lnot mask)) in
  let t := t <| tu_data ::= <[i := data]> |> in
  write_obj p t;;
  let pos := u8 (pos + 1) in
  if t.(tu_read_count) <=? pos then tmcuart_finalize p
  else
    write_obj p (t <| tu_pos := pos |>);;
    add_waketime (obj_timer p) t.(tu_bit_time);;
    mret SF_RESCHEDULE.

(** The end of [tmcuart_read_sync_event]: wait for the next sample, or give up. *)
Definition tmcuart_sync_wait (p : Z) : M Z :=
  t ← read_obj p;
  write_obj p (t <| tu_pos := u8 (t.(tu_pos) + 1) |>);;
  if 64 <=? t.(tu_pos) then
    update_obj p (λ t, t <| tu_read_count := 0 |>);;
    tmcuart_finalize p
  else
    add_waketime (obj_timer p) t.(tu_bit_time);;
    mret SF_RESCHEDULE.

Definition tmcuart_read_sync_event (p : Z) : M Z :=
  t ← read_obj p;
  v ← gpio_in_read t.(tu_rx_pin);
  if negb (v =? 0) then
    write_obj p (t <| tu_flags ::= λ f, Z.lor f TU_READ_SYNC |>);;
    tmcuart_sync_wait p
  else if flag_set t.(tu_flags) TU_READ_SYNC then
    write_obj p (t <| tu_pos := 0 |>);;
    set_func (obj_timer p) F_tmcuart_read_event;;
    tmcuart_read_event p
  else tmcuart_sync_wait p.

Definition tmcuart_send_finish_event (p : Z) : M Z :=
  t ← read_obj p;
  if t.(tu_read_count) =? 0 then tmcuart_finalize p
  else
    when (flag_set t.(tu_flags) TU_SINGLE_WIRE)
      (gpio_in_reset t.(tu_rx_pin) (Z.land t.(tu_flags) TU_PULLUP));;
    write_obj p (t <| tu_pos := 0 |>);;
    set_func (obj_timer p) F_tmcuart_read_sync_event;;
    add_waketime (obj_timer p) (u32 (t.(tu_bit_time) * 4));;
    mret SF_RESCHEDULE.

(** The loop of [tmcuart_send_event]: the next position where the line changes
    ([None] when no bit is left) and the time until then.  A position is below
    256 and grows, so 256 rounds are enough. *)
Fixpoint find_toggle (fuel : nat) (data : list Z) (write_count bit_time line_state pos next : Z) :
    M (option Z * Z) :=
  match fuel with
  | O => stuck Out_of_fuel
  | S fuel =>
      let pos := u8 (pos + 1) in
      if write_count <=? pos then mret (None, next)
      else
        bit ← of_option Out_of_bounds (bit_at data pos);
        if negb (bit =? line_state) then mret (Some pos, next)
        else find_toggle fuel data write_count bit_time line_state pos (u32 (next + bit_time))
  end.

Definition tmcuart_send_event (p : Z) : M Z :=
  t ← read_obj p;
  gpio_out_toggle_noirq t.(tu_tx_pin);;
  let flags := Z.lxor t.(tu_flags) TU_LINE_HIGH in
  let t := t <| tu_flags := flags |> in
  write_obj p t;;
  '(pos, next) ← find_toggle 256 t.(tu_data) t.(tu_write_count) t.(tu_bit_time)
                   (Z.land flags TU_LINE_HIGH) t.(tu_pos) t.(tu_bit_time);
  match pos with
  | None =>
      set_func (obj_timer p) F_tmcuart_send_finish_event;;
      add_waketime (obj_timer p) next;;
      mret SF_RESCHEDULE
  | Some pos =>
      write_obj p (t <| tu_pos := pos |>);;
      add_waketime (obj_timer p) next;;
      mret SF_RESCHEDULE
  end.

Definition tmcuart_send_sync_event (p : Z) : M Z :=
  t ← read_obj p;
  gpio_out_toggle_noirq t.(tu_tx_pin);;
  cur ← timer_read_time;
  let pos := u8 (t.(tu_pos) + 1) in
  let t := t <| tu_flags ::= λ f, Z.lxor f TU_LINE_HIGH |> <| tu_pos := pos |> in
  write_obj p t;;
  tm ← read_timer (obj_timer p);
  let offset := u32 (cur - tm.(waketime)) in
  if pos =? 1 then
    write_obj p (t <| tu_bit_time := offset |>);;
    add_waketime (obj_timer p) t.(tu_cfg_bit_time);;
    mret SF_RESCHEDULE
  else if 5 <=? pos then
    let diff := s32 (offset - t.(tu_bit_time)) in
    let bit_time := u32 (t.(tu_cfg_bit_time) + DIV_ROUND_CLOSEST diff 4) in
    write_obj p (t <| tu_bit_time := bit_time |>);;
    set_func (obj_timer p) F_tmcuart_send_event;;
    add_waketime (obj_timer p) (u32 (diff + bit_time));;
    mret SF_RESCHEDULE
  else
    add_waketime (obj_timer p) t.(tu_cfg_bit_time);;
    mret SF_RESCHEDULE.

Definition command_config_tmcuart (args : list Z) : M unit :=
  match args with
  | [oid; rx_pin; pull_up; tx_pin; bit_time] =>
      p ← oid_alloc oid OT_tmcuart (sizeof_oid OT_tmcuart);
      new_timer (obj_timer p) F_null;;
      write_obj p (mk_tmcuart_s 0 0 0 0 0 0 0 0 (repeat 0 10));;
      let pull_up := u8 pull_up in
      rx ← gpio_in_setup rx_pin (b2z (negb (pull_up =? 0)));
      update_obj p (λ t, t <| tu_rx_pin := rx |>);;
      tx ← gpio_out_setup tx_pin 1;
      update_obj p (λ t, t <| tu_tx_pin := tx |> <| tu_cfg_bit_time := bit_time |>
        <| tu_flags := Z.lor (Z.lor TU_LINE_HIGH (if negb (pull_up =? 0) then TU_PULLUP else 0))
                             (if rx_pin =? tx_pin then TU_SINGLE_WIRE else 0) |>)
  | _ => stuck Out_of_bounds
  end.

Definition command_tmcuart_send (args : list Z) : M unit :=
  match args with
  | [oid; write_len; write; read_len] =>
      p ← oid_lookup oid OT_tmcuart;
      t ← read_obj p;
      if flag_set t.(tu_flags) TU_ACTIVE then mret tt
      else
        let write_len := u8 write_len in
        let read_len := u8 read_len in
        if (10 <? write_len) || (10 <? read_len) then shutdown "tmcuart data too large"
        else
          bytes ← read_buffer write write_len;
          let t := t <| tu_data ::= λ d, bytes ++ drop (length bytes) d |> <| tu_pos := 0 |>
            <| tu_flags ::= λ f, Z.lor (Z.land f (Z.lor (Z.lor TU_LINE_HIGH TU_PULLUP) TU_SINGLE_WIRE))
                                       TU_ACTIVE |>
            <| tu_write_count := u8 (write_len * 8) |> <| tu_read_count := u8 (read_len * 8) |> in
          write_obj p t;;
          first ← of_option Out_of_bounds (t.(tu_data) !! 0%nat);
          (if (1 <=? write_len) && (Z.land first 0x3f =? 0x2a)
           then set_func (obj_timer p) F_tmcuart_send_sync_event
           else
             write_obj p (t <| tu_bit_time := t.(tu_cfg_bit_time) |>);;
             set_func (obj_timer p) F_tmcuart_send_event);;
          irq_disable;;
          now ← timer_read_time;
          set_waketime (obj_timer p) (now + timer_from_us 200);;
          sched_add_timer (obj_timer p);;
          irq_enable
  | _ => stuck Out_of_bounds
  end.

Definition tmcuart_task : M unit :=
  w ← sched_check_wake W_tmcuart;
  if negb w then mret tt
  else
    foreach_oid OT_tmcuart (λ oid p,
      t ← read_obj p;
      if negb (flag_set t.(tu_flags) TU_REPORT) then mret tt
      else
        irq_disable;;
        write_obj p (t <| tu_flags ::= λ f, u8 (Z.land f (Z.lnot TU_REPORT)) |>);;
        irq_enable;;
        sendf "tmcuart_response oid=%c read=%*s"
          [A_int oid; A_buf (take (Z.to_nat (t.(tu_read_count) / 8)) t.(tu_data))]).

Definition tmcuart_shutdown : M unit := foreach_oid OT_tmcuart (λ _ p, tmcuart_reset_line p).

End Tmcuart.
