(* ===== verification/Bus.v ===== *)
(** * Buses and bit-banged devices (src/spicmds.c, spi_software.c, i2ccmds.c,
    i2c_software.c, neopixel.c)

    A routine that waits for the clock takes the number of polls it may make
    ([fuel]); how many it needs depends on the hardware's clock. *)

From S2P Require Import Prelude.
From S2P Require Import State.
From S2P Require Import Machine.
From S2P Require Import Sched.
From S2P Require Import Basecmd.
From S2P Require Import Command.
From S2P Require Import Hal.

Definition SF_HAVE_PIN : Z := 1.
Definition SF_SOFTWARE : Z := 2.
Definition SF_HARDWARE : Z := 4.
Definition SF_CS_ACTIVE_HIGH : Z := 8.
Definition IF_SOFTWARE : Z := 1.
Definition IF_HARDWARE : Z := 2.

(** The sizes of the two structs that [alloc_chunk] allocates: gpio handles of
    8 bytes and the mode (or the address and the ticks), padded. *)
Definition sizeof_spi_software : Z := 28.
Definition sizeof_i2c_software : Z := 40.

Section Bus.
Context `{Board}.

(** ** Software spi (spi_software.c) *)

Definition spi_software_prepare (ss : spi_software) : M unit :=
  gpio_out_write ss.(ss_sclk) (Z.land ss.(ss_mode) 0x02).

(** The bit loop of [spi_software_transfer]: [k] bits are left. *)
Fixpoint spi_software_bits (k : nat) (ss : spi_software) (outbuf inbuf : Z) : M Z :=
  match k with
  | O => mret inbuf
  | S k =>
      if negb (Z.land ss.(ss_mode) 0x01 =? 0) then
        gpio_out_toggle ss.(ss_sclk);;
        gpio_out_write ss.(ss_mosi) (Z.land outbuf 0x80);;
        gpio_out_toggle ss.(ss_sclk);;
        bit ← gpio_in_read ss.(ss_miso);
        spi_software_bits k ss (u8 (Z.shiftl outbuf 1)) (Z.lor (u8 (Z.shiftl inbuf 1)) bit)
      else
        gpio_out_write ss.(ss_mosi) (Z.land outbuf 0x80);;
        gpio_out_toggle ss.(ss_sclk);;
        bit ← gpio_in_read ss.(ss_miso);
        gpio_out_toggle ss.(ss_sclk);;
        spi_software_bits k ss (u8 (Z.shiftl outbuf 1)) (Z.lor (u8 (Z.shiftl inbuf 1)) bit)
  end.

(** The buffer after the transfer. *)
Fixpoint spi_software_transfer (ss : spi_software) (receive_data : bool) (data : list Z) : M (list Z) :=
  match data with
  | [] => mret []
  | b :: data =>
      inbuf ← spi_software_bits 8 ss b 0;
      rest ← spi_software_transfer ss receive_data data;
      mret ((if receive_data then inbuf else b) :: rest)
  end.

(** ** Spi commands (spicmds.c) *)

Definition command_config_spi (args : list Z) : M unit :=
  match args with
  | [oid; pin; cs_active_high] =>
      p ← oid_alloc oid OT_spi (sizeof_oid OT_spi);
      write_obj p (mk_spidev_s 0 None 0 0);;
      pin ← gpio_out_setup pin (b2z (cs_active_high =? 0));
      update_obj p (λ spi, spi <| spid_pin := pin |>
        <| spid_flags ::= λ f, Z.lor f (Z.lor SF_HAVE_PIN
             (if negb (cs_active_high =? 0) then SF_CS_ACTIVE_HIGH else 0)) |>)
  | _ => stuck Out_of_bounds
  end.

Definition command_config_spi_without_cs (args : list Z) : M unit :=
  match args with
  | [oid] =>
      p ← oid_alloc oid OT_spi (sizeof_oid OT_spi);
      write_obj p (mk_spidev_s 0 None 0 0)
  | _ => stuck Out_of_bounds
  end.

Definition spidev_oid_lookup (oid : Z) : M Z := oid_lookup oid OT_spi.

Definition command_spi_set_bus (args : list Z) : M unit :=
  match args with
  | [oid; spi_bus; mode; rate] =>
      p ← spidev_oid_lookup oid;
      let mode := u8 mode in
      spi ← read_obj p;
      if (3 <? mode) || flag_set spi.(spid_flags) (Z.lor SF_SOFTWARE SF_HARDWARE)
      then shutdown "Invalid spi config"
      else
        config ← spi_setup spi_bus mode rate;
        write_obj p (spi <| spid_config := config |>
                         <| spid_flags ::= λ f, Z.lor f SF_HARDWARE |>)
  | _ => stuck Out_of_bounds
  end.

Definition spidev_set_software_bus (p ss : Z) : M unit :=
  spi ← read_obj p;
  if flag_set spi.(spid_flags) (Z.lor SF_SOFTWARE SF_HARDWARE)
  then shutdown "Invalid spi config"
  else write_obj p (spi <| spid_software := Some ss |>
                        <| spid_flags ::= λ f, Z.lor f SF_SOFTWARE |>).

Definition command_spi_set_software_bus (args : list Z) : M unit :=
  match args with
  | [oid; miso_pin; mosi_pin; sclk_pin; mode; rate] =>
      let mode := u8 mode in
      if 3 <? mode then shutdown "Invalid spi config"
      else
        spi ← spidev_oid_lookup oid;
        ss ← alloc_chunk sizeof_spi_software;
        write_obj ss (mk_spi_software 0 0 0 0);;
        miso ← gpio_in_setup miso_pin 1;
        mosi ← gpio_out_setup mosi_pin 0;
        sclk ← gpio_out_setup sclk_pin 0;
        write_obj ss (mk_spi_software miso mosi sclk mode);;
        spidev_set_software_bus spi ss
  | _ => stuck Out_of_bounds
  end.

Definition spidev_have_cs_pin (spi : spidev_s) : Z := Z.land spi.(spid_flags) SF_HAVE_PIN.
Definition spidev_get_cs_pin (spi : spidev_s) : Z := spi.(spid_pin).

(** The software bus of a device that uses one. *)
Definition spidev_software (spi : spidev_s) : M spi_software :=
  ss ← of_option Null_deref spi.(spid_software); read_obj ss.

(** The buffer after the transfer; an unconfigured device leaves it alone. *)
Definition spidev_transfer (p : Z) (receive_data : bool) (data : list Z) : M (list Z) :=
  spi ← read_obj p;
  let flags := spi.(spid_flags) in
  let software := CONFIG_WANT_SOFTWARE_SPI && flag_set flags SF_SOFTWARE in
  if negb (flag_set flags (Z.lor SF_SOFTWARE SF_HARDWARE)) then mret data
  else
    (if software then ss ← spidev_software spi; spi_software_prepare ss
     else spi_prepare spi.(spid_config));;
    when (flag_set flags SF_HAVE_PIN)
      (gpio_out_write spi.(spid_pin) (b2z (flag_set flags SF_CS_ACTIVE_HIGH)));;
    result ← (if software then
                ss ← spidev_software spi; spi_software_transfer ss receive_data data
              else
                received ← spi_transfer spi.(spid_config) data;
                mret (if receive_data then received else data));
    when (flag_set flags SF_HAVE_PIN)
      (gpio_out_write spi.(spid_pin) (b2z (negb (flag_set flags SF_CS_ACTIVE_HIGH))));;
    mret result.

Definition command_spi_transfer (args : list Z) : M unit :=
  match args with
  | [oid; data_len; data] =>
      let oid := u8 oid in
      p ← spidev_oid_lookup oid;
      bytes ← read_buffer data (u8 data_len);
      bytes ← spidev_transfer p true bytes;
      write_buffer data bytes;;
      sendf "spi_transfer_response oid=%c response=%*s" [A_int oid; A_buf bytes]
  | _ => stuck Out_of_bounds
  end.

Definition command_spi_send (args : list Z) : M unit :=
  match args with
  | [oid; data_len; data] =>
      p ← spidev_oid_lookup oid;
      bytes ← read_buffer data (u8 data_len);
      _ ← spidev_transfer p false bytes;
      mret tt
  | _ => stuck Out_of_bounds
  end.

Definition command_config_spi_shutdown (args : list Z) : M unit :=
  match args with
  | [oid; spi_oid; shutdown_msg_len; shutdown_msg] =>
      spi ← spidev_oid_lookup spi_oid;
      let len := u8 shutdown_msg_len in
      p ← oid_alloc oid OT_spi_shutdown (sizeof_oid OT_spi_shutdown + len);
      bytes ← read_buffer shutdown_msg len;
      write_obj p (mk_spidev_shutdown_s spi bytes)
  | _ => stuck Out_of_bounds
  end.

Definition spidev_shutdown : M unit :=
  foreach_oid OT_spi (λ _ p,
    spi ← read_obj p;
    when (flag_set spi.(spid_flags) SF_HAVE_PIN)
      (gpio_out_write spi.(spid_pin) (b2z (negb (flag_set spi.(spid_flags) SF_CS_ACTIVE_HIGH)))));;
  foreach_oid OT_spi_shutdown (λ _ p,
    sd ← read_obj p;
    _ ← spidev_transfer sd.(sd_spi) false sd.(sd_msg);
    mret tt).

(** ** Delays (i2c_software.c, neopixel.c) *)

Definition nsecs_to_ticks (ns : Z) : Z := timer_from_us (u32 (ns * 1000)) / 1000000.

(** [while (t > timer_read_time());] *)
Fixpoint i2c_delay_loop (fuel : nat) (t : Z) : M unit :=
  match fuel with
  | O => stuck Out_of_fuel
  | S fuel => now ← timer_read_time; if now <? t then i2c_delay_loop fuel t else mret tt
  end.

Definition i2c_delay (fuel : nat) (ticks : Z) : M unit :=
  now ← timer_read_time; i2c_delay_loop fuel (u32 (now + nsecs_to_ticks ticks)).

(** ** Software i2c (i2c_software.c) *)

Definition i2c_software_send_ack (fuel : nat) (sw : i2c_software) (ack : bool) : M unit :=
  (if ack then gpio_in_reset sw.(is_sda_in) 1 else gpio_out_reset sw.(is_sda_out) 0);;
  i2c_delay fuel sw.(is_ticks);;
  gpio_in_reset sw.(is_scl_in) 1;;
  i2c_delay fuel sw.(is_ticks);;
  gpio_out_reset sw.(is_scl_out) 0.

Definition i2c_software_read_ack (fuel : nat) (sw : i2c_software) : M Z :=
  gpio_in_reset sw.(is_sda_in) 1;;
  i2c_delay fuel sw.(is_ticks);;
  gpio_in_reset sw.(is_scl_in) 1;;
  nack ← gpio_in_read sw.(is_sda_in);
  i2c_delay fuel sw.(is_ticks);;
  gpio_out_reset sw.(is_scl_out) 0;;
  gpio_in_reset sw.(is_sda_in) 1;;
  mret nack.

Fixpoint i2c_send_bits (k fuel : nat) (sw : i2c_software) (b : Z) : M unit :=
  match k with
  | O => mret tt
  | S k =>
      (if negb (Z.land b 0x80 =? 0) then gpio_in_reset sw.(is_sda_in) 1
       else gpio_out_reset sw.(is_sda_out) 0);;
      i2c_delay fuel sw.(is_ticks);;
      gpio_in_reset sw.(is_scl_in) 1;;
      i2c_delay fuel sw.(is_ticks);;
      gpio_out_reset sw.(is_scl_out) 0;;
      i2c_send_bits k fuel sw (u8 (Z.shiftl b 1))
  end.

Definition i2c_software_send_byte (fuel : nat) (sw : i2c_software) (b : Z) : M unit :=
  i2c_send_bits 8 fuel sw b;;
  nack ← i2c_software_read_ack fuel sw;
  if negb (nack =? 0) then shutdown "soft_i2c NACK" else mret tt.

Fixpoint i2c_read_bits (k fuel : nat) (sw : i2c_software) (b : Z) : M Z :=
  match k with
  | O => mret b
  | S k =>
      i2c_delay fuel sw.(is_ticks);;
      gpio_in_reset sw.(is_scl_in) 1;;
      i2c_delay fuel sw.(is_ticks);;
      bit ← gpio_in_read sw.(is_sda_in);
      gpio_out_reset sw.(is_scl_out) 0;;
      i2c_read_bits k fuel sw (Z.lor (u8 (Z.shiftl b 1)) bit)
  end.

Definition i2c_software_read_byte (fuel : nat) (sw : i2c_software) (remaining : Z) : M Z :=
  gpio_in_reset sw.(is_sda_in) 1;;
  b ← i2c_read_bits 8 fuel sw 0;
  gpio_in_reset sw.(is_sda_in) 1;;
  i2c_software_send_ack fuel sw (remaining =? 0);;
  mret b.

Definition i2c_software_start (fuel : nat) (sw : i2c_software) (addr : Z) : M unit :=
  i2c_delay fuel sw.(is_ticks);;
  gpio_in_reset sw.(is_sda_in) 1;;
  gpio_in_reset sw.(is_scl_in) 1;;
  i2c_delay fuel sw.(is_ticks);;
  gpio_out_reset sw.(is_sda_out) 0;;
  i2c_delay fuel sw.(is_ticks);;
  gpio_out_reset sw.(is_scl_out) 0;;
  i2c_software_send_byte fuel sw addr.

Definition i2c_software_stop (fuel : nat) (sw : i2c_software) : M unit :=
  gpio_out_reset sw.(is_sda_out) 0;;
  i2c_delay fuel sw.(is_ticks);;
  gpio_in_reset sw.(is_scl_in) 1;;
  i2c_delay fuel sw.(is_ticks);;
  gpio_in_reset sw.(is_sda_in) 1.

Fixpoint i2c_send_bytes (fuel : nat) (sw : i2c_software) (bs : list Z) : M unit :=
  match bs with
  | [] => mret tt
  | b :: bs => i2c_software_send_byte fuel sw b;; i2c_send_bytes fuel sw bs
  end.

Fixpoint i2c_read_bytes (read_len : nat) (fuel : nat) (sw : i2c_software) : M (list Z) :=
  match read_len with
  | O => mret []
  | S read_len =>
      b ← i2c_software_read_byte fuel sw (Z.of_nat read_len);
      bs ← i2c_read_bytes read_len fuel sw;
      mret (b :: bs)
  end.

Definition i2c_software_write (fuel : nat) (sw : i2c_software) (write : list Z) : M unit :=
  i2c_software_start fuel sw sw.(is_addr);;
  i2c_send_bytes fuel sw write;;
  i2c_software_stop fuel sw.

Definition i2c_software_read (fuel : nat) (sw : i2c_software) (reg : list Z) (read_len : Z) :
    M (list Z) :=
  let addr := Z.lor sw.(is_addr) 0x01 in
  when (negb (bool_decide (reg = [])))
    (i2c_software_start fuel sw sw.(is_addr);; i2c_send_bytes fuel sw reg);;
  i2c_software_start fuel sw addr;;
  bs ← i2c_read_bytes (Z.to_nat read_len) fuel sw;
  i2c_software_stop fuel sw;;
  mret bs.

(** ** I2c commands (i2ccmds.c) *)

Definition command_config_i2c (args : list Z) : M unit :=
  match args with
  | [oid] =>
      p ← oid_alloc oid OT_i2c (sizeof_oid OT_i2c);
      write_obj p (mk_i2cdev_s 0 None 0)
  | _ => stuck Out_of_bounds
  end.

Definition i2cdev_oid_lookup (oid : Z) : M Z := oid_lookup oid OT_i2c.

Definition command_i2c_set_bus (args : list Z) : M unit :=
  match args with
  | [oid; i2c_bus; rate; address] =>
      let addr := Z.land address 0x7f in
      p ← i2cdev_oid_lookup oid;
      config ← i2c_setup i2c_bus rate addr;
      update_obj p (λ d, d <| i2cd_config := config |>
                           <| i2cd_flags ::= λ f, Z.lor f IF_HARDWARE |>)
  | _ => stuck Out_of_bounds
  end.

Definition i2cdev_set_software_bus (p sw : Z) : M unit :=
  update_obj p (λ d, d <| i2cd_software := Some sw |>
                       <| i2cd_flags ::= λ f, Z.lor f IF_SOFTWARE |>).

Definition command_i2c_set_software_bus (args : list Z) : M unit :=
  match args with
  | [oid; scl_pin; sda_pin; rate; address] =>
      p ← i2cdev_oid_lookup oid;
      a ← alloc_chunk sizeof_i2c_software;
      write_obj a (mk_i2c_software 0 0 0 0 0 0);;
      scl_in ← gpio_in_setup scl_pin 1;
      scl_out ← gpio_out_setup scl_pin 1;
      sda_in ← gpio_in_setup sda_pin 1;
      sda_out ← gpio_out_setup sda_pin 1;
      write_obj a (mk_i2c_software scl_out sda_out scl_in sda_in
                     (u8 (Z.shiftl (Z.land address 0x7f) 1)) (1000000 / 100 / 2));;
      i2cdev_set_software_bus p a
  | _ => stuck Out_of_bounds
  end.

(** The device's bus: the software bus when it is configured. *)
Definition i2c_software_of (d : i2cdev_s) : M (option i2c_software) :=
  if CONFIG_WANT_SOFTWARE_I2C && flag_set d.(i2cd_flags) IF_SOFTWARE then
    a ← of_option Null_deref d.(i2cd_software); sw ← read_obj a; mret (Some sw)
  else mret None.

Definition i2c_dev_write (fuel : nat) (d : i2cdev_s) (data : list Z) : M unit :=
  sw ← i2c_software_of d;
  match sw with
  | Some sw => i2c_software_write fuel sw data
  | None => i2c_write d.(i2cd_config) data
  end.

Definition i2c_dev_read (fuel : nat) (d : i2cdev_s) (reg : list Z) (data_len : Z) : M (list Z) :=
  sw ← i2c_software_of d;
  match sw with
  | Some sw => i2c_software_read fuel sw reg data_len
  | None => i2c_read d.(i2cd_config) reg data_len
  end.

Definition command_i2c_write (fuel : nat) (args : list Z) : M unit :=
  match args with
  | [oid; data_len; data] =>
      p ← oid_lookup oid OT_i2c;
      bytes ← read_buffer data (u8 data_len);
      d ← read_obj p;
      i2c_dev_write fuel d bytes
  | _ => stuck Out_of_bounds
  end.

Definition command_i2c_read (fuel : nat) (args : list Z) : M unit :=
  match args with
  | [oid; reg_len; reg; read_len] =>
      let oid := u8 oid in
      p ← oid_lookup oid OT_i2c;
      reg ← read_buffer reg (u8 reg_len);
      let data_len := u8 read_len in
      d ← read_obj p;
      data ← i2c_dev_read fuel d reg data_len;
      sendf "i2c_read_response oid=%c response=%*s" [A_int oid; A_buf data]
  | _ => stuck Out_of_bounds
  end.

(** The loop of [command_i2c_modify_bits] on the bytes received. *)
Definition modify_bits (data clear set : list Z) : list Z :=
  zip_with (λ b '(c, s), Z.lor (Z.land b (Z.lnot c)) s) data (zip clear set).

Definition command_i2c_modify_bits (fuel : nat) (args : list Z) : M unit :=
  match args with
  | [oid; reg_len; reg; clear_set_len; clear_set] =>
      p ← oid_lookup oid OT_i2c;
      let reg_len := u8 reg_len in
      if negb (clear_set_len mod 2 =? 0) then shutdown "i2c_modify_bits: Odd number of bits!"
      else
        let data_len := u8 (clear_set_len / 2) in
        reg ← read_buffer reg reg_len;
        bits ← read_buffer clear_set (2 * data_len);
        d ← read_obj p;
        received ← i2c_dev_read fuel d reg data_len;
        let n := Z.to_nat data_len in
        let data := modify_bits received (take n bits) (drop n bits) in
        i2c_dev_write fuel d (take (Z.to_nat (u8 (reg_len + data_len))) (reg ++ data))
  | _ => stuck Out_of_bounds
  end.

(** ** Leds (neopixel.c) *)

Definition PULSE_LONG_TICKS : Z := nsecs_to_ticks 650.
Definition PULSE_SHORT_TICKS : Z := nsecs_to_ticks 200.
Definition BIT_MIN_TICKS : Z := nsecs_to_ticks 1250.

Definition neopixel_check_elapsed (t1 t2 ticks : Z) : bool := ticks <=? u32 (t2 - t1).

Fixpoint neopixel_delay (fuel : nat) (start ticks : Z) : M unit :=
  match fuel with
  | O => stuck Out_of_fuel
  | S fuel =>
      now ← timer_read_time;
      if neopixel_check_elapsed start now ticks then mret tt else neopixel_delay fuel start ticks
  end.

Definition command_config_neopixel (args : list Z) : M unit :=
  match args with
  | [oid; pin; data_size; bit_max_ticks; reset_min_ticks] =>
      pin ← gpio_out_setup pin 0;
      let data_size := u16 data_size in
      if flag_set data_size 0x8000 then shutdown "Invalid neopixel data_size"
      else
        p ← oid_alloc oid OT_neopixel (sizeof_oid OT_neopixel + data_size);
        write_obj p (mk_neopixel_s pin bit_max_ticks 0 reset_min_ticks data_size
                       (repeat 0 (Z.to_nat data_size)))
  | _ => stuck Out_of_bounds
  end.

(** One bit: [None] when an interrupt delayed it too much. *)
Definition send_bit (fuel : nat) (pin bit_max_ticks last_start : Z) (one : bool) : M (option Z) :=
  neopixel_delay fuel last_start BIT_MIN_TICKS;;
  irq_disable;;
  start ← timer_read_time;
  gpio_out_toggle_noirq pin;;
  if one then
    irq_enable;;
    if neopixel_check_elapsed last_start start bit_max_ticks then mret None
    else
      neopixel_delay fuel start PULSE_LONG_TICKS;;
      irq_disable;;
      gpio_out_toggle_noirq pin;;
      irq_enable;;
      now ← timer_read_time;
      neopixel_delay fuel now PULSE_SHORT_TICKS;;
      mret (Some start)
  else
    neopixel_delay fuel start PULSE_SHORT_TICKS;;
    gpio_out_toggle_noirq pin;;
    irq_enable;;
    mret (if neopixel_check_elapsed last_start start bit_max_ticks then None else Some start).

Fixpoint send_bits (bits fuel : nat) (pin bit_max_ticks last_start byte : Z) : M (option Z) :=
  match bits with
  | O => mret (Some last_start)
  | S bits =>
      r ← send_bit fuel pin bit_max_ticks last_start (negb (Z.land byte 0x80 =? 0));
      match r with
      | Some start => send_bits bits fuel pin bit_max_ticks start (Z.shiftl byte 1)
      | None => mret None
      end
  end.

Fixpoint send_bytes (fuel : nat) (pin bit_max_ticks last_start : Z) (data : list Z) : M (option Z) :=
  match data with
  | [] => mret (Some last_start)
  | byte :: data =>
      r ← send_bits 8 fuel pin bit_max_ticks last_start byte;
      match r with
      | Some start => send_bytes fuel pin bit_max_ticks start data
      | None => mret None
      end
  end.

(** The loop of [send_data] that waits for the reset time. *)
Fixpoint reset_wait (fuel : nat) (last_req_time rmt cur : Z) : M unit :=
  match fuel with
  | O => stuck Out_of_fuel
  | S fuel =>
      if u32 (cur - last_req_time) <? rmt then
        irq_poll;; cur ← timer_read_time; reset_wait fuel last_req_time rmt cur
      else mret tt
  end.

Definition send_data (fuel : nat) (p : Z) : M Z :=
  n ← read_obj p;
  cur ← timer_read_time;
  reset_wait fuel n.(np_last_req_time) n.(np_reset_min_ticks) cur;;
  last_start ← timer_read_time;
  r ← send_bytes fuel n.(np_pin) n.(np_bit_max_ticks) last_start
         (take (Z.to_nat n.(np_data_size)) n.(np_data));
  match r with
  | Some _ =>
      now ← timer_read_time;
      write_obj p (n <| np_last_req_time := now |>);;
      mret 0
  | None =>
      gpio_out_write n.(np_pin) 0;;
      now ← timer_read_time;
      write_obj p (n <| np_last_req_time := now |>);;
      mret (-1)
  end.

Definition command_neopixel_update (args : list Z) : M unit :=
  match args with
  | [oid; pos; data_len; data] =>
      p ← oid_lookup oid OT_neopixel;
      n ← read_obj p;
      if flag_set pos 0x8000 || (n.(np_data_size) <? u32 (pos + data_len))
      then shutdown "Invalid neopixel update command"
      else
        bytes ← read_buffer data data_len;
        write_obj p (n <| np_data ::= λ d,
          take (Z.to_nat pos) d ++ bytes ++ drop (Z.to_nat pos + length bytes) d |>)
  | _ => stuck Out_of_bounds
  end.

Definition command_neopixel_send (fuel : nat) (args : list Z) : M unit :=
  match args with
  | [oid] =>
      let oid := u8 oid in
      p ← oid_lookup oid OT_neopixel;
      ret ← send_data fuel p;
      sendf "neopixel_result oid=%c success=%c" [A_int oid; A_int (b2z (ret =? 0))]
  | _ => stuck Out_of_bounds
  end.

End Bus.
