(* ===== verification/Power.v ===== *)
(** * Power loss detection and thermocouples (src/por.c, src/thermocouple.c) *)

From S2P Require Import Prelude.
From S2P Require Import State.
From S2P Require Import Machine.
From S2P Require Import Sched.
From S2P Require Import Basecmd.
From S2P Require Import Endstop.
From S2P Require Import Hal.
From S2P Require Import Bus.

Definition SHUTDOWN_PINS_MAX : Z := 64.

Definition TS_CHIP_MAX31855 : Z := 0.
Definition TS_CHIP_MAX31856 : Z := 1.
Definition TS_CHIP_MAX31865 : Z := 2.
Definition TS_CHIP_MAX6675 : Z := 3.
Definition TS_PENDING : Z := 1.
Definition MAX31856_LTCBH_REG : Z := 0x0C.
Definition MAX31856_SR_REG : Z := 0x0F.
Definition MAX31865_RTDMSB_REG : Z := 0x01.
Definition MAX31865_FAULTSTAT_REG : Z := 0x07.

(** [memcpy] into an integer followed by [be32_to_cpu] (or [be16_to_cpu]):
    the big-endian number in the bytes. *)
Definition be_to_cpu (bs : list Z) : Z := fold_left (λ v b, v * 256 + b) bs 0.

Section Power.
Context `{Board}.

(** ** Pins set when the power fails (por.c) *)

Definition config_shutdown_pins (args : list Z) : M unit :=
  match args with
  | [oid] =>
      p ← oid_alloc oid OT_shutdown_pins (sizeof_oid OT_shutdown_pins);
      write_obj p (mk_shutdown_pins (repeat 0 (Z.to_nat SHUTDOWN_PINS_MAX))
                     (repeat 0 (Z.to_nat SHUTDOWN_PINS_MAX)) 0)
  | _ => stuck Out_of_bounds
  end.

Definition command_shutdown_pins_add (args : list Z) : M unit :=
  match args with
  | [oid; pin; value] =>
      p ← oid_lookup oid OT_shutdown_pins;
      e ← read_obj p;
      if SHUTDOWN_PINS_MAX <? e.(sp_pin_count) + 1 then shutdown "shutdown_pin_count limits"
      else
        let i := Z.to_nat e.(sp_pin_count) in
        write_obj p (e <| sp_pin ::= <[i := u8 pin]> |> <| sp_value ::= <[i := u8 value]> |>
                       <| sp_pin_count ::= λ c, u8 (c + 1) |>)
  | _ => stuck Out_of_bounds
  end.

Fixpoint set_pins_loop (k : nat) (e : shutdown_pins) (i : nat) : M unit :=
  match k with
  | O => mret tt
  | S k =>
      pin ← of_option Out_of_bounds (e.(sp_pin) !! i);
      value ← of_option Out_of_bounds (e.(sp_value) !! i);
      _ ← gpio_out_setup pin value;
      set_pins_loop k e (S i)
  end.

Definition shutdown_pins_set (p : Z) : M unit :=
  e ← read_obj p; set_pins_loop (Z.to_nat e.(sp_pin_count)) e 0.

Definition command_shutdown_pins_set (args : list Z) : M unit :=
  match args with
  | [oid] =>
      p ← oid_lookup oid OT_shutdown_pins;
      shutdown_pins_set p;;
      shutdown "shutdown_pins"
  | _ => stuck Out_of_bounds
  end.

(** ** The detection timer (por.c); the test of the pin is that of endstop.c *)

Definition por_oversample_event (p : Z) : M Z :=
  e ← read_obj p;
  val ← gpio_in_read e.(po_pin);
  if endstop_nomatch e.(po_flags) val then
    set_func (obj_timer p) F_por_event;;
    set_waketime (obj_timer p) e.(po_nextwake);;
    write_obj p (e <| po_trigger_count := e.(po_sample_count) |>);;
    mret SF_RESCHEDULE
  else
    let count := u8 (e.(po_trigger_count) - 1) in
    if count =? 0 then
      sp ← of_option Null_deref e.(po_sp);
      shutdown_pins_set sp;;
      shutdown "power_off"
    else
      write_obj p (e <| po_trigger_count := count |>);;
      add_waketime (obj_timer p) e.(po_sample_time);;
      mret SF_RESCHEDULE.

Definition por_event (p : Z) : M Z :=
  e ← read_obj p;
  val ← gpio_in_read e.(po_pin);
  t ← read_timer (obj_timer p);
  let nextwake := u32 (t.(waketime) + e.(po_rest_time)) in
  if endstop_nomatch e.(po_flags) val then
    set_waketime (obj_timer p) nextwake;;
    mret SF_RESCHEDULE
  else
    write_obj p (e <| po_nextwake := nextwake |>);;
    set_func (obj_timer p) F_por_oversample_event;;
    por_oversample_event p.

Definition command_config_por (args : list Z) : M unit :=
  match args with
  | [oid; shutdown_pins_oid; pin; pull_up; pin_value; sample_ticks; sample_count; rest_ticks] =>
      p ← oid_alloc oid OT_por (sizeof_oid OT_por);
      new_timer (obj_timer p) F_null;;
      write_obj p (mk_por 0 0 0 0 0 0 0 None);;
      sp ← oid_lookup shutdown_pins_oid OT_shutdown_pins;
      update_obj p (λ e, e <| po_sp := Some sp |>);;
      pin ← gpio_in_setup pin pull_up;
      update_obj p (λ e, e <| po_pin := pin |>
        <| po_flags := (if negb (pin_value =? 0) then ESF_PIN_HIGH else 0) |>
        <| po_sample_time := sample_ticks |> <| po_sample_count := u8 sample_count |>
        <| po_rest_time := rest_ticks |> <| po_trigger_count := u8 sample_count |>);;
      sched_del_timer (obj_timer p);;
      set_func (obj_timer p) F_por_event;;
      now ← timer_read_time;
      set_waketime (obj_timer p) (now + rest_ticks);;
      sched_add_timer (obj_timer p)
  | _ => stuck Out_of_bounds
  end.

(** ** Thermocouple chips (thermocouple.c) *)

Definition thermocouple_event (p : Z) : M Z :=
  sched_wake_task W_thermocouple;;
  update_obj p (λ c, c <| tc_flags ::= λ f, Z.lor f TS_PENDING |>);;
  c ← read_obj p;
  add_waketime (obj_timer p) c.(tc_rest_time);;
  mret SF_RESCHEDULE.

Definition command_config_thermocouple (args : list Z) : M unit :=
  match args with
  | [oid; spi_oid; thermocouple_type] =>
      let chip_type := u8 thermocouple_type in
      if TS_CHIP_MAX6675 <? chip_type then shutdown "Invalid thermocouple chip type"
      else
        p ← oid_alloc oid OT_thermocouple (sizeof_oid OT_thermocouple);
        new_timer (obj_timer p) F_thermocouple_event;;
        write_obj p (mk_thermocouple_spi 0 0 0 0 0 0 0 0);;
        spi ← spidev_oid_lookup spi_oid;
        update_obj p (λ c, c <| tc_spi := spi |> <| tc_chip_type := chip_type |>)
  | _ => stuck Out_of_bounds
  end.

Definition command_query_thermocouple (args : list Z) : M unit :=
  match args with
  | [oid; clock; rest_ticks; min_value; max_value; max_invalid_count] =>
      p ← oid_lookup oid OT_thermocouple;
      sched_del_timer (obj_timer p);;
      set_waketime (obj_timer p) clock;;
      update_obj p (λ c : thermocouple_spi, c <| tc_rest_time := rest_ticks |>);;
      if rest_ticks =? 0 then mret tt
      else
        update_obj p (λ c, c <| tc_min_value := min_value |> <| tc_max_value := max_value |>
          <| tc_max_invalid := u8 max_invalid_count |> <| tc_invalid_count := 0 |>);;
        sched_add_timer (obj_timer p)
  | _ => stuck Out_of_bounds
  end.

Definition thermocouple_respond (p next_begin_time value fault oid : Z) : M unit :=
  sendf "thermocouple_result oid=%c next_clock=%u value=%u fault=%c"
    [A_int oid; A_int next_begin_time; A_int value; A_int fault];;
  c ← read_obj p;
  if negb (fault =? 0) || (value <? c.(tc_min_value)) || (c.(tc_max_value) <? value) then
    let c := c <| tc_invalid_count ::= λ n, u8 (n + 1) |> in
    write_obj p c;;
    if c.(tc_invalid_count) <? c.(tc_max_invalid) then mret tt
    else
      try_shutdown "Thermocouple reader fault";;
      write_obj p (c <| tc_invalid_count := 0 |>)
  else write_obj p (c <| tc_invalid_count := 0 |>).

(** Read the register of the fault bits: the second byte of the answer. *)
Definition thermocouple_fault (spi reg : Z) : M Z :=
  msg ← spidev_transfer spi true [reg; 0];
  of_option Out_of_bounds (msg !! 1%nat).

Definition thermocouple_handle_max31855 (p next_begin_time oid : Z) : M unit :=
  c ← read_obj p;
  msg ← spidev_transfer c.(tc_spi) true [0; 0; 0; 0];
  let value := be_to_cpu msg in
  thermocouple_respond p next_begin_time value (Z.land value 0x07) oid.

Definition thermocouple_handle_max31856 (p next_begin_time oid : Z) : M unit :=
  c ← read_obj p;
  msg ← spidev_transfer c.(tc_spi) true [MAX31856_LTCBH_REG; 0; 0; 0];
  let value := Z.land (be_to_cpu msg) 0x00ffffff in
  fault ← thermocouple_fault c.(tc_spi) MAX31856_SR_REG;
  thermocouple_respond p next_begin_time value fault oid.

Definition thermocouple_handle_max31865 (p next_begin_time oid : Z) : M unit :=
  c ← read_obj p;
  msg ← spidev_transfer c.(tc_spi) true [MAX31865_RTDMSB_REG; 0; 0];
  let value := Z.land (Z.shiftr (be_to_cpu (msg ++ [0])) 8) 0xffff in
  fault ← thermocouple_fault c.(tc_spi) MAX31865_FAULTSTAT_REG;
  thermocouple_respond p next_begin_time value
    (Z.lor (u8 (Z.land fault (Z.lnot 0x03))) (Z.land value 0x0001)) oid.

Definition thermocouple_handle_max6675 (p next_begin_time oid : Z) : M unit :=
  c ← read_obj p;
  msg ← spidev_transfer c.(tc_spi) true [0; 0];
  let value := be_to_cpu msg in
  thermocouple_respond p next_begin_time value (Z.land value 0x06) oid.

Definition thermocouple_task : M unit :=
  w ← sched_check_wake W_thermocouple;
  if negb w then mret tt
  else
    foreach_oid OT_thermocouple (λ oid p,
      c ← read_obj p;
      if negb (flag_set c.(tc_flags) TS_PENDING) then mret tt
      else
        irq_disable;;
        t ← read_timer (obj_timer p);
        let next_begin_time := t.(waketime) in
        write_obj p (c <| tc_flags ::= λ f, u8 (Z.land f (Z.lnot TS_PENDING)) |>);;
        irq_enable;;
        if c.(tc_chip_type) =? TS_CHIP_MAX31855
        then thermocouple_handle_max31855 p next_begin_time oid
        else if c.(tc_chip_type) =? TS_CHIP_MAX31856
        then thermocouple_handle_max31856 p next_begin_time oid
        else if c.(tc_chip_type) =? TS_CHIP_MAX31865
        then thermocouple_handle_max31865 p next_begin_time oid
        else if c.(tc_chip_type) =? TS_CHIP_MAX6675
        then thermocouple_handle_max6675 p next_begin_time oid
        else mret tt).

End Power.
