(* ===== verification/Sensors.v ===== *)
(** * Bulk sensors (src/sensor_bulk.c, sensor_cs123x.c, sensor_hx71x.c,
    sensor_ads1220.c, sensor_adxl345.c, sensor_lis2dw.c)

    A sensor's timer notices that data is ready, its task reads the chip (by
    toggling the clock pin, or over spi), collects samples in the 51 bytes of its
    [struct sensor_bulk], sends the buffer when no further sample fits, and the
    two load cell chips also hand each sample to a load cell end stop.

    A routine that polls the clock takes the number of polls it may make
    ([polls]); [irq_poll] is the work the board does in the polls that allow
    interrupts. *)

From S2P Require Import Prelude.
From S2P Require Import State.
From S2P Require Import Machine.
From S2P Require Import Sched.
From S2P Require Import Basecmd.
From S2P Require Import Hal.
From S2P Require Import LoadCell.
From S2P Require Import Bus.

Definition CS_PENDING : Z := Z.shiftl 1 0.
Definition CS_OVERFLOW : Z := Z.shiftl 1 1.
Definition SAMPLE_ERROR_DESYNC : Z := Z.shiftl 1 31.
Definition SAMPLE_ERROR_READ_TOO_LONG : Z := Z.shiftl 1 30.
Definition CS123X_WRITE_CONFIG : Z := 0x65.
Definition CS123X_READ_CONFIG : Z := 0x56.

(** The bytes of the counter [counts] as [add_sample] stores them. *)
Definition sample_bytes (counts : Z) : list Z :=
  [u8 counts; u8 (Z.shiftr counts 8); u8 (Z.shiftr counts 16); u8 (Z.shiftr counts 24)].

(** The sign extension of a 24 bit reading. *)
Definition extend24 (v : Z) : Z := if flag_set v 0x800000 then Z.lor v 0xFF000000 else v.

Section Sensors.
Context `{Board} (irq_poll : M unit) (polls : nat).

(** ** The shared buffer (sensor_bulk.c) *)

Definition new_sensor_bulk : sensor_bulk := mk_sensor_bulk 0 0 0 (repeat 0 51).

Definition sensor_bulk_reset (sb : sensor_bulk) : sensor_bulk :=
  sb <| sb_sequence := 0 |> <| sb_possible_overflows := 0 |> <| sb_data_count := 0 |>.

Definition sensor_bulk_report (sb : sensor_bulk) (oid : Z) : M sensor_bulk :=
  sendf "sensor_bulk_data oid=%c sequence=%hu data=%*s"
    [A_int oid; A_int sb.(sb_sequence);
     A_buf (take (Z.to_nat sb.(sb_data_count)) sb.(sb_data))];;
  mret (sb <| sb_data_count := 0 |> <| sb_sequence ::= λ n, u16 (n + 1) |>).

Definition sensor_bulk_status (sb : sensor_bulk) (oid time1 query_ticks fifo : Z) : M unit :=
  sendf "sensor_bulk_status oid=%c clock=%u query_ticks=%u next_sequence=%hu buffered=%u possible_overflows=%hu"
    [A_int oid; A_int time1; A_int query_ticks; A_int sb.(sb_sequence);
     A_int (u32 (sb.(sb_data_count) + fifo)); A_int sb.(sb_possible_overflows)].

(** Store bytes at [data[data_count]] and count them. *)
Definition bulk_store (bytes : list Z) (sb : sensor_bulk) : M sensor_bulk :=
  let n := Z.to_nat sb.(sb_data_count) in
  if (length sb.(sb_data) <? n + length bytes)%nat then stuck Out_of_bounds
  else mret (sb <| sb_data ::= λ d, take n d ++ bytes ++ drop (n + length bytes) d |>
                <| sb_data_count ::= λ c, u8 (c + Z.of_nat (length bytes)) |>).

(** The end of [add_sample] and of the query routines: a sample is stored, and
    the buffer is sent when another sample would not fit. *)
Definition bulk_add (bytes : list Z) (force_flush : bool) (oid : Z) (sb : sensor_bulk) :
    M sensor_bulk :=
  sb ← bulk_store bytes sb;
  if (51 <? sb.(sb_data_count) + Z.of_nat (length bytes)) || force_flush
  then sensor_bulk_report sb oid else mret sb.

(** ** Bit banging (sensor_cs123x.c, sensor_hx71x.c) *)

(** [while (timer_is_before(timer_read_time(), end)) poll();] *)
Fixpoint delay_until (fuel : nat) (poll : M unit) (end_ : Z) : M unit :=
  match fuel with
  | O => stuck Out_of_fuel
  | S fuel =>
      now ← timer_read_time;
      if timer_is_before now end_ then poll;; delay_until fuel poll end_ else mret tt
  end.

Definition cs123x_delay_noirq : M unit :=
  now ← timer_read_time; delay_until polls (mret tt) (u32 (now + nsecs_to_ticks 500)).
Definition cs123x_delay : M unit :=
  now ← timer_read_time; delay_until polls irq_poll (u32 (now + nsecs_to_ticks 500)).

Fixpoint cs1237x_generate_clk (count : nat) (sclk : Z) : M unit :=
  match count with
  | O => mret tt
  | S count =>
      irq_disable;;
      gpio_out_toggle_noirq sclk;;
      cs123x_delay_noirq;;
      gpio_out_toggle_noirq sclk;;
      irq_enable;;
      cs123x_delay;;
      cs1237x_generate_clk count sclk
  end.

(** The loop that shifts in [k] bits after those of [bits_read]. *)
Fixpoint cs123x_read_bits (k : nat) (dout sclk bits_read : Z) : M Z :=
  match k with
  | O => mret bits_read
  | S k =>
      irq_disable;;
      gpio_out_toggle_noirq sclk;;
      cs123x_delay_noirq;;
      gpio_out_toggle_noirq sclk;;
      bit ← gpio_in_read dout;
      irq_enable;;
      cs123x_delay;;
      cs123x_read_bits k dout sclk (Z.lor (u32 (Z.shiftl bits_read 1)) bit)
  end.

Definition cs123x_raw_read (dout sclk : Z) : M Z :=
  bits_read ← cs123x_read_bits 24 dout sclk 0;
  cs1237x_generate_clk 3 sclk;;
  mret bits_read.

(** The loop that shifts out [k] bits of [v], the one selected by [mask] first. *)
Fixpoint cs123x_write_bits (k : nat) (din sclk mask v : Z) : M unit :=
  match k with
  | O => mret tt
  | S k =>
      irq_disable;;
      gpio_out_write din (Z.land v mask);;
      gpio_out_toggle_noirq sclk;;
      cs123x_delay_noirq;;
      gpio_out_toggle_noirq sclk;;
      irq_enable;;
      cs123x_delay;;
      cs123x_write_bits k din sclk mask (Z.shiftl v 1)
  end.

(** The wait for the ready signal: whether it came before the time [timeout]. *)
Fixpoint cs123x_wait_ready (fuel : nat) (dout timeout : Z) : M bool :=
  match fuel with
  | O => stuck Out_of_fuel
  | S fuel =>
      v ← gpio_in_read dout;
      if v =? 0 then mret true
      else
        now ← timer_read_time;
        if timer_is_before timeout now then mret false else cs123x_wait_ready fuel dout timeout
  end.

Definition cs123x_config (dout din sclk cmd val : Z) : M Z :=
  let write_config := cmd =? CS123X_WRITE_CONFIG in
  now ← timer_read_time;
  gpio_out_write sclk 0;;
  ready ← cs123x_wait_ready polls dout (u32 (now + timer_from_us 200000));
  if negb ready then mret 0xFF
  else
    cs1237x_generate_clk 27 sclk;;
    gpio_out_reset din 1;;
    cs1237x_generate_clk 2 sclk;;
    cs123x_write_bits 7 din sclk 0x40 cmd;;
    when (negb write_config) (gpio_in_reset dout 1);;
    cs1237x_generate_clk 1 sclk;;
    config ← (if negb write_config then cs123x_read_bits 8 dout sclk 0
              else cs123x_write_bits 8 din sclk 0x80 val;; mret 0);
    when write_config (gpio_in_reset dout 1);;
    cs1237x_generate_clk 1 sclk;;
    gpio_out_write sclk 0;;
    mret config.

(** ** The CS1237 (sensor_cs123x.c) *)

Definition cs123x_is_data_ready (cs : cs123x_adc) : M bool :=
  v ← gpio_in_read cs.(cs_dout); mret (v =? 0).

Definition cs123x_event (p : Z) : M Z :=
  cs ← read_obj p;
  let rest_ticks := cs.(cs_rest_ticks) in
  rest_ticks ← (if flag_set cs.(cs_flags) CS_PENDING then
      write_obj p (cs <| cs_sb ::= λ sb, sb <| sb_possible_overflows ::= λ n, u16 (n + 1) |> |>
                      <| cs_flags := Z.lor CS_PENDING CS_OVERFLOW |>);;
      mret (u32 (rest_ticks * 4))
    else
      ready ← cs123x_is_data_ready cs;
      if ready : bool then
        write_obj p (cs <| cs_flags := CS_PENDING |>);;
        sched_wake_task W_cs123x;;
        mret (u32 (rest_ticks * 8))
      else mret rest_ticks);
  add_waketime (obj_timer p) rest_ticks;;
  mret SF_RESCHEDULE.

Definition cs123x_add_sample (p oid counts : Z) (force_flush : bool) : M unit :=
  cs ← read_obj p;
  sb ← bulk_add (sample_bytes counts) force_flush oid cs.(cs_sb);
  write_obj p (cs <| cs_sb := sb |>).

Definition cs123x_read_adc (p oid : Z) : M unit :=
  start ← timer_read_time;
  cs ← read_obj p;
  adc ← cs123x_raw_read cs.(cs_dout) cs.(cs_sclk);
  irq_disable;;
  cs ← read_obj p;
  let flags := cs.(cs_flags) in
  write_obj p (cs <| cs_flags := 0 |>);;
  irq_enable;;
  let adc := extend24 adc in
  when (flag_set flags CS_OVERFLOW)
    (update_obj p (λ c : cs123x_adc, c <| cs_last_error := SAMPLE_ERROR_READ_TOO_LONG |>));;
  cs ← read_obj p;
  let adc := if negb (cs.(cs_last_error) =? 0) then cs.(cs_last_error) else adc in
  cs123x_add_sample p oid adc false;;
  match cs.(cs_lce) with
  | Some lce =>
      when (cs.(cs_last_error) =? 0) (load_cell_endstop_report_sample lce (s32 adc) start)
  | None => mret tt
  end.

Definition command_config_cs123x (args : list Z) : M unit :=
  match args with
  | [oid; dout_pin; sclk_pin] =>
      p ← oid_alloc oid OT_cs123x (sizeof_oid OT_cs123x);
      new_timer (obj_timer p) F_cs123x_event;;
      write_obj p (mk_cs123x_adc 0 0 0 0 0 0 new_sensor_bulk None);;
      din ← gpio_out_setup dout_pin 1;
      update_obj p (λ c, c <| cs_din := din |>);;
      dout ← gpio_in_setup dout_pin 1;
      update_obj p (λ c, c <| cs_dout := dout |>);;
      sclk ← gpio_out_setup sclk_pin 0;
      update_obj p (λ c, c <| cs_sclk := sclk |>);;
      gpio_out_write sclk 0
  | _ => stuck Out_of_bounds
  end.

Definition command_cs123x_write (args : list Z) : M unit :=
  match args with
  | [oid; config] =>
      p ← oid_lookup oid OT_cs123x;
      cs ← read_obj p;
      _ ← cs123x_config cs.(cs_dout) cs.(cs_din) cs.(cs_sclk) CS123X_WRITE_CONFIG config;
      output "command_cs123x_write oid %u config %u" [A_int oid; A_int config]
  | _ => stuck Out_of_bounds
  end.

Definition command_cs123x_read (args : list Z) : M unit :=
  match args with
  | [oid] =>
      p ← oid_lookup oid OT_cs123x;
      cs ← read_obj p;
      config ← cs123x_config cs.(cs_dout) cs.(cs_din) cs.(cs_sclk) CS123X_READ_CONFIG 0xff;
      let config := u8 config in
      sendf "cs123x_read_response oid=%c config=%c" [A_int oid; A_int config];;
      output "command_cs123x_read oid %u config %u" [A_int oid; A_int config]
  | _ => stuck Out_of_bounds
  end.

Definition command_attach_endstop_cs123x (args : list Z) : M unit :=
  match args with
  | [oid; load_cell_endstop_oid] =>
      p ← oid_lookup oid OT_cs123x;
      lce ← load_cell_endstop_oid_lookup load_cell_endstop_oid;
      update_obj p (λ c, c <| cs_lce := Some lce |>)
  | _ => stuck Out_of_bounds
  end.

Definition command_query_cs123x (args : list Z) : M unit :=
  match args with
  | [oid; rest_ticks] =>
      p ← oid_lookup oid OT_cs123x;
      sched_del_timer (obj_timer p);;
      update_obj p (λ c : cs123x_adc, c <| cs_flags := 0 |> <| cs_last_error := 0 |>
                                        <| cs_rest_ticks := rest_ticks |>);;
      cs ← read_obj p;
      if rest_ticks =? 0 then gpio_out_write cs.(cs_sclk) 0
      else
        gpio_out_write cs.(cs_sclk) 0;;
        update_obj p (λ c : cs123x_adc, c <| cs_sb ::= sensor_bulk_reset |>);;
        irq_disable;;
        now ← timer_read_time;
        set_waketime (obj_timer p) (now + rest_ticks);;
        sched_add_timer (obj_timer p);;
        irq_enable
  | _ => stuck Out_of_bounds
  end.

Definition command_query_cs123x_status (args : list Z) : M unit :=
  match args with
  | [oid] =>
      let oid := u8 oid in
      p ← oid_lookup oid OT_cs123x;
      irq_disable;;
      start_t ← timer_read_time;
      cs ← read_obj p;
      ready ← cs123x_is_data_ready cs;
      irq_enable;;
      sensor_bulk_status cs.(cs_sb) oid start_t 0 (if ready : bool then 4 else 0)
  | _ => stuck Out_of_bounds
  end.

Definition cs123x_capture_task : M unit :=
  w ← sched_check_wake W_cs123x;
  if negb w then mret tt
  else
    foreach_oid OT_cs123x (λ oid p,
      cs ← read_obj p;
      when (negb (cs.(cs_flags) =? 0)) (cs123x_read_adc p oid)).

(** ** The HX711 and HX717 (sensor_hx71x.c) *)

Definition hx71x_delay_noirq : M unit :=
  if CONFIG_MACH_AVR then mret tt
  else now ← timer_read_time; delay_until polls (mret tt) (u32 (now + nsecs_to_ticks 200)).
Definition hx71x_delay : M unit :=
  if CONFIG_MACH_AVR then mret tt
  else now ← timer_read_time; delay_until polls irq_poll (u32 (now + nsecs_to_ticks 200)).

(** [hx71x_raw_read] after it has shifted in [bits_read]. *)
Fixpoint hx71x_raw_read (num_bits : nat) (dout sclk bits_read : Z) : M Z :=
  match num_bits with
  | O => mret bits_read
  | S num_bits =>
      irq_disable;;
      gpio_out_toggle_noirq sclk;;
      hx71x_delay_noirq;;
      gpio_out_toggle_noirq sclk;;
      bit ← gpio_in_read dout;
      irq_enable;;
      hx71x_delay;;
      hx71x_raw_read num_bits dout sclk (Z.lor (u32 (Z.shiftl bits_read 1)) bit)
  end.

Definition hx71x_is_data_ready (hx : hx71x_adc) : M bool :=
  v ← gpio_in_read hx.(hx_dout); mret (v =? 0).

Definition hx71x_event (p : Z) : M Z :=
  hx ← read_obj p;
  let rest_ticks := hx.(hx_rest_ticks) in
  rest_ticks ← (if flag_set hx.(hx_flags) CS_PENDING then
      write_obj p (hx <| hx_sb ::= λ sb, sb <| sb_possible_overflows ::= λ n, u16 (n + 1) |> |>
                      <| hx_flags := Z.lor CS_PENDING CS_OVERFLOW |>);;
      mret (u32 (rest_ticks * 4))
    else
      ready ← hx71x_is_data_ready hx;
      if ready : bool then
        write_obj p (hx <| hx_flags := CS_PENDING |>);;
        sched_wake_task W_hx71x;;
        mret (u32 (rest_ticks * 8))
      else mret rest_ticks);
  add_waketime (obj_timer p) rest_ticks;;
  mret SF_RESCHEDULE.

Definition hx71x_add_sample (p oid counts : Z) (force_flush : bool) : M unit :=
  hx ← read_obj p;
  sb ← bulk_add (sample_bytes counts) force_flush oid hx.(hx_sb);
  write_obj p (hx <| hx_sb := sb |>).

(** The new value of [last_error] after a transfer that read [adc]. *)
Definition hx71x_error (adc gain_channel flags last_error : Z) : Z :=
  let extras_mask := Z.shiftl 1 gain_channel - 1 in
  if negb (Z.land adc extras_mask =? extras_mask) then SAMPLE_ERROR_DESYNC
  else if flag_set flags CS_OVERFLOW then SAMPLE_ERROR_READ_TOO_LONG
  else last_error.

Definition hx71x_read_adc (p oid : Z) : M unit :=
  start ← timer_read_time;
  hx ← read_obj p;
  let gain_channel := hx.(hx_gain_channel) in
  adc ← hx71x_raw_read (Z.to_nat (24 + gain_channel)) hx.(hx_dout) hx.(hx_sclk) 0;
  irq_disable;;
  hx ← read_obj p;
  let flags := hx.(hx_flags) in
  write_obj p (hx <| hx_flags := 0 |>);;
  irq_enable;;
  let counts := extend24 (Z.shiftr adc gain_channel) in
  update_obj p (λ h : hx71x_adc, h <| hx_last_error ::= hx71x_error adc gain_channel flags |>);;
  hx ← read_obj p;
  let counts := if negb (hx.(hx_last_error) =? 0) then hx.(hx_last_error) else counts in
  hx71x_add_sample p oid counts false;;
  match hx.(hx_lce) with
  | Some lce =>
      when (hx.(hx_last_error) =? 0) (load_cell_endstop_report_sample lce (s32 counts) start)
  | None => mret tt
  end.

Definition command_config_hx71x (args : list Z) : M unit :=
  match args with
  | [oid; gain_channel; dout_pin; sclk_pin] =>
      p ← oid_alloc oid OT_hx71x (sizeof_oid OT_hx71x);
      new_timer (obj_timer p) F_hx71x_event;;
      write_obj p (mk_hx71x_adc 0 0 0 0 0 0 new_sensor_bulk None);;
      let gain_channel := u8 gain_channel in
      if (gain_channel <? 1) || (4 <? gain_channel)
      then shutdown "HX71x gain/channel out of range 1-4"
      else
        update_obj p (λ h, h <| hx_gain_channel := gain_channel |>);;
        dout ← gpio_in_setup dout_pin 1;
        update_obj p (λ h, h <| hx_dout := dout |>);;
        sclk ← gpio_out_setup sclk_pin 0;
        update_obj p (λ h, h <| hx_sclk := sclk |>);;
        gpio_out_write sclk 1
  | _ => stuck Out_of_bounds
  end.

Definition command_attach_endstop_hx71x (args : list Z) : M unit :=
  match args with
  | [oid; load_cell_endstop_oid] =>
      p ← oid_lookup oid OT_hx71x;
      lce ← load_cell_endstop_oid_lookup load_cell_endstop_oid;
      update_obj p (λ h, h <| hx_lce := Some lce |>)
  | _ => stuck Out_of_bounds
  end.

Definition command_query_hx71x (args : list Z) : M unit :=
  match args with
  | [oid; rest_ticks] =>
      p ← oid_lookup oid OT_hx71x;
      sched_del_timer (obj_timer p);;
      update_obj p (λ h : hx71x_adc, h <| hx_flags := 0 |> <| hx_last_error := 0 |>
                                       <| hx_rest_ticks := rest_ticks |>);;
      hx ← read_obj p;
      if rest_ticks =? 0 then gpio_out_write hx.(hx_sclk) 1
      else
        gpio_out_write hx.(hx_sclk) 0;;
        update_obj p (λ h : hx71x_adc, h <| hx_sb ::= sensor_bulk_reset |>);;
        irq_disable;;
        now ← timer_read_time;
        set_waketime (obj_timer p) (now + rest_ticks);;
        sched_add_timer (obj_timer p);;
        irq_enable
  | _ => stuck Out_of_bounds
  end.

Definition command_query_hx71x_status (args : list Z) : M unit :=
  match args with
  | [oid] =>
      let oid := u8 oid in
      p ← oid_lookup oid OT_hx71x;
      irq_disable;;
      start_t ← timer_read_time;
      hx ← read_obj p;
      ready ← hx71x_is_data_ready hx;
      irq_enable;;
      sensor_bulk_status hx.(hx_sb) oid start_t 0 (if ready : bool then 4 else 0)
  | _ => stuck Out_of_bounds
  end.

Definition hx71x_capture_task : M unit :=
  w ← sched_check_wake W_hx71x;
  if negb w then mret tt
  else
    foreach_oid OT_hx71x (λ oid p,
      hx ← read_obj p;
      when (negb (hx.(hx_flags) =? 0)) (hx71x_read_adc p oid)).

(** ** The ADS1220 (sensor_ads1220.c) *)

Definition ads1220_is_data_ready (ads : ads1220_adc) : M bool :=
  v ← gpio_in_read ads.(ads_data_ready); mret (v =? 0).

Definition ads1220_event (p : Z) : M Z :=
  ads ← read_obj p;
  let rest_ticks := ads.(ads_rest_ticks) in
  rest_ticks ← (if negb (ads.(ads_pending_flag) =? 0) then
      write_obj p (ads <| ads_sb ::= λ sb, sb <| sb_possible_overflows ::= λ n, u16 (n + 1) |> |>);;
      mret (u32 (rest_ticks * 4))
    else
      ready ← ads1220_is_data_ready ads;
      if ready : bool then
        write_obj p (ads <| ads_pending_flag := 1 |>);;
        sched_wake_task W_ads1220;;
        mret (u32 (rest_ticks * 8))
      else mret rest_ticks);
  add_waketime (obj_timer p) rest_ticks;;
  mret SF_RESCHEDULE.

Definition ads1220_add_sample (p oid counts : Z) : M unit :=
  ads ← read_obj p;
  sb ← bulk_add (sample_bytes counts) false oid ads.(ads_sb);
  write_obj p (ads <| ads_sb := sb |>).

Definition ads1220_read_adc (p oid : Z) : M unit :=
  ads ← read_obj p;
  msg ← spidev_transfer ads.(ads_spi) true [0; 0; 0];
  update_obj p (λ a : ads1220_adc, a <| ads_pending_flag := 0 |>);;
  match msg with
  | [m0; m1; m2] =>
      let counts := Z.lor (Z.lor (Z.shiftl m0 16) (Z.shiftl m1 8)) m2 in
      ads1220_add_sample p oid (extend24 counts)
  | _ => stuck Out_of_bounds
  end.

Definition command_config_ads1220 (args : list Z) : M unit :=
  match args with
  | [oid; spi_oid; data_ready_pin] =>
      p ← oid_alloc oid OT_ads1220 (sizeof_oid OT_ads1220);
      new_timer (obj_timer p) F_ads1220_event;;
      write_obj p (mk_ads1220_adc 0 0 0 0 0 new_sensor_bulk);;
      spi ← spidev_oid_lookup spi_oid;
      update_obj p (λ a, a <| ads_spi := spi |>);;
      pin ← gpio_in_setup data_ready_pin 0;
      update_obj p (λ a, a <| ads_data_ready := pin |>)
  | _ => stuck Out_of_bounds
  end.

Definition command_query_ads1220 (args : list Z) : M unit :=
  match args with
  | [oid; rest_ticks] =>
      p ← oid_lookup oid OT_ads1220;
      sched_del_timer (obj_timer p);;
      update_obj p (λ a : ads1220_adc, a <| ads_pending_flag := 0 |> <| ads_rest_ticks := rest_ticks |>);;
      if rest_ticks =? 0 then mret tt
      else
        update_obj p (λ a : ads1220_adc, a <| ads_sb ::= sensor_bulk_reset |>);;
        irq_disable;;
        now ← timer_read_time;
        set_waketime (obj_timer p) (now + rest_ticks);;
        sched_add_timer (obj_timer p);;
        irq_enable
  | _ => stuck Out_of_bounds
  end.

Definition command_query_ads1220_status (args : list Z) : M unit :=
  match args with
  | [oid] =>
      let oid := u8 oid in
      p ← oid_lookup oid OT_ads1220;
      irq_disable;;
      start_t ← timer_read_time;
      ads ← read_obj p;
      ready ← ads1220_is_data_ready ads;
      irq_enable;;
      sensor_bulk_status ads.(ads_sb) oid start_t 0 (if ready : bool then 4 else 0)
  | _ => stuck Out_of_bounds
  end.

Definition ads1220_capture_task : M unit :=
  w ← sched_check_wake W_ads1220;
  if negb w then mret tt
  else
    foreach_oid OT_ads1220 (λ oid p,
      ads ← read_obj p;
      when (negb (ads.(ads_pending_flag) =? 0)) (ads1220_read_adc p oid)).

(** ** The ADXL345 (sensor_adxl345.c) *)

Definition AX_PENDING : Z := Z.shiftl 1 0.
Definition SET_FIFO_CTL : Z := 0x90.

Definition adxl345_event (p : Z) : M Z :=
  update_obj p (λ a : adxl345, a <| ax_flags ::= λ f, Z.lor f AX_PENDING |>);;
  sched_wake_task W_adxl345;;
  mret SF_DONE.

Definition command_config_adxl345 (args : list Z) : M unit :=
  match args with
  | [oid; spi_oid] =>
      p ← oid_alloc oid OT_adxl345 (sizeof_oid OT_adxl345);
      new_timer (obj_timer p) F_adxl345_event;;
      write_obj p (mk_adxl345 0 0 0 new_sensor_bulk);;
      spi ← spidev_oid_lookup spi_oid;
      update_obj p (λ a, a <| ax_spi := spi |>)
  | _ => stuck Out_of_bounds
  end.

Definition adxl_reschedule_timer (p : Z) : M unit :=
  irq_disable;;
  now ← timer_read_time;
  ax ← read_obj p;
  set_waketime (obj_timer p) (now + ax.(ax_rest_ticks));;
  sched_add_timer (obj_timer p);;
  irq_enable.

(** The high bits of an axis are neither all clear nor all set. *)
Definition adxl_bad_high (b : Z) : bool :=
  negb (Z.land b 0xf0 =? 0) && negb (Z.land b 0xf0 =? 0xf0).

(** The five bytes stored for a transfer and the fifo status. *)
Definition adxl_decode (msg : list Z) : option (list Z * Z) :=
  match msg with
  | [_; m1; m2; m3; m4; m5; m6; m7; m8] =>
      let fifo_status := Z.land m8 (Z.lnot 0x80) in
      Some (if adxl_bad_high m2 || adxl_bad_high m4 || adxl_bad_high m6
               || negb (m7 =? SET_FIFO_CTL) || (32 <? fifo_status)
            then ([0xff; 0xff; 0xff; 0xff; 0xff], 0)
            else ([m1; m3; m5; u8 (Z.lor (Z.land m2 0x1f) (Z.shiftl m6 5));
                   u8 (Z.lor (Z.land m4 0x1f) (Z.land (Z.shiftl m6 2) 0x60))], fifo_status))
  | _ => None
  end.

Definition adxl_query (p oid : Z) : M unit :=
  ax ← read_obj p;
  msg ← spidev_transfer ax.(ax_spi) true [0xf2; 0; 0; 0; 0; 0; 0; 0; 0];
  '(d, fifo_status) ← of_option Out_of_bounds (adxl_decode msg);
  ax ← read_obj p;
  sb ← bulk_add d false oid ax.(ax_sb);
  write_obj p (ax <| ax_sb := sb |>);;
  when (31 <=? fifo_status)
    (update_obj p (λ a : adxl345,
       a <| ax_sb ::= λ sb, sb <| sb_possible_overflows ::= λ n, u16 (n + 1) |> |>));;
  if 1 <? fifo_status then sched_wake_task W_adxl345
  else
    update_obj p (λ a : adxl345, a <| ax_flags ::= λ f, u8 (Z.land f (Z.lnot AX_PENDING)) |>);;
    adxl_reschedule_timer p.

Definition command_query_adxl345 (args : list Z) : M unit :=
  match args with
  | [oid; rest_ticks] =>
      p ← oid_lookup oid OT_adxl345;
      sched_del_timer (obj_timer p);;
      update_obj p (λ a : adxl345, a <| ax_flags := 0 |>);;
      if rest_ticks =? 0 then mret tt
      else
        update_obj p (λ a : adxl345, a <| ax_rest_ticks := rest_ticks |>
                                       <| ax_sb ::= sensor_bulk_reset |>);;
        adxl_reschedule_timer p
  | _ => stuck Out_of_bounds
  end.

Definition command_query_adxl345_status (args : list Z) : M unit :=
  match args with
  | [oid] =>
      p ← oid_lookup oid OT_adxl345;
      ax ← read_obj p;
      time1 ← timer_read_time;
      msg ← spidev_transfer ax.(ax_spi) true [0xb9; 0];
      time2 ← timer_read_time;
      m1 ← of_option Out_of_bounds (msg !! 1%nat);
      let fifo_status := Z.land m1 (Z.lnot 0x80) in
      if 32 <? fifo_status then mret tt
      else
        ax ← read_obj p;
        sensor_bulk_status ax.(ax_sb) (u8 oid) time1 (u32 (time2 - time1)) (fifo_status * 5)
  | _ => stuck Out_of_bounds
  end.

Definition adxl345_task : M unit :=
  w ← sched_check_wake W_adxl345;
  if negb w then mret tt
  else
    foreach_oid OT_adxl345 (λ oid p,
      ax ← read_obj p;
      when (flag_set ax.(ax_flags) AX_PENDING) (adxl_query p oid)).

(** ** The LIS2DW (sensor_lis2dw.c) *)

Definition LIS_PENDING : Z := Z.shiftl 1 0.

Definition lis2dw_event (p : Z) : M Z :=
  update_obj p (λ a : lis2dw, a <| lis_flags ::= λ f, Z.lor f LIS_PENDING |>);;
  sched_wake_task W_lis2dw;;
  mret SF_DONE.

Definition command_config_lis2dw (args : list Z) : M unit :=
  match args with
  | [oid; spi_oid] =>
      p ← oid_alloc oid OT_lis2dw (sizeof_oid OT_lis2dw);
      new_timer (obj_timer p) F_lis2dw_event;;
      write_obj p (mk_lis2dw 0 0 0 new_sensor_bulk);;
      spi ← spidev_oid_lookup spi_oid;
      update_obj p (λ a, a <| lis_spi := spi |>)
  | _ => stuck Out_of_bounds
  end.

Definition lis2dw_reschedule_timer (p : Z) : M unit :=
  irq_disable;;
  now ← timer_read_time;
  ax ← read_obj p;
  set_waketime (obj_timer p) (now + ax.(lis_rest_ticks));;
  sched_add_timer (obj_timer p);;
  irq_enable.

Definition lis2dw_query (p oid : Z) : M unit :=
  ax ← read_obj p;
  msg ← spidev_transfer ax.(lis_spi) true [0xe8; 0; 0; 0; 0; 0; 0];
  fifo ← spidev_transfer ax.(lis_spi) true [0xef; 0];
  f1 ← of_option Out_of_bounds (fifo !! 1%nat);
  let fifo_empty := Z.land f1 0x3F in
  let fifo_ovrn := Z.land f1 0x40 in
  ax ← read_obj p;
  sb ← bulk_add (drop 1 msg) false oid ax.(lis_sb);
  write_obj p (ax <| lis_sb := sb |>);;
  when (negb (fifo_ovrn =? 0))
    (update_obj p (λ a : lis2dw,
       a <| lis_sb ::= λ sb, sb <| sb_possible_overflows ::= λ n, u16 (n + 1) |> |>));;
  if fifo_empty =? 0 then sched_wake_task W_lis2dw
  else
    update_obj p (λ a : lis2dw, a <| lis_flags ::= λ f, u8 (Z.land f (Z.lnot LIS_PENDING)) |>);;
    lis2dw_reschedule_timer p.

Definition command_query_lis2dw (args : list Z) : M unit :=
  match args with
  | [oid; rest_ticks] =>
      p ← oid_lookup oid OT_lis2dw;
      sched_del_timer (obj_timer p);;
      update_obj p (λ a : lis2dw, a <| lis_flags := 0 |>);;
      if rest_ticks =? 0 then mret tt
      else
        update_obj p (λ a : lis2dw, a <| lis_rest_ticks := rest_ticks |>
                                      <| lis_sb ::= sensor_bulk_reset |>);;
        lis2dw_reschedule_timer p
  | _ => stuck Out_of_bounds
  end.

Definition command_query_lis2dw_status (args : list Z) : M unit :=
  match args with
  | [oid] =>
      p ← oid_lookup oid OT_lis2dw;
      ax ← read_obj p;
      time1 ← timer_read_time;
      msg ← spidev_transfer ax.(lis_spi) true [0xef; 0];
      time2 ← timer_read_time;
      m1 ← of_option Out_of_bounds (msg !! 1%nat);
      ax ← read_obj p;
      sensor_bulk_status ax.(lis_sb) (u8 oid) time1 (u32 (time2 - time1)) (Z.land m1 0x1f * 6)
  | _ => stuck Out_of_bounds
  end.

Definition lis2dw_task : M unit :=
  w ← sched_check_wake W_lis2dw;
  if negb w then mret tt
  else
    foreach_oid OT_lis2dw (λ oid p,
      ax ← read_obj p;
      when (flag_set ax.(lis_flags) LIS_PENDING) (lis2dw_query p oid)).

End Sensors.
