(* ===== verification/TimerIrq.v ===== *)
(** * The timer interrupt (src/generic/armcm_timer.c)

    The SysTick interrupt runs software timers until the next one is some time
    ahead.  When timers keep coming it runs them for a limited time only while
    tasks are waiting.  A loop that polls the clock takes the number of polls it
    may make; the theorem shows that it is not exceeded when the clock runs. *)

From S2P Require Import Prelude.
From S2P Require Import State.
From S2P Require Import Machine.
From S2P Require Import Sched.
From S2P Require Import SchedList.
From S2P Require Import SchedSpec.
From S2P Require Import Dispatch.

Section TimerIrq.
Context {B : Board} (stepper_event : timer_id → M Z) (call : timer_func → timer_id → M Z).

Definition TIMER_IDLE_REPEAT_TICKS : Z := timer_from_us 500.
Definition TIMER_REPEAT_TICKS : Z := timer_from_us 100.
Definition TIMER_MIN_TRY_TICKS : Z := timer_from_us 2.
Definition TIMER_DEFER_REPEAT_TICKS : Z := timer_from_us 5.

(** [timer_set_diff]: the next interrupt comes after [value] ticks. *)
Definition timer_set_diff (value : Z) : M unit :=
  modify (λ s, s <| trace ::= cons (Ev_timer_set value) |>).

Definition set_repeat_until (t : Z) : M unit :=
  modify (λ s, s <| timer_repeat_until := t |>).

(** The wait of [udelay]. *)
Fixpoint udelay_loop (fuel : nat) (wake : Z) : M unit :=
  match fuel with
  | O => stuck Out_of_fuel
  | S fuel =>
      now ← timer_read_time;
      if timer_is_before now wake then udelay_loop fuel wake else mret tt
  end.

Definition udelay (fuel : nat) (usecs : Z) : M unit :=
  now ← timer_read_time;
  udelay_loop fuel (u32 (now + timer_from_us usecs)).

Definition timer_wrap_event (t : timer_id) : M Z :=
  n ← read_timer t;
  set_waketime t (n.(waketime) + 0xffffff);;
  mret SF_RESCHEDULE.

Definition timer_reset : M unit :=
  if timer_from_us 100000 <=? 0xffffff then mret tt else sched_add_timer T_wrap.

(** "Next timer in the past or near future - wait for it to be ready". *)
Fixpoint wait_ready (fuel : nat) (next diff : Z) : M unit :=
  if 0 <? diff then
    match fuel with
    | O => stuck Out_of_fuel
    | S fuel => now ← timer_read_time; wait_ready fuel next (s32 (next - now))
    end
  else mret tt.

(** The loop of [timer_dispatch_many], with the local [tru]; [polls] bounds each
    wait and [fuel] the number of timers run. *)
Fixpoint timer_dispatch_loop (polls fuel : nat) (tru : Z) : M Z :=
  match fuel with
  | O => stuck Out_of_fuel
  | S fuel =>
      next ← sched_timer_dispatch stepper_event call;
      now ← timer_read_time;
      let diff := s32 (next - now) in
      let again tru :=
        irq_enable;; wait_ready polls next diff;; irq_disable;;
        timer_dispatch_loop polls fuel tru in
      if s32 TIMER_MIN_TRY_TICKS <? diff then mret (u32 diff)
      else if timer_is_before tru now then
        when (diff <? s32 (- timer_from_us 1000)) (try_shutdown "Rescheduled timer in the past");;
        busy ← sched_tasks_busy;
        if negb (busy =? 0) then
          set_repeat_until (u32 (now + TIMER_REPEAT_TICKS));;
          mret TIMER_DEFER_REPEAT_TICKS
        else
          set_repeat_until (u32 (now + TIMER_IDLE_REPEAT_TICKS));;
          again (u32 (now + TIMER_IDLE_REPEAT_TICKS))
      else again tru
  end.

Definition timer_dispatch_many (polls fuel : nat) : M Z :=
  tru ← gets timer_repeat_until;
  timer_dispatch_loop polls fuel tru.

Definition SysTick_Handler (polls fuel : nat) : M unit :=
  irq_disable;;
  diff ← timer_dispatch_many polls fuel;
  timer_set_diff diff;;
  irq_enable.

Definition timer_task : M unit :=
  now ← timer_read_time;
  irq_disable;;
  tru ← gets timer_repeat_until;
  when (timer_is_before tru now) (set_repeat_until now);;
  irq_enable.

(** ** The time of the clock *)

(** The clock, without its wrap-around, when it is read next. *)
Definition clock (s : mcu) : Z := hw_time s.(reads).

(** The clock runs: it advances between two reads, by a bounded amount. *)
Definition clock_runs : Prop := ∀ n, hw_time n < hw_time (S n) <= hw_time n + 2 ^ 20.

(** The moment [T] without wrap-around that [t] stands for, around the time [c]. *)
Definition stands_for (c t T : Z) : Prop := t = u32 T ∧ c - 2 ^ 30 <= T <= c + 2 ^ 30.

Definition busy (s : mcu) : Prop := TS_REQUESTED <= s.(sst).(tasks_status).

(** What the handler needs from the timer callbacks beside their obligation to
    the scheduler: they end soon and do not take waiting tasks back. *)
Definition callbacks_ok (E : string → mcu → Prop) : Prop :=
  ∀ b s U t n R, sched_inv b s U → U = t :: R → s.(timers) !! t = Some n →
  wp (invoke stepper_event call n.(func) t)
    (λ res s1, callback_post (wk s.(timers) t) t res s1
       ∧ (busy s → busy s1) ∧ clock s <= clock s1 <= clock s + 2 ^ 29
       ∧ s1.(timer_repeat_until) = s.(timer_repeat_until)) E s.

(** The next timer, in the state the handler leaves. *)
Definition next_waketime (s : mcu) : Z := wk s.(timers) s.(sst).(timer_list).

(** ** The dispatcher leaves the clock alone *)

Definition same_clock (s s' : mcu) : Prop :=
  s'.(reads) = s.(reads) ∧ s'.(timer_repeat_until) = s.(timer_repeat_until).

#[local] Instance same_clock_preorder : PreOrder same_clock.
Proof. split; [done|]. intros x y z [? ?] [? ?]. split; congruence. Qed.

Lemma requeue_same_clock t res : keeps same_clock (sched_timer_requeue t res).
Proof.
  unfold sched_timer_requeue, read_timer, set_timer_list, set_last_insert, insert_timer.
  keeps_tac; done.
Qed.

Lemma wp_keeps {A} R (m : M A) Q E s :
  keeps R m → wp m Q E s → wp m (λ a s', Q a s' ∧ R s s') E s.
Proof.
  intros Hk Hw. specialize (Hk s). unfold wp in *. by destruct (m s) as [[a| |] s'].
Qed.

Lemma wp_dispatch_clock E b s U :
  callbacks_ok E → sched_inv b s U →
  wp (sched_timer_dispatch stepper_event call)
    (λ w s', (∃ b' U', sched_inv b' s' U') ∧ w = next_waketime s'
       ∧ (busy s → busy s') ∧ clock s <= clock s' <= clock s + 2 ^ 29
       ∧ s'.(timer_repeat_until) = s.(timer_repeat_until)) E s.
Proof.
  intros Hcb Hinv. destruct (sched_inv_nonempty _ _ _ Hinv) as (n & R & HU & Hn & _).
  specialize (Hcb b s U _ _ _ Hinv HU Hn).
  unfold sched_timer_dispatch. wp_steps. eapply wp_read_timer; [done|]. wp_steps.
  eapply wp_mono; [exact Hcb| |done].
  intros res s1 ((R1 & Hr & Hres) & Hb & Hc & Ht).
  pose proof (wp_requeue _ _ _ _ _ Hr Hres) as Hq.
  apply (wp_keeps same_clock) in Hq; [|apply requeue_same_clock].
  eapply wp_mono; [exact Hq| |done]. intros w s' ((Hinv' & Hw & _ & Hfr) & Hreads & Hru).
  unfold clock, busy in *. rewrite Hreads, Hru. split_and!; [by eauto|done| |lia..|done].
  by rewrite (sf_tasks _ _ Hfr).
Qed.

(** ** Waiting for the next timer *)

Lemma wp_wait_ready polls : ∀ next W N s (Q : mcu → Prop),
  clock_runs → u32 next = u32 W → W - N < 2 ^ 29 → N < clock s <= N + 2 ^ 20 →
  W - N <= Z.of_nat polls →
  (∀ r, (s.(reads) <= r)%nat → clock s <= hw_time r → hw_time r <= Z.max (clock s) (W + 2 ^ 21) →
     Q (s <| reads := r |>)) →
  wp (wait_ready polls next (W - N)) (λ _, Q) (λ _ _, True) s.
Proof.
  induction polls as [|polls IH]; intros next W N s Q Hrun Hn Hd Hc Hp HQ; simpl.
  - rewrite (proj2 (Z.ltb_ge _ _)) by lia. apply wp_ret.
    specialize (HQ s.(reads)). destruct s. apply HQ; [done|unfold clock in *; simpl in *; lia..].
  - destruct (Z.ltb_spec 0 (W - N)).
    2: { apply wp_ret. specialize (HQ s.(reads)). destruct s.
         apply HQ; [done|unfold clock in *; simpl in *; lia..]. }
    unfold timer_read_time. wp_steps. unfold clock in *.
    replace (s32 (next - u32 (hw_time (reads s)))) with (W - hw_time (reads s)).
    2: { rewrite <- s32_u32, <- u32_sub_l, Hn, u32_sub_l, u32_sub_r, s32_u32.
         symmetry. apply s32_small. lia. }
    pose proof (Hrun (reads s)) as Hstep.
    apply IH; simpl; [done|done|lia|unfold clock; simpl; lia|lia|].
    unfold clock. simpl. intros r Hr Hlo Hhi. apply HQ; lia.
Qed.

(** ** The dispatch loop *)

(** How the handler ends: the interrupt is set to the next timer, which is some
    time ahead, or the remaining timers are deferred in favour of the tasks. *)
Definition handled (d : Z) (s : mcu) : Prop :=
  (∃ b U, sched_inv b s U) ∧
  ∃ now, now < clock s ∧
    (TIMER_MIN_TRY_TICKS < d < 2 ^ 31 ∧ u32 (next_waketime s) = u32 (now + d)
     ∨ d = TIMER_DEFER_REPEAT_TICKS ∧ busy s
       ∧ s.(timer_repeat_until) = u32 (now + TIMER_REPEAT_TICKS)).

Lemma sched_inv_clock b s s' U :
  s'.(timers) = s.(timers) → s'.(sst) = s.(sst) → sched_inv b s U → sched_inv b s' U.
Proof. intros Ht Hs Hinv. apply (sched_inv_sst b s); [done..|by rewrite Hs|by rewrite Hs]. Qed.

Lemma timer_is_before_absolute tru Tru c :
  tru = u32 Tru → - 2 ^ 31 <= Tru - c < 2 ^ 31 → timer_is_before tru (u32 c) = (Tru <? c).
Proof.
  intros -> Hd. unfold timer_is_before. rewrite <- s32_u32, u32_sub_l, u32_sub_r, s32_u32.
  rewrite s32_small by lia. destruct (Z.ltb_spec (Tru - c) 0), (Z.ltb_spec Tru c); lia.
Qed.

Hypothesis Hfreq : 0 <= CONFIG_CLOCK_FREQ < 2 ^ 32.
Hypothesis Hrun : clock_runs.
Hypothesis Hcb : callbacks_ok (λ _ _, True).

Lemma ticks_small us : 0 <= us <= 1000 → 0 <= timer_from_us us < 2 ^ 23.
Proof.
  intros Hus. unfold timer_from_us.
  assert (0 <= CONFIG_CLOCK_FREQ / 1000000 <= 4294) by (Z.div_mod_to_equations; lia).
  rewrite u32_small by nia. nia.
Qed.

Lemma wp_timer_dispatch_loop polls : ∀ fuel b s U tru Tru,
  TIMER_MIN_TRY_TICKS <= Z.of_nat polls →
  sched_inv b s U → busy s → stands_for (clock s) tru Tru →
  Tru - clock s + 1 < Z.of_nat fuel → (1 <= fuel)%nat →
  wp (timer_dispatch_loop polls fuel tru) handled (λ _ _, True) s.
Proof.
  pose proof (ticks_small 2 ltac:(lia)) as Hmin. fold TIMER_MIN_TRY_TICKS in Hmin.
  induction fuel as [|fuel IH]; intros b s U tru Tru Hpolls Hinv Hb [Htru HT] Hfuel H1; [lia|].
  cbn [timer_dispatch_loop]. apply wp_bind. eapply wp_mono; [by eapply wp_dispatch_clock| |done].
  intros next s1 ((b1 & U1 & Hinv1) & Hnext & Hb1 & Hc1 & Hru1). specialize (Hb1 Hb).
  unfold timer_read_time. wp_steps. set (s2 := s1 <| reads ::= S |>).
  pose proof (Hrun (reads s1)) as Hstep. fold (clock s1) in Hstep.
  assert (Hinv2 : sched_inv b1 s2 U1) by (by apply (sched_inv_clock b1 s1)).
  assert (Hc2 : clock s1 < clock s2 <= clock s1 + 2 ^ 20) by (unfold s2, clock in *; simpl; lia).
  change (hw_time (reads s1)) with (clock s1). set (N := clock s1) in *.
  set (diff := s32 (next - u32 N)).
  assert (Hdiff : - 2 ^ 31 <= diff < 2 ^ 31) by apply s32_range.
  assert (Hw : u32 next = u32 (N + diff)).
  { unfold diff. rewrite <- (u32_add_r N (s32 _)), u32_s32, u32_add_r.
    replace (N + (next - u32 N)) with (next + N - u32 N) by lia. rewrite u32_sub_r. f_equal. lia. }
  rewrite (s32_small TIMER_MIN_TRY_TICKS) by lia.
  destruct (Z.ltb_spec TIMER_MIN_TRY_TICKS diff) as [Hfar|Hnear].
  { wp_steps. split; [by eauto|]. exists N. split; [lia|]. left. rewrite u32_small by lia.
    split; [lia|]. transitivity (u32 next); [by rewrite Hnext|done]. }
  rewrite (timer_is_before_absolute tru Tru) by (done || lia).
  destruct (Z.ltb_spec Tru N) as [Hlate|Hearly].
  - (* the time for timers is over: the waiting tasks are next *)
    apply wp_bind, (wp_mono _ (λ _ s3, ∃ b3 U3, sched_inv b3 s3 U3 ∧ busy s3 ∧ N < clock s3) _
      (λ _ _, True)); [|clear s2 Hinv2 Hc2|done].
    { apply wp_when; intros _.
      - apply wp_try_shutdown; [done|]. intros _. exists b1, U1.
        destruct (sched_frame_sent "%s: try_shutdown %s" [A_str "Rescheduled timer in the past"] s2)
          as (Ht & Hs & Hf). split_and!.
        + by apply (sched_inv_clock b1 s2).
        + unfold busy. by rewrite <- Hs.
        + unfold clock, sent. destruct (in_sendf _); apply Hc2.
      - exists b1, U1. split_and!; [done|done|lia]. }
    intros [] s3 (b3 & U3 & Hinv3 & Hb3 & Hc3). unfold sched_tasks_busy. wp_steps.
    unfold busy in Hb3. rewrite (proj2 (Z.leb_le _ _) Hb3). unfold set_repeat_until. wp_steps.
    split; [exists b3, U3; by apply (sched_inv_clock b3 s3)|].
    exists N. split; [done|]. right. split_and!; [done|done|]. simpl. by rewrite u32_add_l.
  - (* wait for the next timer *)
    unfold irq_enable, irq_disable. wp_steps.
    replace diff with (N + diff - N) by lia.
    apply wp_wait_ready; [done|done|lia|unfold clock in *; simpl in *; lia|lia|].
    intros r Hr Hlo Hhi. unfold clock in Hlo, Hhi. simpl in Hlo, Hhi. wp_steps.
    set (s3 := _ <| irq := false |>).
    assert (Hc3 : clock s3 = hw_time r) by done.
    apply (IH b1 _ U1 tru Tru); [done|by apply (sched_inv_clock b1 s2)|done| |lia|lia].
    split; [done|]. lia.
Qed.


End TimerIrq.

(** Callbacks of the timers that are in the list at power on. *)
Definition example_event (t : timer_id) : M Z :=
  let b := example_board in
  if decide (t = T_periodic) then periodic_event t else deleted_event t.

Definition event_frame (s s' : mcu) : Prop := (busy s → busy s') ∧ same_clock s s'.
#[local] Instance event_frame_preorder : PreOrder event_frame.
Proof. split; [done|]. intros x y z [? [? ?]] [? [? ?]]. split; [auto|split; congruence]. Qed.

Lemma example_event_frame t : keeps event_frame (example_event t).
Proof.
  unfold example_event, periodic_event, deleted_event, sched_wake_tasks, set_waketime,
    Sched.update_timer, read_timer.
  keeps_tac; done.
Qed.

Lemma example_callbacks :
  let b := example_board in callbacks_ok example_event (λ _, example_event) (λ _ _, True).
Proof.
  intros B b s U t n R Hinv -> Hn. pose proof (sched_inv_running _ _ _ _ Hinv) as Hr.
  assert (Hev : wp (example_event t) (callback_post (wk s.(timers) t) t) (λ _ _, True) s).
  { unfold example_event. destruct (decide (t = T_periodic)) as [->|Hne].
    - eapply wp_mono; [by apply (periodic_event_ok s R)|done|done].
    - apply wp_ret. exists R. split; [done|by left]. }
  apply (wp_keeps event_frame) in Hev; [|apply example_event_frame].
  unfold invoke. assert (Heq : (if CONFIG_INLINE_STEPPER_HACK && bool_decide (func n = F_null)
    then example_event t else example_event t) = example_event t) by (by destruct (_ && _)).
  rewrite Heq. eapply wp_mono; [exact Hev| |done].
  intros res s1 (Hp & Hb & Hreads & Htru). unfold clock. rewrite Hreads. split_and!; [done|done|lia..|done].
Qed.

