(* ===== verification/Objects.v ===== *)
(** * The invariant of the firmware's objects

    What every object of the memory pool satisfies in every state the firmware
    can reach: its buffers have their declared lengths and its counters stay
    inside them ([obj_ok]).  [Safe m Φ] says that [m] keeps this invariant however
    it ends and that the value it returns satisfies [Φ]; the instances of this
    class cover the routines of the firmware. *)

From S2P Require Import Prelude.
From S2P Require Import State.
From S2P Require Import Machine.
From S2P Require Import Sched.
From S2P Require Import Basecmd.
From S2P Require Import Stepper.
From S2P Require Import Trsync.
From S2P Require Import Endstop.
From S2P Require Import Command.
From S2P Require Import Serial.
From S2P Require Import Hal.
From S2P Require Import Devices.
From S2P Require Import LoadCell.
From S2P Require Import Tmcuart.
From S2P Require Import Bus.
From S2P Require Import Power.
From S2P Require Import Sensors.
From S2P Require Import TimerIrq.

(** ** The invariant *)

(** A bulk buffer with room for a sample of [n] bytes. *)
Definition bulk_ok (n : Z) (sb : sensor_bulk) : Prop :=
  length sb.(sb_data) = 51%nat ∧ 0 <= sb.(sb_data_count) ∧ sb.(sb_data_count) + n <= 51.

Definition matrix_ok (rows cols : nat) (m : list (list Z)) : Prop :=
  length m = rows ∧ Forall (λ row, length row = cols) m.

Definition filter_ok (sf : sos_filter) : Prop :=
  matrix_ok 6 5 sf.(sf_filter) ∧ matrix_ok 6 2 sf.(sf_filter_state)
  ∧ sf.(sf_n_sections) <= MAX_SECTIONS.

(** A load cell end stop never both waits for the start of a homing move and
    homes. *)
Definition endstop_ok (l : load_cell_endstop) : Prop :=
  Z.testbit l.(lc_flags) 0 && Z.testbit l.(lc_flags) 3 = false.

Definition buttons_ok (b : buttons) : Prop :=
  length b.(b_reports) = 8%nat ∧ 0 <= b.(b_report_count) <= 8
  ∧ Z.of_nat (length b.(b_pins)) = b.(b_button_count) ∧ b.(b_button_count) <= 8.

Definition tmcuart_ok (t : tmcuart_s) : Prop :=
  length t.(tu_data) = 10%nat ∧ t.(tu_write_count) <= 80 ∧ t.(tu_read_count) <= 80.

Definition pins_ok (e : shutdown_pins) : Prop :=
  length e.(sp_pin) = 64%nat ∧ length e.(sp_value) = 64%nat ∧ 0 <= e.(sp_pin_count) <= 64.

Definition obj_ok (o : obj) : Prop :=
  match o with
  | O_sos_filter sf => filter_ok sf
  | O_load_cell_endstop l => endstop_ok l
  | O_buttons b => buttons_ok b
  | O_tmcuart_s t => tmcuart_ok t
  | O_shutdown_pins e => pins_ok e
  | O_thermocouple_spi c => 0 <= c.(tc_chip_type) <= TS_CHIP_MAX6675
  | O_cs123x_adc c => bulk_ok 4 c.(cs_sb)
  | O_hx71x_adc h => bulk_ok 4 h.(hx_sb) ∧ 0 <= h.(hx_gain_channel) <= 4
  | O_ads1220_adc a => bulk_ok 4 a.(ads_sb)
  | O_adxl345 a => bulk_ok 5 a.(ax_sb)
  | O_lis2dw a => bulk_ok 6 a.(lis_sb)
  | _ => True
  end.

Definition objs_ok (s : mcu) : Prop := map_Forall (λ _, obj_ok) s.(objs).

(** ** The logic *)

Class Safe {A} (m : M A) (Φ : A → Prop) : Prop :=
  safe : ∀ s, objs_ok s → objs_ok (m s).2 ∧ ∀ a, (m s).1 = Ret a → Φ a.
Notation Safe' m := (Safe m (λ _, True)).

Section logic.
Context {A B : Type}.
Implicit Types (m : M A) (Φ : A → Prop) (Ψ : B → Prop).

Lemma safe_mono m Φ Φ' : Safe m Φ → (∀ a, Φ a → Φ' a) → Safe m Φ'.
Proof. intros Hm Hi s Hs. destruct (Hm s Hs). split; auto. Qed.

Lemma safe_drop m Φ : Safe m Φ → Safe' m.
Proof. intros Hm. by eapply safe_mono. Qed.

Lemma safe_bind m (f : A → M B) Φ Ψ :
  Safe m Φ → (∀ a, Φ a → Safe (f a) Ψ) → Safe (m ≫= f) Ψ.
Proof.
  intros Hm Hf s Hs. unfold mbind, M_bind. destruct (Hm s Hs) as [Hs' HΦ].
  destruct (m s) as [[a|r|e] s']; simpl in *; [|by split..].
  exact (Hf a (HΦ a eq_refl) s' Hs').
Qed.

Lemma safe_ret (a : A) Φ : Φ a → Safe (mret a) Φ.
Proof. intros Ha s Hs. split; [done|]. by intros ? [= <-]. Qed.

Lemma safe_pure (a : A) : Safe' (mret a).
Proof. by apply safe_ret. Qed.

Lemma safe_raise r Φ : Safe (raise r) Φ.
Proof. by intros s Hs. Qed.

Lemma safe_stuck e Φ : Safe (stuck e) Φ.
Proof. by intros s Hs. Qed.

Lemma safe_gets (f : mcu → A) : Safe' (gets f).
Proof. by intros s Hs. Qed.

Lemma safe_some e (o : option A) : Safe (of_option e o) (λ a, o = Some a).
Proof. destruct o; [by apply safe_ret|apply safe_stuck]. Qed.

(** A routine that leaves the objects alone. *)
Definition same_objs (s s' : mcu) : Prop := s'.(objs) = s.(objs).

Lemma safe_frame m : keeps same_objs m → Safe' m.
Proof. intros Hm s Hs. split; [|done]. unfold objs_ok. by rewrite (Hm s). Qed.
End logic.

#[export] Instance same_objs_preorder : PreOrder same_objs.
Proof. split; [done|]. intros ???. unfold same_objs. congruence. Qed.

Lemma safe_modify f : (∀ s, objs (f s) = objs s) → Safe' (modify f).
Proof. intros Hf. apply safe_frame, keeps_modify, Hf. Qed.

Lemma safe_when b m : Safe' m → Safe' (when b m).
Proof. intros Hm. destruct b; [done|by apply safe_ret]. Qed.

Section objects.
Context {A : Type} `{!ObjType A}.

Definition fine (a : A) : Prop := obj_ok (obj_inj a).

Lemma safe_read_obj p : Safe (read_obj (A := A) p) fine.
Proof.
  intros s Hs. unfold read_obj, mbind, M_bind, gets, of_option.
  destruct (s.(objs) !! p) as [o|] eqn:Ho; [|exact (safe_stuck _ _ s Hs)].
  cbn [mret M_ret]. destruct (obj_prj o) as [a|] eqn:Ha; [|exact (safe_stuck _ _ s Hs)].
  split; [done|].
  intros ? [= <-]. unfold fine. rewrite <- (obj_prj_some _ _ Ha). by apply (Hs p).
Qed.

Lemma read_obj_at p (a : A) s : obj_at s p a → read_obj p s = (Ret a, s).
Proof.
  intros Ha. unfold read_obj, mbind, M_bind, gets. rewrite Ha. cbn.
  by rewrite obj_prj_inj.
Qed.

Lemma safe_write_obj p (a : A) : fine a → Safe' (write_obj p a).
Proof.
  intros Ha s Hs. split; [|done]. unfold objs_ok. simpl. by apply map_Forall_insert_2.
Qed.
End objects.

(** What is known of the routines that are called. *)
Create HintDb safe discriminated.
#[export] Hint Constants Opaque : safe.
#[export] Hint Resolve safe_read_obj safe_some safe_pure : safe.

(** The obligations left by the structure of a routine: facts about values. *)
Ltac show_obj :=
  unfold fine in *;
  cbn [obj_inj obj_ok sos_filter_obj load_cell_endstop_obj buttons_obj tmcuart_s_obj
       shutdown_pins_obj thermocouple_spi_obj cs123x_adc_obj hx71x_adc_obj
       ads1220_adc_obj adxl345_obj lis2dw_obj] in *.
Ltac safe_side := try exact I; show_obj; try eassumption.

Ltac safe_unfold m :=
  lazymatch m with
  | ?f _ => safe_unfold f
  | _ => unfold m
  end.

(** Calls that need an argument of their own. *)
Ltac safe_call := fail.

(** Follow the structure of a routine; a call is closed by the instance of the
    callee, or by unfolding it. *)
Ltac safe_tac :=
  lazymatch goal with
  | |- Safe (let _ := _ in _) _ => cbv zeta; safe_tac
  | |- Safe (_ ≫= _) _ =>
      eapply safe_bind;
      [first [typeclasses eauto 2 with safe | eapply (safe_mono _ (λ _, True)); [safe_tac|intros ? _; exact I]]
      |intros; cbv beta in *; safe_tac]
  | |- Safe (if ?b then _ else _) _ => destruct b eqn:?; safe_tac
  | |- Safe (match ?x with _ => _ end) _ => destruct x eqn:?; safe_tac
  | |- Safe (when _ _) _ => apply safe_when; safe_tac
  | |- Safe (mret _) _ => apply safe_ret; safe_side
  | |- Safe (raise _) _ => apply safe_raise
  | |- Safe (stuck _) _ => apply safe_stuck
  | |- Safe (gets _) _ => apply safe_gets
  | |- Safe (modify _) _ => apply safe_modify; reflexivity
  | |- Safe (write_obj _ _) _ => apply safe_write_obj; safe_side
  | |- Safe ?m _ =>
      first [solve [typeclasses eauto 2 with safe]
            |solve [eapply safe_drop; typeclasses eauto 2 with safe]
            |safe_call; safe_tac
            |safe_unfold m; safe_tac]
  | |- _ => idtac
  end.

Ltac safe_start := lazymatch goal with |- Safe ?m _ => safe_unfold m; safe_tac end.

(** ** The machine, the scheduler and the memory pool *)

Lemma safe_sendf fmt args : Safe' (sendf fmt args).
Proof. safe_start. Qed.
Lemma safe_output fmt args : Safe' (output fmt args).
Proof. safe_start. Qed.
#[export] Hint Resolve safe_sendf safe_output : safe.

Lemma safe_shutdown {A} msg (Φ : A → Prop) : Safe (shutdown msg) Φ.
Proof. safe_start. Qed.
Lemma safe_try_shutdown msg : Safe' (try_shutdown msg).
Proof. safe_start. Qed.
Lemma safe_sched_del_timer t : Safe' (sched_del_timer t).
Proof. safe_start. Qed.
Lemma safe_sched_check_wake w : Safe' (sched_check_wake w).
Proof. safe_start. Qed.
#[export] Hint Resolve safe_shutdown safe_try_shutdown safe_sched_del_timer
  safe_sched_check_wake : safe.

Lemma safe_sched_add_timer `{Board} t : Safe' (sched_add_timer t).
Proof. safe_start. Qed.
Lemma safe_sched_timer_reset : Safe' sched_timer_reset.
Proof. safe_start. Qed.
Lemma safe_sched_timer_requeue t res : Safe' (sched_timer_requeue t res).
Proof. safe_start. Qed.
Lemma safe_alloc_chunk `{Board} size : Safe' (alloc_chunk size).
Proof. safe_start. Qed.
Lemma safe_oid_lookup oid ty : Safe' (oid_lookup oid ty).
Proof. safe_start. Qed.
Lemma safe_move_reset_loop k i ml sz : Safe' (move_reset_loop k i ml sz).
Proof. revert i. induction k as [|k IH]; intros i; cbn [move_reset_loop]; safe_tac. Qed.
#[export] Hint Resolve safe_sched_add_timer safe_sched_timer_reset safe_sched_timer_requeue
  safe_alloc_chunk safe_oid_lookup safe_move_reset_loop : safe.

Lemma safe_oid_alloc `{Board} oid ty size : Safe' (oid_alloc oid ty size).
Proof. safe_start. Qed.
Lemma safe_move_finalize `{Board} : Safe' move_finalize.
Proof. safe_start. Qed.
#[export] Hint Resolve safe_oid_alloc safe_move_finalize : safe.

Lemma safe_foreach ty body : (∀ i p, Safe' (body i p)) → Safe' (foreach_oid ty body).
Proof.
  intros Hb. unfold foreach_oid. generalize (u8 (-1)), 256%nat. intros i k. revert i.
  induction k as [|k IH]; intros i; cbn [foreach_oid_loop]; safe_tac.
Qed.
Ltac safe_call ::=
  lazymatch goal with |- Safe (foreach_oid _ _) _ => apply safe_foreach; intros end.
