(* ===== verification/Firmware.v ===== *)
(** * The firmware as a whole

    The commands, tasks, timer callbacks and shutdown handlers the sources
    declare (DECL_COMMAND, DECL_TASK, DECL_SHUTDOWN and the functions stored in
    [struct timer]), and the steps the micro-controller takes: the timer
    interrupt, the serial interrupts, and the functions the task loop of sched.c
    calls under its [setjmp].  The tables that the build generates from the
    declarations are parameters: their entries are declarations, in an order the
    build chooses. *)

From S2P Require Import Prelude.
From S2P Require Import State.
From S2P Require Import Machine.
From S2P Require Import Sched.
From S2P Require Import Basecmd.
From S2P Require Import Stepper.
From S2P Require Import Trsync.
From S2P Require Import Endstop.
From S2P Require Import Command.
From S2P Require Import Serial.
From S2P Require Import Hal.
From S2P Require Import Devices.
From S2P Require Import LoadCell.
From S2P Require Import Tmcuart.
From S2P Require Import Bus.
From S2P Require Import Power.
From S2P Require Import Sensors.
From S2P Require Import TimerIrq.

(** A use of DECL_COMMAND or DECL_COMMAND_FLAGS. *)
Record declaration := DECL_COMMAND_FLAGS {
  dc_func : list Z → M unit;
  dc_flags : Z;
  dc_msg : string;
}.
Definition DECL_COMMAND (func : list Z → M unit) (msg : string) : declaration :=
  DECL_COMMAND_FLAGS func 0 msg.

Section Firmware.
Context `{Board}.

(** The data dictionary that the build stores for the host, and how often a
    routine may poll the clock. *)
Context (command_identify_data : list Z) (polls : nat).

Definition basecmd_commands : list declaration := [
  DECL_COMMAND command_allocate_oids "allocate_oids count=%c";
  DECL_COMMAND_FLAGS command_get_config HF_IN_SHUTDOWN "get_config";
  DECL_COMMAND command_finalize_config "finalize_config crc=%u";
  DECL_COMMAND_FLAGS command_get_clock HF_IN_SHUTDOWN "get_clock";
  DECL_COMMAND_FLAGS command_get_uptime HF_IN_SHUTDOWN "get_uptime";
  DECL_COMMAND_FLAGS command_emergency_stop HF_IN_SHUTDOWN "emergency_stop";
  DECL_COMMAND_FLAGS command_clear_shutdown HF_IN_SHUTDOWN "clear_shutdown";
  DECL_COMMAND_FLAGS (command_identify command_identify_data) HF_IN_SHUTDOWN
    "identify offset=%u count=%c"
].

Definition motion_commands : list declaration := [
  DECL_COMMAND command_config_stepper
    "config_stepper oid=%c step_pin=%c dir_pin=%c invert_step=%c step_pulse_ticks=%u";
  DECL_COMMAND command_queue_step "queue_step oid=%c interval=%u count=%hu add=%hi";
  DECL_COMMAND command_set_next_step_dir "set_next_step_dir oid=%c dir=%c";
  DECL_COMMAND command_reset_step_clock "reset_step_clock oid=%c clock=%u";
  DECL_COMMAND command_stepper_get_position "stepper_get_position oid=%c";
  DECL_COMMAND command_stepper_stop_on_trigger "stepper_stop_on_trigger oid=%c trsync_oid=%c";
  DECL_COMMAND command_config_trsync "config_trsync oid=%c";
  DECL_COMMAND command_trsync_start
    "trsync_start oid=%c report_clock=%u report_ticks=%u expire_reason=%c";
  DECL_COMMAND command_trsync_set_timeout "trsync_set_timeout oid=%c clock=%u";
  DECL_COMMAND command_trsync_trigger "trsync_trigger oid=%c reason=%c";
  DECL_COMMAND command_config_endstop "config_endstop oid=%c pin=%c pull_up=%c";
  DECL_COMMAND command_endstop_home
    "endstop_home oid=%c clock=%u sample_ticks=%u sample_count=%c rest_ticks=%u pin_value=%c trsync_oid=%c trigger_reason=%c";
  DECL_COMMAND command_endstop_query_state "endstop_query_state oid=%c"
].

Definition device_commands : list declaration := [
  DECL_COMMAND command_config_analog_in "config_analog_in oid=%c pin=%u";
  DECL_COMMAND command_query_analog_in
    "query_analog_in oid=%c clock=%u sample_ticks=%u sample_count=%c rest_ticks=%u min_value=%hu max_value=%hu range_check_count=%c";
  DECL_COMMAND command_config_digital_out
    "config_digital_out oid=%c pin=%u value=%c default_value=%c max_duration=%u";
  DECL_COMMAND command_set_digital_out_pwm_cycle
    "set_digital_out_pwm_cycle oid=%c cycle_ticks=%u";
  DECL_COMMAND command_queue_digital_out "queue_digital_out oid=%c clock=%u on_ticks=%u";
  DECL_COMMAND command_update_digital_out "update_digital_out oid=%c value=%c";
  DECL_COMMAND command_set_digital_out "set_digital_out pin=%u value=%c";
  DECL_COMMAND command_config_pwm_out
    "config_pwm_out oid=%c pin=%u cycle_ticks=%u value=%hu default_value=%hu max_duration=%u";
  DECL_COMMAND command_queue_pwm_out "queue_pwm_out oid=%c clock=%u value=%hu";
  DECL_COMMAND command_set_pwm_out "set_pwm_out pin=%u cycle_ticks=%u value=%hu";
  DECL_COMMAND command_config_counter "config_counter oid=%c pin=%u pull_up=%c";
  DECL_COMMAND command_query_counter
    "query_counter oid=%c clock=%u poll_ticks=%u sample_ticks=%u";
  DECL_COMMAND command_config_buttons "config_buttons oid=%c button_count=%c";
  DECL_COMMAND command_buttons_add "buttons_add oid=%c pos=%c pin=%u pull_up=%c";
  DECL_COMMAND command_buttons_query
    "buttons_query oid=%c clock=%u rest_ticks=%u retransmit_count=%c invert=%c";
  DECL_COMMAND command_buttons_ack "buttons_ack oid=%c count=%c";
  DECL_COMMAND command_config_tmcuart
    "config_tmcuart oid=%c rx_pin=%u pull_up=%c tx_pin=%u bit_time=%u";
  DECL_COMMAND command_tmcuart_send "tmcuart_send oid=%c write=%*s read=%c";
  DECL_COMMAND config_shutdown_pins "config_shutdown_pins oid=%c";
  DECL_COMMAND command_shutdown_pins_add "shutdown_pins_add oid=%c pin=%c value=%c";
  DECL_COMMAND command_shutdown_pins_set "shutdown_pins_set oid=%c";
  DECL_COMMAND command_config_por
    "config_por oid=%c shutdown_pins_oid=%c pin=%c pull_up=%c pin_value=%c sample_ticks=%u sample_count=%c rest_ticks=%u"
].

Definition bus_commands : list declaration := [
  DECL_COMMAND command_config_spi "config_spi oid=%c pin=%u cs_active_high=%c";
  DECL_COMMAND command_config_spi_without_cs "config_spi_without_cs oid=%c";
  DECL_COMMAND command_spi_set_bus "spi_set_bus oid=%c spi_bus=%u mode=%u rate=%u";
  DECL_COMMAND command_spi_transfer "spi_transfer oid=%c data=%*s";
  DECL_COMMAND command_spi_send "spi_send oid=%c data=%*s";
  DECL_COMMAND command_config_spi_shutdown
    "config_spi_shutdown oid=%c spi_oid=%c shutdown_msg=%*s";
  DECL_COMMAND command_spi_set_software_bus
    "spi_set_software_bus oid=%c miso_pin=%u mosi_pin=%u sclk_pin=%u mode=%u rate=%u";
  DECL_COMMAND command_config_i2c "config_i2c oid=%c";
  DECL_COMMAND command_i2c_set_bus "i2c_set_bus oid=%c i2c_bus=%u rate=%u address=%u";
  DECL_COMMAND (command_i2c_write polls) "i2c_write oid=%c data=%*s";
  DECL_COMMAND (command_i2c_read polls) "i2c_read oid=%c reg=%*s read_len=%u";
  DECL_COMMAND (command_i2c_modify_bits polls)
    "i2c_modify_bits oid=%c reg=%*s clear_set_bits=%*s";
  DECL_COMMAND command_i2c_set_software_bus
    "i2c_set_software_bus oid=%c scl_pin=%u sda_pin=%u rate=%u address=%u";
  DECL_COMMAND command_config_neopixel
    "config_neopixel oid=%c pin=%u data_size=%hu bit_max_ticks=%u reset_min_ticks=%u";
  DECL_COMMAND command_neopixel_update "neopixel_update oid=%c pos=%hu data=%*s";
  DECL_COMMAND (command_neopixel_send polls) "neopixel_send oid=%c"
].

Definition sensor_commands : list declaration := [
  DECL_COMMAND command_config_sos_filter "config_sos_filter oid=%c";
  DECL_COMMAND command_config_filter_section
    "config_sos_filter_section oid=%c n_sections=%c section_idx=%c sos0=%i sos1=%i sos2=%i sos3=%i sos4=%i";
  DECL_COMMAND command_config_load_cell_endstop
    "config_load_cell_endstop oid=%c sos_filter_oid=%c";
  DECL_COMMAND command_config_load_cell_endstop_with_pin
    "config_load_cell_endstop_with_pin oid=%c sos_filter_oid=%c pin=%u";
  DECL_COMMAND command_set_range_load_cell_endstop
    "set_range_load_cell_endstop oid=%c safety_counts_min=%i safety_counts_max=%i tare_counts=%i trigger_grams=%u grams_per_count=%i";
  DECL_COMMAND command_load_cell_endstop_home
    "load_cell_endstop_home oid=%c trsync_oid=%c trigger_reason=%c error_reason=%c clock=%u sample_count=%c rest_ticks=%u timeout=%u";
  DECL_COMMAND command_load_cell_endstop_query_state "load_cell_endstop_query_state oid=%c";
  DECL_COMMAND command_config_thermocouple
    "config_thermocouple oid=%c spi_oid=%c thermocouple_type=%c";
  DECL_COMMAND command_query_thermocouple
    "query_thermocouple oid=%c clock=%u rest_ticks=%u min_value=%u max_value=%u max_invalid_count=%c";
  DECL_COMMAND command_config_cs123x "config_cs123x oid=%c dout_pin=%u sclk_pin=%u";
  DECL_COMMAND (command_cs123x_write irq_poll polls) "cs123x_write oid=%c config=%c";
  DECL_COMMAND (command_cs123x_read irq_poll polls) "cs123x_read oid=%c";
  DECL_COMMAND command_attach_endstop_cs123x
    "attach_endstop_cs123x oid=%c load_cell_endstop_oid=%c";
  DECL_COMMAND command_query_cs123x "query_cs123x oid=%c rest_ticks=%u";
  DECL_COMMAND command_query_cs123x_status "query_cs123x_status oid=%c";
  DECL_COMMAND command_config_hx71x
    "config_hx71x oid=%c gain_channel=%c dout_pin=%u sclk_pin=%u";
  DECL_COMMAND command_attach_endstop_hx71x
    "attach_endstop_hx71x oid=%c load_cell_endstop_oid=%c";
  DECL_COMMAND command_query_hx71x "query_hx71x oid=%c rest_ticks=%u";
  DECL_COMMAND command_query_hx71x_status "query_hx71x_status oid=%c";
  DECL_COMMAND command_config_ads1220 "config_ads1220 oid=%c spi_oid=%c data_ready_pin=%u";
  DECL_COMMAND command_query_ads1220 "query_ads1220 oid=%c rest_ticks=%u";
  DECL_COMMAND command_query_ads1220_status "query_ads1220_status oid=%c";
  DECL_COMMAND command_config_adxl345 "config_adxl345 oid=%c spi_oid=%c";
  DECL_COMMAND command_query_adxl345 "query_adxl345 oid=%c rest_ticks=%u";
  DECL_COMMAND command_query_adxl345_status "query_adxl345_status oid=%c";
  DECL_COMMAND command_config_lis2dw "config_lis2dw oid=%c spi_oid=%c";
  DECL_COMMAND command_query_lis2dw "query_lis2dw oid=%c rest_ticks=%u";
  DECL_COMMAND command_query_lis2dw_status "query_lis2dw_status oid=%c"
].

Definition declarations : list declaration :=
  basecmd_commands ++ motion_commands ++ device_commands ++ bus_commands ++ sensor_commands.

(** The tasks other than [console_task]. *)
Definition tasks : list (M unit) := [
  timer_task; trsync_task; analog_in_task; counter_task; buttons_task; tmcuart_task;
  thermocouple_task; cs123x_capture_task irq_poll polls; hx71x_capture_task irq_poll polls;
  ads1220_capture_task; adxl345_task; lis2dw_task
].

Definition shutdown_handlers : list (M unit) := [
  move_reset; stepper_shutdown; trsync_shutdown; analog_in_shutdown; digital_out_shutdown;
  pwm_shutdown; tmcuart_shutdown; spidev_shutdown; sendf_shutdown; timer_reset
].

(** The function a [struct timer] points to, called with the timer; a callback
    of an object finds it with [container_of]. *)
Definition timer_call (f : timer_func) (t : timer_id) : M Z :=
  match f, t with
  | F_periodic_event, _ => periodic_event t
  | F_sentinel_event, _ => sentinel_event t
  | F_deleted_event, _ => deleted_event t
  | F_timer_wrap_event, _ => timer_wrap_event t
  | F_stepper_event_full, T_obj p _ => stepper_event_full p
  | F_trsync_report_event, T_obj p _ => trsync_report_event p
  | F_trsync_expire_event, T_obj p _ => trsync_expire_event p
  | F_endstop_event, T_obj p _ => endstop_event p
  | F_endstop_oversample_event, T_obj p _ => endstop_oversample_event p
  | F_analog_in_event, T_obj p _ => analog_in_event p
  | F_digital_toggle_event, T_obj p _ => digital_toggle_event p
  | F_digital_load_event, T_obj p _ => digital_load_event p
  | F_pwm_event, T_obj p _ => pwm_event p
  | F_pwm_end_event, T_obj p _ => pwm_end_event p
  | F_counter_event, T_obj p _ => counter_event p
  | F_buttons_event, T_obj p _ => buttons_event p
  | F_watchdog_event, T_obj p _ => watchdog_event p
  | F_tmcuart_read_event, T_obj p _ => tmcuart_read_event p
  | F_tmcuart_read_sync_event, T_obj p _ => tmcuart_read_sync_event p
  | F_tmcuart_send_finish_event, T_obj p _ => tmcuart_send_finish_event p
  | F_tmcuart_send_event, T_obj p _ => tmcuart_send_event p
  | F_tmcuart_send_sync_event, T_obj p _ => tmcuart_send_sync_event p
  | F_por_event, T_obj p _ => por_event p
  | F_por_oversample_event, T_obj p _ => por_oversample_event p
  | F_thermocouple_event, T_obj p _ => thermocouple_event p
  | F_cs123x_event, T_obj p _ => cs123x_event p
  | F_hx71x_event, T_obj p _ => hx71x_event p
  | F_ads1220_event, T_obj p _ => ads1220_event p
  | F_adxl345_event, T_obj p _ => adxl345_event p
  | F_lis2dw_event, T_obj p _ => lis2dw_event p
  | _, _ => stuck Null_deref
  end.

(** [stepper_event], inlined for the timers without a function. *)
Definition inline_stepper_event (t : timer_id) : M Z :=
  match t with T_obj p _ => stepper_event p | _ => stuck Null_deref end.

(** ** The steps of the micro-controller *)

(** Functions called one after the other, as the generated [ctr_run_taskfuncs]
    and [ctr_run_shutdownfuncs] do. *)
Fixpoint run_all (fs : list (M unit)) : M unit :=
  match fs with [] => mret tt | f :: fs => f;; run_all fs end.

(** What the build generates from the declarations. *)
Record built (index : list command_parser) (shutdownfuncs : list (M unit)) : Prop := {
  built_index : Forall (λ cp, ∃ d, d ∈ declarations ∧ cp.(cp_func) = d.(dc_func)
                               ∧ cp.(cp_flags) = d.(dc_flags)) index;
  built_shutdown : Forall (.∈ shutdown_handlers) shutdownfuncs;
}.

(** One activity of the micro-controller: an interrupt, or a function of the task
    loop, whose shutdown continues in [run_shutdown]. *)
Inductive activity (index : list command_parser) (shutdownfuncs : list (M unit)) : M unit → Prop :=
| run_systick fuel :
    activity index shutdownfuncs
      (with_shutdown_handler (run_all shutdownfuncs)
         (SysTick_Handler inline_stepper_event timer_call polls fuel))
| run_serial_rx bs : activity index shutdownfuncs (serial_rx_bytes bs)
| run_serial_tx k : activity index shutdownfuncs (serial_tx_irqs k)
| run_console irqs :
    activity index shutdownfuncs
      (with_shutdown_handler (run_all shutdownfuncs) (console_task index irqs))
| run_task t :
    t ∈ tasks →
    activity index shutdownfuncs (with_shutdown_handler (run_all shutdownfuncs) t)
| run_stats start cur : activity index shutdownfuncs (stats_update start cur).

(** The states after [alloc_init] and any number of activities. *)
Inductive reachable (index : list command_parser) (shutdownfuncs : list (M unit)) : mcu → Prop :=
| reachable_init : reachable index shutdownfuncs (alloc_init init_mcu).2
| reachable_step s m :
    reachable index shutdownfuncs s → activity index shutdownfuncs m →
    reachable index shutdownfuncs (m s).2.

End Firmware.
