(* ===== verification/FirmwareSpec.v ===== *)
(** * What holds in every reachable state of the firmware

    Every activity of the micro-controller keeps the invariant of the objects, so
    it holds in every reachable state; the consequences are that the buffers of
    the sensors, filters, buttons and pins are never accessed out of bounds, and
    that the watchdog of a load cell end stop never acts. *)

From S2P Require Import Prelude.
From S2P Require Import Vlq.
From S2P Require Import State.
From S2P Require Import Machine.
From S2P Require Import Sched.
From S2P Require Import Basecmd.
From S2P Require Import Stepper.
From S2P Require Import Trsync.
From S2P Require Import Endstop.
From S2P Require Import Command.
From S2P Require Import CommandSpec.
From S2P Require Import Serial.
From S2P Require Import Hal.
From S2P Require Import Devices.
From S2P Require Import LoadCell.
From S2P Require Import Tmcuart.
From S2P Require Import Bus.
From S2P Require Import Power.
From S2P Require Import Sensors.
From S2P Require Import TimerIrq.
From S2P Require Import Objects.
From S2P Require Import Firmware.

(** ** Loops *)

Lemma safe_free_moves fuel p : Safe' (free_moves fuel p).
Proof. induction fuel as [|fuel IH]; cbn [free_moves]; safe_tac. Qed.
Lemma safe_clear_signals fuel t : Safe' (clear_signals fuel t).
Proof. revert t. induction fuel as [|fuel IH]; intros; cbn [clear_signals]; safe_tac. Qed.
Lemma safe_read_buttons `{Board} pins bit status : Safe' (read_buttons pins bit status).
Proof. revert bit status. induction pins as [|? ? IH]; intros; cbn [read_buttons]; safe_tac. Qed.
Lemma safe_find_toggle fuel data wc bt ls pos next :
  Safe' (find_toggle fuel data wc bt ls pos next).
Proof. revert pos next. induction fuel as [|fuel IH]; intros; cbn [find_toggle]; safe_tac. Qed.
Lemma safe_set_pins_loop `{Board} k e i : Safe' (set_pins_loop k e i).
Proof. revert i. induction k as [|k IH]; intros; cbn [set_pins_loop]; safe_tac. Qed.
#[export] Hint Resolve safe_free_moves safe_clear_signals safe_read_buttons safe_find_toggle
  safe_set_pins_loop : safe.

Lemma safe_stepper_stop `{Board} p reason : Safe' (stepper_stop p reason).
Proof. safe_start. Qed.
Lemma safe_stepper_load_next `{Board} p : Safe' (stepper_load_next p).
Proof. safe_start. Qed.
#[export] Hint Resolve safe_stepper_stop safe_stepper_load_next : safe.

Lemma safe_dispatch_signals `{Board} fuel p reason :
  Safe' (dispatch_signals run_signal fuel p reason).
Proof. induction fuel as [|fuel IH]; cbn [dispatch_signals]; safe_tac. Qed.
#[export] Hint Resolve safe_dispatch_signals : safe.
Lemma safe_trsync_do_trigger `{Board} p reason : Safe' (trsync_do_trigger p reason).
Proof. safe_start. Qed.
#[export] Hint Resolve safe_trsync_do_trigger : safe.

(** The software buses, the delays and the led protocol. *)
Lemma safe_spi_software_bits `{Board} k ss out inb : Safe' (spi_software_bits k ss out inb).
Proof. revert out inb. induction k as [|k IH]; intros; cbn [spi_software_bits]; safe_tac. Qed.
Lemma safe_i2c_delay_loop `{Board} fuel t : Safe' (i2c_delay_loop fuel t).
Proof. induction fuel as [|fuel IH]; cbn [i2c_delay_loop]; safe_tac. Qed.
Lemma safe_neopixel_delay `{Board} fuel start ticks : Safe' (neopixel_delay fuel start ticks).
Proof. induction fuel as [|fuel IH]; cbn [neopixel_delay]; safe_tac. Qed.
Lemma safe_reset_wait `{Board} fuel lrt rmt cur : Safe' (reset_wait fuel lrt rmt cur).
Proof. revert cur. induction fuel as [|fuel IH]; intros; cbn [reset_wait]; safe_tac. Qed.
#[export] Hint Resolve safe_spi_software_bits safe_i2c_delay_loop safe_neopixel_delay
  safe_reset_wait : safe.

Lemma safe_i2c_delay `{Board} fuel ticks : Safe' (i2c_delay fuel ticks).
Proof. safe_start. Qed.
Lemma safe_send_bit `{Board} fuel pin bmt ls one : Safe' (send_bit fuel pin bmt ls one).
Proof. safe_start. Qed.
#[export] Hint Resolve safe_i2c_delay safe_send_bit : safe.
Lemma safe_i2c_send_bits `{Board} k fuel sw b : Safe' (i2c_send_bits k fuel sw b).
Proof. revert b. induction k as [|k IH]; intros; cbn [i2c_send_bits]; safe_tac. Qed.
Lemma safe_i2c_read_bits `{Board} k fuel sw b : Safe' (i2c_read_bits k fuel sw b).
Proof. revert b. induction k as [|k IH]; intros; cbn [i2c_read_bits]; safe_tac. Qed.
Lemma safe_send_bits `{Board} k fuel pin bmt ls byte : Safe' (send_bits k fuel pin bmt ls byte).
Proof. revert ls byte. induction k as [|k IH]; intros; cbn [send_bits]; safe_tac. Qed.
#[export] Hint Resolve safe_i2c_send_bits safe_i2c_read_bits safe_send_bits : safe.
Lemma safe_i2c_send_bytes `{Board} fuel sw bs : Safe' (i2c_send_bytes fuel sw bs).
Proof. induction bs as [|b bs IH]; cbn [i2c_send_bytes]; safe_tac. Qed.
Lemma safe_i2c_read_bytes `{Board} k fuel sw : Safe' (i2c_read_bytes k fuel sw).
Proof. induction k as [|k IH]; cbn [i2c_read_bytes]; safe_tac. Qed.
Lemma safe_send_bytes `{Board} fuel pin bmt ls data : Safe' (send_bytes fuel pin bmt ls data).
Proof. revert ls. induction data as [|b data IH]; intros; cbn [send_bytes]; safe_tac. Qed.
#[export] Hint Resolve safe_i2c_send_bytes safe_i2c_read_bytes safe_send_bytes : safe.

(** A transfer returns as many bytes as it sends. *)
Lemma safe_spi_transfer `{Board} config data :
  Safe (spi_transfer config data) (λ r, length r = length data).
Proof.
  induction data as [|b data IH]; cbn [spi_transfer]; safe_tac; cbn; congruence.
Qed.
Lemma safe_spi_software_transfer `{Board} ss rd data :
  Safe (spi_software_transfer ss rd data) (λ r, length r = length data).
Proof.
  induction data as [|b data IH]; cbn [spi_software_transfer]; safe_tac; cbn; congruence.
Qed.
#[export] Hint Resolve safe_spi_transfer safe_spi_software_transfer : safe.

Lemma safe_spidev_transfer `{Board} p rd data :
  Safe (spidev_transfer p rd data) (λ r, length r = length data).
Proof.
  unfold spidev_transfer. eapply safe_bind; [apply safe_read_obj|]. intros spi _. cbv zeta.
  destruct (negb _); [by apply safe_ret|].
  eapply safe_bind; [instantiate (1 := λ _, True); safe_tac|]. intros [] _.
  eapply safe_bind; [instantiate (1 := λ _, True); safe_tac|]. intros [] _.
  eapply (safe_bind _ _ (λ r, length r = length data)).
  - destruct (_ && _); safe_tac. by destruct rd.
  - intros r Hr. safe_tac.
Qed.
#[export] Hint Resolve safe_spidev_transfer : safe.

(** ** Bulk buffers *)

Lemma safe_sensor_bulk_report sb oid n :
  length sb.(sb_data) = 51%nat → n <= 51 → Safe (sensor_bulk_report sb oid) (bulk_ok n).
Proof. intros Hl Hn. safe_start. split; [done|]. cbn. lia. Qed.

Lemma bulk_store_ok sb bytes :
  bulk_ok (Z.of_nat (length bytes)) sb →
  bulk_store bytes sb = mret (sb <| sb_data ::= λ d, take (Z.to_nat sb.(sb_data_count)) d ++ bytes
                                   ++ drop (Z.to_nat sb.(sb_data_count) + length bytes) d |>
                                 <| sb_data_count ::= λ c, c + Z.of_nat (length bytes) |>).
Proof.
  intros (Hl & H0 & Hc). unfold bulk_store. cbv zeta. destruct (_ <? _)%nat eqn:E.
  - apply Nat.ltb_lt in E. lia.
  - assert (u8 (sb.(sb_data_count) + Z.of_nat (length bytes))
            = sb.(sb_data_count) + Z.of_nat (length bytes)) as Hu by (apply u8_small; lia).
    destruct sb as [a b c d]. cbn in *. unfold set_field; cbn. by rewrite Hu.
Qed.

(** A buffer with room for a sample has room for the next one afterwards. *)
Lemma safe_bulk_add bytes force oid sb :
  bulk_ok (Z.of_nat (length bytes)) sb →
  Safe (bulk_add bytes force oid sb) (bulk_ok (Z.of_nat (length bytes))).
Proof.
  intros Hok. unfold bulk_add. rewrite bulk_store_ok by done. destruct Hok as (Hl & H0 & Hc).
  lazymatch goal with |- Safe (mbind ?f (mret ?a)) ?Φ => change (Safe (f a) Φ) end. cbv beta.
  assert (length (take (Z.to_nat sb.(sb_data_count)) sb.(sb_data) ++ bytes
    ++ drop (Z.to_nat sb.(sb_data_count) + length bytes) sb.(sb_data)) = 51%nat) as Hlen.
  { rewrite !length_app, length_take, length_drop. lia. }
  destruct (_ || _) eqn:E.
  - apply safe_sensor_bulk_report; [exact Hlen|lia].
  - apply safe_ret. apply orb_false_iff in E as [E%Z.ltb_ge _]. split; [exact Hlen|].
    cbn in *. lia.
Qed.

(** ** The load cell sensors *)

Lemma safe_delay_until `{Board} fuel poll t : Safe' poll → Safe' (delay_until fuel poll t).
Proof. intros Hp. induction fuel as [|fuel IH]; cbn [delay_until]; safe_tac. Qed.
#[export] Hint Resolve safe_delay_until : safe.

Section polling.
Context `{Board} (poll : M unit) (Hpoll : Safe' poll) (polls : nat).

Lemma safe_cs123x_delay_noirq : Safe' (cs123x_delay_noirq polls).
Proof. safe_start. Qed.
Lemma safe_cs123x_delay : Safe' (cs123x_delay poll polls).
Proof. safe_start. Qed.
Lemma safe_hx71x_delay_noirq : Safe' (hx71x_delay_noirq polls).
Proof. safe_start. Qed.
Lemma safe_hx71x_delay : Safe' (hx71x_delay poll polls).
Proof. safe_start. Qed.
Hint Resolve safe_cs123x_delay_noirq safe_cs123x_delay safe_hx71x_delay_noirq
  safe_hx71x_delay : safe.

Lemma safe_generate_clk k sclk : Safe' (cs1237x_generate_clk poll polls k sclk).
Proof. induction k as [|k IH]; cbn [cs1237x_generate_clk]; safe_tac. Qed.
Lemma safe_cs123x_read_bits k dout sclk v : Safe' (cs123x_read_bits poll polls k dout sclk v).
Proof. revert v. induction k as [|k IH]; intros; cbn [cs123x_read_bits]; safe_tac. Qed.
Lemma safe_cs123x_write_bits k din sclk mask v :
  Safe' (cs123x_write_bits poll polls k din sclk mask v).
Proof. revert v. induction k as [|k IH]; intros; cbn [cs123x_write_bits]; safe_tac. Qed.
Lemma safe_cs123x_wait_ready fuel dout t : Safe' (cs123x_wait_ready fuel dout t).
Proof. induction fuel as [|fuel IH]; cbn [cs123x_wait_ready]; safe_tac. Qed.
Lemma safe_hx71x_raw_read k dout sclk v : Safe' (hx71x_raw_read poll polls k dout sclk v).
Proof. revert v. induction k as [|k IH]; intros; cbn [hx71x_raw_read]; safe_tac. Qed.
Hint Resolve safe_generate_clk safe_cs123x_read_bits safe_cs123x_write_bits
  safe_cs123x_wait_ready safe_hx71x_raw_read : safe.

Lemma safe_cs123x_raw_read dout sclk : Safe' (cs123x_raw_read poll polls dout sclk).
Proof. safe_start. Qed.
Lemma safe_cs123x_config dout din sclk cmd val :
  Safe' (cs123x_config poll polls dout din sclk cmd val).
Proof. safe_start. Qed.
End polling.

(** ** Filters and load cell end stops *)

Lemma matrix_ok_set2 rows cols m i j v : matrix_ok rows cols m → matrix_ok rows cols (set2 m i j v).
Proof.
  intros [Hr Hc]. unfold set2. split; [by rewrite length_alter|].
  apply Forall_lookup_2. intros k row Hk. rewrite Forall_lookup in Hc.
  rewrite list_lookup_alter in Hk. case_decide; [|by eapply Hc].
  apply fmap_Some in Hk as (row' & Hk & ->). rewrite length_insert. by eapply Hc.
Qed.

Lemma matrix_ok_zero rows cols : matrix_ok rows cols (repeat (repeat 0 cols) rows).
Proof.
  split; [apply repeat_length|]. apply Forall_forall. intros row Hrow.
  apply list_elem_of_In, repeat_spec in Hrow as ->. apply repeat_length.
Qed.

Lemma matrix_ok_insert rows cols m i row :
  matrix_ok rows cols m → length row = cols → matrix_ok rows cols (<[i := row]> m).
Proof.
  intros [Hr Hc] Hrow. split; [by rewrite length_insert|]. by apply Forall_insert.
Qed.

Lemma filter_ok_state sf f :
  filter_ok sf → (∀ st, matrix_ok 6 2 st → matrix_ok 6 2 (f st)) →
  filter_ok (sf <| sf_filter_state ::= f |>).
Proof. intros (Hf & Hs & Hn) Hm. split; [done|]. split; [by apply Hm|done]. Qed.

Lemma set_flag_bit m l k :
  Z.testbit (set_flag m l).(lc_flags) k = Z.testbit l.(lc_flags) k || Z.testbit m k.
Proof. apply Z.lor_spec. Qed.

Lemma clear_flag_bit m l k :
  0 <= k < 8 →
  Z.testbit (clear_flag m l).(lc_flags) k = Z.testbit l.(lc_flags) k && negb (Z.testbit m k).
Proof.
  intros Hk. change (lc_flags (clear_flag m l)) with (Z.land l.(lc_flags) (Z.lnot m) mod 2 ^ 8).
  by rewrite Z.mod_pow2_bits_low, Z.land_spec, Z.lnot_spec by lia.
Qed.

Lemma endstop_ok_set l k :
  k = 1 ∨ k = 2 → endstop_ok l → endstop_ok (set_flag (Z.shiftl 1 k) l).
Proof.
  intros Hk. unfold endstop_ok. rewrite !set_flag_bit.
  by destruct Hk as [-> | ->]; rewrite !orb_false_r.
Qed.

Lemma endstop_ok_clear l m : endstop_ok l → endstop_ok (clear_flag m l).
Proof.
  unfold endstop_ok. rewrite !clear_flag_bit by lia.
  by destruct (Z.testbit _ 0), (Z.testbit _ 3), (Z.testbit m 0), (Z.testbit m 3).
Qed.

Lemma endstop_ok_start l :
  endstop_ok (set_flag FLAG_IS_HOMING (clear_flag FLAG_IS_AWAIT_HOMING l)).
Proof.
  unfold endstop_ok. rewrite !set_flag_bit, !clear_flag_bit by lia.
  by rewrite !andb_false_r.
Qed.

Create HintDb obj_ok discriminated.
#[export] Hint Resolve matrix_ok_set2 matrix_ok_zero filter_ok_state endstop_ok_set endstop_ok_clear endstop_ok_start : obj_ok.
#[export] Hint Extern 1 (endstop_ok (set_flag FLAG_IS_TRIGGERED _)) =>
  apply (endstop_ok_set _ 1); [by left|] : obj_ok.
#[export] Hint Extern 1 (endstop_ok (set_flag FLAG_IS_HOMING_TRIGGER _)) =>
  apply (endstop_ok_set _ 2); [by right|] : obj_ok.
Ltac safe_side ::=
  try exact I; show_obj; try eassumption; try solve [eauto 4 with obj_ok].

Lemma safe_fixed_mul coeff value : Safe' (fixed_mul coeff value).
Proof. safe_start. Qed.
#[export] Hint Resolve safe_fixed_mul : safe.

Lemma safe_sosfilt_section p i v : Safe' (sosfilt_section p i v).
Proof. safe_start. Qed.
#[export] Hint Resolve safe_sosfilt_section : safe.
Lemma safe_sosfilt_loop k p i v : Safe' (sosfilt_loop k p i v).
Proof. revert i v. induction k as [|k IH]; intros; cbn [sosfilt_loop]; safe_tac. Qed.
#[export] Hint Resolve safe_sosfilt_loop : safe.
Lemma safe_sosfilt p v : Safe' (sosfilt p v).
Proof. safe_start. Qed.
Lemma safe_reset_filter_state p : Safe' (reset_filter_state p).
Proof. safe_start. Qed.
Lemma safe_reset_filter p n : Safe' (reset_filter p n).
Proof.
  safe_start. match goal with H : filter_ok _ |- _ => destruct H as (Hf & Hs & _) end.
  split; [done|]. split; [done|]. cbn. lia.
Qed.
#[export] Hint Resolve safe_sosfilt safe_reset_filter_state safe_reset_filter : safe.
Lemma safe_config_sos_filter `{Board} args : Safe' (command_config_sos_filter args).
Proof.
  safe_start. split; [apply (matrix_ok_zero 6 5)|]. split; [apply (matrix_ok_zero 6 2)|done].
Qed.
Lemma safe_config_filter_section args : Safe' (command_config_filter_section args).
Proof.
  safe_start. match goal with H : filter_ok _ |- _ => destruct H as (Hf & Hs & Hn) end.
  split; [by apply matrix_ok_insert|done].
Qed.
#[export] Hint Resolve safe_config_sos_filter safe_config_filter_section : safe.

Lemma safe_lce_signal `{Board} lce reason : Safe' (lce_signal lce reason).
Proof. safe_start. Qed.
#[export] Hint Resolve safe_lce_signal : safe.
Lemma safe_try_trigger `{Board} p : Safe' (try_trigger p).
Proof. safe_start. Qed.
Lemma safe_try_trigger_error `{Board} p : Safe' (try_trigger_error p).
Proof. safe_start. Qed.
#[export] Hint Resolve safe_try_trigger safe_try_trigger_error : safe.
Lemma safe_lce_count `{Board} p sample ticks h t ht : Safe' (lce_count p sample ticks h t ht).
Proof. safe_start; try apply endstop_ok_clear; by case_match. Qed.
Lemma safe_lce_detect `{Board} p sample : Safe' (lce_detect p sample).
Proof. safe_start. Qed.
#[export] Hint Resolve safe_lce_count safe_lce_detect : safe.
Lemma safe_report_sample `{Board} p sample ticks :
  Safe' (load_cell_endstop_report_sample p sample ticks).
Proof. safe_start; (case_match; [exact (endstop_ok_start _)|done]). Qed.
Lemma safe_watchdog_event `{Board} p : Safe' (watchdog_event p).
Proof. safe_start. Qed.
#[export] Hint Resolve safe_report_sample safe_watchdog_event : safe.
Lemma safe_set_endstop_range p a b c d e : Safe' (set_endstop_range p a b c d e).
Proof. safe_start. Qed.
#[export] Hint Resolve safe_set_endstop_range : safe.
Lemma safe_config_load_cell_endstop `{Board} args : Safe' (command_config_load_cell_endstop args).
Proof. by safe_start. Qed.
#[export] Hint Resolve safe_config_load_cell_endstop : safe.

(** While a homing move is prepared the flag FLAG_IS_HOMING stays clear. *)
Definition not_homing (p : Z) (s : mcu) : Prop :=
  objs_ok s ∧ ∃ l, obj_at s p l ∧ Z.testbit l.(lc_flags) 0 = false.
Definition stays_not_homing (p : Z) (s s' : mcu) : Prop := not_homing p s → not_homing p s'.
#[export] Instance stays_preorder p : PreOrder (stays_not_homing p).
Proof. split; [by intros ??|]. intros ??? H1 H2 ?. by apply H2, H1. Qed.

Lemma not_homing_bind {A B} p (m : M A) (f : A → M B) s :
  keeps (stays_not_homing p) m → not_homing p s →
  (∀ a s', not_homing p s' → objs_ok (f a s').2) → objs_ok ((m ≫= f) s).2.
Proof.
  intros Hm Hs Hf. specialize (Hm s Hs). unfold mbind, M_bind.
  destruct (m s) as [[a|r|e] s']; [by apply Hf|apply Hm..].
Qed.

Lemma frame_not_homing {A} p (m : M A) : keeps same_objs m → keeps (stays_not_homing p) m.
Proof.
  intros Hm s (Hok & l & Hl & Hb). specialize (Hm s). unfold same_objs in Hm.
  split; [unfold objs_ok; by rewrite Hm|]. exists l. unfold obj_at. by rewrite Hm.
Qed.

Lemma update_not_homing p f :
  (∀ l, Z.testbit (f l).(lc_flags) 0 = Z.testbit l.(lc_flags) 0) →
  keeps (stays_not_homing p) (update_obj p f).
Proof.
  intros Hf s (Hok & l & Hl & Hb). unfold update_obj, mbind, M_bind.
  rewrite (read_obj_at p l s Hl). split.
  - apply map_Forall_insert_2; [|done]. show_obj. unfold endstop_ok. by rewrite Hf, Hb.
  - exists (f l). split; [apply obj_at_write|]. by rewrite Hf.
Qed.

Lemma filter_not_homing p sf : keeps (stays_not_homing p) (reset_filter_state sf).
Proof.
  intros s (Hok & l & Hl & Hb). split; [by apply safe_reset_filter_state|].
  exists l. split; [|done]. unfold reset_filter_state, update_obj, read_obj, mbind, M_bind, gets.
  destruct (s.(objs) !! sf) as [o|] eqn:Ho; [|done].
  destruct o; try exact Hl. cbn. unfold obj_at. cbn. rewrite lookup_insert_ne; [done|].
  intros ->. unfold obj_at in Hl. by rewrite Ho in Hl.
Qed.

Lemma clear_not_homing p g s :
  objs_ok s → (∀ l, Z.testbit (g l).(lc_flags) 0 = false) →
  match update_obj p g s with (Ret _, s') => not_homing p s' | (_, s') => objs_ok s' end.
Proof.
  intros Hok Hg. unfold update_obj, mbind, M_bind.
  destruct (safe_read_obj (A := load_cell_endstop) p s Hok) as [Hs Hl].
  destruct (read_obj p s) as [[l|r|e] s']; [|done..]. split.
  - apply map_Forall_insert_2; [|done]. show_obj. unfold endstop_ok. by rewrite Hg.
  - exists (g l). split; [apply obj_at_write|done].
Qed.

(** Close the frame of a routine, unfolding the calls. *)
Ltac frame_unfold m := lazymatch m with ?f _ => frame_unfold f | _ => unfold m end.
Ltac frame_objs :=
  try apply frame_not_homing;
  repeat (keeps_tac; try reflexivity;
          lazymatch goal with |- keeps _ ?m => frame_unfold m end).

Lemma await_ok p s : not_homing p s → objs_ok (update_obj p (set_flag FLAG_IS_AWAIT_HOMING) s).2.
Proof.
  intros (Hok & l & Hl & Hb). unfold update_obj, mbind, M_bind. rewrite (read_obj_at p l s Hl).
  apply map_Forall_insert_2; [|done]. show_obj. unfold endstop_ok.
  by rewrite !set_flag_bit, Hb.
Qed.

Lemma safe_home `{Board} args : Safe' (command_load_cell_endstop_home args).
Proof.
  unfold command_load_cell_endstop_home.
  do 8 (destruct args as [|? args]; [apply safe_stuck|]). destruct args; [|apply safe_stuck].
  apply (safe_bind _ _ (λ _, True)); [safe_tac|]. intros p _.
  apply (safe_bind _ _ (λ _, True)); [safe_tac|]. intros [] _ s Hs. split; [|done].
  unfold mbind at 1, M_bind at 1. set (g := λ l, _ <| lc_error := _ |>).
  assert (∀ l, Z.testbit (g l).(lc_flags) 0 = false) as Hg.
  { intros l. change (lc_flags (g l)) with (lc_flags (clear_flag FLAG_IS_AWAIT_HOMING
      (clear_flag FLAG_IS_HOMING (clear_flag FLAG_IS_HOMING_TRIGGER l)))).
    rewrite !clear_flag_bit by lia. by rewrite andb_false_r. }
  pose proof (clear_not_homing p g s Hs Hg) as Hc.
  destruct (update_obj p g s) as [[[]|r|e] s1]; [|exact Hc..].
  destruct (_ =? 0); [apply Hc|].
  eapply not_homing_bind; [frame_objs|exact Hc|]. intros lce s2 H2.
  eapply not_homing_bind; [|exact H2|].
  { apply keeps_when; [apply _|]. apply keeps_bind; [apply _|frame_objs|]. intros ts.
    by apply update_not_homing. }
  intros _ s3 H3. eapply not_homing_bind; [frame_objs|exact H3|]. intros _ s4 H4.
  eapply not_homing_bind; [by apply update_not_homing|exact H4|]. intros _ s5 H5.
  eapply not_homing_bind; [frame_objs|exact H5|]. intros l s6 H6.
  eapply not_homing_bind; [frame_objs|exact H6|]. intros sf s7 H7.
  eapply not_homing_bind; [apply filter_not_homing|exact H7|]. intros _ s8 H8.
  eapply not_homing_bind; [frame_objs|exact H8|]. intros _ s9 H9.
  eapply not_homing_bind; [frame_objs|exact H9|]. intros _ s10 H10.
  by apply await_ok.
Qed.
#[export] Hint Resolve safe_home : safe.

(** ** Sensors *)

Lemma bulk_ok_reset n sb : bulk_ok n sb → n <= 51 → bulk_ok n (sensor_bulk_reset sb).
Proof. intros (Hl & _) Hn. split; [exact Hl|]. cbn. lia. Qed.

Lemma bulk_ok_new n : n <= 51 → bulk_ok n new_sensor_bulk.
Proof. intros Hn. split; [done|]. cbn. lia. Qed.
#[export] Hint Extern 1 (bulk_ok _ (cs_sb _)) => apply bulk_ok_new; lia : obj_ok.
#[export] Hint Extern 1 (bulk_ok _ (ads_sb _)) => apply bulk_ok_new; lia : obj_ok.
#[export] Hint Extern 1 (bulk_ok _ (ax_sb _)) => apply bulk_ok_new; lia : obj_ok.
#[export] Hint Extern 1 (bulk_ok _ (lis_sb _)) => apply bulk_ok_new; lia : obj_ok.

Lemma safe_irq_poll : Safe' irq_poll.
Proof. safe_start. Qed.
#[export] Hint Resolve safe_irq_poll safe_cs123x_config : safe.

Lemma safe_cs123x_add_sample p oid counts force : Safe' (cs123x_add_sample p oid counts force).
Proof.
  unfold cs123x_add_sample. eapply safe_bind; [apply safe_read_obj|]. intros cs Hcs.
  eapply safe_bind; [by apply (safe_bulk_add (sample_bytes counts))|]. intros sb Hsb. safe_tac.
Qed.
Lemma safe_hx71x_add_sample p oid counts force : Safe' (hx71x_add_sample p oid counts force).
Proof.
  unfold hx71x_add_sample. eapply safe_bind; [apply safe_read_obj|]. intros hx [Hhx Hg].
  eapply safe_bind; [by apply (safe_bulk_add (sample_bytes counts))|]. intros sb Hsb. safe_tac.
Qed.
Lemma safe_ads1220_add_sample p oid counts : Safe' (ads1220_add_sample p oid counts).
Proof.
  unfold ads1220_add_sample. eapply safe_bind; [apply safe_read_obj|]. intros ads Hads.
  eapply safe_bind; [by apply (safe_bulk_add (sample_bytes counts))|]. intros sb Hsb. safe_tac.
Qed.
#[export] Hint Resolve safe_cs123x_add_sample safe_hx71x_add_sample safe_ads1220_add_sample : safe.

Lemma safe_cs123x_read_adc `{Board} poll polls p oid :
  Safe' poll → Safe' (cs123x_read_adc poll polls p oid).
Proof.
  intros Hp. assert (Hr := λ dout sclk, safe_cs123x_raw_read poll Hp polls dout sclk). safe_start.
Qed.
Lemma safe_hx71x_read_adc `{Board} poll polls p oid :
  Safe' poll → Safe' (hx71x_read_adc poll polls p oid).
Proof.
  intros Hp. assert (Hr := λ k dout sclk v, safe_hx71x_raw_read poll Hp polls k dout sclk v).
  safe_start.
Qed.
#[export] Hint Resolve safe_cs123x_read_adc safe_hx71x_read_adc : safe.

Lemma adxl_decode_length msg d fifo : adxl_decode msg = Some (d, fifo) → length d = 5%nat.
Proof.
  intros Hd. do 9 (destruct msg as [|? msg]; [done|]). destruct msg; [|done].
  cbn [adxl_decode] in Hd. by case_match; injection Hd as <- <-.
Qed.

Lemma safe_adxl_query `{Board} p oid : Safe' (adxl_query p oid).
Proof.
  unfold adxl_query. eapply safe_bind; [apply safe_read_obj|]. intros ax _.
  eapply safe_bind; [apply safe_spidev_transfer|]. intros msg _.
  eapply safe_bind; [apply safe_some|]. intros [d fifo] Hd%adxl_decode_length.
  eapply safe_bind; [apply safe_read_obj|]. intros ax' Hax.
  eapply safe_bind; [apply (safe_bulk_add d); by rewrite Hd|]. intros sb Hsb. rewrite Hd in Hsb.
  safe_tac.
Qed.

Lemma safe_lis2dw_query `{Board} p oid : Safe' (lis2dw_query p oid).
Proof.
  unfold lis2dw_query. eapply safe_bind; [apply safe_read_obj|]. intros ax _.
  eapply safe_bind; [apply safe_spidev_transfer|]. intros msg Hmsg.
  eapply safe_bind; [apply safe_spidev_transfer|]. intros fifo _.
  eapply safe_bind; [apply safe_some|]. intros f1 _. cbv zeta.
  eapply safe_bind; [apply safe_read_obj|]. intros ax' Hax.
  assert (length (drop 1 msg) = 6%nat) as Hd by (by rewrite length_drop, Hmsg).
  eapply safe_bind; [apply (safe_bulk_add (drop 1 msg)); by rewrite Hd|]. intros sb Hsb.
  rewrite Hd in Hsb. safe_tac.
Qed.
#[export] Hint Resolve safe_adxl_query safe_lis2dw_query : safe.

(** ** Buttons, motor drivers, pins, leds and thermocouples *)

Lemma debounce_ok b status : buttons_ok b → buttons_ok (debounce b status).1.
Proof.
  intros (Hr & Hc & Hp & Hb). unfold debounce. cbv zeta.
  destruct (_ && _); [|done]. destruct (_ <? 8) eqn:E; [|done].
  apply Z.ltb_lt in E. cbn in *. repeat split; cbn; rewrite ?length_insert; try done; lia.
Qed.

Lemma safe_buttons_event `{Board} p : Safe' (buttons_event p).
Proof.
  unfold buttons_event. eapply safe_bind; [apply safe_read_obj|]. intros b Hb.
  eapply safe_bind; [apply safe_read_buttons|]. intros status _.
  pose proof (debounce_ok b status Hb) as Hd. destruct (debounce b status) as [b' report].
  eapply safe_bind; [instantiate (1 := λ _, True); safe_tac|]. intros _ _. cbv zeta.
  eapply (safe_bind _ _ buttons_ok).
  - destruct (negb _); [|by apply safe_ret].
    eapply safe_bind; [instantiate (1 := λ _, True); safe_tac|]. intros _ _. by apply safe_ret.
  - intros b'' Hb''. safe_tac.
Qed.

Lemma shift_reports_length k i count rs rs' :
  shift_reports k i count rs = Some rs' → length rs' = length rs.
Proof.
  revert i rs. induction k as [|k IH]; intros i rs; cbn [shift_reports]; [by intros [= ->]|].
  intros (r & _ & Hs)%bind_Some. by rewrite (IH _ _ Hs), length_insert.
Qed.

(** Objects whose invariant is a conjunction of lengths and bounds. *)
Ltac obj_fields :=
  repeat match goal with
  | H : buttons_ok _ |- _ => destruct H as (? & ? & ? & ?)
  | H : tmcuart_ok _ |- _ => destruct H as (? & ? & ?)
  | H : pins_ok _ |- _ => destruct H as (? & ? & ?)
  end;
  repeat split; cbn; rewrite ?length_insert, ?repeat_length; try done; try lia.

Lemma safe_buttons_ack args : Safe' (command_buttons_ack args).
Proof.
  safe_start; obj_fields.
  - erewrite shift_reports_length; eauto.
  - pose proof (u8_range z0). lia.
Qed.
Lemma safe_config_buttons `{Board} args : Safe' (command_config_buttons args).
Proof. safe_start. pose proof (u8_range z0). obj_fields. Qed.
Lemma safe_buttons_add `{Board} args : Safe' (command_buttons_add args).
Proof. safe_start; obj_fields. Qed.
Lemma safe_buttons_query `{Board} args : Safe' (command_buttons_query args).
Proof. safe_start; obj_fields. Qed.
#[export] Hint Resolve safe_buttons_event safe_buttons_ack safe_config_buttons safe_buttons_add
  safe_buttons_query : safe.

Lemma safe_tmcuart_finalize p : Safe' (tmcuart_finalize p).
Proof. safe_start; obj_fields. Qed.
#[export] Hint Resolve safe_tmcuart_finalize : safe.
Lemma safe_tmcuart_read_event `{Board} p : Safe' (tmcuart_read_event p).
Proof. safe_start; obj_fields. Qed.
Lemma safe_tmcuart_sync_wait p : Safe' (tmcuart_sync_wait p).
Proof. safe_start; obj_fields. Qed.
#[export] Hint Resolve safe_tmcuart_read_event safe_tmcuart_sync_wait : safe.
Lemma safe_read_buffer `{Board} ptr len :
  Safe (read_buffer ptr len) (λ bs, length bs = Z.to_nat len).
Proof.
  safe_start. rewrite length_take, length_drop.
  match goal with H : (_ && _) = true |- _ => apply andb_true_iff in H as [?%Z.leb_le ?%Z.leb_le] end.
  lia.
Qed.
#[export] Hint Resolve safe_read_buffer : safe.
Lemma safe_tmcuart_send `{Board} args : Safe' (command_tmcuart_send args).
Proof.
  safe_start; pose proof (u8_range z0); pose proof (u8_range z2);
    (assert (u8 z0 <= 10 ∧ u8 z2 <= 10) as [? ?] by lia); obj_fields;
    first [rewrite length_app, length_drop; lia | rewrite u8_small; lia].
Qed.
Lemma safe_shutdown_pins_add args : Safe' (command_shutdown_pins_add args).
Proof.
  safe_start; unfold SHUTDOWN_PINS_MAX in *. obj_fields; rewrite u8_small; lia.
Qed.
Lemma safe_config_thermocouple `{Board} args : Safe' (command_config_thermocouple args).
Proof.
  safe_start; [done|]. pose proof (u8_range z1). cbn. lia.
Qed.
#[export] Hint Resolve safe_tmcuart_send safe_shutdown_pins_add safe_config_thermocouple : safe.

(** ** The tables *)

Section tables.
Context `{Board} (command_identify_data : list Z) (polls : nat).

Definition safe_commands (ds : list declaration) : Prop :=
  Forall (λ d, ∀ args, Safe' (d.(dc_func) args)) ds.

Ltac table :=
  repeat (apply Forall_cons; split; [intros args; cbn [dc_func DECL_COMMAND]; safe_tac|]);
  try apply Forall_nil_2.

Lemma safe_basecmd : safe_commands (basecmd_commands command_identify_data).
Proof. table. Qed.
Lemma safe_motion : safe_commands motion_commands.
Proof. table. Qed.
Lemma safe_device : safe_commands device_commands.
Proof. table; obj_fields. Qed.
Lemma safe_bus : safe_commands (bus_commands polls).
Proof. table. Qed.
Lemma safe_sensor : safe_commands (sensor_commands polls).
Proof.
  table;
    repeat match goal with
    | H : bulk_ok _ _ ∧ _ |- _ => destruct H
    | |- bulk_ok _ _ ∧ _ => split
    | |- _ <= u8 ?x <= _ => pose proof (u8_range x); lia
    | H : bulk_ok ?n ?sb |- bulk_ok ?n _ =>
        first [exact H | exact (bulk_ok_reset n _ H ltac:(lia)) | clear H]
    | |- bulk_ok _ (hx_sb _) => by apply bulk_ok_new
    end; pose proof (u8_range z0); cbn in *; lia.
Qed.

Lemma safe_declarations : safe_commands (declarations command_identify_data polls).
Proof.
  unfold declarations, safe_commands. rewrite !Forall_app.
  exact (conj safe_basecmd (conj safe_motion (conj safe_device (conj safe_bus safe_sensor)))).
Qed.

Lemma safe_tasks : Forall (λ t, Safe' t) (tasks polls).
Proof. repeat (apply Forall_cons; split; [safe_tac|]). by apply Forall_nil_2. Qed.

Lemma safe_shutdown_handlers : Forall (λ t, Safe' t) shutdown_handlers.
Proof.
  repeat (apply Forall_cons; split; [safe_tac; obj_fields|]). by apply Forall_nil_2.
Qed.

Lemma safe_timer_call f t : Safe' (timer_call f t).
Proof. unfold timer_call. safe_tac; obj_fields. Qed.

Lemma safe_inline_stepper_event t : Safe' (inline_stepper_event t).
Proof. safe_start. Qed.
End tables.

(** ** Interrupts and the console *)

Lemma safe_serial_rx_bytes bs : Safe' (serial_rx_bytes bs).
Proof. induction bs as [|b bs IH]; cbn [serial_rx_bytes]; safe_tac. Qed.
Lemma safe_serial_tx_irqs k : Safe' (serial_tx_irqs k).
Proof. induction k as [|k IH]; cbn [serial_tx_irqs]; safe_tac. Qed.
#[export] Hint Resolve safe_serial_rx_bytes safe_serial_tx_irqs : safe.
Lemma safe_pop_input_loop irqs len copied : Safe' (pop_input_loop irqs len copied).
Proof. revert copied. induction irqs as [|x irqs IH]; intros; cbn [pop_input_loop]; safe_tac. Qed.
#[export] Hint Resolve safe_pop_input_loop : safe.
Lemma safe_parsef_loop `{Board} buf maxend n types args p :
  Safe' (parsef_loop buf maxend n types args p).
Proof.
  revert args p. induction types as [|t types IH]; intros; cbn [parsef_loop]; safe_tac.
Qed.
#[export] Hint Resolve safe_parsef_loop : safe.

Lemma safe_dispatch_loop `{Board} index fuel buf msgend p :
  Forall (λ cp, ∀ args, Safe' (cp.(cp_func) args)) index →
  Safe' (dispatch_loop fuel index buf msgend p).
Proof.
  intros Hi. revert p. induction fuel as [|fuel IH]; intros; cbn [dispatch_loop]; [safe_tac|].
  destruct (_ <? _); [|safe_tac]. apply (safe_bind _ _ (λ _, True)); [|by intros].
  unfold dispatch_one. apply (safe_bind _ _ (λ _, True)); [safe_tac|]. intros [id q] _.
  apply (safe_bind _ _ (λ cp, ∀ args, Safe' (cp.(cp_func) args))).
  { unfold command_lookup_parser. destruct (_ || _); [apply safe_shutdown|].
    eapply safe_mono; [apply safe_some|]. intros cp Hcp.
    exact (Forall_lookup_1 _ _ _ _ Hi Hcp). }
  intros cp Hcp. safe_tac.
Qed.

Section activities.
Context `{Board} (command_identify_data : list Z) (polls : nat).
Context (index : list command_parser) (shutdownfuncs : list (M unit)).
Context (Hbuilt : built command_identify_data polls index shutdownfuncs).

Lemma safe_run_all fs : Forall (λ t, Safe' t) fs → Safe' (run_all fs).
Proof. induction 1 as [|f fs Hf Hfs IH]; cbn [run_all]; safe_tac. Qed.

Lemma safe_shutdownfuncs : Safe' (run_all shutdownfuncs).
Proof.
  apply safe_run_all. eapply Forall_impl; [apply Hbuilt|]. cbn. intros f Hf.
  by eapply Forall_forall in Hf; [|apply safe_shutdown_handlers].
Qed.

Lemma safe_index : Forall (λ cp, ∀ args, Safe' (cp.(cp_func) args)) index.
Proof.
  eapply Forall_impl; [apply Hbuilt|]. intros cp (d & Hd & Hf & _) args. rewrite Hf.
  eapply Forall_forall in Hd; [|apply safe_declarations]. apply Hd.
Qed.

Lemma safe_guarded m : Safe' m → Safe' (with_shutdown_handler (run_all shutdownfuncs) m).
Proof.
  intros Hm s Hs. unfold with_shutdown_handler. specialize (Hm s Hs) as [Hm _].
  destruct (m s) as [[a|r|e] s']; [by split| |by split].
  assert (Hsd := safe_shutdownfuncs).
  assert (Safe' (run_shutdown (run_all shutdownfuncs) r)) as Hr by safe_start.
  by apply Hr.
Qed.

Lemma safe_dispatch_many fuel :
  Safe' (timer_dispatch_many inline_stepper_event timer_call polls fuel).
Proof.
  assert (Hi := safe_inline_stepper_event). assert (Hc := safe_timer_call).
  assert (∀ k next diff, Safe' (wait_ready k next diff)) as Hw.
  { induction k as [|k IH]; intros; cbn [wait_ready]; safe_tac. }
  assert (∀ tru, Safe' (timer_dispatch_loop inline_stepper_event timer_call polls fuel tru)) as Hl.
  { induction fuel as [|fuel IH]; intros; cbn [timer_dispatch_loop]; safe_tac. }
  unfold timer_dispatch_many. safe_tac.
Qed.

Lemma safe_activity m : activity polls index shutdownfuncs m → Safe' m.
Proof.
  intros Hm. assert (Hi := safe_index). destruct Hm as [fuel|bs|k|irqs|t Ht|start cur].
  - apply safe_guarded. assert (Hd := safe_dispatch_many). safe_start.
  - apply safe_serial_rx_bytes.
  - apply safe_serial_tx_irqs.
  - apply safe_guarded. assert (Hd := λ fuel buf msgend p,
      safe_dispatch_loop index fuel buf msgend p Hi). safe_start.
  - apply safe_guarded. by eapply Forall_forall in Ht; [|apply safe_tasks].
  - safe_start.
Qed.
End activities.

Lemma reachable_objs_ok `{Board} data polls index shutdownfuncs s :
  built data polls index shutdownfuncs → reachable polls index shutdownfuncs s → objs_ok s.
Proof.
  intros Hb. induction 1 as [|s m Hs IH Hm].
  - by apply map_Forall_empty.
  - by apply (safe_activity data polls index shutdownfuncs Hb m Hm).
Qed.

(** ** Consequences *)

(** The bulk buffer of a sensor and the size of its samples. *)
Definition bulk_of (o : obj) : option (sensor_bulk * Z) :=
  match o with
  | O_cs123x_adc c => Some (c.(cs_sb), 4)
  | O_hx71x_adc h => Some (h.(hx_sb), 4)
  | O_ads1220_adc a => Some (a.(ads_sb), 4)
  | O_adxl345 a => Some (a.(ax_sb), 5)
  | O_lis2dw a => Some (a.(lis_sb), 6)
  | _ => None
  end.

Lemma bulk_of_ok o sb n : obj_ok o → bulk_of o = Some (sb, n) → bulk_ok n sb.
Proof. by destruct o; try done; cbn; intros Ho [= <- <-]; try apply Ho. Qed.

Lemma bulk_store_safe bytes sb s :
  bulk_ok (Z.of_nat (length bytes)) sb →
  ∃ sb', bulk_store bytes sb s = (Ret sb', s) ∧ length sb'.(sb_data) = 51%nat
    ∧ 0 <= sb'.(sb_data_count) <= 51.
Proof.
  intros Hok. rewrite bulk_store_ok by done. destruct Hok as (Hl & H0 & Hc).
  eexists. split; [done|]. split; [|cbn; lia].
  cbn. rewrite !length_app, length_take, length_drop. lia.
Qed.

Lemma get2_ok rows cols m i j s (Q : Z → mcu → Prop) E :
  matrix_ok rows cols m → (i < rows)%nat → (j < cols)%nat → (∀ v, Q v s) → wp (get2 m i j) Q E s.
Proof.
  intros [Hr Hc] Hi Hj HQ. destruct (lookup_lt_is_Some_2 m i) as [row Hrow]; [lia|].
  assert (length row = cols) as Hl by (by eapply Forall_lookup_1 in Hc).
  destruct (lookup_lt_is_Some_2 row j) as [v Hv]; [lia|].
  eapply wp_some; [|apply HQ]. rewrite Hrow. exact Hv.
Qed.

Lemma wp_fixed_mul c v s (Q : Z → mcu → Prop) :
  (∀ r, Q r s) → wp (fixed_mul c v) Q (λ _ _, True) s.
Proof. intros HQ. unfold fixed_mul. cbv zeta. case_match; [by apply wp_shutdown|apply HQ]. Qed.

Definition filter_at (p : Z) (s : mcu) : Prop := ∃ sf, obj_at s p sf ∧ filter_ok sf.

Ltac filter_step :=
  lazymatch goal with
  | |- wp (_ ≫= _) _ _ _ => apply wp_bind
  | |- wp (get2 _ _ _) _ _ _ => eapply get2_ok; [eassumption|lia|lia|]; intros ?
  | |- wp (fixed_mul _ _) _ _ _ => apply wp_fixed_mul; intros ?
  end.

Lemma wp_update_state p f s (Q : unit → mcu → Prop) E :
  filter_at p s → (∀ st, matrix_ok 6 2 st → matrix_ok 6 2 (f st)) →
  (∀ s', filter_at p s' → Q tt s') →
  wp (update_obj p (λ sf : sos_filter, sf <| sf_filter_state ::= f |>)) Q E s.
Proof.
  intros (sf & Hsf & Hok) Hf HQ. eapply wp_update_obj; [exact Hsf|]. apply HQ.
  eexists. split; [apply obj_at_write|]. by apply filter_ok_state.
Qed.

Lemma wp_sosfilt_section p i v s :
  (i < 6)%nat → filter_at p s →
  wp (sosfilt_section p i v) (λ _ s', filter_at p s') (λ _ _, True) s.
Proof.
  intros Hi Hs. pose proof Hs as (sf & Hsf & Hf & Hst & Hn). unfold sosfilt_section. apply wp_bind.
  eapply wp_read_obj; [exact Hsf|]. repeat filter_step.
  eapply wp_update_state; [done|by intros; apply matrix_ok_set2|]. intros s1 H1.
  repeat filter_step.
  eapply wp_update_state; [done|by intros; apply matrix_ok_set2|]. intros s2 H2.
  by apply wp_ret.
Qed.

Lemma wp_sosfilt_loop p k : ∀ i v s,
  (i + k <= 6)%nat → filter_at p s →
  wp (sosfilt_loop k p i v) (λ _ s', filter_at p s') (λ _ _, True) s.
Proof.
  induction k as [|k IH]; intros i v s Hik Hs; cbn [sosfilt_loop]; [by apply wp_ret|].
  apply wp_bind. eapply wp_mono; [apply wp_sosfilt_section; [lia|done]| |done].
  intros v' s' Hs'. apply IH; [lia|done].
Qed.

Lemma wp_sosfilt p v s : filter_at p s → wp (sosfilt p v) (λ _ _, True) (λ _ _, True) s.
Proof.
  intros Hs. pose proof Hs as (sf & Hsf & Hf & Hst & Hn). unfold sosfilt. apply wp_bind.
  eapply wp_read_obj; [exact Hsf|]. unfold MAX_SECTIONS in Hn.
  destruct (_ =? 0); [by apply wp_shutdown|]. destruct (_ =? 0); [by apply wp_ret|].
  eapply wp_mono; [apply wp_sosfilt_loop; [lia|done]|done|done].
Qed.

Lemma wp_set_pins `{Board} e k : ∀ i s,
  pins_ok e → (i + k <= 64)%nat → wp (set_pins_loop k e i) (λ _ _, True) (λ _ _, True) s.
Proof.
  induction k as [|k IH]; intros i s He Hk; cbn [set_pins_loop]; [by apply wp_ret|].
  pose proof He as (Hp & Hv & _). destruct (lookup_lt_is_Some_2 e.(sp_pin) i) as [pin Hpin]; [lia|].
  destruct (lookup_lt_is_Some_2 e.(sp_value) i) as [val Hval]; [lia|].
  apply wp_bind. eapply wp_some; [exact Hpin|]. apply wp_bind. eapply wp_some; [exact Hval|].
  apply wp_bind. unfold gpio_out_setup. destruct (gpio_valid pin); [|by apply wp_shutdown].
  wp_steps. apply IH; [done|lia].
Qed.



(** C40: the watchdog of a load cell end stop never acts: its condition asks for both
    flags of the homing state at once, so in every reachable state the timer event
    stops the watchdog without counting and without triggering. *)
Theorem watchdog_never_acts `{Board} data polls index shutdownfuncs s p (l : load_cell_endstop) :
  built data polls index shutdownfuncs → reachable polls index shutdownfuncs s →
  obj_at s p l → watchdog_event p s = (Ret SF_DONE, s).
Proof.
  intros Hb Hr Hl. pose proof (reachable_objs_ok _ _ _ _ _ Hb Hr p _ Hl) as Hok.
  change (endstop_ok l) in Hok. unfold watchdog_event, mbind at 1, M_bind at 1.
  rewrite (read_obj_at p l s Hl).
  assert (negb (is_flag_set FLAG_IS_HOMING l) || negb (is_flag_set FLAG_IS_AWAIT_HOMING l) = true)
    as ->; [|done].
  unfold is_flag_set. rewrite !(flag_set_comm _ l.(lc_flags)), (flag_bit _ 0), (flag_bit _ 3).
  change (Z.of_nat 0) with 0. change (Z.of_nat 3) with 3. unfold endstop_ok in Hok.
  by rewrite <- negb_andb, Hok.
Qed.

(** ** An example

    The host configures a filter, a load cell end stop, a load cell sensor, shutdown
    pins and a trigger, and starts a homing move, in two blocks. *)

Definition example_parser (types : list param_type) (n : Z) (f : list Z → M unit) : command_parser :=
  mk_command_parser 0 n 0 types f.

Definition example_parsers : list command_parser :=
  let b := example_board in
  [example_parser [PT_byte] 1 command_allocate_oids;
   example_parser [PT_byte] 1 command_allocate_oids;
   example_parser [PT_byte] 1 command_config_sos_filter;
   example_parser [PT_byte; PT_byte] 2 command_config_load_cell_endstop;
   example_parser [PT_byte; PT_uint32; PT_uint32] 3 command_config_cs123x;
   example_parser [PT_byte; PT_byte] 2 command_attach_endstop_cs123x;
   example_parser [PT_byte] 1 config_shutdown_pins;
   example_parser [PT_byte] 1 command_config_trsync;
   example_parser [PT_byte; PT_byte; PT_byte; PT_byte; PT_uint32; PT_byte; PT_uint32; PT_uint32] 8
     command_load_cell_endstop_home].

Definition example_block1 : list Z :=
  frame 0x10 [1; 5; 2; 0; 3; 1; 0; 4; 2; 5; 6; 5; 2; 1; 6; 3; 7; 4].
Definition example_block2 : list Z :=
  frame 0x11 ([8; 1; 4; 2; 3] ++ encode_int 50000000 ++ [4; 90; 5]).

Definition example_console : M unit :=
  let b := example_board in
  with_shutdown_handler (run_all shutdown_handlers) (console_task example_parsers []).

Definition example_fw : mcu :=
  let b := example_board in
  (example_console (serial_rx_bytes example_block2
    (example_console (serial_rx_bytes example_block1 (alloc_init init_mcu).2).2).2).2).2.

Lemma declared `{Board} data polls k d cp :
  declarations data polls !! k = Some d → cp.(cp_func) = d.(dc_func) → cp.(cp_flags) = d.(dc_flags) →
  ∃ d, d ∈ declarations data polls ∧ cp.(cp_func) = d.(dc_func) ∧ cp.(cp_flags) = d.(dc_flags).
Proof. intros Hk Hf Hg. exists d. split; [by eapply list_elem_of_lookup_2|done]. Qed.

Lemma example_built : let b := example_board in built [] 10 example_parsers shutdown_handlers.
Proof.
  intros b. split; [|by apply Forall_forall].
  repeat (apply Forall_cons; split; [|]); try apply Forall_nil_2.
  - by apply (declared [] 10 0 _ _ eq_refl).
  - by apply (declared [] 10 0 _ _ eq_refl).
  - by apply (declared [] 10 59 _ _ eq_refl).
  - by apply (declared [] 10 61 _ _ eq_refl).
  - by apply (declared [] 10 68 _ _ eq_refl).
  - by apply (declared [] 10 71 _ _ eq_refl).
  - by apply (declared [] 10 39 _ _ eq_refl).
  - by apply (declared [] 10 14 _ _ eq_refl).
  - by apply (declared [] 10 64 _ _ eq_refl).
Qed.

Lemma example_reachable :
  let b := example_board in reachable 10 example_parsers shutdown_handlers example_fw.
Proof.
  intros b. unfold example_fw. repeat (apply reachable_step; [|constructor]).
  apply reachable_init.
Qed.



Lemma watchdog_never_acts_witness :
  let b := example_board in
  watchdog_event 4200 example_fw = (Ret SF_DONE, example_fw).
Proof.
  intros b.
  refine (watchdog_never_acts [] 10 _ _ example_fw 4200 _ example_built example_reachable _).
  vm_compute. reflexivity.
Defined.
