(* ===== verification/SensorsSpec.v ===== *)
(** * Samples reach the host complete and in order (src/sensor_bulk.c, sensor_cs123x.c)

    The bulk buffer is refined by the stream of the bytes stored in it: the reports
    sent, with consecutive sequence numbers, and what is still buffered make up the
    samples added.  The load cell sensor reads the bits of its chip into a signed
    number, and hands it to the end stop unless an error is latched. *)

From S2P Require Import Prelude.
From S2P Require Import State.
From S2P Require Import Machine.
From S2P Require Import Sched.
From S2P Require Import Basecmd.
From S2P Require Import Hal.
From S2P Require Import LoadCell.
From S2P Require Import Bus.
From S2P Require Import Sensors.
From S2P Require Import TimerIrq.
From S2P Require Import Objects.
From S2P Require Import Firmware.
From S2P Require Import FirmwareSpec.

(** ** The buffer as a stream *)

(** The bytes that wait in the buffer. *)
Definition buffered (sb : sensor_bulk) : list Z := take (Z.to_nat sb.(sb_data_count)) sb.(sb_data).

Definition report (oid seq : Z) (data : list Z) : event :=
  Ev_send "sensor_bulk_data oid=%c sequence=%hu data=%*s" [A_int oid; A_int seq; A_buf data].

(** The reports of the given data, newest first. *)
Fixpoint reports (oid seq : Z) (chunks : list (list Z)) : list event :=
  match chunks with
  | [] => []
  | c :: chunks => reports oid (u16 (seq + 1)) chunks ++ [report oid seq c]
  end.

Definition log (evs : list event) (s : mcu) : mcu := s <| trace ::= app evs |>.

Lemma sendf_log fmt args s :
  s.(cmd).(in_sendf) = false → sendf fmt args s = (Ret tt, log [Ev_send fmt args] s).
Proof.
  intros Hb. unfold sendf, command_sendf, mbind, M_bind, gets. rewrite Hb.
  destruct s as [? ? ? ? ? ? [? ? b] ? ? ? ? ? ?]. cbn in Hb. subst b. done.
Qed.

Lemma buffered_store bytes sb :
  bulk_ok (Z.of_nat (length bytes)) sb →
  ∃ sb', (∀ s, bulk_store bytes sb s = (Ret sb', s)) ∧ buffered sb' = buffered sb ++ bytes
    ∧ sb'.(sb_sequence) = sb.(sb_sequence) ∧ length sb'.(sb_data) = 51%nat
    ∧ sb'.(sb_data_count) = sb.(sb_data_count) + Z.of_nat (length bytes).
Proof.
  intros Hok. rewrite bulk_store_ok by done. destruct Hok as (Hl & H0 & Hc).
  eexists. split; [done|]. unfold buffered. destruct sb as [q o c d]. cbn in *. split_and!; try done.
  - rewrite Z2Nat.inj_add, Nat2Z.id by lia. rewrite app_assoc, take_app_length'; [done|].
    rewrite length_app, length_take. lia.
  - rewrite !length_app, length_take, length_drop. lia.
Qed.

(** One sample is buffered, and the whole buffer is reported when no other fits. *)
Lemma bulk_add_stream bytes oid sb s :
  bulk_ok (Z.of_nat (length bytes)) sb → s.(cmd).(in_sendf) = false →
  ∃ sb' chunks, bulk_add bytes false oid sb s = (Ret sb', log (reports oid sb.(sb_sequence) chunks) s)
    ∧ bulk_ok (Z.of_nat (length bytes)) sb'
    ∧ concat chunks ++ buffered sb' = buffered sb ++ bytes
    ∧ Forall (λ c, 51 - Z.of_nat (length bytes) < Z.of_nat (length c) <= 51) chunks
    ∧ (length chunks <= 1)%nat
    ∧ sb'.(sb_sequence) = match chunks with [] => sb.(sb_sequence) | _ => u16 (sb.(sb_sequence) + 1) end.
Proof.
  intros Hok Hs. destruct (buffered_store bytes sb Hok) as (sb' & He & Hbuf & Hseq & Hl & Hcnt).
  unfold bulk_add, mbind at 1, M_bind at 1. rewrite He. destruct Hok as (_ & H0 & Hc).
  destruct (51 <? _) eqn:E; cbn [orb].
  - apply Z.ltb_lt in E. unfold sensor_bulk_report, mbind, M_bind. rewrite sendf_log by done.
    eexists _, [buffered sb']. split; [by rewrite <- Hseq|]. split_and!; try done.
    + split; [exact Hl|]. cbn. lia.
    + cbn. by rewrite !app_nil_r.
    + apply Forall_singleton. unfold buffered. rewrite length_take. lia.
    + by rewrite <- Hseq.
  - apply Z.ltb_ge in E. exists sb', []. split; [by destruct s|]. split_and!; try done; [split; [exact Hl|lia]|cbn; lia].
Qed.

Lemma reports_app oid seq c1 c2 :
  0 <= seq < 65536 →
  reports oid seq (c1 ++ c2) = reports oid (u16 (seq + Z.of_nat (length c1))) c2 ++ reports oid seq c1.
Proof.
  revert seq. induction c1 as [|c c1 IH]; intros seq Hseq; cbn [reports app length].
  - by rewrite app_nil_r, Z.add_0_r, u16_small.
  - rewrite IH by apply u16_range. rewrite app_assoc. do 3 f_equal. int_lia.
Qed.

Lemma log_log e1 e2 s : log e1 (log e2 s) = log (e1 ++ e2) s.
Proof. unfold log. destruct s. unfold set_field. cbn. by rewrite app_assoc. Qed.

(** The samples that a sensor's task adds one after the other. *)
Fixpoint cs123x_add_samples (p oid : Z) (vs : list Z) : M unit :=
  match vs with
  | [] => mret tt
  | v :: vs => cs123x_add_sample p oid v false;; cs123x_add_samples p oid vs
  end.

Record stream_step (p oid : Z) (cs : cs123x_adc) (s : mcu) (new : list Z) (chunks : list (list Z))
    (cs' : cs123x_adc) (s' : mcu) : Prop := {
  st_obj : obj_at s' p cs';
  st_ok : bulk_ok 4 cs'.(cs_sb);
  st_stream : concat chunks ++ buffered cs'.(cs_sb) = buffered cs.(cs_sb) ++ new;
  st_sizes : Forall (λ c, 47 < Z.of_nat (length c) <= 51) chunks;
  st_seq : cs'.(cs_sb).(sb_sequence) = u16 (cs.(cs_sb).(sb_sequence) + Z.of_nat (length chunks));
  st_rest : cs' = cs <| cs_sb := cs'.(cs_sb) |>;
  st_state : s' = log (reports oid cs.(cs_sb).(sb_sequence) chunks)
                    (s <| objs ::= <[p := O_cs123x_adc cs']> |>);
}.

Lemma add_sample_step p oid cs s v :
  obj_at s p cs → bulk_ok 4 cs.(cs_sb) → 0 <= cs.(cs_sb).(sb_sequence) < 65536 →
  s.(cmd).(in_sendf) = false →
  ∃ chunks cs' s', cs123x_add_sample p oid v false s = (Ret tt, s')
    ∧ stream_step p oid cs s (sample_bytes v) chunks cs' s'.
Proof.
  intros Hcs Hok Hseq Hs.
  destruct (bulk_add_stream (sample_bytes v) oid cs.(cs_sb) s Hok Hs)
    as (sb & chunks & He & Hok' & Hst & Hsz & Hlen & Hq).
  unfold cs123x_add_sample, mbind, M_bind. rewrite (read_obj_at p cs s Hcs), He.
  exists chunks, (cs <| cs_sb := sb |>). eexists. split; [done|].
  split; try done; [apply obj_at_write|].
  destruct chunks as [|c [|? ?]]; cbn in *; [by rewrite Z.add_0_r, u16_small|done|lia].
Qed.

Lemma stream_step_refl p oid cs s :
  obj_at s p cs → bulk_ok 4 cs.(cs_sb) → 0 <= cs.(cs_sb).(sb_sequence) < 65536 →
  stream_step p oid cs s [] [] cs s.
Proof.
  intros Hcs Hok Hseq. split; try done.
  - by rewrite app_nil_r.
  - cbn. by rewrite Z.add_0_r, u16_small.
  - by destruct cs.
  - unfold log. destruct s. unfold set_field. cbn in *. by rewrite insert_id.
Qed.

Lemma stream_step_trans p oid cs s n1 c1 cs1 s1 n2 c2 cs2 s2 :
  0 <= cs.(cs_sb).(sb_sequence) < 65536 →
  stream_step p oid cs s n1 c1 cs1 s1 → stream_step p oid cs1 s1 n2 c2 cs2 s2 →
  stream_step p oid cs s (n1 ++ n2) (c1 ++ c2) cs2 s2.
Proof.
  intros Hseq [H1 H2 H3 H4 H5 H7 H6] [K1 K2 K3 K4 K5 K7 K6]. split; try done.
  - rewrite concat_app, <- app_assoc, K3, !app_assoc. by rewrite H3.
  - by apply Forall_app.
  - rewrite K5, H5, length_app. int_lia.
  - by rewrite K7, H7.
  - rewrite reports_app by done. rewrite <- log_log, <- H5, K6, H6. f_equal.
    unfold log. destruct s. unfold set_field. cbn. by rewrite insert_insert_eq.
Qed.

(** Four bytes, lowest first, as the host reads a sample. *)
Definition le32 (bs : list Z) : Z :=
  match bs with
  | [b0; b1; b2; b3] => b0 + 256 * b1 + 65536 * b2 + 16777216 * b3
  | _ => 0
  end.

Lemma sample_bytes_decode v : le32 (sample_bytes v) = u32 v.
Proof. unfold le32, sample_bytes. rewrite !Z.shiftr_div_pow2 by lia. int_lia. Qed.

(** The samples in the bytes of a stream. *)
Fixpoint decode_samples (fuel : nat) (bs : list Z) : list Z :=
  match fuel, bs with
  | S fuel, _ :: _ => le32 (take 4 bs) :: decode_samples fuel (drop 4 bs)
  | _, _ => []
  end.

Lemma decode_samples_encoded vs :
  decode_samples (length vs) (concat (map sample_bytes vs)) = map u32 vs.
Proof.
  induction vs as [|v vs IH]; [done|]. cbn [length map concat].
  change (decode_samples (S (length vs)) (sample_bytes v ++ concat (map sample_bytes vs)))
    with (le32 (sample_bytes v) :: decode_samples (length vs) (concat (map sample_bytes vs))).
  by rewrite IH, sample_bytes_decode.
Qed.

Lemma add_samples_stream p oid vs : ∀ cs s,
  obj_at s p cs → bulk_ok 4 cs.(cs_sb) → 0 <= cs.(cs_sb).(sb_sequence) < 65536 →
  s.(cmd).(in_sendf) = false →
  ∃ chunks cs' s', cs123x_add_samples p oid vs s = (Ret tt, s')
    ∧ stream_step p oid cs s (concat (map sample_bytes vs)) chunks cs' s'.
Proof.
  induction vs as [|v vs IH]; intros cs s Hcs Hok Hseq Hs.
  - exists [], cs, s. split; [done|]. by apply stream_step_refl.
  - destruct (add_sample_step p oid cs s v Hcs Hok Hseq Hs) as (c1 & cs1 & s1 & He & H1).
    destruct (IH cs1 s1) as (c2 & cs2 & s2 & He2 & H2).
    + apply H1.
    + apply H1.
    + rewrite (st_seq _ _ _ _ _ _ _ _ H1). apply u16_range.
    + by rewrite (st_state _ _ _ _ _ _ _ _ H1).
    + exists (c1 ++ c2), cs2, s2. cbn [cs123x_add_samples]. unfold mbind, M_bind. rewrite He, He2.
      split; [done|]. by eapply stream_step_trans.
Qed.

(** C19: samples that a load cell sensor adds to its empty buffer reach the host
    complete and in order: the data of the reports sent, which have consecutive
    sequence numbers and 48 to 51 bytes each, followed by what is still buffered,
    decodes to exactly the samples, and nothing else of the state changes. *)
Theorem cs123x_samples_reported p oid vs cs s :
  obj_at s p cs → bulk_ok 4 cs.(cs_sb) → buffered cs.(cs_sb) = [] →
  0 <= cs.(cs_sb).(sb_sequence) < 65536 → s.(cmd).(in_sendf) = false →
  ∃ chunks cs' s', cs123x_add_samples p oid vs s = (Ret tt, s')
    ∧ decode_samples (length vs) (concat chunks ++ buffered cs'.(cs_sb)) = map u32 vs
    ∧ Forall (λ c, 48 <= Z.of_nat (length c) <= 51) chunks
    ∧ cs' = cs <| cs_sb := cs'.(cs_sb) |>
    ∧ s' = log (reports oid cs.(cs_sb).(sb_sequence) chunks)
             (s <| objs ::= <[p := O_cs123x_adc cs']> |>).
Proof.
  intros Hcs Hok Hbuf Hseq Hs.
  destruct (add_samples_stream p oid vs cs s Hcs Hok Hseq Hs) as (chunks & cs' & s' & He & H1).
  exists chunks, cs', s'. split; [done|].
  rewrite (st_stream _ _ _ _ _ _ _ _ H1), Hbuf, decode_samples_encoded. split; [done|].
  split; [|split; apply H1]. eapply Forall_impl; [apply H1|]. cbn. lia.
Qed.

(** ** Reading the chip *)

(** The number whose bits, highest first, are given. *)
Definition bits_value (bs : list Z) : Z := fold_left (λ v b, 2 * v + b) bs 0.

Section reading.
Context `{B : Board}.

(** The bit of a pin at the n-th access to the hardware. *)
Definition pin_bit (pin : Z) (n : nat) : Z := b2z (negb (hw_gpio_in pin n =? 0)).

Lemma pin_bit_range pin n : 0 <= pin_bit pin n <= 1.
Proof. unfold pin_bit. destruct (negb _); cbn; lia. Qed.

(** Only inputs were read, pins toggled and interrupts masked. *)
Record polled (s s' : mcu) : Prop := {
  po_objs : s'.(objs) = s.(objs);
  po_cmd : s'.(cmd) = s.(cmd);
  po_base : s'.(base) = s.(base);
  po_timers : s'.(timers) = s.(timers);
  po_reads : (s.(reads) <= s'.(reads))%nat;
}.

#[local] Instance polled_preorder : PreOrder polled.
Proof.
  split; [by intros s; split|]. intros s1 s2 s3 [] [].
  split; [congruence|congruence|congruence|congruence|lia].
Qed.

Lemma wp_polled {A} (m : M A) s s1 :
  wp m (λ _, polled s1) (λ _ _, False) s1 → polled s s1 → wp m (λ _, polled s) (λ _ _, False) s1.
Proof. intros Hm Hs. eapply wp_mono; [exact Hm| |done]. intros a s' Hs'. by transitivity s1. Qed.

Lemma wp_delay_until fuel T d s :
  clock_runs → 0 <= d < 2 ^ 24 →
  T <= hw_time s.(reads) <= T + 2 ^ 25 → Z.max 0 (T + d - hw_time s.(reads)) < Z.of_nat fuel →
  wp (delay_until fuel (mret tt) (u32 (T + d))) (λ _, polled s) (λ _ _, False) s.
Proof.
  intros Hclk Hd. revert s. induction fuel as [|fuel IH]; intros s HT Hf; [lia|].
  cbn [delay_until]. wp_steps. pose proof (Hclk s.(reads)) as Hn.
  set (s1 := s <| reads ::= S |>). assert (polled s s1) as H1 by (by split; cbn; try lia).
  assert (timer_is_before (u32 (hw_time s.(reads))) (u32 (T + d)) = (hw_time s.(reads) <? T + d)) as ->.
  { unfold timer_is_before. rewrite <- s32_u32, u32_sub_l, u32_sub_r, s32_u32, s32_small by lia.
    lia. }
  destruct (_ <? _) eqn:E; [|by apply wp_ret]. wp_steps. apply Z.ltb_lt in E.
  apply wp_polled; [|done]. apply IH; cbn; lia.
Qed.

Lemma wp_cs123x_delay polls s :
  clock_runs → nsecs_to_ticks 500 + 1 < Z.of_nat polls → nsecs_to_ticks 500 < 2 ^ 24 →
  wp (cs123x_delay (mret tt) polls) (λ _, polled s) (λ _ _, False) s
  ∧ wp (cs123x_delay_noirq polls) (λ _, polled s) (λ _ _, False) s.
Proof.
  intros Hclk Hp Hd. pose proof (Hclk s.(reads)) as Hn.
  assert (0 <= nsecs_to_ticks 500) by (unfold nsecs_to_ticks, timer_from_us; int_lia).
  set (s1 := s <| reads ::= S |>). assert (polled s s1) as H1 by (by split; cbn; try lia).
  split; unfold cs123x_delay, cs123x_delay_noirq; wp_steps; rewrite u32_add_l;
    (apply wp_polled; [|done]); apply wp_delay_until; cbn; (done || lia).
Qed.

(** Accesses one after the other, from the [lo]-th on. *)
Fixpoint increasing (lo : nat) (ns : list nat) : Prop :=
  match ns with [] => True | n :: ns => (lo <= n)%nat ∧ increasing (S n) ns end.

Lemma increasing_mono lo lo' ns : (lo' <= lo)%nat → increasing lo ns → increasing lo' ns.
Proof. destruct ns as [|n ns]; [done|]. intros Hl [? ?]. split; [lia|done]. Qed.

Context (polls : nat) (Hclk : clock_runs) (Hpolls : nsecs_to_ticks 500 + 1 < Z.of_nat polls)
        (Hns : nsecs_to_ticks 500 < 2 ^ 24).

(** A toggle of the clock pin with its delay. *)
Ltac poll_step :=
  lazymatch goal with
  | |- wp (cs123x_delay_noirq _) _ _ ?s =>
      eapply wp_mono; [apply (wp_cs123x_delay polls s Hclk Hpolls Hns)| |done]; cbv beta; intros ? ? ?
  | |- wp (cs123x_delay _ _) _ _ ?s =>
      eapply wp_mono; [apply (wp_cs123x_delay polls s Hclk Hpolls Hns)| |done]; cbv beta; intros ? ? ?
  | |- wp (gpio_in_read _) _ _ _ => fail
  | _ => wp_step
  end.
Ltac polled_now :=
  repeat match goal with H : polled _ _ |- _ => destruct H end;
  cbn in *; constructor; cbn in *; first [congruence | lia].

Lemma wp_generate_clk sclk k : ∀ s,
  wp (cs1237x_generate_clk (mret tt) polls k sclk) (λ _, polled s) (λ _ _, False) s.
Proof.
  induction k as [|k IH]; intros s; cbn [cs1237x_generate_clk]; [by apply wp_ret|].
  repeat poll_step. eapply wp_mono; [apply IH| |done]. cbv beta. intros. polled_now.
Qed.

Lemma shift_in m v b :
  (m < 32)%nat → 0 <= v < 2 ^ Z.of_nat m → 0 <= b <= 1 → Z.lor (u32 (Z.shiftl v 1)) b = 2 * v + b.
Proof.
  intros Hm Hv Hb. rewrite Z.shiftl_mul_pow2 by lia. rewrite u32_small.
  - rewrite lor_disjoint; lia.
  - assert (2 ^ Z.of_nat m <= 2 ^ 31) by (apply Z.pow_le_mono_r; lia). lia.
Qed.

Lemma wp_read_bits dout sclk k : ∀ m v s,
  (m + k <= 32)%nat → 0 <= v < 2 ^ Z.of_nat m →
  wp (cs123x_read_bits (mret tt) polls k dout sclk v)
    (λ r s', polled s s' ∧ ∃ ns, length ns = k ∧ increasing s.(reads) ns
             ∧ r = fold_left (λ v b, 2 * v + b) (map (pin_bit dout) ns) v)
    (λ _ _, False) s.
Proof.
  induction k as [|k IH]; intros m v s Hm Hv; cbn [cs123x_read_bits].
  { apply wp_ret. split; [done|]. by exists []. }
  repeat poll_step. wp_step. repeat poll_step. cbv beta.
  match goal with |- wp (cs123x_read_bits _ _ _ _ _ (Z.lor _ (b2z (negb (hw_gpio_in _ ?n =? 0))))) _ _ _ =>
    change (b2z (negb (hw_gpio_in dout n =? 0))) with (pin_bit dout n); set (i := n) end.
  rewrite (shift_in m) by (try apply pin_bit_range; done || lia).
  eapply wp_mono; [apply (IH (S m)); [lia|]| |done].
  { pose proof (pin_bit_range dout i). rewrite Nat2Z.inj_succ, Z.pow_succ_r by lia. lia. }
  cbv beta. intros r s2 (Hp & ns & Hl & Hi & ->). split; [polled_now|].
  exists (i :: ns). split; [by rewrite <- Hl|]. split; [|done].
  repeat match goal with H : polled _ _ |- _ => destruct H end. cbn in *.
  split; [lia|]. by eapply increasing_mono; [|exact Hi].
Qed.

Lemma wp_raw_read dout sclk s :
  wp (cs123x_raw_read (mret tt) polls dout sclk)
    (λ r s', polled s s' ∧ ∃ ns, length ns = 24%nat ∧ increasing s.(reads) ns
             ∧ r = bits_value (map (pin_bit dout) ns))
    (λ _ _, False) s.
Proof.
  unfold cs123x_raw_read. apply wp_bind.
  eapply wp_mono; [apply (wp_read_bits dout sclk 24 0); [lia|done]| |done].
  cbv beta. intros r s1 [H1 Hns']. apply wp_bind. eapply wp_mono; [apply wp_generate_clk| |done].
  cbv beta. intros [] s2 H2. apply wp_ret. split; [polled_now|exact Hns'].
Qed.

Lemma raw_read_runs dout sclk s :
  ∃ ns s', cs123x_raw_read (mret tt) polls dout sclk s = (Ret (bits_value (map (pin_bit dout) ns)), s')
    ∧ length ns = 24%nat ∧ increasing s.(reads) ns ∧ polled s s'.
Proof.
  pose proof (wp_raw_read dout sclk s) as Hw. unfold wp in Hw.
  destruct (cs123x_raw_read _ _ _ _ s) as [[r|r|e] s']; [|done..].
  destruct Hw as (Hp & ns & Hl & Hi & ->). by exists ns, s'.
Qed.
End reading.

Lemma bits_value_range bs :
  Forall (λ b, 0 <= b <= 1) bs → 0 <= bits_value bs < 2 ^ Z.of_nat (length bs).
Proof.
  unfold bits_value. induction bs as [|b bs IH] using rev_ind; [done|].
  intros [Hbs Hb]%Forall_app. apply Forall_cons in Hb as [Hb _]. specialize (IH Hbs).
  rewrite fold_left_app, length_app. cbn [fold_left length].
  rewrite Nat.add_1_r, Nat2Z.inj_succ, Z.pow_succ_r by lia. lia.
Qed.

Lemma extend24_signed v :
  0 <= v < 2 ^ 24 → s32 (extend24 v) = if v <? 2 ^ 23 then v else v - 2 ^ 24.
Proof.
  intros Hv. unfold extend24. change 0x800000 with (Z.shiftl 1 (Z.of_nat 23)).
  rewrite flag_bit, Z.testbit_odd, Z.shiftr_div_pow2 by lia. change (2 ^ Z.of_nat 23) with 8388608.
  destruct (Z.ltb_spec v (2 ^ 23)).
  - rewrite Z.div_small by lia. apply s32_small. lia.
  - assert (v / 8388608 = 1) as -> by (Z.div_mod_to_equations; lia).
    rewrite Z.lor_comm. change 0xFF000000 with (255 * 2 ^ 24). cbn [Z.odd].
    rewrite lor_disjoint by lia. unfold_ints. int_lia.
Qed.

Lemma bind_runs {A C} (m : M A) (f : A → M C) s s' a :
  m s = (Ret a, s') → (m ≫= f) s = f a s'.
Proof. intros Hm. unfold mbind, M_bind. by rewrite Hm. Qed.

(** The error a read leaves latched, and the value it reports. *)
Definition read_error (cs : cs123x_adc) : Z :=
  if flag_set cs.(cs_flags) CS_OVERFLOW then SAMPLE_ERROR_READ_TOO_LONG else cs.(cs_last_error).
Definition read_value (cs : cs123x_adc) (raw : Z) : Z :=
  if read_error cs =? 0 then extend24 raw else read_error cs.

Lemma latch_runs `{B : Board} p (cs : cs123x_adc) fl s :
  obj_at s p cs →
  ∃ s', when (flag_set fl CS_OVERFLOW)
          (update_obj p (λ c : cs123x_adc, c <| cs_last_error := SAMPLE_ERROR_READ_TOO_LONG |>)) s
        = (Ret tt, s')
    ∧ s'.(objs) = <[p := obj_inj (cs <| cs_last_error :=
                     if flag_set fl CS_OVERFLOW then SAMPLE_ERROR_READ_TOO_LONG
                     else cs.(cs_last_error) |>)]> s.(objs)
    ∧ s'.(cmd) = s.(cmd) ∧ s'.(base) = s.(base) ∧ s'.(timers) = s.(timers).
Proof.
  intros Hcs. destruct (flag_set fl CS_OVERFLOW); cbn [when].
  - unfold update_obj. rewrite (bind_runs _ _ _ _ _ (read_obj_at p cs s Hcs)).
    eexists. split; [reflexivity|]. done.
  - exists s. split; [done|]. split; [|done]. symmetry. apply insert_id. rewrite Hcs. by destruct cs.
Qed.

(** Reading the load cell chip ends, takes 24 bits of the data pin, highest
    first, one after the other, and adds one sample: the sign-extended reading, or
    the latched error, which an overflow sets and no read clears; the load cell end
    stop gets exactly the samples read without error, as the signed number of the
    chip with the time at which the read began. *)
Theorem cs123x_read_adc_sample `{B : Board} polls p oid (cs : cs123x_adc) s :
  clock_runs → nsecs_to_ticks 500 + 1 < Z.of_nat polls → nsecs_to_ticks 500 < 2 ^ 24 →
  obj_at s p cs →
  ∃ ns s1,
    let raw := bits_value (map (pin_bit cs.(cs_dout)) ns) in
    let v := read_value cs raw in
    length ns = 24%nat ∧ increasing (S s.(reads)) ns
    ∧ s1.(objs) = <[p := O_cs123x_adc (cs <| cs_flags := 0 |> <| cs_last_error := read_error cs |>)]>
                    s.(objs)
    ∧ s1.(cmd) = s.(cmd) ∧ s1.(base) = s.(base) ∧ s1.(timers) = s.(timers)
    ∧ (read_error cs = 0 → s32 v = if raw <? 2 ^ 23 then raw else raw - 2 ^ 24)
    ∧ cs123x_read_adc (mret tt) polls p oid s
      = (cs123x_add_sample p oid v false;;
         match cs.(cs_lce) with
         | Some lce => when (read_error cs =? 0)
             (load_cell_endstop_report_sample lce (s32 v) (u32 (hw_time s.(reads))))
         | None => mret tt
         end) s1.
Proof.
  intros Hclk Hpolls Hns Hcs. set (s0 := s <| reads ::= S |>).
  destruct (raw_read_runs polls Hclk Hpolls Hns cs.(cs_dout) cs.(cs_sclk) s0)
    as (ns & s' & He & Hl & Hi & Hp). exists ns.
  set (raw := bits_value (map (pin_bit cs.(cs_dout)) ns)) in *. cbv zeta.
  assert (raw_range : 0 <= raw < 2 ^ 24).
  { change 24 with (Z.of_nat 24). rewrite <- Hl, <- (length_map (pin_bit cs.(cs_dout)) ns).
    apply bits_value_range, Forall_forall. intros b (n & -> & _)%list_elem_of_fmap. apply pin_bit_range. }
  unfold cs123x_read_adc. rewrite (bind_runs timer_read_time _ s s0 _ eq_refl).
  rewrite (bind_runs _ _ _ _ _ (read_obj_at p cs s0 Hcs)), (bind_runs _ _ _ _ _ He).
  set (s2 := s' <| irq := false |>). rewrite (bind_runs irq_disable _ s' s2 _ eq_refl).
  assert (Hcs' : obj_at s2 p cs) by (unfold obj_at; cbn; by rewrite (po_objs _ _ Hp)).
  rewrite (bind_runs _ _ _ _ _ (read_obj_at p cs s2 Hcs')).
  set (cs1 := cs <| cs_flags := 0 |>). set (s3 := s2 <| objs ::= <[p := obj_inj cs1]> |>).
  rewrite (bind_runs (write_obj p cs1) _ s2 s3 _ eq_refl).
  rewrite (bind_runs irq_enable _ s3 (s3 <| irq := true |>) _ eq_refl).
  assert (H3 : obj_at (s3 <| irq := true |>) p cs1) by apply lookup_insert_eq.
  destruct (latch_runs p cs1 cs.(cs_flags) _ H3) as (s5 & Hw & Ho & Hc & Hb & Ht).
  rewrite (bind_runs _ _ _ _ _ Hw). fold (read_error cs) in Ho.
  set (cs2 := cs1 <| cs_last_error := read_error cs |>) in *.
  assert (H5 : obj_at s5 p cs2) by (unfold obj_at; rewrite Ho; apply lookup_insert_eq).
  rewrite (bind_runs _ _ _ _ _ (read_obj_at p cs2 s5 H5)). exists s5.
  assert (Hr : (if negb (read_error cs =? 0) then read_error cs else extend24 raw) = read_value cs raw)
    by (unfold read_value; by destruct (read_error cs =? 0)).
  split_and!; [done..| | | | | |].
  - rewrite Ho. cbn. rewrite insert_insert_eq. by rewrite (po_objs _ _ Hp).
  - rewrite Hc. exact (po_cmd _ _ Hp).
  - rewrite Hb. exact (po_base _ _ Hp).
  - rewrite Ht. exact (po_timers _ _ Hp).
  - intros He0. unfold read_value. rewrite He0. by apply extend24_signed.
  - cbn. by rewrite Hr.
Qed.

(** ** A sensor for the examples *)

Definition example_cs : cs123x_adc :=
  mk_cs123x_adc CS_PENDING 7200 0 5 5 6 (mk_sensor_bulk 65535 0 0 (replicate 51 0)) None.
Definition example_cs_mcu : mcu := init_mcu <| objs := {[4096 := O_cs123x_adc example_cs]} |>.

Lemma cs123x_samples_reported_witness :
  let vs := [1; -1; 70000] ++ map Z.of_nat (seq 0 15) in
  ∃ chunks cs' s', cs123x_add_samples 4096 3 vs example_cs_mcu = (Ret tt, s')
    ∧ decode_samples (length vs) (concat chunks ++ buffered cs'.(cs_sb)) = map u32 vs
    ∧ Forall (λ c, 48 <= Z.of_nat (length c) <= 51) chunks
    ∧ cs' = example_cs <| cs_sb := cs'.(cs_sb) |>
    ∧ s' = log (reports 3 65535 chunks) (example_cs_mcu <| objs ::= <[4096 := O_cs123x_adc cs']> |>).
Proof.
  intros vs. apply (cs123x_samples_reported 4096 3 vs example_cs example_cs_mcu).
  - reflexivity.
  - split; [reflexivity|split; vm_compute; discriminate].
  - reflexivity.
  - vm_compute. split; [discriminate|reflexivity].
  - reflexivity.
Defined.

Lemma cs123x_read_adc_sample_witness :
  let b := example_board in
  ∃ ns s1,
    let raw := bits_value (map (pin_bit 5) ns) in
    let v := read_value example_cs raw in
    length ns = 24%nat ∧ increasing 1 ns
    ∧ s1.(objs) = <[4096 := O_cs123x_adc (example_cs <| cs_flags := 0 |> <| cs_last_error := 0 |>)]>
                    example_cs_mcu.(objs)
    ∧ s1.(cmd) = example_cs_mcu.(cmd) ∧ s1.(base) = example_cs_mcu.(base)
    ∧ s1.(timers) = example_cs_mcu.(timers)
    ∧ (read_error example_cs = 0 → s32 v = if raw <? 2 ^ 23 then raw else raw - 2 ^ 24)
    ∧ cs123x_read_adc (mret tt) 100 4096 3 example_cs_mcu
      = (cs123x_add_sample 4096 3 v false;; mret tt) s1.
Proof.
  intros b. apply (cs123x_read_adc_sample 100 4096 3 example_cs example_cs_mcu).
  - intros n. simpl. lia.
  - reflexivity.
  - reflexivity.
  - reflexivity.
Defined.
