(* ===== verification/BootCom.v ===== *)
(** * The boot loader's link (src/ringbuffer.h, src/bootloader_com.c,
    and a part of src/bootloader.c)

    Received bytes wait in a ring buffer; a task takes them in chunks of at most
    128 and recognises packages in them: the bytes A5 5A, a command, a length of
    two bytes, the payload and its checksum.  [None] stands for an access outside
    of an array. *)

From S2P Require Import Prelude.
From S2P Require Import Crc16.

(** ** Arrays *)

(** [memcpy(buf + off, data, length data)]. *)
Definition blit (buf : list Z) (off : Z) (data : list Z) : option (list Z) :=
  if (0 <=? off) && (off + Z.of_nat (length data) <=? Z.of_nat (length buf))
  then Some (take (Z.to_nat off) buf ++ data ++ drop (Z.to_nat off + length data) buf)
  else None.

(** The [n] bytes at [buf + off]. *)
Definition slice (buf : list Z) (off n : Z) : option (list Z) :=
  if (0 <=? off) && (0 <=? n) && (off + n <=? Z.of_nat (length buf))
  then Some (take (Z.to_nat n) (drop (Z.to_nat off) buf)) else None.

(** ** The ring buffer (ringbuffer.h) *)

Record ringbuffer := mk_ringbuffer {
  rb_buf : list Z;
  rb_in : Z;
  rb_out : Z;
  rb_size : Z;
}.

Definition ringbuffer_min (a b : Z) : Z := if b <? a then b else a.

Definition ringbuffer_init (buf : list Z) (size : Z) : ringbuffer := mk_ringbuffer buf 0 0 size.

Definition ringbuffer_put (rb : ringbuffer) (buf : list Z) (len : Z) : option (Z * ringbuffer) :=
  let len := ringbuffer_min len (u32 (rb.(rb_size) - rb.(rb_in) + rb.(rb_out))) in
  let pos := Z.land rb.(rb_in) (u32 (rb.(rb_size) - 1)) in
  let l := u16 (ringbuffer_min len (u32 (rb.(rb_size) - pos))) in
  first ← slice buf 0 l;
  b1 ← blit rb.(rb_buf) pos first;
  second ← slice buf l (u32 (len - l));
  b2 ← blit b1 0 second;
  Some (len, mk_ringbuffer b2 (u32 (rb.(rb_in) + len)) rb.(rb_out) rb.(rb_size)).

(** The bytes taken, at most [len]. *)
Definition ringbuffer_get (rb : ringbuffer) (len : Z) : option (list Z * ringbuffer) :=
  let len := ringbuffer_min len (u32 (rb.(rb_in) - rb.(rb_out))) in
  let pos := Z.land rb.(rb_out) (u32 (rb.(rb_size) - 1)) in
  let l := u16 (ringbuffer_min len (u32 (rb.(rb_size) - pos))) in
  first ← slice rb.(rb_buf) pos l;
  second ← slice rb.(rb_buf) 0 (u32 (len - l));
  Some (first ++ second,
        mk_ringbuffer rb.(rb_buf) rb.(rb_in) (u32 (rb.(rb_out) + len)) rb.(rb_size)).

Definition ringbuffer_available_get_length (rb : ringbuffer) : Z := u32 (rb.(rb_in) - rb.(rb_out)).

Definition ringbuffer_available_put_length (rb : ringbuffer) : Z :=
  u32 (rb.(rb_size) - ringbuffer_available_get_length rb).

(** ** The protocol (bootloader_com.c) *)

Inductive com_sta := STA_A5 | STA_5A | STA_CMD | STA_LEN1 | STA_LEN2 | STA_DATA | STA_CRC1 | STA_CRC2.
#[export] Instance com_sta_eq_dec : EqDecision com_sta.
Proof. solve_decision. Defined.

Definition BOOTLOADER_COM_MAX_PAYLOAD : Z := 4096.
Definition BOOTLOADER_COM_MIN_PACKAGE_SIZE : Z := 2 + 2 + 1 + 2.
Definition COM_PARSE_BUF_SIZE : Z := 128.

(** [bootloader_package_data]: the contents of the buffer of [size] bytes, left
    alone when the package does not fit. *)
Definition bootloader_package_data (buf : list Z) (size cmd : Z) (payload : list Z) :
    option (list Z) :=
  let len := Z.of_nat (length payload) in
  if size <? BOOTLOADER_COM_MIN_PACKAGE_SIZE + len then Some buf
  else
    let crc16 := bootloader_crc16_ccitt payload in
    blit buf 0 ([0xa5; 0x5a; u8 cmd; u8 (Z.shiftr len 8); u8 (Z.land len 0xff)] ++ payload
                ++ [u8 (Z.shiftr crc16 8); u8 (Z.land crc16 0xff)]).

(** The variables of the parser. *)
Record parser := mk_parser {
  com_parse_sta : com_sta;
  com_parse_cmd : Z;
  com_parse_count : Z;
  com_parse_len : Z;
  com_parse_crc : Z;
  com_payload : list Z;
}.
#[export] Instance eta_parser : Eta parser :=
  λ r, mk_parser r.(com_parse_sta) r.(com_parse_cmd) r.(com_parse_count) r.(com_parse_len)
         r.(com_parse_crc) r.(com_payload).

Section handle.
(** [com_handle]: it is given the payload buffer, which it may write to, and runs
    on the state [St] of the boot loader. *)
Context {St : Type} (com_handle : option (Z → list Z → Z → St → list Z * St)).

Definition call_handle (p : parser) (st : St) : parser * St :=
  match com_handle with
  | Some handle =>
      let '(payload, st) := handle p.(com_parse_cmd) p.(com_payload) p.(com_parse_len) st in
      (p <| com_payload := payload |>, st)
  | None => (p, st)
  end.

(** A byte in the states other than STA_DATA: the [switch] of the task. *)
Definition parse_field (p : parser) (b : Z) (st : St) : parser * St :=
  match p.(com_parse_sta) with
  | STA_A5 => (p <| com_parse_sta := if b =? 0xa5 then STA_5A else STA_A5 |>, st)
  | STA_5A => (p <| com_parse_sta := if b =? 0x5a then STA_CMD else STA_A5 |>, st)
  | STA_CMD => (p <| com_parse_cmd := b |> <| com_parse_sta := STA_LEN1 |>, st)
  | STA_LEN1 => (p <| com_parse_len := b |> <| com_parse_sta := STA_LEN2 |>, st)
  | STA_LEN2 =>
      let len := u16 (Z.lor (Z.shiftl p.(com_parse_len) 8) b) in
      (if len <=? BOOTLOADER_COM_MAX_PAYLOAD
       then p <| com_parse_len := len |> <| com_parse_count := 0 |> <| com_parse_sta := STA_DATA |>
       else p <| com_parse_len := len |> <| com_parse_sta := STA_A5 |>, st)
  | STA_DATA => (p, st)
  | STA_CRC1 => (p <| com_parse_crc := b |> <| com_parse_sta := STA_CRC2 |>, st)
  | STA_CRC2 =>
      let crc := u16 (Z.lor (Z.shiftl p.(com_parse_crc) 8) b) in
      let p := p <| com_parse_crc := crc |> in
      let '(p, st) :=
        if bootloader_crc16_ccitt (take (Z.to_nat p.(com_parse_len)) p.(com_payload)) =? crc
        then call_handle p st else (p, st) in
      (p <| com_parse_sta := STA_A5 |>, st)
  end.

(** The copy of STA_DATA: the new state and the number of bytes used. *)
Definition parse_data (p : parser) (rest : list Z) : option (parser * nat) :=
  let l := Z.of_nat (length rest) in
  let left := p.(com_parse_len) - p.(com_parse_count) in
  let l := if l <? left then l else left in
  payload ← blit p.(com_payload) p.(com_parse_count) (take (Z.to_nat l) rest);
  let count := u16 (p.(com_parse_count) + l) in
  Some (p <| com_payload := payload |> <| com_parse_count := count |>
          <| com_parse_sta := if count =? p.(com_parse_len) then STA_CRC1 else STA_DATA |>,
        Z.to_nat l).

(** [while (i < len)]: [rest] are the bytes from [i] on. *)
Fixpoint parse_chunk (fuel : nat) (p : parser) (rest : list Z) (st : St) : option (parser * St) :=
  match rest with
  | [] => Some (p, st)
  | b :: tl =>
      match fuel with
      | O => None
      | S fuel =>
          if decide (p.(com_parse_sta) = STA_DATA) then
            '(p, l) ← parse_data p rest;
            parse_chunk fuel p (drop l rest) st
          else
            let '(p, st) := parse_field p b st in
            parse_chunk fuel p tl st
      end
  end.

(** ** The module *)

Record com := mk_com {
  com_rb : ringbuffer;
  com_parser : parser;
  com_wake : bool;
}.

(** The variables before the first byte: [DEFINE_RINGBUFFER(com_rb, 1024)]. *)
Definition com_init : com :=
  mk_com (ringbuffer_init (repeat 0 1024) 1024)
    (mk_parser STA_A5 0 0 0 0 (repeat 0 (Z.to_nat BOOTLOADER_COM_MAX_PAYLOAD))) false.

Definition bootloader_commit_data (c : com) (buf : list Z) : option com :=
  '(_, rb) ← ringbuffer_put c.(com_rb) buf (Z.of_nat (length buf));
  let wake := (BOOTLOADER_COM_MIN_PACKAGE_SIZE <=? ringbuffer_available_get_length rb)
              || negb (bool_decide (c.(com_parser).(com_parse_sta) = STA_A5)) in
  Some (mk_com rb c.(com_parser) (c.(com_wake) || wake)).

(** The [do] loop of the task; [fuel] bounds the number of chunks. *)
Fixpoint handler_loop (fuel : nat) (rb : ringbuffer) (p : parser) (st : St) :
    option (ringbuffer * parser * St) :=
  match fuel with
  | O => None
  | S fuel =>
      '(chunk, rb) ← ringbuffer_get rb COM_PARSE_BUF_SIZE;
      '(p, st) ← parse_chunk (2 * length chunk) p chunk st;
      if BOOTLOADER_COM_MIN_PACKAGE_SIZE <=? ringbuffer_available_get_length rb
      then handler_loop fuel rb p st else Some (rb, p, st)
  end.

Definition bootloader_com_handler_task (c : com) (st : St) : option (com * St) :=
  if c.(com_wake) then
    '(rb, p, st) ← handler_loop (Z.to_nat c.(com_rb).(rb_size)) c.(com_rb) c.(com_parser) st;
    Some (mk_com rb p false, st)
  else Some (c, st).

End handle.

(** ** Programming the end of a piece (bootloader.c)

    The loop that puts the last one to three bytes of a piece into the word that
    is read from the flash; [i] counts them. *)
Fixpoint tail_word (i : Z) (word : Z) (data : list Z) : Z :=
  match data with
  | [] => word
  | d :: data =>
      tail_word (i + 1)
        (Z.land word (u32 (Z.lor (Z.lnot (Z.shiftl 0xff (3 - i))) (Z.shiftl d (8 * i))))) data
  end.
