(* ===== verification/BootComSpec.v ===== *)
(** * The boot loader's link delivers packages

    The ring buffer refines a bounded queue; parsing chunks is the same as
    parsing byte by byte; a package is handed to the handler as it was sent,
    unless its end is left behind in the ring buffer. *)

From S2P Require Import Prelude.
From S2P Require Import Crc16.
From S2P Require Import BootCom.

(** ** Arrays *)

Definition overlay (buf : list Z) (off : nat) (data : list Z) : list Z :=
  take off buf ++ data ++ drop (off + length data) buf.

Lemma blit_overlay buf off data :
  (off + length data <= length buf)%nat → blit buf (Z.of_nat off) data = Some (overlay buf off data).
Proof.
  intros Hl. unfold blit. rewrite (proj2 (Z.leb_le 0 _)), (proj2 (Z.leb_le _ (Z.of_nat (length buf)))) by lia.
  by rewrite Nat2Z.id.
Qed.

Lemma overlay_length buf off data :
  (off + length data <= length buf)%nat → length (overlay buf off data) = length buf.
Proof. intros Hl. unfold overlay. rewrite !length_app, length_take, length_drop. lia. Qed.

Lemma overlay_lookup buf off data i :
  (off + length data <= length buf)%nat →
  overlay buf off data !! i
  = if decide (off <= i < off + length data)%nat then data !! (i - off)%nat else buf !! i.
Proof.
  intros Hl. unfold overlay. destruct (decide (off <= i < off + length data)%nat).
  - rewrite lookup_app_r by (rewrite length_take; lia). rewrite length_take.
    rewrite lookup_app_l by lia. f_equal. lia.
  - destruct (decide (i < off)%nat).
    + rewrite lookup_app_l by (rewrite length_take; lia). by apply lookup_take_lt.
    + rewrite !lookup_app_r by (rewrite length_take; lia). rewrite length_take, lookup_drop. f_equal. lia.
Qed.

Lemma overlay_snoc buf off b data :
  (off + S (length data) <= length buf)%nat →
  overlay (overlay buf off [b]) (S off) data = overlay buf off (b :: data).
Proof.
  intros Hl. apply list_eq. intros i.
  rewrite !overlay_lookup by (rewrite ?overlay_length; simpl; lia). simpl length.
  destruct (decide (S off <= i < S off + length data)%nat).
  - rewrite decide_True by lia. replace (i - off)%nat with (S (i - S off)) by lia. done.
  - destruct (decide (off <= i < off + 1)%nat).
    + rewrite decide_True by lia. by replace (i - off)%nat with 0%nat by lia.
    + by rewrite decide_False by lia.
Qed.

Lemma slice_eq buf off n :
  (off + n <= length buf)%nat →
  slice buf (Z.of_nat off) (Z.of_nat n) = Some (take n (drop off buf)).
Proof.
  intros Hl. unfold slice. rewrite (proj2 (Z.leb_le 0 (Z.of_nat off))), (proj2 (Z.leb_le 0 (Z.of_nat n))),
    (proj2 (Z.leb_le _ (Z.of_nat (length buf)))) by lia. by rewrite !Nat2Z.id.
Qed.

(** ** The ring buffer is a queue *)

(** A buffer of [2^k] bytes that holds at most that many. *)
Record ring_ok (rb : ringbuffer) : Prop := {
  ro_pow : ∃ k, 0 <= k <= 15 ∧ rb.(rb_size) = 2 ^ k;
  ro_length : Z.of_nat (length rb.(rb_buf)) = rb.(rb_size);
  ro_used : u32 (rb.(rb_in) - rb.(rb_out)) <= rb.(rb_size);
}.

(** Where the byte [k] places after [pos] is kept, and the bytes waiting. *)
Definition ring_pos (rb : ringbuffer) (pos : Z) (k : nat) : nat :=
  Z.to_nat ((pos + Z.of_nat k) mod rb.(rb_size)).
Definition used (rb : ringbuffer) : nat := Z.to_nat (u32 (rb.(rb_in) - rb.(rb_out))).
Definition contents (rb : ringbuffer) : list Z :=
  map (λ k, default 0 (rb.(rb_buf) !! ring_pos rb rb.(rb_out) k)) (seq 0 (used rb)).

Lemma contents_length rb : length (contents rb) = used rb.
Proof. unfold contents. by rewrite length_map, length_seq. Qed.

Lemma contents_lookup rb k :
  (k < used rb)%nat → contents rb !! k = Some (default 0 (rb.(rb_buf) !! ring_pos rb rb.(rb_out) k)).
Proof.
  intros Hk. unfold contents. rewrite list_lookup_fmap, lookup_seq_lt by done. done.
Qed.

Section ring.
Context (rb : ringbuffer) (Hok : ring_ok rb).

Lemma size_range : 1 <= rb.(rb_size) <= 2 ^ 15.
Proof.
  destruct (ro_pow _ Hok) as (k & Hk & ->). split.
  - pose proof (Z.pow_pos_nonneg 2 k). lia.
  - apply Z.pow_le_mono_r; lia.
Qed.

Lemma mask_mod x : Z.land x (u32 (rb.(rb_size) - 1)) = x mod rb.(rb_size).
Proof.
  pose proof size_range. rewrite u32_small by lia.
  destruct (ro_pow _ Hok) as (k & Hk & ->). rewrite Z.sub_1_r, <- Z.ones_equiv.
  apply Z.land_ones. lia.
Qed.

Lemma u32_mod x : u32 x mod rb.(rb_size) = x mod rb.(rb_size).
Proof.
  destruct (ro_pow _ Hok) as (k & Hk & ->). unfold u32.
  replace (2 ^ 32) with (2 ^ k * 2 ^ (32 - k)) by (rewrite <- Z.pow_add_r by lia; f_equal; lia).
  rewrite Z.rem_mul_r by (pose proof (Z.pow_pos_nonneg 2 k); pose proof (Z.pow_pos_nonneg 2 (32 - k)); lia).
  rewrite Z.mul_comm, Z_mod_plus_full. apply Z.mod_mod.
  pose proof (Z.pow_pos_nonneg 2 k). lia.
Qed.

Lemma used_bound : Z.of_nat (used rb) = u32 (rb.(rb_in) - rb.(rb_out)) ∧ Z.of_nat (used rb) <= rb.(rb_size).
Proof.
  unfold used. pose proof (u32_range (rb.(rb_in) - rb.(rb_out))). pose proof (ro_used _ Hok). lia.
Qed.

(** The place of the byte number [k] after a position that is kept modulo 2^32. *)
Lemma ring_pos_u32 x k : ring_pos rb (u32 x) k = ring_pos rb x k.
Proof.
  unfold ring_pos. f_equal. pose proof size_range.
  rewrite Z.add_mod, u32_mod, <- Z.add_mod by lia. done.
Qed.

Lemma ring_pos_add x i k : ring_pos rb (x + Z.of_nat i) k = ring_pos rb x (i + k).
Proof. unfold ring_pos. do 2 f_equal. lia. Qed.

(** The positions [k] and [j] after [x] are the same place only if they are equal
    or a whole turn apart. *)
Lemma ring_pos_inj x k j :
  (k < Z.to_nat rb.(rb_size))%nat → (j < Z.to_nat rb.(rb_size))%nat →
  ring_pos rb x k = ring_pos rb x j → k = j.
Proof.
  pose proof size_range as Hs. intros Hk Hj Heq. unfold ring_pos in Heq.
  pose proof (Z.mod_pos_bound (x + Z.of_nat k) (rb_size rb) ltac:(lia)).
  pose proof (Z.mod_pos_bound (x + Z.of_nat j) (rb_size rb) ltac:(lia)).
  assert (Hm : (x + Z.of_nat k) mod rb_size rb = (x + Z.of_nat j) mod rb_size rb) by lia.
  pose proof (Z.div_mod (x + Z.of_nat k) (rb_size rb) ltac:(lia)).
  pose proof (Z.div_mod (x + Z.of_nat j) (rb_size rb) ltac:(lia)).
  assert (Hq : Z.of_nat k - Z.of_nat j
    = rb_size rb * ((x + Z.of_nat k) / rb_size rb - (x + Z.of_nat j) / rb_size rb)) by lia.
  set (q := (x + Z.of_nat k) / rb_size rb - (x + Z.of_nat j) / rb_size rb) in *.
  assert (q = 0) by nia. lia.
Qed.

Lemma ring_pos_lt x k : (ring_pos rb x k < length rb.(rb_buf))%nat.
Proof.
  pose proof size_range as Hs. pose proof (ro_length _ Hok). unfold ring_pos.
  pose proof (Z.mod_pos_bound (x + Z.of_nat k) (rb_size rb) ltac:(lia)). lia.
Qed.

(** The two pieces of a copy of [n] bytes from the position [pos] on: up to the
    end of the array, and the rest from its start. *)
Lemma ring_pos_split pos n k :
  (n <= Z.to_nat rb.(rb_size))%nat → (k < n)%nat →
  let p := Z.to_nat (pos mod rb.(rb_size)) in
  let l := Nat.min n (Z.to_nat rb.(rb_size) - p) in
  ring_pos rb pos k = if decide (k < l)%nat then (p + k)%nat else (k - l)%nat.
Proof.
  pose proof size_range as Hs. intros Hn Hk p l.
  pose proof (Z.mod_pos_bound pos (rb_size rb) ltac:(lia)) as Hp.
  assert (Heq : (pos + Z.of_nat k) mod rb_size rb = (pos mod rb_size rb + Z.of_nat k) mod rb_size rb)
    by (by rewrite Zplus_mod_idemp_l).
  unfold ring_pos. rewrite Heq. destruct (decide (k < l)%nat) as [Hl|Hl].
  - rewrite Z.mod_small by lia. lia.
  - replace (pos mod rb_size rb + Z.of_nat k)
      with (pos mod rb_size rb + Z.of_nat k - rb_size rb + 1 * rb_size rb) by lia.
    rewrite Z_mod_plus_full, Z.mod_small by lia. lia.
Qed.


Lemma ring_pos_in j : ring_pos rb rb.(rb_in) j = ring_pos rb rb.(rb_out) (used rb + j).
Proof.
  destruct used_bound as [Hu _]. rewrite <- ring_pos_u32, <- ring_pos_add, <- (ring_pos_u32 (_ + _)).
  f_equal. rewrite Hu, u32_add_r. f_equal. lia.
Qed.

Lemma min_nat a b : ringbuffer_min (Z.of_nat a) (Z.of_nat b) = Z.of_nat (Nat.min a b).
Proof. unfold ringbuffer_min. destruct (Z.ltb_spec (Z.of_nat b) (Z.of_nat a)); lia. Qed.

(** The lengths of the pieces as the code computes them. *)
Lemma piece pos n :
  (n <= Z.to_nat rb.(rb_size))%nat →
  let p := Z.to_nat (pos mod rb.(rb_size)) in
  let l := Nat.min n (Z.to_nat rb.(rb_size) - p) in
  Z.land pos (u32 (rb.(rb_size) - 1)) = Z.of_nat p
  ∧ u16 (ringbuffer_min (Z.of_nat n) (u32 (rb.(rb_size) - Z.of_nat p))) = Z.of_nat l
  ∧ u32 (Z.of_nat n - Z.of_nat l) = Z.of_nat (n - l)
  ∧ (p + l <= length rb.(rb_buf))%nat ∧ (n - l <= length rb.(rb_buf))%nat ∧ (l <= n)%nat.
Proof.
  intros Hn p l. pose proof size_range as Hs. pose proof (ro_length _ Hok) as Hl.
  pose proof (Z.mod_pos_bound pos (rb_size rb) ltac:(lia)) as Hp.
  assert (Hu : u32 (rb_size rb - Z.of_nat p) = Z.of_nat (Z.to_nat (rb_size rb) - p))
    by (rewrite u32_small; lia).
  split_and!; [rewrite mask_mod; lia| | |lia..].
  - rewrite Hu, min_nat. unfold u16. rewrite Z.mod_small; lia.
  - rewrite u32_small; lia.
Qed.

(** Reading [n] bytes from a position on. *)
Lemma ring_read pos n :
  (n <= Z.to_nat rb.(rb_size))%nat →
  let p := Z.to_nat (pos mod rb.(rb_size)) in
  let l := Nat.min n (Z.to_nat rb.(rb_size) - p) in
  take l (drop p rb.(rb_buf)) ++ take (n - l) (drop 0 rb.(rb_buf))
  = map (λ k, default 0 (rb.(rb_buf) !! ring_pos rb pos k)) (seq 0 n).
Proof.
  intros Hn p l. pose proof size_range as Hs. pose proof (ro_length _ Hok) as Hlen.
  destruct (piece pos n Hn) as (_ & _ & _ & Hl1 & Hl2 & Hl3). fold p l in Hl1, Hl2, Hl3.
  apply list_eq_same_length with n; [by rewrite length_map, length_seq| |].
  { rewrite length_app, !length_take, !length_drop. lia. }
  intros k x y Hk Hx Hy. rewrite list_lookup_fmap, lookup_seq_lt in Hy by done. simpl in Hy.
  injection Hy as <-. rewrite (ring_pos_split pos n k Hn Hk). fold p l.
  assert (Hlt : (length (take l (drop p (rb_buf rb))) = l)%nat) by (rewrite length_take, length_drop; lia).
  destruct (decide (k < l)%nat).
  - rewrite lookup_app_l, lookup_take_lt, lookup_drop in Hx by lia. by rewrite Hx.
  - rewrite lookup_app_r, Hlt, lookup_take_lt, lookup_drop in Hx by lia. simpl in Hx. by rewrite Hx.
Qed.

(** Taking bytes out. *)
Lemma ringbuffer_get_spec len :
  let n := Nat.min len (used rb) in
  ∃ rb', ringbuffer_get rb (Z.of_nat len) = Some (take n (contents rb), rb')
    ∧ ring_ok rb' ∧ contents rb' = drop n (contents rb) ∧ rb'.(rb_size) = rb.(rb_size).
Proof.
  intros n. destruct used_bound as [Hu Hub]. pose proof size_range as Hs.
  unfold ringbuffer_get. rewrite <- Hu, min_nat. fold n.
  assert (Hn : (n <= Z.to_nat (rb_size rb))%nat) by lia.
  destruct (piece rb.(rb_out) n Hn) as (Hmask & Hpl & Hrest & Hl1 & Hl2 & Hl3).
  rewrite Hmask, Hpl, Hrest. rewrite slice_eq by done. simpl.
  rewrite (slice_eq _ 0) by (simpl; lia). simpl. eexists. split; [|split_and!].
  - do 2 f_equal. rewrite (ring_read _ _ Hn). unfold contents.
    rewrite firstn_map, take_seq. do 2 f_equal. lia.
  - destruct Hok as [Hpow Hlen Husd]. constructor; simpl; [done|done|].
    rewrite u32_sub_r. replace (rb_in rb - (rb_out rb + Z.of_nat n))
      with (rb_in rb - rb_out rb - Z.of_nat n) by lia.
    rewrite <- u32_sub_l, <- Hu, u32_small by lia. lia.
  - assert (Hused : used (mk_ringbuffer (rb_buf rb) (rb_in rb) (u32 (rb_out rb + Z.of_nat n)) (rb_size rb))
      = (used rb - n)%nat).
    { unfold used at 1. simpl. rewrite u32_sub_r. replace (rb_in rb - (rb_out rb + Z.of_nat n))
        with (rb_in rb - rb_out rb - Z.of_nat n) by lia.
      rewrite <- u32_sub_l, <- Hu, u32_small by lia. lia. }
    apply list_eq_same_length with (used rb - n)%nat.
    + by rewrite length_drop, contents_length.
    + by rewrite contents_length.
    + intros k x y Hk Hx Hy. rewrite contents_lookup in Hx by (rewrite Hused; lia).
      rewrite lookup_drop, contents_lookup in Hy by lia. simpl in Hx.
      change (ring_pos (mk_ringbuffer _ _ _ _)) with (ring_pos rb) in Hx.
      rewrite ring_pos_u32, ring_pos_add in Hx. congruence.
  - done.
Qed.


(** Writing [n] bytes from a position on. *)
Lemma ring_write pos n data :
  (n <= Z.to_nat rb.(rb_size))%nat → (n <= length data)%nat →
  let p := Z.to_nat (pos mod rb.(rb_size)) in
  let l := Nat.min n (Z.to_nat rb.(rb_size) - p) in
  let b := overlay (overlay rb.(rb_buf) p (take l (drop 0 data))) 0 (take (n - l) (drop l data)) in
  length b = length rb.(rb_buf)
  ∧ (∀ k, (k < n)%nat → b !! ring_pos rb pos k = data !! k)
  ∧ (∀ j, (∀ k, (k < n)%nat → ring_pos rb pos k ≠ j) → b !! j = rb.(rb_buf) !! j).
Proof.
  intros Hn Hd p l b. pose proof size_range as Hs. pose proof (ro_length _ Hok) as Hlen.
  destruct (piece pos n Hn) as (_ & _ & _ & Hl1 & Hl2 & Hl3). fold p l in Hl1, Hl2, Hl3.
  assert (Hf : length (take l (drop 0 data)) = l) by (rewrite length_take, length_drop; lia).
  assert (Hse : length (take (n - l) (drop l data)) = (n - l)%nat)
    by (rewrite length_take, length_drop; lia).
  assert (Hb : ∀ j, b !! j = if decide (j < n - l)%nat then data !! (l + j)%nat
    else if decide (p <= j < p + l)%nat then data !! (j - p)%nat else rb.(rb_buf) !! j).
  { intros j. unfold b. rewrite overlay_lookup by (rewrite Hse, overlay_length; rewrite ?Hf; lia).
    rewrite Hse. destruct (decide (j < n - l)%nat).
    - rewrite decide_True by lia. rewrite lookup_take_lt, lookup_drop by lia. f_equal. lia.
    - rewrite decide_False by lia. rewrite overlay_lookup by (rewrite Hf; lia). rewrite Hf.
      destruct (decide (p <= j < p + l)%nat); [|done].
      by rewrite lookup_take_lt, lookup_drop by lia. }
  split_and!.
  - unfold b. rewrite !overlay_length; rewrite ?overlay_length, ?Hf, ?Hse; lia.
  - intros k Hk. rewrite Hb, (ring_pos_split pos n k Hn Hk). fold p l.
    destruct (decide (k < l)%nat).
    + rewrite decide_False by lia. rewrite decide_True by lia. f_equal. lia.
    + rewrite decide_True by lia. f_equal. lia.
  - intros j Hj. rewrite Hb. destruct (decide (j < n - l)%nat).
    + exfalso. apply (Hj (l + j)%nat); [lia|]. rewrite (ring_pos_split pos n (l + j) Hn) by lia.
      fold p l. rewrite decide_False by lia. lia.
    + destruct (decide (p <= j < p + l)%nat); [|done]. exfalso. apply (Hj (j - p)%nat); [lia|].
      rewrite (ring_pos_split pos n (j - p) Hn) by lia. fold p l. rewrite decide_True by lia. lia.
Qed.

(** Putting bytes in. *)
Lemma ringbuffer_put_spec data :
  let n := Nat.min (length data) (Z.to_nat rb.(rb_size) - used rb) in
  Z.of_nat (length data) < 2 ^ 32 →
  ∃ rb', ringbuffer_put rb data (Z.of_nat (length data)) = Some (Z.of_nat n, rb')
    ∧ ring_ok rb' ∧ contents rb' = contents rb ++ take n data ∧ rb'.(rb_size) = rb.(rb_size).
Proof.
  intros n Hdata. destruct used_bound as [Hu Hub]. pose proof size_range as Hs.
  unfold ringbuffer_put.
  assert (Hspace : u32 (rb_size rb - rb_in rb + rb_out rb) = Z.of_nat (Z.to_nat (rb_size rb) - used rb)).
  { replace (rb_size rb - rb_in rb + rb_out rb) with (rb_size rb - (rb_in rb - rb_out rb)) by lia.
    rewrite <- u32_sub_r, <- Hu, u32_small by lia. lia. }
  rewrite Hspace, min_nat. fold n.
  assert (Hn : (n <= Z.to_nat (rb_size rb))%nat) by lia. assert (Hnd : (n <= length data)%nat) by lia.
  destruct (piece rb.(rb_in) n Hn) as (Hmask & Hpl & Hrest & Hl1 & Hl2 & Hl3).
  destruct (ring_write rb.(rb_in) n data Hn Hnd) as (Hblen & Hbin & Hbout).
  rewrite Hmask, Hpl, Hrest. rewrite (slice_eq data 0) by lia. simpl.
  rewrite blit_overlay by (rewrite length_take; lia). simpl.
  rewrite slice_eq by lia. simpl.
  rewrite (blit_overlay _ 0) by (rewrite overlay_length; rewrite ?length_take, ?length_drop; lia). simpl.
  eexists. split; [done|]. set (b := overlay _ 0 _) in *. clearbody b.
  set (rb' := mk_ringbuffer b (u32 (rb_in rb + Z.of_nat n)) (rb_out rb) (rb_size rb)).
  assert (Hused : used rb' = (used rb + n)%nat).
  { unfold used at 1. simpl. rewrite u32_sub_l.
    replace (rb_in rb + Z.of_nat n - rb_out rb) with (rb_in rb - rb_out rb + Z.of_nat n) by lia.
    rewrite <- u32_add_l, <- Hu, u32_small by lia. lia. }
  split_and!; [| |done].
  - pose proof (u32_range (rb_in rb' - rb_out rb')). unfold used in Hused.
    destruct Hok as [Hpow Hlen Husd]. constructor; simpl in *; [done|by rewrite Hblen|]. lia.
  - apply list_eq_same_length with (used rb + n)%nat.
    + rewrite length_app, length_take, contents_length. lia.
    + by rewrite contents_length.
    + intros k x y Hk Hx Hy. rewrite contents_lookup in Hx by (rewrite Hused; lia). simpl in Hx.
      change (ring_pos rb') with (ring_pos rb) in Hx. destruct (decide (k < used rb)%nat).
      * rewrite lookup_app_l, contents_lookup in Hy by (rewrite ?contents_length; lia).
        rewrite Hbout in Hx; [congruence|]. intros j Hj. rewrite ring_pos_in.
        intros Heq%ring_pos_inj; lia.
      * rewrite lookup_app_r, contents_length, lookup_take_lt in Hy by (rewrite ?contents_length; lia).
        replace k with (used rb + (k - used rb))%nat in Hx by lia.
        rewrite <- ring_pos_in, Hbin, Hy in Hx by lia. simpl in Hx. congruence.
Qed.

End ring.

(** ** Parsing chunks is parsing byte by byte *)

Section parse.
Context {St : Type} (com_handle : option (Z → list Z → Z → St → list Z * St)).

(** The reference: one byte at a time.  A package without payload has its
    checksum where the first data byte would be. *)
Definition parse_byte (ps : parser * St) (b : Z) : parser * St :=
  let '(p, st) := ps in
  if decide (p.(com_parse_sta) = STA_DATA) then
    if p.(com_parse_count) =? p.(com_parse_len)
    then parse_field com_handle (p <| com_parse_sta := STA_CRC1 |>) b st
    else
      let count := p.(com_parse_count) + 1 in
      (p <| com_payload := overlay p.(com_payload) (Z.to_nat p.(com_parse_count)) [b] |>
         <| com_parse_count := count |>
         <| com_parse_sta := if count =? p.(com_parse_len) then STA_CRC1 else STA_DATA |>, st)
  else parse_field com_handle p b st.

(** The payload buffer has its size, and the bytes expected fit into it. *)
Record parser_ok (p : parser) : Prop := {
  po_payload : Z.of_nat (length p.(com_payload)) = BOOTLOADER_COM_MAX_PAYLOAD;
  po_data : p.(com_parse_sta) = STA_DATA →
    0 <= p.(com_parse_count) <= p.(com_parse_len) ∧ p.(com_parse_len) <= BOOTLOADER_COM_MAX_PAYLOAD
    ∧ (p.(com_parse_count) = p.(com_parse_len) → p.(com_parse_len) = 0);
}.

(** The handler writes inside of the payload buffer. *)
Definition handle_ok : Prop :=
  ∀ handle, com_handle = Some handle →
  ∀ cmd payload len st, length (handle cmd payload len st).1 = length payload.

Hypothesis Hhandle : handle_ok.

Lemma parse_field_ok p b st :
  Z.of_nat (length p.(com_payload)) = BOOTLOADER_COM_MAX_PAYLOAD → p.(com_parse_sta) ≠ STA_DATA →
  parser_ok (parse_field com_handle p b st).1.
Proof.
  intros Hp Hs. unfold parse_field.
  destruct (com_parse_sta p) eqn:Hsta; simpl; try done; try (constructor; simpl; done).
  - constructor; [done|]. simpl. by destruct (_ =? _).
  - constructor; [done|]. simpl. by destruct (_ =? _).
  - destruct (Z.leb_spec (u16 (Z.lor (Z.shiftl (com_parse_len p) 8) b)) BOOTLOADER_COM_MAX_PAYLOAD);
      constructor; simpl; try done. intros _.
    pose proof (u16_range (Z.lor (Z.shiftl (com_parse_len p) 8) b)). lia.
  - unfold call_handle. destruct (_ =? _); [|by constructor].
    destruct com_handle as [handle|] eqn:Hh; [|by constructor].
    simpl. destruct (handle _ _ _ st) as [pl st'] eqn:Hcall. constructor; [|done]. simpl.
    pose proof (Hhandle handle Hh (com_parse_cmd p) (com_payload p) (com_parse_len p) st) as Hlen.
    rewrite Hcall in Hlen. simpl in Hlen. by rewrite Hlen.
Qed.

Lemma parse_byte_ok p b st : parser_ok p → parser_ok (parse_byte (p, st) b).1.
Proof.
  intros [Hp Hd]. unfold parse_byte. destruct (decide _) as [Hs|Hs]; [|by apply parse_field_ok].
  destruct (Hd Hs) as (Hc & Hl & Hz).
  destruct (Z.eqb_spec p.(com_parse_count) p.(com_parse_len)); [by apply parse_field_ok|].
  unfold BOOTLOADER_COM_MAX_PAYLOAD in *. constructor; simpl.
  - rewrite overlay_length; [done|]. simpl length. lia.
  - intros Hs'. destruct (Z.eqb_spec (com_parse_count p + 1) (com_parse_len p)); [done|]. unfold BOOTLOADER_COM_MAX_PAYLOAD. lia.
Qed.

Lemma parse_bytes_ok bs ps : parser_ok ps.1 → parser_ok (fold_left parse_byte bs ps).1.
Proof.
  revert ps. induction bs as [|b bs IH]; intros [p st] Hok; simpl; [done|].
  apply IH. by apply parse_byte_ok.
Qed.

(** Copying data bytes is handling them one by one. *)
Lemma parse_data_bytes d : ∀ p st,
  parser_ok p → p.(com_parse_sta) = STA_DATA → d ≠ [] →
  p.(com_parse_count) + Z.of_nat (length d) <= p.(com_parse_len) →
  fold_left parse_byte d (p, st)
  = (p <| com_payload := overlay p.(com_payload) (Z.to_nat p.(com_parse_count)) d |>
       <| com_parse_count := p.(com_parse_count) + Z.of_nat (length d) |>
       <| com_parse_sta := if p.(com_parse_count) + Z.of_nat (length d) =? p.(com_parse_len)
                           then STA_CRC1 else STA_DATA |>, st).
Proof.
  induction d as [|b d IH]; intros p st Hok Hs Hne Hlen; [done|].
  pose proof Hok as [Hp Hd]. destruct (Hd Hs) as (Hc & Hl & _).
  unfold BOOTLOADER_COM_MAX_PAYLOAD in *. simpl in Hlen.
  cbn [fold_left]. unfold parse_byte at 2. rewrite decide_True by done.
  rewrite (proj2 (Z.eqb_neq _ _)) by lia.
  destruct d as [|b' d].
  { simpl. done. }
  rewrite (proj2 (Z.eqb_neq (_ + 1) _)) by (simpl in Hlen; lia).
  rewrite IH; [|..|done|simpl in *; lia].
  - destruct p as [sta cmd count len crc pl]. cbn -[overlay Z.to_nat Z.of_nat length Z.add Z.eqb] in *.
    replace (count + 1 + Z.of_nat (length (b' :: d)))
      with (count + Z.of_nat (length (b :: b' :: d))) by (simpl length; lia).
    replace (Z.to_nat (count + 1)) with (S (Z.to_nat count)) by lia.
    rewrite overlay_snoc by (simpl in *; lia). reflexivity.
  - constructor; simpl; [rewrite overlay_length; [done|simpl length; lia]|].
    intros _. simpl in Hlen. unfold BOOTLOADER_COM_MAX_PAYLOAD. lia.
  - done.
Qed.

Lemma overlay_nil buf off : overlay buf off [] = buf.
Proof. unfold overlay. simpl. rewrite Nat.add_0_r. apply take_drop. Qed.

Lemma parse_data_eq p rest :
  parser_ok p → p.(com_parse_sta) = STA_DATA →
  let l := Nat.min (length rest) (Z.to_nat (p.(com_parse_len) - p.(com_parse_count))) in
  let count := p.(com_parse_count) + Z.of_nat l in
  parse_data p rest
  = Some (p <| com_payload := overlay p.(com_payload) (Z.to_nat p.(com_parse_count)) (take l rest) |>
            <| com_parse_count := count |>
            <| com_parse_sta := if count =? p.(com_parse_len) then STA_CRC1 else STA_DATA |>, l).
Proof.
  intros [Hp Hd] Hs l count. destruct (Hd Hs) as (Hc & Hl & _). unfold parse_data.
  unfold BOOTLOADER_COM_MAX_PAYLOAD in *.
  assert (Heq : (if Z.of_nat (length rest) <? p.(com_parse_len) - p.(com_parse_count)
    then Z.of_nat (length rest) else p.(com_parse_len) - p.(com_parse_count)) = Z.of_nat l).
  { destruct (Z.ltb_spec (Z.of_nat (length rest)) (com_parse_len p - com_parse_count p)); lia. }
  rewrite Heq, Nat2Z.id.
  rewrite <- (Z2Nat.id (com_parse_count p)) at 1 by lia.
  rewrite blit_overlay by (rewrite length_take; lia). simpl mbind.
  unfold u16. rewrite Z.mod_small by lia. done.
Qed.

Lemma parse_chunk_bytes fuel : ∀ p rest st,
  parser_ok p →
  (2 * length rest <= fuel
   ∨ (p.(com_parse_sta) = STA_DATA → p.(com_parse_count) ≠ p.(com_parse_len))
     ∧ 2 * length rest <= fuel + 1)%nat →
  parse_chunk com_handle fuel p rest st = Some (fold_left parse_byte rest (p, st)).
Proof.
  induction fuel as [|fuel IH]; intros p rest st Hok Hf; destruct rest as [|b tl]; try done.
  { simpl in Hf. lia. }
  cbn [parse_chunk]. destruct (decide (com_parse_sta p = STA_DATA)) as [Hs|Hs].
  2: { simpl in Hf. cbn [fold_left]. unfold parse_byte at 2. rewrite decide_False by done.
       pose proof (parse_byte_ok p b st Hok) as Hok'. unfold parse_byte in Hok'.
       rewrite decide_False in Hok' by done.
       destruct (parse_field com_handle p b st) as [p' st']. apply IH; [done|]. left. lia. }
  rewrite parse_data_eq by done.
  set (l := Nat.min (length (b :: tl)) (Z.to_nat (com_parse_len p - com_parse_count p))).
  cbn [mbind option_bind].
  pose proof Hok as [Hp Hd]. destruct (Hd Hs) as (Hc & Hl & Hz).
  destruct (decide (com_parse_count p = com_parse_len p)) as [Hzero|Hnz].
  - destruct Hf as [Hf|[Hf _]]; [|by destruct (Hf Hs)].
    assert (l = 0%nat) as -> by (unfold l; lia). rewrite drop_0, take_0, overlay_nil.
    rewrite Hzero, Z.add_0_r, Z.eqb_refl. set (p' := p <| com_payload := _ |> <| com_parse_count := _ |> <| com_parse_sta := _ |>).
    assert (Hp' : p' = p <| com_parse_sta := STA_CRC1 |>) by (unfold p'; rewrite <- Hzero; by destruct p).
    rewrite Hp'. rewrite IH; [|by constructor|right; split; [done|lia]].
    f_equal. cbn [fold_left]. f_equal. unfold parse_byte. rewrite (decide_True _ _ Hs).
    by rewrite (proj2 (Z.eqb_eq _ _) Hzero).
  - assert (Hlt : (1 <= l <= length (b :: tl))%nat) by (unfold l; cbn [length]; lia).
    assert (Hlen : length (take l (b :: tl)) = l) by (rewrite length_take; lia).
    pose proof (parse_data_bytes (take l (b :: tl)) p st Hok Hs) as Hbytes.
    rewrite Hlen in Hbytes. specialize (Hbytes ltac:(intros Hn; rewrite Hn in Hlen; simpl in Hlen; lia)).
    specialize (Hbytes ltac:(unfold l; lia)).
    assert (Hfold : fold_left parse_byte (b :: tl) (p, st) = fold_left parse_byte (drop l (b :: tl))
      (fold_left parse_byte (take l (b :: tl)) (p, st))) by (by rewrite <- fold_left_app, take_drop).
    rewrite Hfold, Hbytes.
    pose proof (parse_bytes_ok (take l (b :: tl)) (p, st) Hok) as Hok'. rewrite Hbytes in Hok'.
    apply IH; [done|]. left. rewrite length_drop. simpl in *. lia.
Qed.

(** ** A package *)

Definition package (cmd : Z) (payload : list Z) : list Z :=
  let len := Z.of_nat (length payload) in
  let crc := crc16_ccitt payload in
  [0xa5; 0x5a; cmd; len / 256; len mod 256] ++ payload ++ [crc / 256; crc mod 256].

Lemma package_eq buf cmd payload :
  is_byte cmd → Z.of_nat (length payload) < 65536 →
  Z.of_nat (length buf) = Z.of_nat (length payload) + 7 →
  bootloader_package_data buf (Z.of_nat (length buf)) cmd payload = Some (package cmd payload).
Proof.
  intros Hcmd Hlen Hbuf. unfold bootloader_package_data, BOOTLOADER_COM_MIN_PACKAGE_SIZE.
  rewrite (proj2 (Z.ltb_ge _ _)) by lia. change (bootloader_crc16_ccitt payload) with (crc16_ccitt payload).
  pose proof (crc16_ccitt_range payload) as Hc. set (crc := crc16_ccitt payload) in *.
  rewrite !land_ff, !shiftr_div by lia. change (2 ^ 8) with 256. unfold u8. change (2 ^ 8) with 256.
  rewrite (Z.mod_small cmd), (Z.mod_small (_ / 256)), (Z.mod_small (crc / 256)),
    !Z.mod_mod by (unfold is_byte in *; try (Z.div_mod_to_equations); lia).
  change (0%Z) with (Z.of_nat 0). rewrite blit_overlay by (rewrite !length_app; simpl; lia).
  unfold overlay. simpl. f_equal. unfold package. fold crc. simpl. do 5 f_equal.
  rewrite drop_ge; [by rewrite app_nil_r|]. rewrite length_app. simpl. lia.
Qed.

Lemma join_bytes x : 0 <= x < 65536 → u16 (Z.lor (Z.shiftl (x / 256) 8) (x mod 256)) = x.
Proof.
  intros Hx. rewrite shiftl_mul by lia.
  rewrite lor_disjoint by (try lia; change (2 ^ 8) with 256; apply Z.mod_pos_bound; lia).
  change (2 ^ 8) with 256. rewrite (Z.mul_comm (x / 256)), <- Z.div_mod by lia.
  unfold u16. apply Z.mod_small. lia.
Qed.

Lemma overlay_prefix buf data :
  (length data <= length buf)%nat → take (length data) (overlay buf 0 data) = data.
Proof. intros Hl. unfold overlay. simpl. apply take_app_length. Qed.

(** After the header, the parser expects the payload. *)
Lemma parse_header cmd n p st :
  p.(com_parse_sta) = STA_A5 → 0 <= n <= BOOTLOADER_COM_MAX_PAYLOAD →
  fold_left parse_byte [0xa5; 0x5a; cmd; n / 256; n mod 256] (p, st)
  = (mk_parser STA_DATA cmd 0 n p.(com_parse_crc) p.(com_payload), st).
Proof.
  intros Hs Hn. unfold BOOTLOADER_COM_MAX_PAYLOAD in Hn. destruct p as [sta ? ? ? ? ?]. simpl in Hs. subst sta.
  lazy -[Z.div Z.modulo u16 Z.lor Z.shiftl Z.leb Z.le]. rewrite join_bytes by lia.
  unfold BOOTLOADER_COM_MAX_PAYLOAD. by rewrite (proj2 (Z.leb_le _ _)) by lia.
Qed.

(** The first byte of the checksum, after a payload that may be empty. *)
Lemma parse_payload cmd payload c b pl st :
  Z.of_nat (length pl) = BOOTLOADER_COM_MAX_PAYLOAD → (length payload <= length pl)%nat →
  let n := Z.of_nat (length payload) in
  fold_left parse_byte (payload ++ [b]) (mk_parser STA_DATA cmd 0 n c pl, st)
  = (mk_parser STA_CRC2 cmd n n b (overlay pl 0 payload), st).
Proof.
  intros Hpl Hlen n. rewrite fold_left_app. destruct (decide (payload = [])) as [->|Hne].
  { by rewrite overlay_nil. }
  rewrite parse_data_bytes; [|constructor; simpl; [done|lia]|done|done|simpl; lia].
  simpl com_parse_count. simpl com_parse_len. rewrite Z.add_0_l. fold n. by rewrite Z.eqb_refl.
Qed.

Definition handled (cmd : Z) (payload : list Z) (p : parser) (st : St) : St :=
  match com_handle with
  | Some handle =>
      (handle cmd (overlay p.(com_payload) 0 payload) (Z.of_nat (length payload)) st).2
  | None => st
  end.

Lemma parse_package p st cmd payload :
  parser_ok p → p.(com_parse_sta) = STA_A5 →
  Z.of_nat (length payload) <= BOOTLOADER_COM_MAX_PAYLOAD →
  ∃ p', fold_left parse_byte (package cmd payload) (p, st) = (p', handled cmd payload p st)
    ∧ parser_ok p' ∧ p'.(com_parse_sta) = STA_A5.
Proof.
  intros Hok Hs Hlen. pose proof (po_payload _ Hok) as Hpl.
  pose proof (parse_bytes_ok (package cmd payload) (p, st) Hok) as Hp'.
  destruct (fold_left parse_byte (package cmd payload) (p, st)) as [p' st'] eqn:Hf.
  exists p'. enough (st' = handled cmd payload p st ∧ com_parse_sta p' = STA_A5) as [-> ?] by done.
  clear Hp'. unfold package in Hf. pose proof (crc16_ccitt_range payload) as Hcr.
  set (crc := crc16_ccitt payload) in *.
  change ([crc / 256; crc mod 256]) with ([crc / 256] ++ [crc mod 256]) in Hf.
  rewrite (app_assoc payload), !(fold_left_app _ _ _ (p, st)), parse_header in Hf by (done || lia).
  rewrite fold_left_app, parse_payload in Hf by (done || lia).
  cbn [fold_left] in Hf. unfold parse_byte in Hf. cbn [com_parse_sta] in Hf.
  rewrite decide_False in Hf by done. unfold parse_field in Hf. simpl in Hf.
  rewrite join_bytes, Nat2Z.id, overlay_prefix in Hf by lia.
  change (bootloader_crc16_ccitt payload) with crc in Hf. rewrite Z.eqb_refl in Hf.
  unfold handled, call_handle in *. destruct com_handle as [handle|].
  - simpl in Hf. destruct (handle _ _ _ st) as [pl' st1]. by injection Hf as <- <-.
  - by injection Hf as <- <-.
Qed.

(** ** The task *)

(** The chunks the task takes: it stops when fewer bytes are left than the
    smallest package has. *)
Lemma handler_loop_spec fuel : ∀ rb p st,
  ring_ok rb → parser_ok p → (used rb < fuel + 1)%nat → (1 <= fuel)%nat →
  ∃ done rest rb' p' st',
    handler_loop com_handle fuel rb p st = Some (rb', p', st')
    ∧ contents rb = done ++ rest ∧ (length rest < 7)%nat ∧ ((used rb <= 128)%nat → rest = [])
    ∧ fold_left parse_byte done (p, st) = (p', st') ∧ parser_ok p'
    ∧ ring_ok rb' ∧ contents rb' = rest.
Proof.
  induction fuel as [|fuel IH]; intros rb p st Hrb Hp Hf H1; [lia|]. cbn [handler_loop].
  change COM_PARSE_BUF_SIZE with (Z.of_nat 128).
  destruct (ringbuffer_get_spec rb Hrb 128) as (rb1 & -> & Hrb1 & Hc1 & _). cbn [mbind option_bind].
  set (n := Nat.min 128 (used rb)) in *.
  rewrite parse_chunk_bytes by (try done; left; lia). cbn [mbind option_bind].
  destruct (fold_left parse_byte (take n (contents rb)) (p, st)) as [p1 st1] eqn:Hfold.
  assert (Hp1 : parser_ok p1).
  { pose proof (parse_bytes_ok (take n (contents rb)) (p, st) Hp) as H. by rewrite Hfold in H. }
  assert (Hu1 : used rb1 = (used rb - n)%nat) by (by rewrite <- !contents_length, Hc1, length_drop).
  destruct (used_bound rb1 Hrb1) as [Hub _]. unfold ringbuffer_available_get_length. rewrite <- Hub.
  change BOOTLOADER_COM_MIN_PACKAGE_SIZE with 7. destruct (Z.leb_spec 7 (Z.of_nat (used rb1))).
  - destruct (IH rb1 p1 st1) as (dn & rest & rb' & p' & st' & Hrun & Hc & Hr & Hs & Hfd & Hok & Hrb' & Hrest);
      [done|done|lia|lia|].
    exists (take n (contents rb) ++ dn), rest, rb', p', st'. split_and!; try done.
    + rewrite <- app_assoc, <- Hc, Hc1. by rewrite take_drop.
    + intros. lia.
    + by rewrite fold_left_app, Hfold.
  - exists (take n (contents rb)), (drop n (contents rb)), rb1, p1, st1. split_and!; try done.
    + by rewrite take_drop.
    + rewrite length_drop, contents_length. lia.
    + intros Hsmall. apply drop_ge. rewrite contents_length. lia.
Qed.

(** ** The module *)

Record com_ok (c : com) : Prop := {
  co_ring : ring_ok c.(com_rb);
  co_parser : parser_ok c.(com_parser);
}.

Lemma commit_spec c bs :
  com_ok c → Z.of_nat (length bs) < 2 ^ 32 →
  let n := Nat.min (length bs) (Z.to_nat c.(com_rb).(rb_size) - used c.(com_rb)) in
  ∃ c', bootloader_commit_data c bs = Some c' ∧ com_ok c'
    ∧ contents c'.(com_rb) = contents c.(com_rb) ++ take n bs
    ∧ c'.(com_parser) = c.(com_parser) ∧ c'.(com_rb).(rb_size) = c.(com_rb).(rb_size)
    ∧ ((7 <= length (contents c'.(com_rb)))%nat → c'.(com_wake) = true).
Proof.
  intros [Hrb Hp] Hlen n. unfold bootloader_commit_data.
  destruct (ringbuffer_put_spec _ Hrb bs Hlen) as (rb' & -> & Hrb' & Hc & Hs). cbn [mbind option_bind].
  eexists. split; [done|]. split; [by constructor|]. split_and!; [done..|]. simpl.
  destruct (used_bound rb' Hrb') as [Hu _]. unfold ringbuffer_available_get_length. rewrite <- Hu.
  rewrite contents_length. intros H7. change BOOTLOADER_COM_MIN_PACKAGE_SIZE with 7.
  rewrite (proj2 (Z.leb_le _ _)) by lia. simpl. by rewrite orb_true_r.
Qed.

Lemma task_spec c st :
  com_ok c →
  ∃ done c' st', bootloader_com_handler_task com_handle c st = Some (c', st') ∧ com_ok c'
    ∧ contents c.(com_rb) = done ++ contents c'.(com_rb) ∧ c'.(com_wake) = false
    ∧ fold_left parse_byte done (c.(com_parser), st) = (c'.(com_parser), st')
    ∧ (c.(com_wake) = true → (length (contents c'.(com_rb)) < 7)%nat)
    ∧ (c.(com_wake) = true → (used c.(com_rb) <= 128)%nat → contents c'.(com_rb) = []).
Proof.
  intros [Hrb Hp]. unfold bootloader_com_handler_task. destruct c as [rb p wake]. simpl in *.
  destruct wake; [|exists []; eexists _, _; split; [done|]; split_and!; done].
  pose proof (size_range _ Hrb). destruct (used_bound _ Hrb).
  destruct (handler_loop_spec (Z.to_nat rb.(rb_size)) rb p st)
    as (dn & rest & rb' & p' & st' & -> & Hc & Hr & Hs & Hf & Hp' & Hrb' & Hrest); [done|done|lia|lia|].
  cbn [mbind option_bind]. exists dn. eexists _, _. split; [done|]. simpl. rewrite Hrest.
  by split_and!.
Qed.

(** What happens to the module: bytes arrive, the task runs. *)
Inductive com_op := Op_commit (bs : list Z) | Op_task.

(** The bytes of a commit that find room. *)
Definition accepted (c : com) (op : com_op) : list Z :=
  match op with
  | Op_commit bs => take (Z.to_nat (ringbuffer_available_put_length c.(com_rb))) bs
  | Op_task => []
  end.

Definition run_op (op : com_op) (c : com) (st : St) : option (com * St) :=
  match op with
  | Op_commit bs => c ← bootloader_commit_data c bs; Some (c, st)
  | Op_task => bootloader_com_handler_task com_handle c st
  end.

Fixpoint run_ops (ops : list com_op) (c : com) (st : St) : option (list Z * com * St) :=
  match ops with
  | [] => Some ([], c, st)
  | op :: ops =>
      '(c', st') ← run_op op c st;
      '(taken, c'', st'') ← run_ops ops c' st';
      Some (accepted c op ++ taken, c'', st'')
  end.

Definition op_ok (op : com_op) : Prop :=
  match op with Op_commit bs => Z.of_nat (length bs) < 2 ^ 32 | Op_task => True end.

Lemma put_length rb :
  ring_ok rb → Z.to_nat (ringbuffer_available_put_length rb) = (Z.to_nat rb.(rb_size) - used rb)%nat.
Proof.
  intros Hrb. destruct (used_bound rb Hrb) as [Hu Hle]. pose proof (size_range rb Hrb).
  unfold ringbuffer_available_put_length, ringbuffer_available_get_length.
  rewrite <- Hu, u32_small by lia. lia.
Qed.

Lemma take_min {A} (l : list A) m : take (Nat.min (length l) m) l = take m l.
Proof.
  destruct (Nat.le_ge_cases (length l) m); [|by rewrite Nat.min_r].
  rewrite Nat.min_l by done. by rewrite !take_ge.
Qed.

(** One step keeps: what was taken so far is what was parsed and what waits. *)
Lemma run_op_stream op c st :
  com_ok c → op_ok op →
  ∃ done c' st', run_op op c st = Some (c', st') ∧ com_ok c'
    ∧ contents c.(com_rb) ++ accepted c op = done ++ contents c'.(com_rb)
    ∧ fold_left parse_byte done (c.(com_parser), st) = (c'.(com_parser), st').
Proof.
  intros Hc Hop. destruct op as [bs|]; simpl.
  - destruct (commit_spec c bs Hc Hop) as (c' & -> & Hc' & Hcont & Hp & _ & _). cbn [mbind option_bind].
    exists [], c', st. split; [done|]. split; [done|]. simpl. rewrite Hp. split; [|done].
    rewrite put_length by apply Hc. by rewrite Hcont, take_min.
  - destruct (task_spec c st Hc) as (dn & c' & st' & Hrun & Hc' & Hcont & _ & Hf & _).
    exists dn, c', st'. by rewrite app_nil_r.
Qed.

Lemma run_ops_stream ops : ∀ c st,
  com_ok c → Forall op_ok ops →
  ∃ taken done c' st', run_ops ops c st = Some (taken, c', st') ∧ com_ok c'
    ∧ contents c.(com_rb) ++ taken = done ++ contents c'.(com_rb)
    ∧ fold_left parse_byte done (c.(com_parser), st) = (c'.(com_parser), st').
Proof.
  induction ops as [|op ops IH]; intros c st Hc Hops.
  { exists [], [], c, st. by rewrite app_nil_r. }
  apply Forall_cons in Hops as [Hop Hops]. cbn [run_ops].
  destruct (run_op_stream op c st Hc Hop) as (d1 & c1 & st1 & -> & Hc1 & Hcont & Hf1).
  cbn [mbind option_bind].
  destruct (IH c1 st1 Hc1 Hops) as (taken & d2 & c2 & st2 & -> & Hc2 & Hcont2 & Hf2).
  cbn [mbind option_bind]. exists (accepted c op ++ taken), (d1 ++ d2), c2, st2.
  split; [done|]. split; [done|]. split; [|by rewrite fold_left_app, Hf1].
  by rewrite app_assoc, Hcont, <- !app_assoc, Hcont2.
Qed.

(** Nothing waits and no package has begun. *)
Record com_idle (c : com) : Prop := {
  ci_ok : com_ok c;
  ci_empty : contents c.(com_rb) = [];
  ci_sta : c.(com_parser).(com_parse_sta) = STA_A5;
}.

Lemma commit_package_task c st cmd payload :
  com_idle c → Z.of_nat (length payload) <= 121 → 128 <= c.(com_rb).(rb_size) →
  ∃ c1 c2, bootloader_commit_data c (package cmd payload) = Some c1
    ∧ bootloader_com_handler_task com_handle c1 st = Some (c2, handled cmd payload c.(com_parser) st)
    ∧ com_idle c2.
Proof.
  intros [Hok He Hs] Hlen Hsize.
  assert (Hpl : length (package cmd payload) = (length payload + 7)%nat)
    by (unfold package; rewrite !length_app; simpl; lia).
  assert (Hu : used (com_rb c) = 0%nat) by (by rewrite <- contents_length, He).
  destruct (commit_spec c (package cmd payload) Hok ltac:(lia)) as (c1 & -> & Hc1 & Hcont & Hp & _ & Hw).
  rewrite He, Hu, Nat.min_l, take_ge in Hcont by lia. simpl in Hcont. rewrite Hcont, Hpl in Hw.
  destruct (task_spec c1 st Hc1) as (dn & c2 & st' & Htask & Hc2 & Hd & _ & Hf & _ & Hall).
  rewrite Hcont in Hd. rewrite Hall in Hd;
    [|apply Hw; lia|rewrite <- contents_length, Hcont; lia].
  rewrite app_nil_r in Hd. subst dn. rewrite Hp in Hf.
  destruct (parse_package (com_parser c) st cmd payload (co_parser _ Hok) Hs) as (p' & Hpp & Hp' & Hsta).
  { unfold BOOTLOADER_COM_MAX_PAYLOAD. lia. }
  rewrite Hpp in Hf. injection Hf as -> <-. exists c1, c2. split; [done|]. split; [done|].
  constructor; [done| |done]. apply Hall; [apply Hw; lia|rewrite <- contents_length, Hcont; lia].
Qed.

End parse.

Lemma com_init_idle : com_idle com_init.
Proof.
  constructor; [constructor; constructor|..]; simpl; try done. by exists 10.
Qed.

(** C36: the boot loader's task recognises packages in the stream of bytes, however
    the stream arrives.  For every sequence of commits (of any bytes, in pieces of
    any length) and runs of the task, from the initial state, no access leaves an
    array, the task's loops end, and the parser and the handler are in the state
    that they reach when the bytes taken by the ring buffer are looked at one by
    one; the bytes not looked at yet are the ones that wait in the ring buffer. *)
Theorem com_stream_bytewise {St} (com_handle : option (Z → list Z → Z → St → list Z * St)) ops st :
  handle_ok com_handle → Forall op_ok ops →
  ∃ taken done c' st', run_ops com_handle ops com_init st = Some (taken, c', st')
    ∧ taken = done ++ contents c'.(com_rb)
    ∧ fold_left (parse_byte com_handle) done (com_init.(com_parser), st) = (c'.(com_parser), st').
Proof.
  intros Hh Hops. pose proof com_init_idle as [Hok He _].
  destruct (run_ops_stream com_handle Hh ops com_init st Hok Hops)
    as (taken & dn & c' & st' & Hrun & _ & Hc & Hf).
  rewrite He in Hc. by exists taken, dn, c', st'.
Qed.

(** A handler that records what it is called with. *)
Definition recorder (cmd : Z) (payload : list Z) (len : Z) (log : list (Z * list Z)) :
    list Z * list (Z * list Z) :=
  (payload, log ++ [(cmd, take (Z.to_nat len) payload)]).

Lemma recorder_ok : handle_ok (Some recorder).
Proof. by intros handle [= <-] cmd payload len st. Qed.

Lemma com_stream_bytewise_witness :
  ∃ taken done c' st',
    run_ops (Some recorder) [Op_commit [0xa5; 0x5a; 1]; Op_task; Op_commit [0; 0; 0xff; 0xff]; Op_task]
      com_init [] = Some (taken, c', st')
    ∧ taken = done ++ contents c'.(com_rb)
    ∧ fold_left (parse_byte (Some recorder)) done (com_init.(com_parser), []) = (c'.(com_parser), st').
Proof.
  apply com_stream_bytewise; [apply recorder_ok|]. repeat constructor; vm_compute; done.
Defined.

(** C37: a package made by [bootloader_package_data] with at most 121 bytes of
    payload, committed while nothing waits, is given to the handler, once, with its
    command and its payload, by the next run of the task; the link then waits for
    the next package in the same way. *)
Theorem package_handled buf cmd payload c log :
  com_idle c → 128 <= c.(com_rb).(rb_size) →
  is_byte cmd → Z.of_nat (length payload) <= 121 → length buf = (length payload + 7)%nat →
  ∃ pkg c1 c2, bootloader_package_data buf (Z.of_nat (length buf)) cmd payload = Some pkg
    ∧ bootloader_commit_data c pkg = Some c1
    ∧ bootloader_com_handler_task (Some recorder) c1 log = Some (c2, log ++ [(cmd, payload)])
    ∧ com_idle c2.
Proof.
  intros Hidle Hsize Hcmd Hlen Hbuf. exists (package cmd payload).
  destruct (commit_package_task (Some recorder) recorder_ok c log cmd payload Hidle Hlen Hsize)
    as (c1 & c2 & Hcommit & Htask & Hidle2).
  pose proof (po_payload _ (co_parser _ (ci_ok _ Hidle))) as Hpl. unfold BOOTLOADER_COM_MAX_PAYLOAD in Hpl.
  exists c1, c2. rewrite package_eq by (done || lia). split_and!; try done.
  rewrite Htask. unfold handled, recorder. cbn [snd]. by rewrite Nat2Z.id, overlay_prefix by lia.
Qed.

Lemma package_handled_witness :
  ∃ pkg c1 c2, bootloader_package_data (repeat 0 10) 10 7 [1; 2; 3] = Some pkg
    ∧ bootloader_commit_data com_init pkg = Some c1
    ∧ bootloader_com_handler_task (Some recorder) c1 [] = Some (c2, [] ++ [(7, [1; 2; 3])])
    ∧ com_idle c2.
Proof.
  apply (package_handled (repeat 0 10) 7 [1; 2; 3] com_init []); [apply com_init_idle|vm_compute; done|..].
  - by vm_compute.
  - by vm_compute.
  - done.
Defined.

(** A package of 130 bytes that has arrived as a whole before the task runs is
    not handled: the task leaves its last two bytes in the ring buffer, with the
    parser waiting for them, and does not wake itself. *)
Theorem long_package_waits :
  match bootloader_commit_data com_init (package 1 (repeat 0 123)) with
  | Some c1 =>
      match bootloader_com_handler_task (Some recorder) c1 [] with
      | Some (c2, log) =>
          log = [] ∧ contents c2.(com_rb) ≠ [] ∧ c2.(com_parser).(com_parse_sta) = STA_CRC1
          ∧ c2.(com_wake) = false
          ∧ bootloader_com_handler_task (Some recorder) c2 log = Some (c2, log)
      | None => False
      end
  | None => False
  end.
Proof. vm_compute. by split_and!. Qed.

(** In an erased word the bytes 1, 2 and 3 should give FF030201. *)
Lemma tail_word_wrong : tail_word 0 0xffffffff [1; 2; 3] = 0xfffff801.
Proof. by vm_compute. Qed.
