(* ===== verification/StepCompress.v ===== *)
(** * Step compression on the host (elegoo/chelper/stepcompress.c)

    The host turns step times into [queue_step] commands.  The routines run in
    the monad [res]: a signed 32-bit operation whose result does not fit has no
    defined result in C ([Overflow]), a write outside an array neither
    ([Bounds]), and a loop may exceed the rounds it is given ([Fuel]; the lemmas
    of StepCompressSpec.v show that it never does). *)

From Stdlib Require Import PrimFloat FloatOps.
From S2P Require Import Prelude.
From S2P Require Import Vlq.
From S2P Require Import MsgBlock.
From S2P Require Import SerialQueue.

(** ** Results *)

Inductive res (A : Type) :=
| Ok (a : A)
| Overflow
| Bounds
| Fuel.
Arguments Ok {_} _.
Arguments Overflow {_}.
Arguments Bounds {_}.
Arguments Fuel {_}.

#[export] Instance res_ret : MRet res := λ A a, Ok a.
#[export] Instance res_bind : MBind res := λ A B f m,
  match m with
  | Ok a => f a
  | Overflow => Overflow
  | Bounds => Bounds
  | Fuel => Fuel
  end.

(** The value of a signed 32-bit expression. *)
Definition i32 (z : Z) : res Z :=
  if (- 2 ^ 31 <=? z) && (z <? 2 ^ 31) then Ok z else Overflow.
Definition of_opt {A} (o : option A) : res A :=
  match o with Some a => Ok a | None => Bounds end.

(** ** State *)

Definition QUEUE_START_SIZE : Z := 1024.
Definition QUADRATIC_DEV : Z := 11.
Definition CLOCK_DIFF_MAX : Z := Z.shiftl 3 28.
Definition SDS_FILTER_TIME : double := 0.000750%float.
Definition ERROR_RET : Z := -1.
Definition UINT64_MAX : Z := 2 ^ 64 - 1.

Record step_move := mk_step_move {
  sm_interval : Z;
  sm_count : Z;
  sm_add : Z;
}.

Record history_steps := mk_history_steps {
  hs_first_clock : Z;
  hs_last_clock : Z;
  hs_start_position : Z;
  hs_step_count : Z;
  hs_interval : Z;
  hs_add : Z;
}.

(** [struct stepcompress].  The step times from [queue_pos] to [queue_next] are
    the list [sc_queue]; [sc_pos] is [queue_pos - queue] and [sc_alloc] is
    [queue_end - queue].  The newest history entry is the first. *)
Record stepcompress := mk_stepcompress {
  sc_alloc : Z;
  sc_pos : Z;
  sc_queue : list Z;
  sc_max_error : Z;
  sc_mcu_time_offset : double;
  sc_mcu_freq : double;
  sc_last_step_print_time : double;
  sc_last_step_clock : Z;
  sc_msg_queue : list queue_message;
  sc_oid : Z;
  sc_queue_step_msgtag : Z;
  sc_set_next_step_dir_msgtag : Z;
  sc_sdir : Z;
  sc_invert_sdir : Z;
  sc_next_step_clock : Z;
  sc_next_step_dir : Z;
  sc_last_position : Z;
  sc_history_list : list history_steps;
}.
#[export] Instance eta_stepcompress : Eta stepcompress :=
  λ r, mk_stepcompress r.(sc_alloc) r.(sc_pos) r.(sc_queue) r.(sc_max_error)
         r.(sc_mcu_time_offset) r.(sc_mcu_freq) r.(sc_last_step_print_time)
         r.(sc_last_step_clock) r.(sc_msg_queue) r.(sc_oid)
         r.(sc_queue_step_msgtag) r.(sc_set_next_step_dir_msgtag) r.(sc_sdir)
         r.(sc_invert_sdir) r.(sc_next_step_clock) r.(sc_next_step_dir)
         r.(sc_last_position) r.(sc_history_list).

(** ** Step compression *)

Definition idiv_up (n d : Z) : res Z :=
  if 0 <=? n then
    a ← i32 (n + d); Ok (Z.quot (a - 1) d)
  else Ok (Z.quot n d).

Definition idiv_down (n d : Z) : res Z :=
  if 0 <=? n then Ok (Z.quot n d)
  else
    a ← i32 (n - d); Ok (Z.quot (a + 1) d).

Record points := mk_points { minp : Z; maxp : Z }.

(** [minmax_point]: the acceptable times of the step [pos]; [prev] is the entry
    before it, if the step is not the first of the queue, and [lsc] the low word
    of the last step clock. *)
Definition minmax_point (lsc sc_max_error : Z) (prev : option Z) (pos : Z) : points :=
  let point := u32 (pos - lsc) in
  let prevpoint := match prev with Some q => u32 (q - lsc) | None => 0 end in
  let max_error := u32 (point - prevpoint) / 2 in
  let max_error := if sc_max_error <? max_error then sc_max_error else max_error in
  mk_points (s32 (point - max_error)) (s32 point).

(** How the inner loop of [compress_bisect_add] ends: the queue is covered by
    [interval] and [count], or the point number [nextcount] cannot be reached. *)
Inductive extension :=
| Covers (interval count : Z)
| Stops (nextpoint : points) (nextcount nextmininterval nextmaxinterval interval : Z).

(** The inner loop, "Find longest valid sequence with the given add": [rest] are
    the steps after [prev], of which [count] have been covered. *)
Fixpoint extend (lsc max_error add : Z) (rest : list Z) (prev count : Z)
    (nextmin nextmax interval : Z) : res extension :=
  match rest with
  | [] => Ok (Covers interval count)
  | q :: rest =>
      let nextcount := count + 1 in
      let nextpoint := minmax_point lsc max_error (Some prev) q in
      twice ← i32 (nextcount * (nextcount - 1));
      let nextaddfactor := Z.quot twice 2 in
      c ← i32 (add * nextaddfactor);
      low ← i32 (nextmin * nextcount);
      minreach ← i32 (nextpoint.(minp) - c);
      nextmin ← (if low <? minreach then idiv_up minreach nextcount else Ok nextmin);
      high ← i32 (nextmax * nextcount);
      maxreach ← i32 (nextpoint.(maxp) - c);
      nextmax ← (if maxreach <? high then idiv_down maxreach nextcount else Ok nextmax);
      if nextmax <? nextmin
      then Ok (Stops nextpoint nextcount nextmin nextmax interval)
      else extend lsc max_error add rest q nextcount nextmin nextmax nextmax
  end.

(** The sequence found so far, and the best one with [add = 0]. *)
Record best_move := mk_best_move {
  bm_interval : Z;
  bm_count : Z;
  bm_add : Z;
  bm_reach : Z;
  bm_zerointerval : Z;
  bm_zerocount : Z;
}.

(** [reach]: the time of the last step of a sequence. *)
Definition move_reach (add interval count : Z) : res Z :=
  twice ← i32 (count * (count - 1));
  a ← i32 (add * Z.quot twice 2);
  b ← i32 (interval * count);
  i32 (a + b).

Definition better (b : best_move) (reach interval : Z) : bool :=
  (b.(bm_reach) <? reach) || ((reach =? b.(bm_reach)) && (b.(bm_interval) <? interval)).

Definition new_best (b : best_move) (interval count add reach : Z) : best_move :=
  mk_best_move interval count add reach
    (if add =? 0 then interval else b.(bm_zerointerval))
    (if add =? 0 then count else b.(bm_zerocount)).

(** The end of [compress_bisect_add]: the move to use. *)
Definition choose_move (b : best_move) : step_move :=
  if b.(bm_count) <=? b.(bm_zerocount) + Z.quot b.(bm_zerocount) 16
  then mk_step_move (u32 b.(bm_zerointerval)) (u16 b.(bm_zerocount)) 0
  else mk_step_move (u32 b.(bm_interval)) (u16 b.(bm_count)) (s16 b.(bm_add)).

(** The range of [add] and the interval bounds for the next round. *)
Record add_range := mk_add_range {
  ar_minadd : Z;
  ar_maxadd : Z;
  ar_mininterval : Z;
  ar_maxinterval : Z;
}.

(** From "Check if a greater or lesser add could extend the sequence" to "See if
    next point would further limit the add range". *)
Definition narrow_add (max_error add : Z) (r : add_range) (nextpoint : points)
    (nextcount nextmin nextmax interval : Z) : res add_range :=
  let count := nextcount - 1 in
  twice ← i32 (nextcount * (nextcount - 1));
  let nextaddfactor := Z.quot twice 2 in
  nextreach ← move_reach add interval nextcount;
  let r := if nextreach <? nextpoint.(minp)
           then mk_add_range (add + 1) r.(ar_maxadd) r.(ar_mininterval) nextmax
           else mk_add_range r.(ar_minadd) (add - 1) nextmin r.(ar_maxinterval) in
  square ← i32 (count * count);
  let errdelta := s32 (u32 (max_error * QUADRATIC_DEV) / square) in
  let limit := 1 <? count in
  let minadd := if limit && (r.(ar_minadd) <? add - errdelta) then add - errdelta
                else r.(ar_minadd) in
  let maxadd := if limit && (add + errdelta <? r.(ar_maxadd)) then add + errdelta
                else r.(ar_maxadd) in
  c ← i32 (r.(ar_maxinterval) * nextcount);
  low ← i32 (minadd * nextaddfactor);
  minreach ← i32 (nextpoint.(minp) - c);
  minadd ← (if low <? minreach then idiv_up minreach nextaddfactor else Ok minadd);
  c ← i32 (r.(ar_mininterval) * nextcount);
  high ← i32 (maxadd * nextaddfactor);
  maxreach ← i32 (nextpoint.(maxp) - c);
  maxadd ← (if maxreach <? high then idiv_down maxreach nextaddfactor else Ok maxadd);
  Ok (mk_add_range minadd maxadd r.(ar_mininterval) r.(ar_maxinterval)).

(** The outer loop of [compress_bisect_add] on the steps [first :: rest]. *)
Fixpoint bisect_add (fuel : nat) (lsc max_error first : Z) (rest : list Z) (add : Z)
    (r : add_range) (b : best_move) : res step_move :=
  match fuel with
  | O => Fuel
  | S fuel =>
      e ← extend lsc max_error add rest first 1 r.(ar_mininterval) r.(ar_maxinterval)
            r.(ar_maxinterval);
      match e with
      | Covers interval count => Ok (mk_step_move (u32 interval) (u16 count) (s16 add))
      | Stops nextpoint nextcount nextmin nextmax interval =>
          let count := nextcount - 1 in
          reach ← move_reach add interval count;
          let is_better := better b reach interval in
          let b := if is_better then new_best b interval count add reach else b in
          if is_better && (0x200 <? count) then Ok (choose_move b)
          else
            r ← narrow_add max_error add r nextpoint nextcount nextmin nextmax interval;
            if r.(ar_maxadd) <? r.(ar_minadd) then Ok (choose_move b)
            else
              width ← i32 (r.(ar_maxadd) - r.(ar_minadd));
              bisect_add fuel lsc max_error first rest (r.(ar_maxadd) - Z.quot width 4) r b
      end
  end.

(** The range of [add] shrinks in every round, so there are at most 2^16. *)
Definition bisect_rounds : nat := Z.to_nat 0x10001.

Definition compress_bisect_add (sc : stepcompress) : res step_move :=
  match take (Z.to_nat 65535) sc.(sc_queue) with
  | [] => Bounds
  | first :: rest =>
      let lsc := u32 sc.(sc_last_step_clock) in
      let point := minmax_point lsc sc.(sc_max_error) None first in
      bisect_add bisect_rounds lsc sc.(sc_max_error) first rest 0
        (mk_add_range (-0x8000) 0x7fff point.(minp) point.(maxp))
        (mk_best_move 0 1 1 (- 2 ^ 31) 0 0)
  end.

(** ** Checking *)

(** The loop of [check_line]: [p] is the time of the step before. *)
Fixpoint check_points (count : nat) (lsc max_error : Z) (queue : list Z) (prev : option Z)
    (interval add p : Z) : res bool :=
  match count with
  | O => Ok true
  | S count =>
      match queue with
      | [] => Bounds
      | q :: queue =>
          let point := minmax_point lsc max_error prev q in
          let p := u32 (p + interval) in
          if (p <? u32 point.(minp)) || (u32 point.(maxp) <? p) then Ok false
          else if 0x80000000 <=? interval then Ok false
          else check_points count lsc max_error queue (Some q) (u32 (interval + add)) add p
      end
  end.

Definition check_line (sc : stepcompress) (move : step_move) : res Z :=
  if (move.(sm_count) =? 0)
     || ((move.(sm_interval) =? 0) && (move.(sm_add) =? 0) && (1 <? move.(sm_count)))
     || (0x80000000 <=? move.(sm_interval))
  then Ok ERROR_RET
  else
    ok ← check_points (Z.to_nat move.(sm_count)) (u32 sc.(sc_last_step_clock))
           sc.(sc_max_error) sc.(sc_queue) None move.(sm_interval) move.(sm_add) 0;
    Ok (if ok : bool then 0 else ERROR_RET).

(** ** Interface *)

Definition stepcompress_alloc (oid : Z) : stepcompress :=
  mk_stepcompress 0 0 [] 0 0%float 0%float 0%float 0 [] oid 0 0 (-1) 0 0 0 0 [].

Definition stepcompress_fill (sc : stepcompress) (max_error queue_step_msgtag
    set_next_step_dir_msgtag : Z) : stepcompress :=
  sc <| sc_max_error := max_error |> <| sc_queue_step_msgtag := queue_step_msgtag |>
     <| sc_set_next_step_dir_msgtag := set_next_step_dir_msgtag |>.

Definition stepcompress_set_invert_sdir (sc : stepcompress) (invert_sdir : Z) : stepcompress :=
  let invert_sdir := b2z (negb (invert_sdir =? 0)) in
  if negb (invert_sdir =? sc.(sc_invert_sdir)) then
    let sc := sc <| sc_invert_sdir := invert_sdir |> in
    if 0 <=? sc.(sc_sdir) then sc <| sc_sdir ::= λ d, Z.lxor d 1 |> else sc
  else sc.

(** The entries left when the oldest ones, first in the list, have expired. *)
Fixpoint drop_expired (oldest_first : list history_steps) (end_clock : Z) : list history_steps :=
  match oldest_first with
  | [] => []
  | hs :: rest => if end_clock <? hs.(hs_last_clock) then oldest_first
                  else drop_expired rest end_clock
  end.

(** [free_history]: the oldest entries are at the end of the list. *)
Definition free_history (sc : stepcompress) (end_clock : Z) : stepcompress :=
  sc <| sc_history_list ::= λ l,
    reverse (drop_expired (reverse l) end_clock) |>.

Definition stepcompress_history_expire (sc : stepcompress) (end_clock : Z) : stepcompress :=
  free_history sc end_clock.

Definition stepcompress_get_oid (sc : stepcompress) : Z := sc.(sc_oid).
Definition stepcompress_get_step_dir (sc : stepcompress) : Z := sc.(sc_next_step_dir).

Definition calc_last_step_print_time (sc : stepcompress) : stepcompress :=
  sc <| sc_last_step_print_time :=
    (sc.(sc_mcu_time_offset)
     + (double_of_Z sc.(sc_last_step_clock) - 0.5) / sc.(sc_mcu_freq))%D |>.

Definition stepcompress_set_time (sc : stepcompress) (time_offset mcu_freq : double) :
    stepcompress :=
  calc_last_step_print_time
    (sc <| sc_mcu_time_offset := time_offset |> <| sc_mcu_freq := mcu_freq |>).

Definition add_tail (sc : stepcompress) (qm : queue_message) : stepcompress :=
  sc <| sc_msg_queue ::= λ q, q ++ [qm] |>.

(** [add_move]: queue the command and record it. *)
Definition add_move (sc : stepcompress) (first_clock : Z) (move : step_move) : res stepcompress :=
  twice ← i32 (move.(sm_count) * (move.(sm_count) - 1));
  curve ← i32 (move.(sm_add) * Z.quot twice 2);
  let ticks := u32 (curve + move.(sm_interval) * (move.(sm_count) - 1)) in
  let last_clock := u64 (first_clock + ticks) in
  msg ← of_opt (message_alloc_and_encode
          [u32 sc.(sc_queue_step_msgtag); sc.(sc_oid); move.(sm_interval); move.(sm_count);
           u32 move.(sm_add)]);
  let last := sc.(sc_last_step_clock) in
  let far := (move.(sm_count) =? 1) && (u64 (last + CLOCK_DIFF_MAX) <=? first_clock) in
  let qm := (message_fill msg) <| qm_min_clock := last |>
              <| qm_req_clock := (if far then first_clock else last) |> in
  let step_count := if negb (sc.(sc_sdir) =? 0) then move.(sm_count) else - move.(sm_count) in
  let hs := mk_history_steps first_clock last_clock sc.(sc_last_position) step_count
              (s32 move.(sm_interval)) move.(sm_add) in
  Ok ((add_tail sc qm) <| sc_last_step_clock := last_clock |>
        <| sc_last_position ::= λ p, s64 (p + step_count) |>
        <| sc_history_list ::= cons hs |>).

(** The loop of [queue_flush]: every round sends at least one step. *)
Fixpoint flush_loop (fuel : nat) (sc : stepcompress) (move_clock : Z) : res (Z * stepcompress) :=
  if move_clock <=? sc.(sc_last_step_clock) then Ok (0, calc_last_step_print_time sc)
  else
    match fuel with
    | O => Fuel
    | S fuel =>
        move ← compress_bisect_add sc;
        ret ← check_line sc move;
        if negb (ret =? 0) then Ok (ret, sc)
        else
          sc ← add_move sc (u64 (sc.(sc_last_step_clock) + move.(sm_interval))) move;
          if Z.of_nat (length sc.(sc_queue)) <=? move.(sm_count)
          then Ok (0, calc_last_step_print_time (sc <| sc_queue := [] |> <| sc_pos := 0 |>))
          else flush_loop fuel (sc <| sc_queue ::= drop (Z.to_nat move.(sm_count)) |>
                                   <| sc_pos ::= λ p, p + move.(sm_count) |>) move_clock
    end.

Definition queue_flush (sc : stepcompress) (move_clock : Z) : res (Z * stepcompress) :=
  match sc.(sc_queue) with
  | [] => Ok (0, sc)
  | _ => flush_loop (length sc.(sc_queue)) sc move_clock
  end.

Definition stepcompress_flush_far (sc : stepcompress) (abs_step_clock : Z) :
    res (Z * stepcompress) :=
  let move := mk_step_move (u32 (abs_step_clock - sc.(sc_last_step_clock))) 1 0 in
  sc ← add_move sc abs_step_clock move;
  Ok (0, calc_last_step_print_time sc).

Definition set_next_step_dir (sc : stepcompress) (sdir : Z) : res (Z * stepcompress) :=
  if sc.(sc_sdir) =? sdir then Ok (0, sc)
  else
    '(ret, sc) ← queue_flush sc UINT64_MAX;
    if negb (ret =? 0) then Ok (ret, sc)
    else
      msg ← of_opt (message_alloc_and_encode
              [u32 sc.(sc_set_next_step_dir_msgtag); sc.(sc_oid);
               u32 (Z.lxor sdir sc.(sc_invert_sdir))]);
      let qm := (message_fill msg) <| qm_req_clock := sc.(sc_last_step_clock) |> in
      Ok (0, add_tail (sc <| sc_sdir := sdir |>) qm).

(** [*sc->queue_next++ = clock]: a write at the end of the array is out of
    bounds. *)
Definition push_step (sc : stepcompress) (clock : Z) : res stepcompress :=
  if sc.(sc_pos) + Z.of_nat (length sc.(sc_queue)) <? sc.(sc_alloc)
  then Ok (sc <| sc_queue ::= λ q, q ++ [u32 clock] |>) else Bounds.

Definition queue_append_far (sc : stepcompress) : res (Z * stepcompress) :=
  let step_clock := sc.(sc_next_step_clock) in
  let sc := sc <| sc_next_step_clock := 0 |> in
  '(ret, sc) ← queue_flush sc (u64 (step_clock - CLOCK_DIFF_MAX + 1));
  if negb (ret =? 0) then Ok (ret, sc)
  else if u64 (sc.(sc_last_step_clock) + CLOCK_DIFF_MAX) <=? step_clock
  then stepcompress_flush_far sc step_clock
  else sc ← push_step sc step_clock; Ok (0, sc).

(** [while (in_use >= alloc) alloc *= 2;] *)
Fixpoint grow (fuel : nat) (in_use alloc : Z) : res Z :=
  match fuel with
  | O => Fuel
  | S fuel => if alloc <=? in_use then a ← i32 (alloc * 2); grow fuel in_use a else Ok alloc
  end.

(** The part of [queue_append_extend] that makes room. *)
Definition make_room (sc : stepcompress) : res stepcompress :=
  let in_use := Z.of_nat (length sc.(sc_queue)) in
  if sc.(sc_alloc) <=? sc.(sc_pos) + in_use then
    if 0 <? sc.(sc_pos) then Ok (sc <| sc_pos := 0 |>)
    else
      alloc ← grow 32 in_use (if sc.(sc_alloc) =? 0 then QUEUE_START_SIZE else sc.(sc_alloc));
      Ok (sc <| sc_alloc := alloc |> <| sc_pos := 0 |>)
  else Ok sc.

Definition queue_append_extend (sc : stepcompress) : res (Z * stepcompress) :=
  let n := Z.of_nat (length sc.(sc_queue)) in
  '(ret, sc) ← (if 65535 + 2000 <? n then
     q ← of_opt (sc.(sc_queue) !! Z.to_nat (n - 65535));
     let flush := u32 (q - u32 sc.(sc_last_step_clock)) in
     queue_flush sc (u64 (sc.(sc_last_step_clock) + flush))
   else Ok (0, sc));
  if negb (ret =? 0) then Ok (ret, sc)
  else
    sc ← make_room sc;
    sc ← push_step sc sc.(sc_next_step_clock);
    Ok (0, sc <| sc_next_step_clock := 0 |>).

(** [queue_append] after the direction is set. *)
Definition append_step (sc : stepcompress) : res (Z * stepcompress) :=
  if u64 (sc.(sc_last_step_clock) + CLOCK_DIFF_MAX) <=? sc.(sc_next_step_clock)
  then queue_append_far sc
  else if sc.(sc_alloc) <=? sc.(sc_pos) + Z.of_nat (length sc.(sc_queue))
  then queue_append_extend sc
  else
    sc ← push_step sc sc.(sc_next_step_clock);
    Ok (0, sc <| sc_next_step_clock := 0 |>).

Definition queue_append (sc : stepcompress) : res (Z * stepcompress) :=
  if negb (sc.(sc_next_step_dir) =? sc.(sc_sdir)) then
    '(ret, sc) ← set_next_step_dir sc sc.(sc_next_step_dir);
    if negb (ret =? 0) then Ok (ret, sc) else append_step sc
  else append_step sc.

(** "Rollback last step to avoid rapid step+dir+step". *)
Definition rolls_back (sc : stepcompress) (sdir step_clock : Z) : bool :=
  negb (sdir =? sc.(sc_next_step_dir))
  && (double_of_Z (s64 (step_clock - sc.(sc_next_step_clock)))
      <? SDS_FILTER_TIME * sc.(sc_mcu_freq))%D.

(** A conversion of a double outside the range of [uint64_t] is taken modulo
    2^64. *)
Definition stepcompress_append (sc : stepcompress) (sdir : Z) (print_time step_time : double) :
    res (Z * stepcompress) :=
  let offset := (print_time - sc.(sc_last_step_print_time))%D in
  let rel_sc := ((step_time + offset) * sc.(sc_mcu_freq))%D in
  let step_clock := u64 (sc.(sc_last_step_clock) + u64 (Z_of_double rel_sc)) in
  let store sc := sc <| sc_next_step_clock := step_clock |> <| sc_next_step_dir := sdir |> in
  if sc.(sc_next_step_clock) =? 0 then Ok (0, store sc)
  else if rolls_back sc sdir step_clock
  then Ok (0, sc <| sc_next_step_clock := 0 |> <| sc_next_step_dir := sdir |>)
  else
    '(ret, sc) ← queue_append sc;
    if negb (ret =? 0) then Ok (ret, sc) else Ok (0, store sc).

Definition stepcompress_commit (sc : stepcompress) : res (Z * stepcompress) :=
  if negb (sc.(sc_next_step_clock) =? 0) then queue_append sc else Ok (0, sc).

Definition stepcompress_flush (sc : stepcompress) (move_clock : Z) : res (Z * stepcompress) :=
  if negb (sc.(sc_next_step_clock) =? 0) && (sc.(sc_next_step_clock) <=? move_clock) then
    '(ret, sc) ← queue_append sc;
    if negb (ret =? 0) then Ok (ret, sc) else queue_flush sc move_clock
  else queue_flush sc move_clock.

Definition stepcompress_reset (sc : stepcompress) (last_step_clock : Z) : res (Z * stepcompress) :=
  '(ret, sc) ← stepcompress_flush sc UINT64_MAX;
  if negb (ret =? 0) then Ok (ret, sc)
  else Ok (0, calc_last_step_print_time
                (sc <| sc_last_step_clock := last_step_clock |> <| sc_sdir := -1 |>)).

Definition stepcompress_set_last_position (sc : stepcompress) (clock last_position : Z) :
    res (Z * stepcompress) :=
  '(ret, sc) ← stepcompress_flush sc UINT64_MAX;
  if negb (ret =? 0) then Ok (ret, sc)
  else Ok (0, sc <| sc_last_position := last_position |>
                 <| sc_history_list ::= cons (mk_history_steps clock clock last_position 0 0 0) |>).

(** The position inside a recorded move: "Solve for count using quadratic
    formula" when the move accelerates. *)
Definition steps_done (hs : history_steps) (clock : Z) : res Z :=
  let interval := hs.(hs_interval) in
  let add := hs.(hs_add) in
  ticks ← i32 (s32 (clock - hs.(hs_first_clock)) + interval);
  if add =? 0 then (if interval =? 0 then Overflow else Ok (Z.quot ticks interval))
  else
    let a := (0.5 * double_of_Z add)%D in
    let b := (double_of_Z interval - 0.5 * double_of_Z add)%D in
    let c := double_of_Z (- ticks) in
    i32 (Z_of_double ((PrimFloat.sqrt (b * b - 4 * a * c) - b) / (2 * a))%D).

Fixpoint find_past (history : list history_steps) (clock last_position : Z) : res Z :=
  match history with
  | [] => Ok last_position
  | hs :: history =>
      if clock <? hs.(hs_first_clock) then find_past history clock hs.(hs_start_position)
      else if hs.(hs_last_clock) <=? clock then Ok (hs.(hs_start_position) + hs.(hs_step_count))
      else
        offset ← steps_done hs clock;
        Ok (if hs.(hs_step_count) <? 0 then hs.(hs_start_position) - offset
            else hs.(hs_start_position) + offset)
  end.

Definition stepcompress_find_past_position (sc : stepcompress) (clock : Z) : res Z :=
  find_past sc.(sc_history_list) clock sc.(sc_last_position).

Definition stepcompress_queue_msg (sc : stepcompress) (data : list Z) : res (Z * stepcompress) :=
  '(ret, sc) ← stepcompress_flush sc UINT64_MAX;
  if negb (ret =? 0) then Ok (ret, sc)
  else
    msg ← of_opt (message_alloc_and_encode data);
    Ok (0, add_tail sc ((message_fill msg) <| qm_req_clock := sc.(sc_last_step_clock) |>)).

Definition stepcompress_queue_mq_msg (sc : stepcompress) (req_clock : Z) (data : list Z) :
    res (Z * stepcompress) :=
  '(ret, sc) ← stepcompress_flush sc UINT64_MAX;
  if negb (ret =? 0) then Ok (ret, sc)
  else
    msg ← of_opt (message_alloc_and_encode data);
    Ok (0, add_tail sc ((message_fill msg) <| qm_min_clock := req_clock |>
                                           <| qm_req_clock := req_clock |>)).

Fixpoint extract_old (history : list history_steps) (max : nat) (start_clock end_clock : Z) :
    list history_steps :=
  match history, max with
  | hs :: history, S max' =>
      if hs.(hs_last_clock) <=? start_clock then []
      else if end_clock <=? hs.(hs_first_clock) then extract_old history max start_clock end_clock
      else hs :: extract_old history max' start_clock end_clock
  | _, _ => []
  end.

Definition stepcompress_extract_old (sc : stepcompress) (max : nat) (start_clock end_clock : Z) :
    list history_steps := extract_old sc.(sc_history_list) max start_clock end_clock.

(** ** Synchronisation *)

(** [struct steppersync] without its pointers: the key of its command queue and
    the heap of the times at which a place of the move queue becomes free.  The
    [stepcompress] objects of [sc_list] and the serialqueue are passed along. *)
Record steppersync := mk_steppersync {
  ss_cq : Z;
  ss_move_clocks : list Z;
}.
#[export] Instance eta_steppersync : Eta steppersync :=
  λ r, mk_steppersync r.(ss_cq) r.(ss_move_clocks).

Definition steppersync_alloc (cq : Z) (move_num : nat) : steppersync :=
  mk_steppersync cq (repeat 0 move_num).

Definition steppersync_set_time (scs : list stepcompress) (time_offset mcu_freq : double) :
    list stepcompress := map (λ sc, stepcompress_set_time sc time_offset mcu_freq) scs.

Definition steppersync_history_expire (scs : list stepcompress) (end_clock : Z) :
    list stepcompress := map (λ sc, stepcompress_history_expire sc end_clock) scs.

Definition child_clock (mc : list Z) (pos : nat) : Z := default UINT64_MAX (mc !! pos).

(** The loop of [heap_replace]: the position at least doubles. *)
Fixpoint heap_loop (fuel : nat) (mc : list Z) (req_clock : Z) (pos : nat) : res (list Z) :=
  match fuel with
  | O => Fuel
  | S fuel =>
      let child1_pos := (2 * pos + 1)%nat in
      let child2_pos := (2 * pos + 2)%nat in
      let child1_clock := child_clock mc child1_pos in
      let child2_clock := child_clock mc child2_pos in
      if negb (bool_decide (pos < length mc)%nat) then Bounds
      else if (req_clock <=? child1_clock) && (req_clock <=? child2_clock)
      then Ok (<[pos := req_clock]> mc)
      else if child1_clock <? child2_clock
      then heap_loop fuel (<[pos := child1_clock]> mc) req_clock child1_pos
      else heap_loop fuel (<[pos := child2_clock]> mc) req_clock child2_pos
  end.

Definition heap_replace (mc : list Z) (req_clock : Z) : res (list Z) :=
  heap_loop (length mc) mc req_clock 0.

(** The first message with the lowest clock, and the object it belongs to. *)
Fixpoint lowest_message (scs : list stepcompress) (i : nat) (req_clock : Z)
    (best : option (nat * queue_message)) : option (nat * queue_message) :=
  match scs with
  | [] => best
  | sc :: scs =>
      match sc.(sc_msg_queue) with
      | m :: _ => if m.(qm_req_clock) <? req_clock
                  then lowest_message scs (S i) m.(qm_req_clock) (Some (i, m))
                  else lowest_message scs (S i) req_clock best
      | [] => lowest_message scs (S i) req_clock best
      end
  end.

(** "Order commands by the reqclock of each pending command". *)
Fixpoint order_messages (fuel : nat) (ss : steppersync) (scs : list stepcompress)
    (move_clock : Z) (msgs : list queue_message) :
    res (steppersync * list stepcompress * list queue_message) :=
  match lowest_message scs 0 MAX_CLOCK None with
  | None => Ok (ss, scs, msgs)
  | Some (i, qm) =>
      let uses_move := negb (qm.(qm_min_clock) =? 0) in
      if uses_move && (move_clock <? qm.(qm_req_clock)) then Ok (ss, scs, msgs)
      else
        match fuel with
        | O => Fuel
        | S fuel =>
            next_avail ← of_opt (ss.(ss_move_clocks) !! 0%nat);
            mc ← (if uses_move then heap_replace ss.(ss_move_clocks) qm.(qm_min_clock)
                  else Ok ss.(ss_move_clocks));
            order_messages fuel (ss <| ss_move_clocks := mc |>)
              (alter (λ sc, sc <| sc_msg_queue ::= tail |>) i scs) move_clock
              (msgs ++ [qm <| qm_min_clock := next_avail |>])
        end
  end.

(** Flush every object up to the clock; the first error ends it. *)
Fixpoint flush_all (scs : list stepcompress) (move_clock : Z) : res (Z * list stepcompress) :=
  match scs with
  | [] => Ok (0, [])
  | sc :: scs =>
      '(ret, sc) ← stepcompress_flush sc move_clock;
      if negb (ret =? 0) then Ok (ret, sc :: scs)
      else '(ret, scs) ← flush_all scs move_clock; Ok (ret, sc :: scs)
  end.

Definition pending_messages (scs : list stepcompress) : nat :=
  sum_list (map (λ sc, length sc.(sc_msg_queue)) scs).

Definition steppersync_flush (ss : steppersync) (scs : list stepcompress) (sq : serialqueue)
    (move_clock clear_history_clock : Z) :
    res (Z * steppersync * list stepcompress * serialqueue) :=
  '(ret, scs) ← flush_all scs move_clock;
  if negb (ret =? 0) then Ok (ret, ss, scs, sq)
  else
    '(ss, scs, msgs) ← order_messages (pending_messages scs) ss scs move_clock [];
    sq ← (if bool_decide (msgs = []) then Ok sq
          else r ← of_opt (serialqueue_send_batch sq ss.(ss_cq) msgs); Ok r.1);
    Ok (0, ss, steppersync_history_expire scs clear_history_clock, sq).
