(* ===== verification/StepCompressSpec.v ===== *)
(** * The compressed steps are the requested ones

    What a flush of the step queue sends, read as the schedule the firmware
    executes for it (StepperSpec.v), hits every requested step time up to the
    allowed error; every loop of the compression ends; the heap of the
    synchroniser hands out the earliest free place of the move queue. *)

From Stdlib Require Import PrimFloat.
From stdpp Require Import sorting.
From S2P Require Import Prelude.
From S2P Require Import Vlq.
From S2P Require Import Command.
From S2P Require Import CommandRun.
From S2P Require Import MsgBlock.
From S2P Require Import SerialQueue.
From S2P Require Import StepCompress.
From S2P Require Import StepperSpec.

(** ** Verification conditions

    [rwp m Q]: if every signed operation of [m] is defined then it returns,
    within its fuel and inside the arrays, a value that satisfies [Q]. *)
Definition rwp {A} (m : res A) (Q : A → Prop) : Prop :=
  match m with Ok a => Q a | Overflow => True | Bounds => False | Fuel => False end.

Lemma rwp_bind {A B} (m : res A) (f : A → res B) Q :
  rwp m (λ a, rwp (f a) Q) → rwp (m ≫= f) Q.
Proof. by destruct m. Qed.

Lemma rwp_mono {A} (m : res A) (Q Q' : A → Prop) :
  rwp m Q → (∀ a, Q a → Q' a) → rwp m Q'.
Proof. destruct m; simpl; auto. Qed.

Lemma rwp_i32 z (Q : Z → Prop) : (- 2 ^ 31 <= z < 2 ^ 31 → Q z) → rwp (i32 z) Q.
Proof.
  intros HQ. unfold i32. destruct (_ && _) eqn:He; [|done].
  apply HQ. apply andb_prop in He as [?%Z.leb_le ?%Z.ltb_lt]. lia.
Qed.

(** ** Divisions *)

Lemma rwp_idiv_up n d (Q : Z → Prop) :
  0 < d → (∀ x, n <= x * d < n + d → Q x) → rwp (idiv_up n d) Q.
Proof.
  intros Hd HQ. unfold idiv_up. destruct (Z.leb_spec 0 n).
  - apply rwp_bind, rwp_i32. intros _. apply HQ. rewrite Z.quot_div_nonneg by lia.
    pose proof (Z.div_mod (n + d - 1) d ltac:(lia)).
    pose proof (Z.mod_pos_bound (n + d - 1) d Hd). nia.
  - simpl. apply HQ. pose proof (Z.quot_rem n d ltac:(lia)).
    pose proof (Z.rem_nonpos n d ltac:(lia) ltac:(lia)).
    pose proof (Z.rem_bound_abs n d ltac:(lia)). lia.
Qed.

Lemma rwp_idiv_down n d (Q : Z → Prop) :
  0 < d → (∀ x, n - d < x * d <= n → Q x) → rwp (idiv_down n d) Q.
Proof.
  intros Hd HQ. unfold idiv_down. destruct (Z.leb_spec 0 n).
  - simpl. apply HQ. rewrite Z.quot_div_nonneg by lia.
    pose proof (Z.div_mod n d ltac:(lia)). pose proof (Z.mod_pos_bound n d Hd). nia.
  - apply rwp_bind, rwp_i32. intros _. apply HQ. pose proof (Z.quot_rem (n - d + 1) d ltac:(lia)).
    pose proof (Z.rem_nonpos (n - d + 1) d ltac:(lia) ltac:(lia)).
    pose proof (Z.rem_bound_abs (n - d + 1) d ltac:(lia)). lia.
Qed.

(** A bound is only ever tightened by a division. *)
Lemma rwp_raise a f n (Q : Z → Prop) :
  0 < f → (∀ x, a <= x → Q x) →
  rwp (if a * f <? n then idiv_up n f else Ok a) Q.
Proof.
  intros Hf HQ. destruct (Z.ltb_spec (a * f) n); [|by apply HQ].
  apply rwp_idiv_up; [done|]. intros x Hx. apply HQ. nia.
Qed.

Lemma rwp_lower a f n (Q : Z → Prop) :
  0 < f → (∀ x, x <= a → Q x) →
  rwp (if n <? a * f then idiv_down n f else Ok a) Q.
Proof.
  intros Hf HQ. destruct (Z.ltb_spec n (a * f)); [|by apply HQ].
  apply rwp_idiv_down; [done|]. intros x Hx. apply HQ. nia.
Qed.

(** Step through checked operations. *)
Ltac rwp_step :=
  lazymatch goal with
  | |- rwp (_ ≫= _) _ => apply rwp_bind
  | |- rwp (i32 _) _ => apply rwp_i32; intros ?
  | |- rwp (Ok _) _ => simpl
  | |- rwp (if _ <? _ then idiv_up _ _ else _) _ => apply rwp_raise; [|intros ? ?]
  | |- rwp (if _ <? _ then idiv_down _ _ else _) _ => apply rwp_lower; [|intros ? ?]
  end.
Ltac rwp_steps := repeat (rwp_step; cbv beta).
Ltac rwp_if :=
  lazymatch goal with |- rwp (if ?c then _ else _) _ => destruct c eqn:? end.

(** ** The bisection ends *)

(** The inner loop covers between one and all of the steps. *)
Lemma rwp_extend lsc me add rest prev count nmin nmax interval :
  1 <= count →
  rwp (extend lsc me add rest prev count nmin nmax interval) (λ e,
    match e with
    | Covers _ c => c = count + Z.of_nat (length rest)
    | Stops _ nextcount _ _ _ => count < nextcount <= count + Z.of_nat (length rest)
    end).
Proof.
  revert prev count nmin nmax interval.
  induction rest as [|q rest IH]; intros prev count nmin nmax interval Hc; simpl; [lia|].
  rwp_steps; [lia..|].
  rwp_if; [simpl; lia|].
  eapply rwp_mono; [apply IH; lia|]. intros []; lia.
Qed.

Lemma rwp_move_reach add interval count (Q : Z → Prop) :
  (∀ x, Q x) → rwp (move_reach add interval count) Q.
Proof. intros HQ. unfold move_reach. rwp_steps. apply HQ. Qed.

(** The range of [add] that is left excludes the [add] that was tried. *)
Lemma rwp_narrow_add me add r nextpoint nextcount nmin nmax interval (Q : add_range → Prop) :
  1 < nextcount → r.(ar_minadd) <= add <= r.(ar_maxadd) →
  (∀ r', r.(ar_minadd) <= r'.(ar_minadd) → r'.(ar_maxadd) <= r.(ar_maxadd) →
         add < r'.(ar_minadd) ∨ r'.(ar_maxadd) < add → Q r') →
  rwp (narrow_add me add r nextpoint nextcount nmin nmax interval) Q.
Proof.
  intros Hn Hadd HQ. unfold narrow_add.
  assert (Hf : 0 < Z.quot (nextcount * (nextcount - 1)) 2).
  { rewrite Z.quot_div_nonneg by nia. apply Z.div_str_pos. nia. }
  rwp_steps. apply rwp_move_reach. intros nextreach. set (r1 := if _ <? _ then _ else _).
  assert (Hr1 : ar_minadd r <= ar_minadd r1 ∧ ar_maxadd r1 <= ar_maxadd r
    ∧ (add < ar_minadd r1 ∨ ar_maxadd r1 < add)).
  { unfold r1. destruct (_ <? _); simpl; lia. }
  clearbody r1. apply rwp_bind, rwp_i32. intros _. cbv zeta.
  set (minadd := if _ && (ar_minadd r1 <? _) then _ else _).
  set (maxadd := if _ && (_ <? ar_maxadd r1) then _ else _).
  assert (Hlim : ar_minadd r1 <= minadd ∧ maxadd <= ar_maxadd r1).
  { unfold minadd, maxadd.
    destruct (Z.ltb_spec 1 (nextcount - 1)); simpl; [|lia].
    destruct (Z.ltb_spec (ar_minadd r1) (add - s32 (u32 (me * QUADRATIC_DEV) / ((nextcount - 1) * (nextcount - 1)))));
    destruct (Z.ltb_spec (add + s32 (u32 (me * QUADRATIC_DEV) / ((nextcount - 1) * (nextcount - 1)))) (ar_maxadd r1)); lia. }
  clearbody minadd maxadd. rwp_steps; [done..|]. apply HQ; simpl; lia.
Qed.

(** A move for the first of [n] queued steps. *)
Record move_ok (n : Z) (mv : step_move) : Prop := {
  mo_count : 1 <= mv.(sm_count) <= n;
  mo_count16 : mv.(sm_count) <= 65535;
  mo_interval : 0 <= mv.(sm_interval) < 2 ^ 32;
  mo_add : - 2 ^ 15 <= mv.(sm_add) < 2 ^ 15;
}.

Definition best_ok (n : Z) (b : best_move) : Prop :=
  1 <= b.(bm_count) <= n ∧ 0 <= b.(bm_zerocount) <= n.

Lemma new_move_ok n interval count add :
  1 <= count <= n → n <= 65535 → move_ok n (mk_step_move (u32 interval) (u16 count) (s16 add)).
Proof.
  intros Hc Hn. constructor; simpl; unfold u16; rewrite ?Z.mod_small by lia; try lia.
  - apply u32_range.
  - apply s16_range.
Qed.

Lemma choose_move_ok n b : best_ok n b → n <= 65535 → move_ok n (choose_move b).
Proof.
  intros [Hb Hz] Hn. unfold choose_move. destruct (Z.leb_spec b.(bm_count)
    (b.(bm_zerocount) + Z.quot b.(bm_zerocount) 16)) as [Hle|_]; [|by apply new_move_ok].
  apply (new_move_ok n _ _ 0); [|done].
  rewrite Z.quot_div_nonneg in Hle by lia. Z.div_mod_to_equations. lia.
Qed.

(** The bisection ends: every round excludes a value of [add]. *)
Lemma rwp_bisect_add fuel lsc me first rest : ∀ add r b,
  let n := 1 + Z.of_nat (length rest) in
  n <= 65535 → best_ok n b → r.(ar_minadd) <= add <= r.(ar_maxadd) →
  r.(ar_maxadd) - r.(ar_minadd) < Z.of_nat fuel →
  rwp (bisect_add fuel lsc me first rest add r b) (move_ok n).
Proof.
  induction fuel as [|fuel IH]; intros add r b n Hn Hb Hadd Hfuel; simpl; [lia|].
  apply rwp_bind. eapply rwp_mono; [apply rwp_extend; lia|].
  intros [interval count|np nc nmin nmax interval] He.
  { apply new_move_ok; lia. }
  apply rwp_bind, rwp_move_reach. intros reach.
  set (b' := if better b reach interval then _ else b).
  assert (Hb' : best_ok n b').
  { unfold b', best_ok in *. destruct (better _ _ _); [|done]. simpl. destruct (_ =? 0); lia. }
  rwp_if; [by apply choose_move_ok|].
  apply rwp_bind, rwp_narrow_add; [lia|done|]. intros r' Hmin Hmax Hcut.
  rwp_if; [by apply choose_move_ok|]. rewrite Z.ltb_ge in *.
  rwp_steps. apply IH; [done|done| |lia].
  rewrite Z.quot_div_nonneg by lia. Z.div_mod_to_equations. lia.
Qed.

Lemma rwp_compress sc :
  sc.(sc_queue) ≠ [] →
  rwp (compress_bisect_add sc) (move_ok (Z.of_nat (length sc.(sc_queue)))).
Proof.
  intros Hne. unfold compress_bisect_add.
  assert (Hcap : Z.of_nat (Z.to_nat 65535) = 65535) by (by rewrite Z2Nat.id).
  assert (Hrounds : Z.of_nat bisect_rounds = 0x10001) by (unfold bisect_rounds; by rewrite Z2Nat.id).
  revert Hcap Hrounds. generalize (Z.to_nat 65535), bisect_rounds. intros cap rounds Hcap Hrounds.
  pose proof (length_take sc.(sc_queue) cap) as Hlen.
  assert (Hq : (0 < length (sc_queue sc))%nat) by (destruct (sc_queue sc); [done|simpl; lia]).
  destruct (take cap (sc_queue sc)) as [|first rest] eqn:Ht; simpl in Hlen; [lia|].
  eapply rwp_mono; [apply rwp_bisect_add; unfold best_ok; simpl; lia|].
  intros mv []. constructor; try done. lia.
Qed.

(** ** Checked moves hit the requested times

    The queue holds the low words of the requested step times.  A step may come
    up to [max_error] ticks early, and less than half way to the step before. *)

Definition on_time (max_error : Z) (requested actual : Z) : Prop :=
  requested - max_error <= actual <= requested.

Lemma minmax_point_exact lsc me (prev : option Z) Tprev T :
  (match prev with Some q => q = u32 Tprev | None => Tprev = lsc end) →
  lsc <= Tprev <= T → T - lsc < 2 ^ 32 → 0 <= me →
  ∃ e, 0 <= e <= me ∧ 2 * e <= T - Tprev
    ∧ u32 (minmax_point (u32 lsc) me prev (u32 T)).(minp) = T - lsc - e
    ∧ u32 (minmax_point (u32 lsc) me prev (u32 T)).(maxp) = T - lsc.
Proof.
  intros Hprev HT Hd Hme. unfold minmax_point.
  assert (Hp : u32 (u32 T - u32 lsc) = T - lsc)
    by (rewrite u32_sub_l, u32_sub_r; by apply u32_small; lia).
  set (pp := match prev with Some q => u32 (q - u32 lsc) | None => 0 end).
  assert (Hpp : pp = Tprev - lsc).
  { unfold pp. destruct prev as [q|]; [|lia]. subst q.
    rewrite u32_sub_l, u32_sub_r. apply u32_small. lia. }
  rewrite Hp, Hpp. replace (T - lsc - (Tprev - lsc)) with (T - Tprev) by lia.
  rewrite (u32_small (T - Tprev)) by lia.
  set (e := if me <? _ then me else _).
  assert (He : 0 <= e <= me ∧ 2 * e <= T - Tprev).
  { unfold e. destruct (Z.ltb_spec me ((T - Tprev) / 2)); Z.div_mod_to_equations; lia. }
  exists e. split_and!; [lia..| |]; simpl; rewrite u32_s32; apply u32_small; lia.
Qed.

(** The times of the steps of a move without wrap-around: the step before it is
    at [t] and its first interval is [i]. *)
Fixpoint times (n : nat) (t i add : Z) : list Z :=
  match n with
  | O => []
  | S n => t + i :: times n (t + i) (i + add) add
  end.

Lemma default_last (t a : Z) ts : default t (last (a :: ts)) = default a (last ts).
Proof.
  destruct ts as [|x ts] using rev_ind; [done|]. by rewrite app_comm_cons, !last_snoc.
Qed.

Lemma times_length n t i add : length (times n t i add) = n.
Proof. revert t i. induction n; simpl; auto. Qed.

Lemma times_last n t i add : default t (last (times n t i add)) = end_time n t i add.
Proof.
  revert t i. induction n as [|n IH]; intros t i.
  - unfold end_time. change (Z.of_nat 0 * (Z.of_nat 0 - 1) / 2) with 0. simpl default. lia.
  - cbn [times]. by rewrite default_last, IH, end_time_succ.
Qed.

Lemma times_steps n t i add pos d :
  map fst (steps n (t + i) (i + add) add pos d) = map u32 (times n t i add).
Proof.
  revert t i pos. induction n as [|n IH]; intros t i pos; simpl; [done|]. by rewrite IH.
Qed.

(** The last of increasing times is not before the first. *)
Lemma sorted_last t ts : Sorted Z.le (t :: ts) → t <= default t (last ts).
Proof.
  revert t. induction ts as [|x ts IH]; intros t Hs; [simpl; lia|].
  rewrite default_last. apply Sorted_inv in Hs as [Hs Hx%HdRel_inv]. apply IH in Hs. lia.
Qed.

(** What the loop of [check_line] has verified when it succeeds: the steps of the
    move are on time and in order, and none comes after the next request. *)
Lemma rwp_check_points n me lsc add : ∀ Ts prev Tprev t i,
  (n <= length Ts)%nat → 0 <= me → - 2 ^ 15 <= add < 2 ^ 15 →
  (match prev with Some q => q = u32 Tprev | None => Tprev = lsc end) →
  lsc <= t <= Tprev → Sorted Z.le (Tprev :: Ts) → Forall (λ T, T - lsc < 2 ^ 32) (Tprev :: Ts) →
  - 2 ^ 15 <= i < 2 ^ 32 →
  rwp (check_points n (u32 lsc) me (map u32 Ts) prev (u32 i) add (t - lsc)) (λ ok, ok = true →
    let ts := times n t i add in
    Forall2 (on_time me) (take n Ts) ts ∧ Sorted Z.le (t :: ts)
    ∧ Sorted Z.le (default t (last ts) :: drop n Ts)).
Proof.
  induction n as [|n IH]; intros Ts prev Tprev t i Hlen Hme Hadd Hprev Ht Hs Hd Hi.
  { intros _. split_and!; [constructor|by repeat constructor|].
    apply Sorted_inv in Hs as [Hs HT]. constructor; [done|]. simpl.
    inversion HT; constructor. lia. }
  destruct Ts as [|T Ts]; simpl in Hlen; [lia|]. cbn [check_points map].
  apply Sorted_inv in Hs as [Hs HT]. apply HdRel_inv in HT.
  apply Forall_cons in Hd as [Hd1 Hd]. pose proof (Forall_inv Hd) as HdT. simpl in HdT.
  destruct (minmax_point_exact lsc me prev Tprev T) as (e & He & He2 & Hmin & Hmax); [done|lia..|].
  rewrite Hmin, Hmax. rwp_if; [done|]. rwp_if; [done|].
  apply orb_false_iff in Heqb as [Hlo%Z.ltb_ge Hhi%Z.ltb_ge]. apply Z.leb_gt in Heqb0.
  rewrite u32_add_r in *.
  assert (Hi' : 0 <= i < 2 ^ 31) by (unfold u32 in Heqb0; Z.div_mod_to_equations; lia).
  assert (Hp : u32 (t - lsc + i) = t + i - lsc).
  { unfold u32 in *. Z.div_mod_to_equations. lia. }
  rewrite Hp in *. rewrite u32_add_l.
  eapply rwp_mono; [apply (IH Ts (Some (u32 T)) T (t + i) (i + add)); try done; lia|].
  intros ok Hok Htrue. destruct (Hok Htrue) as (Hts & Hso & Hend). cbn [times take drop].
  rewrite default_last. split_and!; [|by constructor; [|constructor; lia]|done].
  constructor; [unfold on_time; lia|done].
Qed.

(** ** Queueing a move *)

(** The contents of the [queue_step] command of a move. *)
Definition queue_step_data (sc : stepcompress) (mv : step_move) : list Z :=
  encode_command (u32 sc.(sc_queue_step_msgtag),
    [sc.(sc_oid); mv.(sm_interval); mv.(sm_count); u32 mv.(sm_add)]).

Lemma encode_five data :
  length data = 5%nat → message_alloc_and_encode data = Some (concat (map encode_int data)).
Proof.
  intros Hl. unfold message_alloc_and_encode. rewrite encode_loop_spec by done. simpl.
  rewrite (proj2 (Z.leb_le _ _)); [done|]. unfold MESSAGE_PAYLOAD_MAX, MESSAGE_MAX, MESSAGE_MIN.
  destruct data as [|a [|b [|c [|d [|e []]]]]]; try done. simpl. rewrite !length_app. simpl.
  pose proof (encode_int_length a). pose proof (encode_int_length b).
  pose proof (encode_int_length c). pose proof (encode_int_length d).
  pose proof (encode_int_length e). lia.
Qed.

(** +1 or -1: how a step changes the position. *)
Definition step_sign (sc : stepcompress) : Z := if negb (sc.(sc_sdir) =? 0) then 1 else -1.

(** The fields a flush leaves alone. *)
Definition same_setup (sc sc' : stepcompress) : Prop :=
  sc'.(sc_max_error) = sc.(sc_max_error) ∧ sc'.(sc_oid) = sc.(sc_oid)
  ∧ sc'.(sc_queue_step_msgtag) = sc.(sc_queue_step_msgtag) ∧ sc'.(sc_sdir) = sc.(sc_sdir).

Lemma rwp_add_move sc first_clock mv :
  0 <= mv.(sm_count) →
  rwp (add_move sc first_clock mv) (λ sc', ∃ qm,
    sc'.(sc_msg_queue) = sc.(sc_msg_queue) ++ [qm] ∧ qm.(qm_msg) = queue_step_data sc mv
    ∧ sc'.(sc_last_step_clock)
      = u64 (first_clock + u32 (mv.(sm_add) * (mv.(sm_count) * (mv.(sm_count) - 1) / 2)
                                + mv.(sm_interval) * (mv.(sm_count) - 1)))
    ∧ sc'.(sc_queue) = sc.(sc_queue) ∧ same_setup sc sc'
    ∧ u64 sc'.(sc_last_position) = u64 (sc.(sc_last_position) + step_sign sc * mv.(sm_count))).
Proof.
  intros Hc. unfold add_move. apply rwp_bind, rwp_i32. intros _. apply rwp_bind, rwp_i32. intros _.
  rewrite encode_five by done. apply rwp_bind. simpl. eexists. split_and!; [done|done| |done|done|].
  - rewrite Z.quot_div_nonneg by nia. done.
  - unfold step_sign. rewrite u64_s64. f_equal. destruct (negb _); lia.
Qed.

(** ** Flushing the queue *)

(** The queue holds the low words of the requested times [Ts], which are in
    order, less than a turn of the 32-bit clock after the last step. *)
Record requested (sc : stepcompress) (Ts : list Z) : Prop := {
  rq_queue : sc.(sc_queue) = map u32 Ts;
  rq_error : 0 <= sc.(sc_max_error);
  rq_clock : 0 <= sc.(sc_last_step_clock);
  rq_sorted : Sorted Z.le (sc.(sc_last_step_clock) :: Ts);
  rq_near : Forall (λ T, T - sc.(sc_last_step_clock) < 2 ^ 32) Ts;
  rq_range : Forall (λ T, T < 2 ^ 64) Ts;
}.

(** The move the firmware queues for a command, and the times it steps at. *)
Definition to_move (mv : step_move) : move :=
  mk_move mv.(sm_interval) mv.(sm_add) (Z.to_nat mv.(sm_count)) false.

Fixpoint moves_times (w : Z) (ms : list step_move) : list Z :=
  match ms with
  | [] => []
  | mv :: ms =>
      times (Z.to_nat mv.(sm_count)) w mv.(sm_interval) mv.(sm_add)
      ++ moves_times (end_time (Z.to_nat mv.(sm_count)) w mv.(sm_interval) mv.(sm_add)) ms
  end.

Lemma moves_times_schedule w pos d ms :
  map fst (schedule w pos d (map to_move ms)) = map u32 (moves_times w ms).
Proof.
  revert w pos d. induction ms as [|mv ms IH]; intros w pos d; [done|]. simpl.
  by rewrite !map_app, times_steps, IH.
Qed.

(** The state [sc'] after the moves [ms] have been sent for the first [n] of the
    requested times [Ts]. *)
Record flushed (sc : stepcompress) (Ts : list Z) (n : nat) (ms : list step_move)
    (sc' : stepcompress) : Prop := {
  fl_count : (n <= length Ts)%nat;
  fl_msgs : map qm_msg sc'.(sc_msg_queue)
            = map qm_msg sc.(sc_msg_queue) ++ map (queue_step_data sc) ms;
  fl_queue : sc'.(sc_queue) = map u32 (drop n Ts);
  fl_on_time : Forall2 (on_time sc.(sc_max_error)) (take n Ts)
                 (moves_times sc.(sc_last_step_clock) ms);
  fl_sorted : Sorted Z.le (sc.(sc_last_step_clock) :: moves_times sc.(sc_last_step_clock) ms);
  fl_clock : sc'.(sc_last_step_clock)
             = default sc.(sc_last_step_clock) (last (moves_times sc.(sc_last_step_clock) ms));
  fl_next : Sorted Z.le (sc'.(sc_last_step_clock) :: drop n Ts);
  fl_position : u64 sc'.(sc_last_position)
                = u64 (sc.(sc_last_position) + step_sign sc * Z.of_nat n);
  fl_setup : same_setup sc sc';
  fl_moves : Forall (move_ok (Z.of_nat (length Ts))) ms;
}.

(** Only these fields matter. *)
Definition view (sc : stepcompress) :=
  (sc.(sc_queue), sc.(sc_msg_queue), sc.(sc_last_step_clock), sc.(sc_last_position),
   sc.(sc_max_error), sc.(sc_oid), sc.(sc_queue_step_msgtag), sc.(sc_sdir)).

Lemma flushed_view sc Ts n ms sc' sc'' :
  view sc'' = view sc' → flushed sc Ts n ms sc' → flushed sc Ts n ms sc''.
Proof.
  intros [= Hq Hm Hc Hp He Ho Ht Hs] []. constructor; rewrite ?Hq, ?Hm, ?Hc, ?Hp; try done.
  unfold same_setup. by rewrite He, Ho, Ht, Hs.
Qed.

Lemma flushed_none sc Ts : requested sc Ts → flushed sc Ts 0 [] sc.
Proof.
  intros []. constructor; simpl; try done; try lia.
  - by rewrite app_nil_r.
  - by repeat constructor.
  - f_equal. lia.
Qed.

(** What remains to be done is a request again. *)
Lemma flushed_requested sc Ts n ms sc' :
  requested sc Ts → flushed sc Ts n ms sc' → requested sc' (drop n Ts).
Proof.
  intros [] []. destruct fl_setup0 as (He & _).
  assert (Hge : sc_last_step_clock sc <= sc_last_step_clock sc')
    by (rewrite fl_clock0; by apply sorted_last).
  constructor; try done; try lia.
  - apply (Forall_impl (λ T, T - sc_last_step_clock sc < 2 ^ 32)); [by apply Forall_drop|].
    simpl. lia.
  - by apply Forall_drop.
Qed.

(** Two flushes in a row. *)
Lemma last_join (t : Z) l l' :
  default t (last (l ++ l')) = default (default t (last l)) (last l').
Proof. rewrite last_app. by destruct (last l'). Qed.

Lemma moves_times_app w ms ms' :
  moves_times w (ms ++ ms')
  = moves_times w ms ++ moves_times (default w (last (moves_times w ms))) ms'.
Proof.
  revert w. induction ms as [|mv ms IH]; intros w; [done|]. simpl.
  by rewrite IH, <- app_assoc, last_join, times_last.
Qed.

Lemma sorted_join t l l' :
  Sorted Z.le (t :: l) → Sorted Z.le (default t (last l) :: l') → Sorted Z.le (t :: l ++ l').
Proof.
  revert t. induction l as [|x l IH]; intros t Hl Hl'; [done|].
  rewrite default_last in Hl'. apply Sorted_inv in Hl as [Hl Hx%HdRel_inv]. simpl.
  constructor; [by apply IH|by constructor].
Qed.

Lemma flushed_trans sc Ts n1 ms1 sc1 n2 ms2 sc2 :
  flushed sc Ts n1 ms1 sc1 → flushed sc1 (drop n1 Ts) n2 ms2 sc2 →
  flushed sc Ts (n1 + n2) (ms1 ++ ms2) sc2.
Proof.
  intros [Hc1 Hm1 Hq1 Ho1 Hs1 Hl1 Hn1 Hp1 Hsu1 Hmv1] [Hc2 Hm2 Hq2 Ho2 Hs2 Hl2 Hn2 Hp2 Hsu2 Hmv2].
  destruct Hsu1 as (He & Hoid & Htag & Hsd), Hsu2 as (He2 & Hoid2 & Htag2 & Hsd2).
  rewrite length_drop in Hc2. rewrite drop_drop in *.
  assert (Hdata : ∀ mv, queue_step_data sc1 mv = queue_step_data sc mv)
    by (intros; unfold queue_step_data; by rewrite Hoid, Htag).
  constructor; try done.
  - lia.
  - rewrite Hm2, Hm1, map_app, <- app_assoc. do 2 f_equal. by apply map_ext.
  - rewrite moves_times_app, <- Hl1, <- take_take_drop. rewrite He in Ho2. by apply Forall2_app.
  - rewrite moves_times_app, <- Hl1. apply sorted_join; [done|]. by rewrite <- Hl1.
  - by rewrite moves_times_app, last_join, <- Hl1.
  - rewrite Hp2, <- u64_add_l, Hp1, u64_add_l. unfold step_sign. rewrite Hsd. f_equal. lia.
  - unfold same_setup. by rewrite He2, Hoid2, Htag2, Hsd2.
  - apply Forall_app. split; [done|]. rewrite length_drop in Hmv2.
    eapply Forall_impl; [exact Hmv2|]. intros mv []. constructor; (done || lia).
Qed.

Lemma rwp_check_line sc Ts mv :
  requested sc Ts → move_ok (Z.of_nat (length Ts)) mv →
  let n := Z.to_nat mv.(sm_count) in
  let ts := times n sc.(sc_last_step_clock) mv.(sm_interval) mv.(sm_add) in
  rwp (check_line sc mv) (λ ret, ret = 0 →
    Forall2 (on_time sc.(sc_max_error)) (take n Ts) ts
    ∧ Sorted Z.le (sc.(sc_last_step_clock) :: ts)
    ∧ Sorted Z.le (default sc.(sc_last_step_clock) (last ts) :: drop n Ts)).
Proof.
  intros [] [] n ts. unfold check_line. rwp_if; [done|]. apply rwp_bind.
  rewrite rq_queue0. rewrite <- (u32_small (sm_interval mv)) at 1 by done.
  replace 0 with (sc_last_step_clock sc - sc_last_step_clock sc) at 1 by lia.
  eapply rwp_mono; [apply (rwp_check_points n _ _ _ Ts None (sc_last_step_clock sc)); try done; try lia|].
  - constructor; [lia|done].
  - intros [] Hok; [|done]. intros _. by apply Hok.
Qed.

(** The last of the checked times is in the range of the clock. *)
Lemma on_time_last me w Ts ts (P : Z → Prop) :
  Forall2 (on_time me) Ts ts → Forall P Ts → (∀ x y, x <= y → P y → P x) → P w →
  P (default w (last ts)).
Proof.
  intros Hts HP Hle Hw. destruct (last ts) as [t|] eqn:Hl; [|done].
  apply last_Some_elem_of in Hl. apply list_elem_of_lookup in Hl as [k Hk].
  destruct (Forall2_lookup_r _ _ _ _ _ Hts Hk) as (T & HT & Hon). unfold on_time in Hon.
  apply (Hle t T); [lia|]. by eapply (Forall_lookup_1 P).
Qed.

Lemma rwp_send_move sc Ts mv :
  requested sc Ts → move_ok (Z.of_nat (length Ts)) mv →
  let n := Z.to_nat mv.(sm_count) in
  let ts := times n sc.(sc_last_step_clock) mv.(sm_interval) mv.(sm_add) in
  Forall2 (on_time sc.(sc_max_error)) (take n Ts) ts →
  Sorted Z.le (sc.(sc_last_step_clock) :: ts) →
  Sorted Z.le (default sc.(sc_last_step_clock) (last ts) :: drop n Ts) →
  rwp (add_move sc (u64 (sc.(sc_last_step_clock) + mv.(sm_interval))) mv) (λ sc',
    sc'.(sc_queue) = map u32 Ts ∧ flushed sc Ts n [mv] (sc' <| sc_queue := map u32 (drop n Ts) |>)).
Proof.
  intros Hrq Hmv n ts Hon Hso Hnext. pose proof Hmv as Hmv'. destruct Hrq, Hmv.
  eapply rwp_mono; [apply rwp_add_move; lia|].
  intros sc' (qm & Hmsg & Hqm & Hclk & Hq & Hset & Hpos). split; [by rewrite Hq|].
  set (last0 := sc_last_step_clock sc) in *.
  set (endt := default last0 (last ts)) in *.
  assert (Hend : endt = end_time n last0 (sm_interval mv) (sm_add mv)) by apply times_last.
  assert (Hfirst : last0 + sm_interval mv <= endt).
  { unfold endt, ts. destruct n as [|n'] eqn:Hn; [lia|]. cbn [times]. rewrite default_last.
    apply sorted_last. unfold ts in Hso. cbn [times] in Hso. by apply Sorted_inv in Hso as [? _]. }
  assert (Hnear : endt - last0 < 2 ^ 32).
  { apply (on_time_last (sc_max_error sc) last0 (take n Ts) ts (λ t, t - last0 < 2 ^ 32));
      [done|by apply Forall_take|intros; lia|lia]. }
  assert (Hrange : endt < 2 ^ 64).
  { destruct Ts as [|T Ts']; [simpl in *; lia|].
    apply (on_time_last (sc_max_error sc) last0 (take n (T :: Ts')) ts (λ t, t < 2 ^ 64));
      [done|by apply Forall_take|intros; lia|].
    apply Forall_inv in rq_range0. apply Sorted_inv in rq_sorted0 as [_ Hx%HdRel_inv]. lia. }
  assert (Hclk' : sc_last_step_clock sc' = endt).
  { rewrite Hclk, u64_add_l. rewrite Hend in *. unfold end_time in *. unfold n in *.
    rewrite Z2Nat.id in * by lia. rewrite u32_small by lia. rewrite u64_small by lia. lia. }
  constructor; simpl; rewrite ?app_nil_r, ?Hclk'; try done.
  - lia.
  - by rewrite Hmsg, map_app, <- Hqm.
  - rewrite Hpos. unfold n. by rewrite Z2Nat.id by lia.
  - by constructor.
Qed.

(** Every round of [queue_flush] sends a move for at least one step. *)
Lemma rwp_flush_loop fuel : ∀ sc Ts move_clock,
  requested sc Ts → Ts ≠ [] → (length Ts <= fuel)%nat →
  rwp (flush_loop fuel sc move_clock) (λ r, ∃ n ms, flushed sc Ts n ms r.2
    ∧ (r.1 = 0 → n = length Ts ∨ move_clock <= r.2.(sc_last_step_clock))).
Proof.
  induction fuel as [|fuel IH]; intros sc Ts move_clock Hrq Hne Hfuel.
  { destruct Ts; [done|simpl in *; lia]. }
  cbn [flush_loop]. rwp_if.
  { exists 0%nat, []. split; [|right; simpl; lia].
    apply (flushed_view _ _ _ _ sc); [done|]. by apply flushed_none. }
  pose proof (rq_queue _ _ Hrq) as Hq.
  assert (Hlen : length (sc_queue sc) = length Ts) by (by rewrite Hq, length_map).
  apply rwp_bind. eapply rwp_mono; [apply rwp_compress; by rewrite Hq; destruct Ts|].
  rewrite Hlen. intros mv Hmv. apply rwp_bind.
  eapply rwp_mono; [by apply (rwp_check_line _ Ts)|]. intros ret Hret.
  rwp_if.
  { apply negb_true_iff, Z.eqb_neq in Heqb0. exists 0%nat, []. split; [by apply flushed_none|done]. }
  apply negb_false_iff, Z.eqb_eq in Heqb0. destruct (Hret Heqb0) as (Hon & Hso & Hnext).
  apply rwp_bind. eapply rwp_mono; [by apply (rwp_send_move _ Ts)|].
  intros sc1 [Hq1 Hfl]. pose proof (mo_count _ _ Hmv) as Hc. rewrite Hq1, length_map in *.
  rwp_if.
  - apply Z.leb_le in Heqb1. exists (Z.to_nat (sm_count mv)), [mv].
    split; [|left; lia]. eapply flushed_view; [|exact Hfl]. rewrite drop_ge by lia. done.
  - apply Z.leb_gt in Heqb1. set (n := Z.to_nat (sm_count mv)) in *.
    set (sc2 := sc1 <| sc_queue ::= _ |> <| sc_pos ::= _ |>).
    assert (Hfl2 : flushed sc Ts n [mv] sc2).
    { eapply flushed_view; [|exact Hfl]. unfold view. simpl. by rewrite Hq1, fmap_drop. }
    pose proof (flushed_requested _ _ _ _ _ Hrq Hfl2) as Hrq2.
    eapply rwp_mono; [apply (IH sc2 (drop n Ts)); [done| |]|].
    + intros Hnil. apply (f_equal length) in Hnil. rewrite length_drop in Hnil. simpl in Hnil. lia.
    + rewrite length_drop. lia.
    + intros [ret' sc'] (n' & ms & Hfl' & Hdone). simpl in *. exists (n + n')%nat, (mv :: ms).
      split; [by apply (flushed_trans _ _ n [mv] sc2)|].
      intros Hr. destruct (Hdone Hr) as [->|]; [left|by right]. rewrite length_drop. lia.
Qed.

Lemma rwp_queue_flush sc Ts move_clock :
  requested sc Ts →
  rwp (queue_flush sc move_clock) (λ r, ∃ n ms, flushed sc Ts n ms r.2
    ∧ (r.1 = 0 → n = length Ts ∨ move_clock <= r.2.(sc_last_step_clock))).
Proof.
  intros Hrq. unfold queue_flush. pose proof (rq_queue _ _ Hrq) as Hq.
  destruct Ts as [|T Ts]; rewrite Hq.
  { exists 0%nat, []. split; [by apply flushed_none|by left]. }
  change (rwp (flush_loop (length (map u32 (T :: Ts))) sc move_clock) (λ r, ∃ n ms,
    flushed sc (T :: Ts) n ms r.2
    ∧ (r.1 = 0 → n = length (T :: Ts) ∨ move_clock <= r.2.(sc_last_step_clock)))).
  by apply rwp_flush_loop; rewrite ?length_map.
Qed.

(** C7: A flush of the step queue is accurate and ends: for requested step times
    in order, less than a turn of the clock ahead, [queue_flush] sends [queue_step]
    commands for the first [n] of them, and the schedule the firmware executes
    for these commands (StepperSpec.v) after the last step has [n] steps, in
    order, each at most [max_error] ticks before its requested time and never
    after it; the rest of the queue is kept, and the new last step clock and
    position are those of the firmware.  When it reports no error, every step is
    sent or the last one is not before [move_clock].  Nothing is claimed if a
    signed computation of the compression overflows. *)
Theorem queue_flush_accurate sc Ts move_clock :
  requested sc Ts →
  match queue_flush sc move_clock with
  | Ok (ret, sc') => ∃ n ms,
      flushed sc Ts n ms sc'
      ∧ (∀ pos d, ∃ ts, map fst (schedule sc.(sc_last_step_clock) pos d (map to_move ms)) = map u32 ts
           ∧ Forall2 (on_time sc.(sc_max_error)) (take n Ts) ts)
      ∧ (ret = 0 → n = length Ts ∨ move_clock <= sc'.(sc_last_step_clock))
  | Overflow => True
  | _ => False
  end.
Proof.
  intros Hrq. pose proof (rwp_queue_flush sc Ts move_clock Hrq) as Hw. unfold rwp in Hw.
  destruct (queue_flush sc move_clock) as [[ret sc']| | |]; [|done..].
  destruct Hw as (n & ms & Hfl & Hret). exists n, ms. split_and!; [done| |done].
  intros pos d. eexists. split; [apply moves_times_schedule|apply Hfl].
Qed.

(** Six steps of an accelerating motor, allowed to be 25 ticks early. *)
Definition example_times : list Z := [1010; 1990; 2950; 3900; 4820; 5730].
Definition example_sc : stepcompress :=
  (stepcompress_fill (stepcompress_alloc 3) 25 7 8)
    <| sc_queue := map u32 example_times |> <| sc_alloc := 1024 |>.

Lemma example_requested : requested example_sc example_times.
Proof. constructor; simpl; try done; repeat constructor; try lia; done. Qed.

Lemma queue_flush_accurate_witness :
  match queue_flush example_sc UINT64_MAX with
  | Ok (ret, sc') => (ret =? 0) && bool_decide (length sc'.(sc_msg_queue) = 1%nat)
  | _ => false
  end = true ∧
  match queue_flush example_sc UINT64_MAX with
  | Ok (ret, sc') => ∃ n ms,
      flushed example_sc example_times n ms sc'
      ∧ (∀ pos d, ∃ ts, map fst (schedule 0 pos d (map to_move ms)) = map u32 ts
           ∧ Forall2 (on_time 25) (take n example_times) ts)
      ∧ (ret = 0 → n = 6%nat ∨ UINT64_MAX <= sc'.(sc_last_step_clock))
  | Overflow => True
  | _ => False
  end.
Proof.
  split; [by vm_compute|].
  exact (queue_flush_accurate example_sc example_times UINT64_MAX example_requested).
Defined.

(** ** The heap of free places of the move queue *)

(** No entry is before its parent. *)
Definition heap_ordered (mc : list Z) : Prop :=
  ∀ i p c, mc !! p = Some c → (i = 2 * p + 1 ∨ i = 2 * p + 2)%nat →
  ∀ d, mc !! i = Some d → c <= d.

Lemma heap_root_min mc root :
  heap_ordered mc → mc !! 0%nat = Some root → ∀ i d, mc !! i = Some d → root <= d.
Proof.
  intros Hh H0 i. induction i as [i IH] using lt_wf_ind. intros d Hd.
  destruct i as [|i]; [naive_solver lia|].
  assert (Hp : ∃ p, (S i = 2 * p + 1 ∨ S i = 2 * p + 2)%nat).
  { exists (i / 2)%nat. pose proof (Nat.div_mod_eq i 2). pose proof (Nat.mod_upper_bound i 2). lia. }
  destruct Hp as [p Hp]. apply lookup_lt_Some in Hd as Hlt.
  destruct (lookup_lt_is_Some_2 mc p) as [c Hc]; [lia|].
  pose proof (Hh _ _ _ Hc Hp _ Hd). specialize (IH p ltac:(lia) c Hc). lia.
Qed.

Lemma insert_delete_perm (l : list Z) i x :
  (i < length l)%nat → <[i := x]> l ≡ₚ x :: delete i l.
Proof.
  intros Hi. rewrite insert_take_drop by done. rewrite delete_take_drop.
  by rewrite Permutation_middle.
Qed.

(** The state of the loop of [heap_replace]: the entry at [pos] is to be
    overwritten, its parent is not after [req], and without it the entries are
    those of [mc0] without the root [root]. *)
Record heap_hole (mc0 : list Z) (root req : Z) (mc : list Z) (pos : nat) : Prop := {
  hh_pos : (pos < length mc)%nat;
  hh_length : length mc = length mc0;
  hh_order : heap_ordered mc;
  hh_parent : ∀ p c, mc !! p = Some c → (pos = 2 * p + 1 ∨ pos = 2 * p + 2)%nat → c <= req;
  hh_perm : mc0 ≡ₚ root :: delete pos mc;
}.

Lemma child_clock_some mc i : child_clock mc i < UINT64_MAX → mc !! i = Some (child_clock mc i).
Proof. unfold child_clock. destruct (mc !! i); simpl; [done|lia]. Qed.

(** Moving the earlier child up. *)
Lemma heap_hole_down mc0 root req mc pos child :
  let c := child_clock mc child in
  heap_hole mc0 root req mc pos → (child = 2 * pos + 1 ∨ child = 2 * pos + 2)%nat →
  c < req → req <= UINT64_MAX →
  c <= child_clock mc (2 * pos + 1) → c <= child_clock mc (2 * pos + 2) →
  heap_hole mc0 root req (<[pos := c]> mc) child.
Proof.
  intros c [Hpos Hlen Hord Hpar Hperm] Hch Hc Hreq H1 H2.
  assert (Hlk : mc !! child = Some c) by (apply child_clock_some; unfold c in *; lia).
  destruct (lookup_lt_is_Some_2 mc pos Hpos) as [old Hold].
  pose proof (Hord _ _ _ Hold Hch _ Hlk) as Hge.
  constructor; rewrite ?length_insert; try done.
  - by eapply lookup_lt_Some.
  - intros i p x Hx Hi d Hd. destruct (decide (p = pos)) as [->|Hp].
    + rewrite list_lookup_insert_eq in Hx by done. injection Hx as <-.
      rewrite list_lookup_insert_ne in Hd by lia. unfold child_clock in H1, H2.
      destruct Hi as [->| ->]; rewrite Hd in *; simpl in *; lia.
    + rewrite list_lookup_insert_ne in Hx by lia. destruct (decide (i = pos)) as [->|Hip].
      * rewrite list_lookup_insert_eq in Hd by done. injection Hd as <-.
        pose proof (Hord _ _ _ Hx Hi _ Hold). lia.
      * rewrite list_lookup_insert_ne in Hd by lia. by eapply Hord.
  - intros p x Hx Hi. assert (p = pos) as -> by lia.
    rewrite list_lookup_insert_eq in Hx by done. injection Hx as <-. lia.
  - rewrite Hperm. f_equiv. apply (Permutation_cons_inv (a := c)).
    rewrite <- (insert_delete_perm mc pos c) by done.
    apply delete_Permutation. rewrite list_lookup_insert_ne by lia. done.
Qed.

Lemma heap_hole_fill mc0 root req mc pos :
  heap_hole mc0 root req mc pos →
  req <= child_clock mc (2 * pos + 1) → req <= child_clock mc (2 * pos + 2) →
  heap_ordered (<[pos := req]> mc) ∧ root :: <[pos := req]> mc ≡ₚ req :: mc0.
Proof.
  intros [Hpos Hlen Hord Hpar Hperm] H1 H2. split.
  - intros i p x Hx Hi d Hd. destruct (decide (p = pos)) as [->|Hp].
    + rewrite list_lookup_insert_eq in Hx by done. injection Hx as <-.
      rewrite list_lookup_insert_ne in Hd by lia. unfold child_clock in H1, H2.
      destruct Hi as [->| ->]; rewrite Hd in *; simpl in *; lia.
    + rewrite list_lookup_insert_ne in Hx by lia. destruct (decide (i = pos)) as [->|Hip].
      * rewrite list_lookup_insert_eq in Hd by done. injection Hd as <-. by eapply Hpar.
      * rewrite list_lookup_insert_ne in Hd by lia. by eapply Hord.
  - rewrite insert_delete_perm by done. rewrite Hperm. apply Permutation_swap.
Qed.

Lemma heap_loop_spec mc0 root req fuel : ∀ mc pos,
  heap_hole mc0 root req mc pos → req <= UINT64_MAX → (length mc <= fuel + pos)%nat →
  ∃ mc', heap_loop fuel mc req pos = Ok mc' ∧ heap_ordered mc' ∧ root :: mc' ≡ₚ req :: mc0.
Proof.
  induction fuel as [|fuel IH]; intros mc pos Hh Hreq Hfuel; pose proof (hh_pos _ _ _ _ _ Hh).
  { lia. }
  cbn [heap_loop]. rewrite (bool_decide_eq_true_2 _ H). simpl negb.
  set (c1 := child_clock mc (2 * pos + 1)) in *. set (c2 := child_clock mc (2 * pos + 2)) in *.
  destruct (Z.leb_spec req c1), (Z.leb_spec req c2); cbn [andb].
  - eexists. split; [done|]. by apply heap_hole_fill.
  - rewrite (proj2 (Z.ltb_ge c1 c2)) by lia. apply IH; [|done|rewrite length_insert; lia].
    apply heap_hole_down; [done|lia|..]; unfold c1, c2 in *; lia.
  - rewrite (proj2 (Z.ltb_lt c1 c2)) by lia. apply IH; [|done|rewrite length_insert; lia].
    apply heap_hole_down; [done|lia|..]; unfold c1, c2 in *; lia.
  - destruct (Z.ltb_spec c1 c2); (apply IH; [|done|rewrite length_insert; lia]);
      (apply heap_hole_down; [done|lia|..]; unfold c1, c2 in *; lia).
Qed.

Lemma heap_replace_spec mc root req :
  heap_ordered mc → mc !! 0%nat = Some root → req <= UINT64_MAX →
  ∃ mc', heap_replace mc req = Ok mc' ∧ heap_ordered mc' ∧ root :: mc' ≡ₚ req :: mc.
Proof.
  intros Hh H0 Hreq. apply heap_loop_spec; [|done|lia].
  pose proof (lookup_lt_Some _ _ _ H0). constructor; try done.
  - intros. lia.
  - by apply delete_Permutation.
Qed.

(** ** Merging the command queues of the steppers *)

Definition all_msgs (scs : list stepcompress) : list queue_message :=
  concat (map sc_msg_queue scs).

(** The order of the requested clocks. *)
Definition req_sorted (qms : list queue_message) : Prop := Sorted Z.le (map qm_req_clock qms).

Lemma req_sorted_head m qms :
  req_sorted (m :: qms) → Forall (λ m', m.(qm_req_clock) <= m'.(qm_req_clock)) (m :: qms).
Proof.
  intros Hs. unfold req_sorted in Hs. simpl in Hs.
  apply Sorted_StronglySorted in Hs; [|intros ???; lia].
  apply StronglySorted_inv in Hs as [_ Hs]. constructor; [done|].
  by rewrite Forall_map in Hs.
Qed.

(** The first message of the object [i], and what is left without it. *)
Lemma all_msgs_pop scs i sc m qms :
  scs !! i = Some sc → sc.(sc_msg_queue) = m :: qms →
  all_msgs scs ≡ₚ m :: all_msgs (alter (λ sc, sc <| sc_msg_queue ::= tail |>) i scs).
Proof.
  unfold all_msgs. revert i. induction scs as [|sc0 scs IH]; intros [|i] Hi Hq; simplify_eq/=.
  - by rewrite Hq.
  - rewrite (IH i Hi Hq). by rewrite Permutation_middle.
Qed.

Lemma pop_sorted scs i :
  Forall (λ sc, req_sorted sc.(sc_msg_queue)) scs →
  Forall (λ sc, req_sorted sc.(sc_msg_queue)) (alter (λ sc, sc <| sc_msg_queue ::= tail |>) i scs).
Proof.
  intros Hs. revert i. induction Hs as [|sc scs Hsc Hs IH]; intros i; [done|].
  destruct i as [|i]; simpl; (constructor; [|auto; apply IH]); [|done].
  unfold req_sorted in *. simpl. destruct (sc_msg_queue sc); simpl in *; [done|].
  by apply Sorted_inv in Hsc as [? _].
Qed.

(** [lowest_message] finds a first message with the lowest clock. *)
Lemma lowest_message_spec scs : ∀ i r best,
  (lowest_message scs i r best = best
   ∧ Forall (λ sc, ∀ m, head sc.(sc_msg_queue) = Some m → r <= m.(qm_req_clock)) scs)
  ∨ ∃ k sc m qms, lowest_message scs i r best = Some (i + k, m)%nat ∧ scs !! k = Some sc
      ∧ sc.(sc_msg_queue) = m :: qms ∧ m.(qm_req_clock) < r
      ∧ Forall (λ sc, ∀ m', head sc.(sc_msg_queue) = Some m' →
                  m.(qm_req_clock) <= m'.(qm_req_clock)) scs.
Proof.
  induction scs as [|sc scs IH]; intros i r best; cbn [lowest_message]; [by left|].
  assert (Hskip : ∀ r', (∀ m, head sc.(sc_msg_queue) = Some m → r' <= m.(qm_req_clock)) →
    r' <= r → ∀ best', (r' < r → ∃ m qms, best' = Some (i, m) ∧ sc.(sc_msg_queue) = m :: qms
      ∧ m.(qm_req_clock) = r') → (r' = r → best' = best) →
    (lowest_message scs (S i) r' best' = best ∧ Forall (λ sc, ∀ m,
        head sc.(sc_msg_queue) = Some m → r <= m.(qm_req_clock)) (sc :: scs))
    ∨ ∃ k sc' m qms, lowest_message scs (S i) r' best' = Some (i + k, m)%nat
        ∧ (sc :: scs) !! k = Some sc' ∧ sc'.(sc_msg_queue) = m :: qms ∧ m.(qm_req_clock) < r
        ∧ Forall (λ sc, ∀ m', head sc.(sc_msg_queue) = Some m' →
                    m.(qm_req_clock) <= m'.(qm_req_clock)) (sc :: scs)).
  { intros r' Hhd Hr best' Hlt Heq.
    destruct (IH (S i) r' best') as [[Hl Hf]|(k & sc' & m & qms & Hl & Hk & Hq & Hm & Hf)].
    - destruct (decide (r' = r)) as [->|Hne].
      + left. split; [by rewrite Hl, Heq|]. by constructor.
      + right. destruct Hlt as (m & qms & -> & Hq & Hm); [lia|].
        exists 0%nat, sc, m, qms. rewrite Nat.add_0_r, Hl, Hm. split_and!; try done; [lia|].
        by constructor.
    - right. exists (S k), sc', m, qms. rewrite Nat.add_succ_r. split_and!; try done; [lia|].
      constructor; [|done]. intros m' Hm'. specialize (Hhd m' Hm'). lia. }
  destruct (sc_msg_queue sc) as [|m qms] eqn:Hq; simpl in Hskip.
  { apply (Hskip r); [done|lia|lia|done]. }
  destruct (Z.ltb_spec (qm_req_clock m) r).
  - apply (Hskip (qm_req_clock m)); [naive_solver lia|lia|eauto 10|lia].
  - apply (Hskip r); [naive_solver lia|lia|lia|done].
Qed.

(** The abstract synchroniser: a multiset of the times at which the places of
    the move queue become free.  A message may be sent when the first place is
    free; if it carries a move it takes this place until its own clock. *)
Inductive allot : list Z → list queue_message → list queue_message → list Z → Prop :=
| allot_nil slots : allot slots [] [] slots
| allot_cons slots slots1 slots2 qm qms out a :
    a ∈ slots → Forall (Z.le a) slots →
    (if qm.(qm_min_clock) =? 0 then slots1 = slots
     else a :: slots1 ≡ₚ qm.(qm_min_clock) :: slots) →
    allot slots1 qms out slots2 →
    allot slots (qm :: qms) (qm <| qm_min_clock := a |> :: out) slots2.

Lemma lowest_message_min scs :
  Forall (λ sc, req_sorted sc.(sc_msg_queue)) scs →
  (lowest_message scs 0 MAX_CLOCK None = None
   ∧ Forall (λ m, MAX_CLOCK <= m.(qm_req_clock)) (all_msgs scs))
  ∨ ∃ k sc m qms, lowest_message scs 0 MAX_CLOCK None = Some (k, m) ∧ scs !! k = Some sc
      ∧ sc.(sc_msg_queue) = m :: qms
      ∧ Forall (λ m', m.(qm_req_clock) <= m'.(qm_req_clock)) (all_msgs scs).
Proof.
  intros Hs.
  assert (Hall : ∀ r, Forall (λ sc, ∀ m, head sc.(sc_msg_queue) = Some m → r <= m.(qm_req_clock)) scs →
    Forall (λ m, r <= m.(qm_req_clock)) (all_msgs scs)).
  { intros r. unfold all_msgs. induction Hs as [|sc scs Hsc Hs IH]; intros Hf; simpl; [done|].
    apply Forall_cons in Hf as [Hhd Hf]. apply Forall_app. split; [|by apply IH].
    destruct (sc_msg_queue sc) as [|m qms]; [done|]. specialize (Hhd m eq_refl).
    eapply Forall_impl; [by apply req_sorted_head|]. simpl. lia. }
  destruct (lowest_message_spec scs 0 MAX_CLOCK None) as [[Hl Hf]|(k & sc & m & qms & Hl & Hk & Hq & _ & Hf)].
  - left. split; [done|by apply Hall].
  - right. exists k, sc, m, qms. split_and!; [done..|by apply Hall].
Qed.

Lemma order_messages_spec fuel move_clock : ∀ ss scs msgs lb,
  heap_ordered ss.(ss_move_clocks) → ss.(ss_move_clocks) ≠ [] →
  Forall (λ sc, req_sorted sc.(sc_msg_queue)) scs →
  Forall (λ m, m.(qm_min_clock) <= UINT64_MAX ∧ lb <= m.(qm_req_clock)) (all_msgs scs) →
  length (all_msgs scs) = fuel →
  ∃ ss' scs' qms out,
    order_messages fuel ss scs move_clock msgs = Ok (ss', scs', msgs ++ out)
    ∧ allot ss.(ss_move_clocks) qms out ss'.(ss_move_clocks) ∧ heap_ordered ss'.(ss_move_clocks)
    ∧ all_msgs scs ≡ₚ qms ++ all_msgs scs' ∧ Sorted Z.le (lb :: map qm_req_clock qms)
    ∧ Forall (λ m, Z.min (move_clock + 1) MAX_CLOCK <= m.(qm_req_clock)) (all_msgs scs').
Proof.
  induction fuel as [|fuel IH]; intros ss scs msgs lb Hh Hne Hs Hb Hlen;
    (destruct (lowest_message_min scs Hs) as [[Hl Hf]|(k & sc & m & qms & Hl & Hk & Hq & Hf)];
     cbn [order_messages]; rewrite Hl;
     [eexists ss, scs, [], []; rewrite app_nil_r; split_and!;
      [done|constructor|done|done|by repeat constructor|eapply Forall_impl; [done|simpl; lia]]|]).
  { exfalso. apply all_msgs_pop with (m := m) (qms := qms) in Hk; [|done].
    apply Permutation_length in Hk. simpl in Hk. lia. }
  destruct (negb (qm_min_clock m =? 0) && (move_clock <? qm_req_clock m)) eqn:Hstop.
  { apply andb_true_iff in Hstop as [_ Hlt%Z.ltb_lt].
    eexists ss, scs, [], []. rewrite app_nil_r. split_and!;
      [done|constructor|done|done|by repeat constructor|].
    eapply Forall_impl; [done|simpl; lia]. }
  destruct (ss_move_clocks ss) as [|root mc] eqn:Hmc; [done|].
  pose proof (all_msgs_pop _ _ _ _ _ Hk Hq) as Hpop. set (scs1 := alter _ k scs) in *.
  pose proof (pop_sorted scs k Hs) as Hs1. fold scs1 in Hs1.
  rewrite Hpop in Hb, Hf, Hlen. apply Forall_cons in Hb as [[Hmin Hlb] Hb].
  apply Forall_cons in Hf as [_ Hf]. simpl in Hlen.
  assert (Hroot : Forall (Z.le root) (root :: mc)).
  { apply Forall_lookup. intros i x Hx. by eapply (heap_root_min (root :: mc)). }
  assert (Hheap : ∃ mc', (if negb (qm_min_clock m =? 0)
      then heap_replace (root :: mc) (qm_min_clock m) else Ok (root :: mc)) = Ok mc'
    ∧ heap_ordered mc' ∧ (if qm_min_clock m =? 0 then mc' = root :: mc
                          else root :: mc' ≡ₚ qm_min_clock m :: root :: mc)).
  { destruct (qm_min_clock m =? 0); [by eexists|]. by apply heap_replace_spec. }
  destruct Hheap as (mc' & Hrep & Hh' & Hslots). cbn [lookup list_lookup of_opt mbind res_bind].
  rewrite Hrep. cbn [mbind res_bind].
  destruct (IH (ss <| ss_move_clocks := mc' |>) scs1 (msgs ++ [m <| qm_min_clock := root |>])
    (qm_req_clock m)) as (ss' & scs' & qms' & out & Hrun & Hal & Hho & Hperm & Hso & Hdue);
    [done| |done| |lia|].
  { change (mc' ≠ []). destruct (qm_min_clock m =? 0); [by subst|]. intros ->. by apply Permutation_length in Hslots. }
  { rewrite Forall_forall in *. naive_solver. }
  exists ss', scs', (m :: qms'), (m <| qm_min_clock := root |> :: out).
  rewrite <- app_assoc in Hrun. split_and!; try done.
  - apply (allot_cons _ mc'); [left|done|done|exact Hal].
  - rewrite Hpop, Hperm. done.
  - simpl. constructor; [done|]. constructor. done.
Qed.

Lemma pending_messages_length scs : pending_messages scs = length (all_msgs scs).
Proof.
  unfold pending_messages, all_msgs. induction scs as [|sc scs IH]; [done|]. simpl.
  by rewrite IH, length_app.
Qed.

(** C29: The synchroniser merges the commands of the steppers: it ends, loses no
    message, sends them in the order of their clocks, sends everything that is
    due by [move_clock], and allots the places of the firmware's move queue as
    the abstract synchroniser does: a message is held back until the first place
    is free, and the heap keeps the times of all places. *)
Theorem order_messages_merges ss scs move_clock :
  heap_ordered ss.(ss_move_clocks) → ss.(ss_move_clocks) ≠ [] →
  Forall (λ sc, req_sorted sc.(sc_msg_queue)) scs →
  Forall (λ m, m.(qm_min_clock) <= UINT64_MAX ∧ 0 <= m.(qm_req_clock)) (all_msgs scs) →
  ∃ ss' scs' qms out,
    order_messages (pending_messages scs) ss scs move_clock [] = Ok (ss', scs', out)
    ∧ allot ss.(ss_move_clocks) qms out ss'.(ss_move_clocks) ∧ heap_ordered ss'.(ss_move_clocks)
    ∧ all_msgs scs ≡ₚ qms ++ all_msgs scs' ∧ req_sorted qms
    ∧ Forall (λ m, Z.min (move_clock + 1) MAX_CLOCK <= m.(qm_req_clock)) (all_msgs scs').
Proof.
  intros Hh Hne Hs Hb. destruct (order_messages_spec (pending_messages scs) move_clock ss scs [] 0)
    as (ss' & scs' & qms & out & Hrun & Hal & Hho & Hperm & Hso & Hdue);
    [done..|by rewrite pending_messages_length|].
  exists ss', scs', qms, out. split_and!; try done. by apply Sorted_inv in Hso as [? _].
Qed.

(** Two steppers and a move queue with two places, one of them in use until 150. *)
Definition example_msg (data min_clock req_clock : Z) : queue_message :=
  (message_fill [data]) <| qm_min_clock := min_clock |> <| qm_req_clock := req_clock |>.
Definition example_scs : list stepcompress :=
  [(stepcompress_alloc 1) <| sc_msg_queue :=
     [example_msg 1 100 100; example_msg 2 300 300; example_msg 3 900 900] |>;
   (stepcompress_alloc 2) <| sc_msg_queue := [example_msg 4 0 50; example_msg 5 200 200] |>].
Definition example_ss : steppersync := mk_steppersync 1 [0; 150].

Lemma order_messages_merges_witness :
  (λ r, map (λ qm, (qm.(qm_msg), qm.(qm_min_clock))) r.2) <$>
    match order_messages (pending_messages example_scs) example_ss example_scs 400 [] with
    | Ok r => Some r
    | _ => None
    end = Some [([4], 0); ([1], 0); ([5], 100); ([2], 150)] ∧
  ∃ ss' scs' qms out,
    order_messages (pending_messages example_scs) example_ss example_scs 400 [] = Ok (ss', scs', out)
    ∧ allot [0; 150] qms out ss'.(ss_move_clocks) ∧ heap_ordered ss'.(ss_move_clocks)
    ∧ all_msgs example_scs ≡ₚ qms ++ all_msgs scs' ∧ req_sorted qms
    ∧ Forall (λ m, Z.min (400 + 1) MAX_CLOCK <= m.(qm_req_clock)) (all_msgs scs').
Proof.
  split; [by vm_compute|]. apply order_messages_merges.
  - intros [|[|i]] [|[|p]] c Hc Hi d Hd; simplify_eq/=; try lia.
  - done.
  - repeat constructor; simpl; lia.
  - repeat constructor; simpl; unfold UINT64_MAX; lia.
Defined.

(** ** A step far ahead is written past the queue *)

(** Appending steps at the given clocks of a 1MHz micro-controller. *)
Fixpoint append_all (sc : stepcompress) (clocks : list Z) : res (Z * stepcompress) :=
  match clocks with
  | [] => Ok (0, sc)
  | c :: clocks =>
      '(ret, sc) ← stepcompress_append sc 1 0%float (double_of_Z c / 1000000)%D;
      if negb (ret =? 0) then Ok (ret, sc) else append_all sc clocks
  end.

Definition evenly (n : nat) (first interval : Z) : list Z :=
  map (λ k, first + interval * Z.of_nat k) (seq 0 n).

(** The array of step times can be overrun through the public interface: 1024
    steps fill it (of which 1000 are sent when the next one is far ahead), and
    [queue_append_far] stores that step without checking for the end of the
    array. *)
Theorem append_far_overruns :
  let sc := stepcompress_set_time (stepcompress_fill (stepcompress_alloc 3) 25 7 8) 0%float 1000000%float in
  let filled := evenly 1000 1000 1000 ++ evenly 24 800001000 1000 in
  (∃ sc', append_all sc (filled ++ [805400000]) = Ok (0, sc')
          ∧ Z.of_nat (length sc'.(sc_queue)) = sc'.(sc_alloc)
          ∧ sc'.(sc_next_step_clock) = 805400000)
  ∧ append_all sc (filled ++ [805400000; 805500000]) = Bounds.
Proof.
  split; [|vm_compute; reflexivity]. eexists. split; [vm_compute; reflexivity|].
  split; vm_compute; reflexivity.
Qed.
