(* ===== verification/HostText.v ===== *)
(** * Strings, numbers, maps and exceptions of the host (elegoo/common/utilities.cpp)

    What the host's C++ uses of its library: results that throw or have no
    defined behaviour, [std::map] in the order of its keys, decimal and hexadecimal
    numbers, and the splitting of strings. *)

From Stdlib Require Export Ascii.
From S2P Require Import Prelude.

(** ** Results *)

Inductive exn :=
| invalid_argument
| out_of_range
| bad_any_cast
| type_error
| parse_error
| runtime_error (what : string)
| CommandError (what : string).

(** A value, an exception, or a null pointer or an element out of range that is
    used; a loop that needs more than its fuel is [Endless]. *)
Inductive hres (A : Type) :=
| Val (a : A)
| Throws (e : exn)
| Undef
| Endless.
Arguments Val {_} _.
Arguments Throws {_} _.
Arguments Undef {_}.
Arguments Endless {_}.

#[export] Instance hres_ret : MRet hres := λ A a, Val a.
#[export] Instance hres_bind : MBind hres := λ A B f m,
  match m with Val a => f a | Throws e => Throws e | Undef => Undef | Endless => Endless end.

Definition or_undef {A} (o : option A) : hres A := if o is Some a then Val a else Undef.
Definition or_throw {A} (e : exn) (o : option A) : hres A := if o is Some a then Val a else Throws e.

Fixpoint hmap {A B} (f : A → hres B) (l : list A) : hres (list B) :=
  match l with
  | [] => mret []
  | a :: l => b ← f a; bs ← hmap f l; mret (b :: bs)
  end.

Fixpoint hfold {A S} (f : S → A → hres S) (s : S) (l : list A) : hres S :=
  match l with [] => mret s | a :: l => s ← f s a; hfold f s l end.

(** ** [std::map<std::string, A>] in the order of its keys *)

Definition smap (A : Type) := list (string * A).

Fixpoint smap_find {A} (k : string) (m : smap A) : option A :=
  match m with
  | [] => None
  | (k', a) :: m => if bool_decide (k = k') then Some a else smap_find k m
  end.

Fixpoint smap_set {A} (k : string) (a : A) (m : smap A) : smap A :=
  match m with
  | [] => [(k, a)]
  | (k', a') :: m' =>
      match String.compare k k' with
      | Eq => (k, a) :: m'
      | Lt => (k, a) :: m
      | Gt => (k', a') :: smap_set k a m'
      end
  end.

(** [m[k]] of a map that may lack the key, which is then added with [dflt]. *)
Definition smap_get {A} (dflt : A) (k : string) (m : smap A) : A * smap A :=
  match smap_find k m with Some a => (a, m) | None => (dflt, smap_set k dflt m) end.

(** ** Strings *)

Fixpoint str_all (p : ascii → bool) (s : string) : bool :=
  match s with "" => true | String c s => p c && str_all p s end.

Fixpoint lstrip (s : string) : string :=
  match s with
  | "" => ""
  | String c s' => if Ascii.is_space c then lstrip s' else s
  end.

(** [strip] with its default characters, the white space of C. *)
Definition strip (input : string) : string := String.rev (lstrip (String.rev (lstrip input))).

(** [split] with a delimiter of one character and no bound on the splits. *)
Fixpoint split (delimiter : ascii) (input : string) : list string :=
  match input with
  | "" => [""]
  | String c s =>
      match split delimiter s with
      | [] => [String c ""]
      | t :: ts => if bool_decide (c = delimiter) then "" :: t :: ts else String c t :: ts
      end
  end.

(** The position of a character as the text before it and after it. *)
Fixpoint break (c : ascii) (s : string) : option (string * string) :=
  match s with
  | "" => None
  | String a s =>
      if bool_decide (a = c) then Some ("", s)
      else '(l, r) ← break c s; Some (String a l, r)
  end.

(** ** Numbers *)

Definition char_code (c : ascii) : Z := Z.of_N (N_of_ascii c).
Definition code_char (z : Z) : ascii := ascii_of_N (Z.to_N z).

Definition digit (c : ascii) : option Z :=
  let n := char_code c in
  if (48 <=? n) && (n <=? 57) then Some (n - 48)
  else if (97 <=? n) && (n <=? 122) then Some (n - 87)
  else if (65 <=? n) && (n <=? 90) then Some (n - 55)
  else None.

Definition is_digit (base : Z) (c : ascii) : bool :=
  if digit c is Some d then d <? base else false.

Fixpoint digits_value (base acc : Z) (s : string) : Z :=
  match s with
  | "" => acc
  | String c s =>
      match digit c with
      | Some d => if d <? base then digits_value base (acc * base + d) s else acc
      | None => acc
      end
  end.

(** A hexadecimal number may have a prefix. *)
Definition strip_prefix (base : Z) (s : string) : string :=
  match s with
  | String "0" (String x ((String c _) as s')) =>
      if (base =? 16) && (bool_decide (x = "x"%char) || bool_decide (x = "X"%char))
         && is_digit 16 c then s' else s
  | _ => s
  end.
Definition magnitude (base : Z) (s : string) : option Z :=
  match strip_prefix base s with
  | String c s' => if is_digit base c then Some (digits_value base 0 (String c s')) else None
  | "" => None
  end.

(** The sign and the magnitude [strtoll] and [strtoull] read, if there is a number. *)
Definition strto (base : Z) (s : string) : option (bool * Z) :=
  match lstrip s with
  | String "-" s => pair true <$> magnitude base s
  | String "+" s => pair false <$> magnitude base s
  | s => pair false <$> magnitude base s
  end.

Definition signed_number (bits : Z) (s : string) : hres Z :=
  match strto 10 s with
  | None => Throws invalid_argument
  | Some (neg, n) =>
      let v := if neg : bool then - n else n in
      if (- 2 ^ (bits - 1) <=? v) && (v <? 2 ^ (bits - 1)) then Val v else Throws out_of_range
  end.
Definition stoll (s : string) : hres Z := signed_number 64 s.
Definition stoi (s : string) : hres Z := signed_number 32 s.

(** [std::stoull] in a base; a minus sign negates the result modulo 2^64. *)
Definition stoull (base : Z) (s : string) : hres Z :=
  match strto base s with
  | None => Throws invalid_argument
  | Some (neg, n) =>
      if n <? 2 ^ 64 then Val (if neg : bool then u64 (- n) else n) else Throws out_of_range
  end.

Definition digit_char (d : Z) : ascii := code_char (48 + d).

(** The decimal digits of [n] before [acc]; the number halves at least. *)
Fixpoint decimal (fuel : nat) (n : Z) (acc : string) : string :=
  let acc := String (digit_char (n mod 10)) acc in
  match fuel with
  | O => acc
  | S fuel => if n <? 10 then acc else decimal fuel (n / 10) acc
  end.

Definition unsigned_to_string (n : Z) : string := decimal (Z.to_nat (Z.log2 n)) n "".
Definition to_string (z : Z) : string :=
  if z <? 0 then String "-" (unsigned_to_string (- z)) else unsigned_to_string z.

(** ** Maps *)

Lemma compare_refl s : String.compare s s = Eq.
Proof. pose proof (String.compare_antisym s s) as E. by destruct (String.compare s s). Qed.

Lemma smap_find_set {A} k k' (a : A) m :
  smap_find k (smap_set k' a m) = if bool_decide (k = k') then Some a else smap_find k m.
Proof.
  induction m as [|[k1 a1] m IH]; cbn [smap_set smap_find]; [done|].
  destruct (String.compare k' k1) eqn:E; cbn [smap_find].
  - apply String.compare_eq_iff in E as ->. by repeat case_bool_decide.
  - by repeat case_bool_decide.
  - rewrite IH. repeat case_bool_decide; simplify_eq; [|done..]. by rewrite compare_refl in E.
Qed.

Lemma smap_find_fold {A} k (l : list (string * A)) m :
  NoDup l.*1 →
  smap_find k (fold_left (λ m p, smap_set p.1 p.2 m) l m)
  = match smap_find k l with Some a => Some a | None => smap_find k m end.
Proof.
  revert m. induction l as [|[k1 a1] l IH]; intros m Hnd; [done|]. cbn in *.
  apply NoDup_cons in Hnd as [Hk Hnd]. rewrite IH by done. rewrite smap_find_set. cbn.
  case_bool_decide as E; [|done]. subst k1.
  assert (smap_find k l = None) as ->; [|done]. clear -Hk.
  induction l as [|[k2 a2] l IH]; [done|]. cbn in *. rewrite elem_of_cons in Hk.
  case_bool_decide; [naive_solver|]. apply IH. naive_solver.
Qed.

Lemma smap_find_elem {A} k (a : A) l : NoDup l.*1 → (k, a) ∈ l → smap_find k l = Some a.
Proof.
  induction l as [|[k1 a1] l IH]; intros Hnd Hin; [by apply not_elem_of_nil in Hin|].
  cbn in *. apply NoDup_cons in Hnd as [Hk Hnd]. apply elem_of_cons in Hin as [?|Hin].
  - simplify_eq. by case_bool_decide.
  - case_bool_decide as E; [|by apply IH]. subst k1. exfalso. apply Hk.
    apply (list_elem_of_fmap_2 fst _ _ Hin).
Qed.

(** ** Strings *)

Lemma app_cons c s1 s2 : String c s1 +:+ s2 = String c (s1 +:+ s2).
Proof. done. Qed.
Lemma app_nil s : "" +:+ s = s.
Proof. done. Qed.

Lemma str_all_app p s1 s2 : str_all p (s1 +:+ s2) = str_all p s1 && str_all p s2.
Proof. induction s1 as [|c s1 IH]; [done|]. rewrite app_cons. cbn. by rewrite IH, andb_assoc. Qed.

Lemma app_empty_r s : s +:+ "" = s.
Proof. induction s as [|c s IH]; [done|]. by rewrite app_cons, IH. Qed.
Lemma app_assoc_s s1 s2 s3 : s1 +:+ s2 +:+ s3 = (s1 +:+ s2) +:+ s3.
Proof. induction s1 as [|c s1 IH]; [done|]. by rewrite !app_cons, IH. Qed.

Lemma rev_app_app s1 s2 acc : String.rev_app (s1 +:+ s2) acc = String.rev_app s2 (String.rev_app s1 acc).
Proof. revert acc. induction s1 as [|c s1 IH]; intros acc; [done|]. apply IH. Qed.
Lemma rev_app_eq s acc : String.rev_app s acc = String.rev s +:+ acc.
Proof.
  unfold String.rev. revert acc. induction s as [|c s IH]; intros acc; [done|]. cbn.
  rewrite IH, (IH (String c "")). by rewrite <- app_assoc_s.
Qed.
Lemma rev_snoc s c : String.rev (s +:+ String c "") = String c (String.rev s).
Proof. unfold String.rev. by rewrite rev_app_app. Qed.
Lemma rev_involutive s : String.rev (String.rev s) = s.
Proof.
  induction s as [|c s IH]; [done|].
  change (String.rev (String c s)) with (String.rev_app s (String c "")).
  by rewrite rev_app_eq, rev_snoc, IH.
Qed.

(** A character of a word. *)
Definition word_char (c : ascii) : bool := negb (Ascii.is_space c).
(** A word that is not empty. *)
Definition is_word (s : string) : bool := str_all word_char s && negb (bool_decide (s = "")).

Lemma word_last s : is_word s = true → ∃ s' c, s = s' +:+ String c "" ∧ Ascii.is_space c = false.
Proof.
  unfold is_word. induction s as [|c s IH]; [done|]. cbn.
  intros [[Hc Hs]%andb_true_iff _]%andb_true_iff. apply negb_true_iff in Hc.
  destruct s as [|c' s']; [by exists "", c|].
  destruct IH as (s1 & c1 & -> & ?); [by rewrite Hs|]. by exists (String c s1), c1.
Qed.

Lemma lstrip_word w s : is_word w = true → lstrip (w +:+ s) = w +:+ s.
Proof.
  destruct w as [|c w]; [done|]. unfold is_word. rewrite app_cons. cbn.
  intros [[Hc _]%andb_true_iff _]%andb_true_iff. apply negb_true_iff in Hc. by rewrite Hc.
Qed.
Lemma rstrip_word s w : is_word w = true → String.rev (lstrip (String.rev (s +:+ w))) = s +:+ w.
Proof.
  intros (s' & c' & -> & Hc')%word_last. rewrite app_assoc_s, rev_snoc. cbn [lstrip].
  rewrite Hc', <- rev_snoc. apply rev_involutive.
Qed.

Lemma strip_words w s w' :
  is_word w = true → is_word w' = true → strip (w +:+ s +:+ w') = w +:+ s +:+ w'.
Proof. intros Hw Hw'. unfold strip. rewrite lstrip_word, app_assoc_s by done. by apply rstrip_word. Qed.

Lemma strip_word w : is_word w = true → strip w = w.
Proof.
  intros Hw. unfold strip. pose proof (lstrip_word w "" Hw) as Hl. rewrite app_empty_r in Hl.
  rewrite Hl. apply (rstrip_word "" w Hw).
Qed.

Lemma split_cons d w s : str_all (λ c, negb (bool_decide (c = d))) w = true →
  split d (w +:+ String d s) = w :: split d s.
Proof.
  induction w as [|c w IH]; rewrite ?app_cons, ?app_nil; cbn.
  - intros _. rewrite bool_decide_eq_true_2 by done. destruct s as [|c s]; [done|]. cbn.
    destruct (split d s); [done|]. by case_bool_decide.
  - intros [Hc Hw]%andb_true_iff. rewrite IH by done. case_bool_decide; done.
Qed.
Lemma split_last d w : str_all (λ c, negb (bool_decide (c = d))) w = true → split d w = [w].
Proof.
  induction w as [|c w IH]; [done|]. cbn. intros [Hc Hw]%andb_true_iff. rewrite IH by done.
  by case_bool_decide.
Qed.

Lemma break_app c l r : str_all (λ a, negb (bool_decide (a = c))) l = true →
  break c (l +:+ String c r) = Some (l, r).
Proof.
  induction l as [|a l IH]; rewrite ?app_cons, ?app_nil; cbn; [intros _; by rewrite bool_decide_eq_true_2|].
  intros [Ha Hl]%andb_true_iff. rewrite IH by done. by case_bool_decide.
Qed.

Lemma str_all_impl p q s : (∀ c, p c = true → q c = true) → str_all p s = true → str_all q s = true.
Proof.
  intros Hpq. induction s as [|c s IH]; [done|]. cbn. rewrite !andb_true_iff. naive_solver.
Qed.

(** ** Numbers *)

Lemma below_10 (P : Z → Prop) d : Forall P [0; 1; 2; 3; 4; 5; 6; 7; 8; 9] → 0 <= d < 10 → P d.
Proof.
  intros HP Hd. apply (proj1 (Forall_forall P _) HP). rewrite !elem_of_cons. lia.
Qed.

Lemma digit_char_spec d : 0 <= d < 10 → digit (digit_char d) = Some d.
Proof. apply (below_10 (λ d, digit (digit_char d) = Some d)). by repeat constructor. Qed.
Lemma digit_char_word d : 0 <= d < 10 → word_char (digit_char d) = true.
Proof. apply (below_10 (λ d, word_char (digit_char d) = true)). by repeat constructor. Qed.

Lemma decimal_value fuel n acc :
  0 <= n → Z.log2 n <= Z.of_nat fuel →
  digits_value 10 0 (decimal fuel n acc) = digits_value 10 n acc.
Proof.
  revert n acc. induction fuel as [|fuel IH]; intros n acc Hn Hf; cbn [decimal];
    pose proof (Z.mod_pos_bound n 10 eq_refl); pose proof (Z.div_mod n 10 ltac:(lia)).
  - assert (n < 2) by (apply Z.log2_lt_cancel; change (Z.log2 2) with 1; lia).
    cbn [digits_value]. rewrite digit_char_spec by lia. rewrite (proj2 (Z.ltb_lt _ 10)) by lia.
    f_equal. rewrite Z.mod_small; lia.
  - destruct (Z.ltb_spec n 10).
    + cbn [digits_value]. rewrite digit_char_spec, (proj2 (Z.ltb_lt _ 10)) by lia.
      f_equal. rewrite Z.mod_small; lia.
    + rewrite IH.
      * cbn [digits_value]. rewrite digit_char_spec, (proj2 (Z.ltb_lt _ 10)) by lia. f_equal. lia.
      * by apply Z.div_pos.
      * assert (Z.log2 (n / 10) <= Z.log2 (n / 2)) by (apply Z.log2_le_mono, Z.div_le_compat_l; lia).
        assert (Z.log2 (n / 2) = Z.log2 n - 1); [|lia].
        change (n / 2) with (n / 2 ^ 1). rewrite <- Z.shiftr_div_pow2, Z.log2_shiftr by lia.
        assert (3 <= Z.log2 n) by (change 3 with (Z.log2 10); apply Z.log2_le_mono; lia). lia.
Qed.

Lemma decimal_chars p fuel n acc :
  (∀ d, 0 <= d < 10 → p (digit_char d) = true) →
  0 <= n → str_all p (decimal fuel n acc) = str_all p acc.
Proof.
  intros Hp. revert n acc. induction fuel as [|fuel IH]; intros n acc Hn; cbn [decimal];
    pose proof (Z.mod_pos_bound n 10 eq_refl); pose proof (Z.div_pos n 10 Hn eq_refl).
  - cbn. by rewrite Hp by lia.
  - destruct (n <? 10); [cbn; by rewrite Hp by lia|]. rewrite IH by lia. cbn. by rewrite Hp by lia.
Qed.

Lemma decimal_head fuel n acc : 0 <= n →
  ∃ d s, decimal fuel n acc = String (digit_char d) s ∧ 0 <= d < 10.
Proof.
  revert n acc. induction fuel as [|fuel IH]; intros n acc Hn; cbn [decimal];
    pose proof (Z.mod_pos_bound n 10 eq_refl); pose proof (Z.div_pos n 10 Hn eq_refl).
  - by exists (n mod 10), acc; split; [|lia].
  - destruct (n <? 10); [by exists (n mod 10), acc; split; [|lia]|]. apply IH. lia.
Qed.

Lemma strip_prefix_10 s : strip_prefix 10 s = s.
Proof. destruct s as [|[[] [] [] [] [] [] [] []] [|x [|c s]]]; done. Qed.

Lemma magnitude_decimal n : 0 <= n → magnitude 10 (unsigned_to_string n) = Some n.
Proof.
  intros Hn. unfold magnitude. rewrite strip_prefix_10. unfold unsigned_to_string.
  set (fuel := Z.to_nat (Z.log2 n)). pose proof (Z.log2_nonneg n) as Hl.
  assert (digits_value 10 0 (decimal fuel n "") = n) as Hv by (apply decimal_value; lia).
  destruct (decimal_head fuel n "" Hn) as (d & s & E & Hd). rewrite E in *.
  unfold is_digit. rewrite digit_char_spec by done. rewrite (proj2 (Z.ltb_lt d 10)) by lia.
  by rewrite Hv.
Qed.

Lemma strto_digit d s : 0 <= d < 10 →
  strto 10 (String (digit_char d) s) = pair false <$> magnitude 10 (String (digit_char d) s).
Proof.
  intros Hd. revert s. revert d Hd. intros d.
  apply (below_10 (λ d, ∀ s, strto 10 (String (digit_char d) s)
                        = pair false <$> magnitude 10 (String (digit_char d) s))).
  repeat (apply Forall_cons; split; [by intros s|]). by apply Forall_nil.
Qed.

Lemma strto_to_string z : strto 10 (to_string z) = Some (z <? 0, Z.abs z).
Proof.
  unfold to_string. destruct (Z.ltb_spec z 0).
  - change (strto 10 (String "-" ?s)) with (pair true <$> magnitude 10 s).
    rewrite magnitude_decimal by lia. cbn. do 2 f_equal. lia.
  - pose proof (magnitude_decimal z ltac:(lia)) as Hm. unfold unsigned_to_string in *.
    destruct (decimal_head (Z.to_nat (Z.log2 z)) z "" ltac:(lia)) as (d & s & E & Hd).
    rewrite E in *. rewrite strto_digit, Hm by done. cbn. do 2 f_equal. lia.
Qed.

(** Reading back a number that was written. *)
Lemma stoll_to_string z : - 2 ^ 63 <= z < 2 ^ 63 → stoll (to_string z) = Val z.
Proof.
  intros Hz. unfold stoll, signed_number. rewrite strto_to_string.
  assert ((if z <? 0 then - Z.abs z else Z.abs z) = z) as -> by (destruct (Z.ltb_spec z 0); lia).
  rewrite (proj2 (Z.leb_le _ _)), (proj2 (Z.ltb_lt _ _)); cbn; lia || done.
Qed.

Lemma to_string_word z : is_word (to_string z) = true.
Proof.
  assert (Hu : ∀ n, 0 <= n → is_word (unsigned_to_string n) = true).
  { intros n Hn. unfold is_word, unsigned_to_string.
    rewrite (decimal_chars word_char) by (done || apply digit_char_word).
    destruct (decimal_head (Z.to_nat (Z.log2 n)) n "" Hn) as (d & s & -> & _). done. }
  unfold to_string. destruct (Z.ltb_spec z 0); [|by apply Hu].
  specialize (Hu (- z) ltac:(lia)). unfold is_word in *. cbn. by destruct (str_all _ _).
Qed.
