(* ===== verification/MsgProto.v ===== *)
(** * The message protocol of the host (elegoo/msgproto.cpp)

    The host learns the formats of the messages from the data dictionary of the
    firmware, encodes commands given as text or as values, and decodes the
    responses.  A parameter type is one of the eight plain types of the protocol or
    an enumeration over another type; a [shared_ptr] that may be null is an
    [option], and using a null one, or an element past the end of a vector, is
    [Undef].  The decompression and the JSON parser are libraries, and parameters
    of the model. *)

From S2P Require Import Prelude.
From S2P Require Import Crc16.
From S2P Require Import Vlq.
From S2P Require Import State.
From S2P Require Import Command.
From S2P Require Import HostText.

(** ** The checksum *)

Definition host_crc16_step (crc data : Z) : Z :=
  let data := u8 (Z.lxor data (Z.land crc 0xff)) in
  let data := u8 (Z.lxor data (Z.shiftl (Z.land data 0x0f) 4)) in
  u16 (Z.lxor (Z.lxor (Z.lor (Z.shiftl data 8) (Z.shiftr crc 8)) (Z.shiftr data 4))
         (Z.shiftl data 3)).

(** The high and the low byte. *)
Definition host_crc16_ccitt (buf : list Z) : list Z :=
  let crc := fold_left host_crc16_step buf 0xffff in
  [u8 (Z.shiftr crc 8); u8 (Z.land crc 0xff)].

(** ** Parameter types *)

Inductive Any := Any_string (s : string) | Any_bytes (bs : list Z) | Any_other.

Definition any_string (v : Any) : hres string :=
  if v is Any_string s then Val s else Throws bad_any_cast.
Definition any_bytes (v : Any) : hres (list Z) :=
  if v is Any_bytes bs then Val bs else Throws bad_any_cast.

Inductive host_type :=
| Plain (t : param_type)
| Enumeration (pt : host_type) (enum_name : string) (enums : smap Z).

Definition is_dynamic_string (t : host_type) : bool :=
  match t with
  | Plain (PT_string | PT_progmem_buffer | PT_buffer) => true
  | _ => false
  end.
Definition is_int (t : host_type) : bool :=
  match t with
  | Plain (PT_string | PT_progmem_buffer | PT_buffer) | Enumeration _ _ _ => false
  | _ => true
  end.
Definition signed_value (t : host_type) : bool :=
  match t with Plain (PT_int32 | PT_int16) => true | _ => false end.

(** [PT_base::encode] of the 64-bit number that [stoll] returned. *)
Definition PT_base_encode (v : Z) : list Z :=
  let group k := Z.lor (Z.land (Z.shiftr v k) 0x7f) 0x80 in
  (if (0xc000000 <=? v) || (v <? -0x4000000) then [group 28] else [])
  ++ (if (0x180000 <=? v) || (v <? -0x80000) then [group 21] else [])
  ++ (if (0x3000 <=? v) || (v <? -0x1000) then [group 14] else [])
  ++ (if (0x60 <=? v) || (v <? -0x20) then [group 7] else [])
  ++ [Z.land v 0x7f].

Definition PT_string_encode (bs : list Z) : list Z := u8 (Z.of_nat (length bs)) :: bs.

(** What [encode] appends; a value that is not of the enumeration adds nothing. *)
Fixpoint encode (t : host_type) (v : Any) : hres (list Z) :=
  match t with
  | Plain (PT_string | PT_progmem_buffer | PT_buffer) =>
      bs ← any_bytes v; mret (PT_string_encode bs)
  | Plain _ => s ← any_string v; n ← stoll s; mret (PT_base_encode n)
  | Enumeration pt _ enums =>
      tv ← any_string v;
      match smap_find tv enums with
      | None => mret []
      | Some e => encode pt (Any_string (to_string e))
      end
  end.

(** The loop of [PT_base::parse] over the bytes from [pos] on. *)
Fixpoint parse_loop (rest : list Z) (v pos : Z) : hres (Z * Z) :=
  match rest with
  | [] => Undef
  | c :: rest =>
      let v := Z.lor (u32 (Z.shiftl v 7)) (Z.land c 0x7f) in
      if flag_set c 0x80 then parse_loop rest v (pos + 1) else mret (v, pos + 1)
  end.

Definition PT_base_parse (s : list Z) (pos : Z) : hres (Z * Z) :=
  match drop (Z.to_nat pos) s with
  | [] => Undef
  | c :: rest =>
      let v := Z.land c 0x7f in
      let v := if Z.land c 0x60 =? 0x60 then Z.lor v (u32 (-0x20)) else v in
      if flag_set c 0x80 then parse_loop rest v (pos + 1) else mret (v, pos + 1)
  end.

(** [parse]; a number that is not of the enumeration has the result [{}]. *)
Fixpoint pt_parse (t : host_type) (s : list Z) (pos : Z) : hres (Z * Z) :=
  match t with
  | Plain _ => PT_base_parse s pos
  | Enumeration pt _ enums =>
      '(v, pos) ← pt_parse pt s pos;
      if bool_decide (s32 v ∈ enums.*2) then mret (u32 (s32 v), pos) else mret (0, 0)
  end.

Definition bytes_string (bs : list Z) : string :=
  String.string_of_list_ascii (map code_char bs).

(** [PT_string::parseStr], whose result is [{}] when the buffer is too short. *)
Definition parseStr (s : list Z) (pos : Z) : string * Z :=
  match s !! Z.to_nat pos with
  | None => ("", 0)
  | Some l =>
      if Z.of_nat (length s) <? pos + 1 + l then ("", 0)
      else (bytes_string (take (Z.to_nat l) (drop (Z.to_nat (pos + 1)) s)), pos + 1 + l)
  end.

Definition MessageTypes (fmt : string) : option param_type :=
  smap_find fmt [("%u", PT_uint32); ("%i", PT_int32); ("%hu", PT_uint16); ("%hi", PT_int16);
                 ("%c", PT_byte); ("%s", PT_string); ("%.*s", PT_progmem_buffer);
                 ("%*s", PT_buffer)].
#[global] Arguments MessageTypes : simpl never.

(** ** Formats *)

Definition ends_with (suffix name : string) : bool :=
  bool_decide (String.substring (String.length name - String.length suffix)
                 (String.length suffix) name = suffix).

(** The enumeration a parameter of this name uses. *)
Definition enumeration_for (name : string) (enumerations : smap (smap Z)) :
    option (string * smap Z) :=
  List.find (λ e, bool_decide (name = e.1)
                  || ((String.length e.1 <? String.length name)%nat && ends_with ("_" +:+ e.1) name))
    enumerations.

Definition lookup_param (enumerations : smap (smap Z)) (token : string) :
    hres (string * option host_type) :=
  let '(name, fmt) := match break "=" token with Some p => p | None => (token, "") end in
  let pt := Plain <$> MessageTypes fmt in
  match enumeration_for name enumerations with
  | Some (enum_name, enums) =>
      pt ← or_undef pt; mret (name, Some (Enumeration pt enum_name enums))
  | None => mret (name, pt)
  end.

Definition lookup_params (msgformat : string) (enumerations : smap (smap Z)) :
    hres (list (string * option host_type)) :=
  hmap (lookup_param enumerations) (tail (String.words msgformat)).

(** The type of the conversion that starts here: its first one to four characters. *)
Definition output_type (args : string) : option param_type :=
  match MessageTypes (String.substring 0 1 args), MessageTypes (String.substring 0 2 args),
        MessageTypes (String.substring 0 3 args), MessageTypes (String.substring 0 4 args) with
  | Some t, _, _, _ => Some t
  | _, Some t, _, _ => Some t
  | _, _, Some t, _ => Some t
  | _, _, _, o => o
  end.

Fixpoint lookup_output_params (msgformat args : string) : hres (list param_type) :=
  match args with
  | "" => mret []
  | String "%" ((String "%" _) as rest) => lookup_output_params msgformat rest
  | String "%" rest =>
      t ← or_throw (runtime_error ("Invalid output format for '" +:+ msgformat +:+ "'"))
            (output_type args);
      ts ← lookup_output_params msgformat rest;
      mret (t :: ts)
  | String _ rest => lookup_output_params msgformat rest
  end.

(** Every occurrence of [pattern] replaced by "%s", from left to right. *)
Fixpoint replace_all (fuel : nat) (pattern s : string) : string :=
  match fuel, s with
  | S fuel, String c s' =>
      if String.prefix pattern s
      then "%s" +:+ replace_all fuel pattern
                      (String.substring (String.length pattern) (String.length s) s)
      else String c (replace_all fuel pattern s')
  | _, _ => s
  end.

Definition convert_msg_format (msgformat : string) : string :=
  fold_left (λ result pattern, replace_all (String.length result) pattern result)
    ["%u"; "%i"; "%hu"; "%hi"; "%c"; "%.*s"; "%*s"] msgformat.

(** The first "%s" of a message replaced by a value. *)
Fixpoint replace_first (v s : string) : string :=
  match s with
  | String "%" (String "s" rest) => v +:+ rest
  | String c rest => String c (replace_first v rest)
  | "" => ""
  end.

Record message_format := mk_message_format {
  mf_msgid_bytes : list Z;
  mf_msgformat : string;
  mf_debugformat : string;
  mf_name : string;
  mf_param_names : list (string * option host_type);
  mf_name_to_type : smap (option host_type);
}.

Record output_format := mk_output_format {
  of_msgid_bytes : list Z;
  of_msgformat : string;
  of_debugformat : string;
  of_param_types : list param_type;
}.

Inductive format :=
| MessageFormat (f : message_format)
| OutputFormat (f : output_format)
| UnknownFormat.

Definition new_MessageFormat (msgid_bytes : list Z) (msgformat : string)
    (enumerations : smap (smap Z)) : hres message_format :=
  param_names ← lookup_params msgformat enumerations;
  mret (mk_message_format msgid_bytes msgformat (convert_msg_format msgformat)
          (default "" (head (String.words msgformat))) param_names
          (fold_left (λ m p, smap_set p.1 p.2 m) param_names [])).

Definition new_OutputFormat (msgid_bytes : list Z) (msgformat : string) : hres output_format :=
  param_types ← lookup_output_params msgformat msgformat;
  mret (mk_output_format msgid_bytes msgformat (convert_msg_format msgformat) param_types).

(** [MessageFormat::encode]: the values in the order of the parameters. *)
Fixpoint encode_params (ps : list (string * option host_type)) (params : list Any) : hres (list Z) :=
  match ps with
  | [] => mret []
  | (_, t) :: ps =>
      match params with
      | [] => Undef
      | v :: params =>
          t ← or_undef t; b ← encode t v; bs ← encode_params ps params; mret (b ++ bs)
      end
  end.
Definition MessageFormat_encode (f : message_format) (params : list Any) : hres (list Z) :=
  bs ← encode_params f.(mf_param_names) params; mret (f.(mf_msgid_bytes) ++ bs).

(** [MessageFormat::encode_by_name]. *)
Fixpoint encode_named (ps : list (string * option host_type)) (params : smap Any) : hres (list Z) :=
  match ps with
  | [] => mret []
  | (name, t) :: ps =>
      v ← or_throw out_of_range (smap_find name params);
      t ← or_undef t; b ← encode t v; bs ← encode_named ps params; mret (b ++ bs)
  end.
Definition encode_by_name (f : message_format) (params : smap Any) : hres (list Z) :=
  bs ← encode_named f.(mf_param_names) params; mret (f.(mf_msgid_bytes) ++ bs).

(** The text of one parameter of a message, and the position after it. *)
Definition param_value (t : host_type) (s : list Z) (pos : Z) : hres (string * Z) :=
  if is_int t then
    '(v, pos) ← pt_parse t s pos;
    mret (if signed_value t then to_string (s32 v) else to_string (u32 (s32 v)), pos)
  else if is_dynamic_string t then mret (parseStr s pos)
  else '(v, pos) ← pt_parse t s pos; mret (to_string (s32 v), pos).

(** The loop of [MessageFormat::parse]. *)
Fixpoint parse_params (ps : list (string * option host_type)) (s : list Z) (pos : Z)
    (out : smap string) : hres (smap string * Z) :=
  match ps with
  | [] => mret (out, pos)
  | (name, t) :: ps =>
      t ← or_undef t;
      '(v, pos) ← param_value t s pos;
      parse_params ps s pos (smap_set name v out)
  end.

(** The loop of [OutputFormat::parse]. *)
Fixpoint parse_output (ts : list param_type) (s : list Z) (pos : Z) : hres (list string * Z) :=
  match ts with
  | [] => mret ([], pos)
  | t :: ts =>
      '(v, pos) ← param_value (Plain t) s pos;
      '(vs, pos) ← parse_output ts s pos;
      mret (v :: vs, pos)
  end.

Definition fill_message (debugformat : string) (vs : list string) : string :=
  fold_left (λ msg v, replace_first v msg) vs debugformat.

Definition format_parse (f : format) (s : list Z) (pos : Z) : hres (smap string * Z) :=
  match f with
  | MessageFormat f => parse_params f.(mf_param_names) s (pos + Z.of_nat (length f.(mf_msgid_bytes))) []
  | OutputFormat f =>
      '(vs, pos) ← parse_output f.(of_param_types) s (pos + Z.of_nat (length f.(of_msgid_bytes)));
      mret ([("#msg", fill_message f.(of_debugformat) vs)], pos)
  | UnknownFormat =>
      _ ← PT_base_parse s pos;
      mret ([], u64 (Z.of_nat (length s) - MESSAGE_TRAILER_SIZE))
  end.

Definition format_name (f : format) : string :=
  match f with
  | MessageFormat f => f.(mf_name)
  | OutputFormat _ => "#output"
  | UnknownFormat => "#unknown"
  end.

Definition hex_char (d : Z) : ascii := code_char (if d <? 10 then 48 + d else 87 + d).
(** The backslash and the quotation mark. *)
Definition backslash : ascii := code_char 92.
Definition quote : string := String (code_char 34) "".

(** Every character of a string in hexadecimal. *)
Fixpoint s2h (s : string) : string :=
  match s with
  | "" => ""
  | String c s =>
      String backslash (String "x" (String (hex_char (char_code c / 16))
        (String (hex_char (char_code c mod 16)) (s2h s))))
  end.

Definition format_params (f : format) (params : smap string) : hres string :=
  match f with
  | MessageFormat f =>
      out ← hmap (λ p, v ← or_throw out_of_range (smap_find p.1 params);
                       t ← or_undef p.2;
                       mret (if is_dynamic_string t then "'" +:+ s2h v +:+ "'" else v))
              f.(mf_param_names);
      mret (fill_message f.(mf_debugformat) out)
  | _ =>
      msg ← or_throw out_of_range (smap_find "#msg" params);
      mret (format_name f +:+ " " +:+ quote +:+ msg +:+ quote)
  end.

(** ** The parser *)

Record MessageParser := mk_MessageParser {
  mp_enumerations : smap (smap Z);
  mp_messages : list (Z * string * string);
  mp_messages_by_id : gmap Z format;
  mp_messages_by_name : gmap string message_format;
  mp_msgid_by_format : gmap string Z;
  mp_config : smap string;
  mp_version : string;
  mp_build_versions : string;
  mp_raw_identify_data : string;
}.
#[export] Instance eta_MessageParser : Eta MessageParser :=
  λ r, mk_MessageParser r.(mp_enumerations) r.(mp_messages) r.(mp_messages_by_id)
         r.(mp_messages_by_name) r.(mp_msgid_by_format) r.(mp_config) r.(mp_version)
         r.(mp_build_versions) r.(mp_raw_identify_data).

(** The type of a message in the list of all messages. *)
Definition message_type (command_ids output_ids : list Z) (id : Z) : string :=
  if bool_decide (id ∈ command_ids) then "command"
  else if bool_decide (id ∈ output_ids) then "output"
  else "response".

(** One iteration of the loop of [init_messages]. *)
Definition init_message (command_ids output_ids : list Z) (mp : MessageParser)
    (m : string * Z) : hres MessageParser :=
  let '(msgformat, id) := m in
  let msgtype := message_type command_ids output_ids id in
  let mp := mp <| mp_messages ::= λ l, l ++ [(id, msgtype, msgformat)] |>
               <| mp_msgid_by_format ::= <[msgformat := id]> |> in
  msgid_bytes ← encode (Plain PT_int32) (Any_string (to_string id));
  if bool_decide (msgtype = "output") then
    f ← new_OutputFormat msgid_bytes msgformat;
    mret (mp <| mp_messages_by_id ::= <[id := OutputFormat f]> |>)
  else
    f ← new_MessageFormat msgid_bytes msgformat mp.(mp_enumerations);
    mret (mp <| mp_messages_by_id ::= <[id := MessageFormat f]> |>
             <| mp_messages_by_name ::= <[f.(mf_name) := f]> |>).

Definition init_messages (msg : smap Z) (command_ids output_ids : list Z) (mp : MessageParser) :
    hres MessageParser :=
  hfold (init_message command_ids output_ids) mp msg.

Definition DefaultMessages : smap Z :=
  [("identify offset=%u count=%c", 1); ("identify_response offset=%u data=%.*s", 0)].

Definition new_MessageParser : hres MessageParser :=
  init_messages DefaultMessages [] [] (mk_MessageParser [] [] ∅ ∅ ∅ [] "" "" "").

Definition check_packet (s : list Z) : hres Z :=
  if Z.of_nat (length s) <? MESSAGE_MIN then mret 0
  else
    msglen ← or_undef (s !! Z.to_nat MESSAGE_POS_LEN);
    if (msglen <? MESSAGE_MIN) || (MESSAGE_MAX <? msglen) then mret (-1)
    else
      msgseq ← or_undef (s !! Z.to_nat MESSAGE_POS_SEQ);
      if negb (Z.land msgseq (Z.lnot MESSAGE_SEQ_MASK) =? MESSAGE_DEST) then mret (-1)
      else if Z.of_nat (length s) <? msglen then mret 0
      else
        sync ← or_undef (s !! Z.to_nat (msglen - MESSAGE_TRAILER_SYNC));
        if negb (sync =? MESSAGE_SYNC) then mret (-1)
        else
          let msgcrc := take 2 (drop (Z.to_nat (msglen - MESSAGE_TRAILER_CRC)) s) in
          let crc := host_crc16_ccitt (take (Z.to_nat (msglen - MESSAGE_TRAILER_SIZE)) s) in
          if negb (bool_decide (crc = msgcrc)) then mret (-1) else mret msglen.

(** The format of the message at [pos]; message ids are signed. *)
Definition format_at (mp : MessageParser) (s : list Z) (pos : Z) : hres format :=
  '(msgid, _) ← PT_base_parse s pos;
  mret (default UnknownFormat (mp.(mp_messages_by_id) !! s32 msgid)).

(** [parse]: the parameters with the name of the message, or nothing when the
    message does not end where its parameters do. *)
Definition parse (mp : MessageParser) (s : list Z) : hres (option (smap string)) :=
  mid ← format_at mp s MESSAGE_HEADER_SIZE;
  '(params, pos) ← format_parse mid s MESSAGE_HEADER_SIZE;
  if negb (pos =? u64 (Z.of_nat (length s) - MESSAGE_TRAILER_SIZE)) then mret None
  else mret (Some (smap_set "#name" (format_name mid) params)).

(** The loop of [dump]. *)
Fixpoint dump_loop (fuel : nat) (mp : MessageParser) (s : list Z) (pos : Z) : hres (list string) :=
  match fuel with
  | O => Endless
  | S fuel =>
      mid ← format_at mp s pos;
      '(params, pos) ← format_parse mid s pos;
      text ← format_params mid params;
      if u64 (Z.of_nat (length s) - MESSAGE_TRAILER_SIZE) <=? pos then mret [text]
      else out ← dump_loop fuel mp s pos; mret (text :: out)
  end.

Definition dump (fuel : nat) (mp : MessageParser) (s : list Z) : hres (list string) :=
  msgseq ← or_undef (s !! Z.to_nat MESSAGE_POS_SEQ);
  out ← dump_loop fuel mp s MESSAGE_HEADER_SIZE;
  mret (("seq: " +:+ String (hex_char (msgseq / 16)) (String (hex_char (msgseq mod 16)) "")) :: out).

Definition map_to_string (params : smap string) : string :=
  "{" +:+ String.concat ", " (map (λ p, p.1 +:+ ": " +:+ p.2) params) +:+ "}".

(** [MessageParser::format_params]. *)
Definition format_message (mp : MessageParser) (params : smap string) : hres string :=
  let name := default "" (smap_find "#name" params) in
  match mp.(mp_messages_by_name) !! name with
  | Some f => format_params (MessageFormat f) params
  | None =>
      match smap_find "#msg" params with
      | Some msg => mret (name +:+ " " +:+ msg)
      | None => mret (map_to_string params)
      end
  end.

Definition encode_msgblock (seq : Z) (cmd : list Z) : list Z :=
  let msglen := MESSAGE_MIN + Z.of_nat (length cmd) in
  let seq := Z.lor (Z.land seq MESSAGE_SEQ_MASK) MESSAGE_DEST in
  let out := u8 msglen :: seq :: cmd in
  let crc := host_crc16_ccitt out in
  out ++ [Z.land (default 0 (crc !! 0%nat)) 0xff;
          Z.land (Z.shiftr (default 0 (crc !! 1%nat)) 8) 0xff; MESSAGE_SYNC].

Definition lookup_command (mp : MessageParser) (msgformat : string) : hres message_format :=
  msgname ← or_undef (head (split " " (strip msgformat)));
  f ← or_throw (runtime_error ("Unknown command: " +:+ msgname)) (mp.(mp_messages_by_name) !! msgname);
  if negb (bool_decide (msgformat = f.(mf_msgformat)))
  then Throws (runtime_error ("Command format mismatch: " +:+ msgformat +:+ " vs " +:+ f.(mf_msgformat)))
  else mret f.

Definition lookup_msgid (mp : MessageParser) (msgformat : string) : hres Z :=
  or_throw (runtime_error ("Unknown command: " +:+ msgformat)) (mp.(mp_msgid_by_format) !! msgformat).

(** The loop of [parse_buffer], which is then reversed. *)
Fixpoint buffer_bytes (n : nat) (tval : Z) : list Z :=
  match n with O => [] | S n => Z.land tval 0xff :: buffer_bytes n (Z.shiftr tval 8) end.

Definition parse_buffer (value : string) : hres (list Z) :=
  if bool_decide (value = "") then mret []
  else tval ← stoull 16 value; mret (rev (buffer_bytes (String.length value / 2) tval)).

Definition split_once (arg : string) (delimiter : ascii) : string * string :=
  match break delimiter arg with Some p => p | None => (arg, "") end.

(** The value of an argument, by the type of its parameter. *)
Definition argument_value (f : message_format) (arg : string * string) : hres (string * Any) :=
  t ← or_undef (default None (smap_find arg.1 f.(mf_name_to_type)));
  if is_dynamic_string t then bs ← parse_buffer arg.2; mret (arg.1, Any_bytes bs)
  else mret (arg.1, Any_string arg.2).

Definition create_command (mp : MessageParser) (msg : string) : hres (list Z) :=
  match split " " (strip msg) with
  | [] => mret []
  | msgname :: parts =>
      match mp.(mp_messages_by_name) !! msgname with
      | None => mret []
      | Some f =>
          let argparts := fold_left (λ m part, let kv := split_once part "=" in
                                               smap_set kv.1 kv.2 m) parts [] in
          any_argparts ← hmap (argument_value f) argparts;
          encode_by_name f any_argparts
      end
  end.

(** ** The data dictionary *)

(** JSON values; a number that is not an integer has its integral part. *)
Inductive json :=
| J_null
| J_bool (b : bool)
| J_int (z : Z)
| J_float (trunc : Z)
| J_string (s : string)
| J_array (l : list json)
| J_object (l : list (string * json)).

Definition json_items (j : json) : list (string * json) :=
  match j with
  | J_null => []
  | J_object l => l
  | J_array l => imap (λ i v, (to_string (Z.of_nat i), v)) l
  | _ => [("", j)]
  end.

(** [value(key, default)] of an object. *)
Definition json_value (j : json) (key : string) (dflt : json) : hres json :=
  match j with J_object l => mret (default dflt (smap_find key l)) | _ => Throws type_error end.

(** [get<int64_t>()], and the conversion to [int]. *)
Definition json_int64 (j : json) : hres Z :=
  match j with J_int z | J_float z => mret (s64 z) | _ => Throws type_error end.
Definition json_int (j : json) : hres Z :=
  match j with
  | J_int z | J_float z => mret (s32 z)
  | J_bool b => mret (b2z b)
  | _ => Throws type_error
  end.

Definition set_enum (enum_name key : string) (v : Z) (es : smap (smap Z)) : smap (smap Z) :=
  smap_set enum_name (smap_set key (s32 v) (default [] (smap_find enum_name es))) es.

(** A range of enumerators: the key without its last character, and a number. *)
Definition range_enum (enum_name key : string) (start count : Z) (es : smap (smap Z)) :
    smap (smap Z) :=
  let enumkey := String.substring 0 (String.length key - 1) key in
  fold_left (λ es i, set_enum enum_name (enumkey +:+ to_string i) (start + i) es)
    (seqZ 0 count) es.

Definition fill_enumeration (enum_name : string) (es : smap (smap Z)) (e : string * json) :
    hres (smap (smap Z)) :=
  match e.2 with
  | J_int z => mret (set_enum enum_name e.1 (s64 z) es)
  | J_array [start; count] =>
      start ← json_int64 start;
      count ← json_int64 count;
      mret (range_enum enum_name e.1 start count es)
  | _ => mret es
  end.

Definition fill_enumerations (enumerations : json) (mp : MessageParser) : hres MessageParser :=
  es ← hfold (λ es e, match e.2 with
                      | J_object l => hfold (fill_enumeration e.1) es l
                      | _ => mret es
                      end) mp.(mp_enumerations) (json_items enumerations);
  mret (mp <| mp_enumerations := es |>).

Definition config_to_map (jsonconfig : json) (mp : MessageParser) : MessageParser :=
  mp <| mp_config ::= λ config,
    fold_left (λ config c, match c.2 with
                           | J_string s => smap_set c.1 s config
                           | J_int z => smap_set c.1 (to_string (s64 z)) config
                           | _ => config
                           end) (json_items jsonconfig) config |>.

(** The messages of one kind added to the dictionary, and their ids. *)
Definition add_messages (all_messages : smap Z) (j : json) : hres (smap Z * list Z) :=
  hfold (λ st m, id ← json_int m.2; mret (smap_set m.1 id st.1, st.2 ++ [id]))
    (all_messages, []) (json_items j).

Section Dictionary.
(** [uncompress2] of zlib: the bytes written into a buffer of a given size, and
    the parser of JSON texts. *)
Context (uncompress2 : Z → list Z → list Z) (json_parse : string → option json).

Definition DECOMPDATA_SIZE : Z := 20 * 1024.
Definition decompress_data (data : list Z) : list Z := uncompress2 DECOMPDATA_SIZE data.

Definition process_identify (data : list Z) (decompress : bool) (mp : MessageParser) :
    hres MessageParser :=
  if bool_decide (data = []) then mret mp
  else
    let raw_data := bytes_string (if decompress then decompress_data data else data) in
    let mp := mp <| mp_raw_identify_data := raw_data |> in
    if bool_decide (raw_data = "") then mret mp
    else
      json_data ← or_throw parse_error (json_parse raw_data);
      enumerations ← json_value json_data "enumerations" J_null;
      mp ← fill_enumerations enumerations mp;
      commands ← json_value json_data "commands" J_null;
      responses ← json_value json_data "responses" J_null;
      output ← json_value json_data "output" J_null;
      '(all_messages, command_ids) ← add_messages [] commands;
      '(all_messages, _) ← add_messages all_messages responses;
      '(all_messages, output_ids) ← add_messages all_messages output;
      mp ← init_messages all_messages command_ids output_ids mp;
      jsonconfig ← json_value json_data "config" J_null;
      let mp := config_to_map jsonconfig mp in
      version ← json_value json_data "version" J_null;
      build_versions ← json_value json_data "build_versions" J_null;
      let mp := if version is J_string v then mp <| mp_version := v |> else mp in
      if build_versions is J_string _ then
        if version is J_string v then mret (mp <| mp_build_versions := v |>) else Throws type_error
      else mret mp.

End Dictionary.

(** The constants of the firmware; the statement that logs the value of a
    constant evaluates [config[name]], which adds the name when it is missing. *)
Definition log_constant (name : string) (mp : MessageParser) : MessageParser :=
  mp <| mp_config ::= λ config, (smap_get "" name config).2 |>.

Definition get_constant_str (name default_value : string) (mp : MessageParser) :
    hres string * MessageParser :=
  let mp := log_constant name mp in
  (match smap_find name mp.(mp_config) with
   | Some v => Val v
   | None =>
       if negb (bool_decide (default_value = "")) then Val default_value
       else Throws (runtime_error ("Firmware constant '" +:+ name +:+ "' not found"))
   end, mp).

Definition get_constant_int (name : string) (default_value : option Z) (mp : MessageParser) :
    hres Z * MessageParser :=
  let mp := log_constant name mp in
  (match smap_find name mp.(mp_config) with
   | Some v =>
       match stoi v with
       | Val n => Val n
       | _ => or_throw (runtime_error ("Unable to parse firmware constant " +:+ name +:+ ": " +:+ v))
                default_value
       end
   | None =>
       or_throw (runtime_error ("Firmware constant '" +:+ name +:+ "' not found")) default_value
   end, mp).
