(* ===== verification/MsgProtoSpec.v ===== *)
(** * Host and firmware understand each other (elegoo/msgproto.cpp, src/command.c)

    The host's own checksum, number encoding and packet check agree with those of
    the firmware; a command written as text becomes the bytes that make the firmware
    run its handler with the numbers of the text, whatever the order of the
    arguments; a response of the firmware is read back as the text of its values;
    and the dictionary read in pieces over the link is the firmware's. *)

From S2P Require Import Prelude.
From S2P Require Import Crc16.
From S2P Require Import Vlq.
From S2P Require Import State.
From S2P Require Import Machine.
From S2P Require Import Command.
From S2P Require Import CommandSpec.
From S2P Require Import CommandRun.
From S2P Require Import MsgBlock.
From S2P Require Import HostText.
From S2P Require Import MsgProto.

(** ** Checksum *)

Lemma nibble_up d : is_byte d →
  u8 (Z.lxor d (Z.shiftl (Z.land d 0x0f) 4)) = u8 (Z.lxor d (Z.shiftl d 4))
  ∧ u8 (Z.shiftr d 4) = Z.shiftr d 4.
Proof.
  intros Hd.
  assert (H := byte_forall (λ d,
    (u8 (Z.lxor d (Z.shiftl (Z.land d 0x0f) 4)) =? u8 (Z.lxor d (Z.shiftl d 4)))
    && (u8 (Z.shiftr d 4) =? Z.shiftr d 4)) ltac:(vm_compute; reflexivity) d Hd).
  by apply andb_prop in H as [?%Z.eqb_eq ?%Z.eqb_eq].
Qed.

Lemma host_crc_step crc d : host_crc16_step crc d = crc16_step crc d.
Proof.
  unfold host_crc16_step, crc16_step. set (d1 := u8 (Z.lxor d (Z.land crc 255))).
  assert (is_byte d1) as H1 by apply u8_range.
  rewrite (proj1 (nibble_up d1 H1)). set (d2 := u8 (Z.lxor d1 (Z.shiftl d1 4))).
  by rewrite (proj2 (nibble_up d2 (u8_range _))).
Qed.

Lemma host_crc_eq buf : host_crc16_ccitt buf = [crc16_ccitt buf / 256; crc16_ccitt buf mod 256].
Proof.
  unfold host_crc16_ccitt.
  assert (∀ c, fold_left host_crc16_step buf c = fold_left crc16_step buf c) as ->.
  { induction buf as [|d buf IH]; intros c; [done|]. cbn. by rewrite host_crc_step, IH. }
  change (fold_left crc16_step buf 65535) with (crc16_ccitt buf).
  pose proof (crc16_ccitt_range buf). rewrite Z.shiftr_div_pow2 by lia. change (2 ^ 8) with 256.
  rewrite u8_small by (Z.div_mod_to_equations; lia).
  change 0xff with (Z.ones 8). rewrite Z.land_ones by lia. change (2 ^ 8) with 256.
  rewrite u8_small by (Z.div_mod_to_equations; lia). done.
Qed.

(** ** Numbers *)

Lemma PT_base_encode_groups v :
  PT_base_encode v =
    (if (201326592 <=? v) || (v <? -67108864) then [Z.lor (v / 268435456 mod 128) 0x80] else [])
    ++ (if (1572864 <=? v) || (v <? -524288) then [Z.lor (v / 2097152 mod 128) 0x80] else [])
    ++ (if (12288 <=? v) || (v <? -4096) then [Z.lor (v / 16384 mod 128) 0x80] else [])
    ++ (if (96 <=? v) || (v <? -32) then [Z.lor (v / 128 mod 128) 0x80] else [])
    ++ [v mod 128].
Proof. unfold PT_base_encode. rewrite !land_7f, !shiftr_div by lia. done. Qed.

(** The firmware reads the number modulo 2^32. *)
Lemma parse_PT_base_encode v p : parse_int (PT_base_encode v ++ p) = Some (u32 v, p).
Proof.
  rewrite PT_base_encode_groups.
  repeat case_match; simpl app;
    repeat first
      [ rewrite parse_int_last by auto using group_range
      | rewrite parse_int_more by auto using group_range
      | rewrite parse_int_loop_more by auto using group_range
      | rewrite parse_int_loop_last by auto using group_range ];
    f_equal; f_equal; unfold vlq_first, u32 in *;
    repeat match goal with
    | H : (_ || _) = true |- _ => apply orb_prop in H as [?%Z.leb_le|?%Z.ltb_lt]
    | H : (_ || _) = false |- _ => apply orb_false_iff in H as [?%Z.leb_gt ?%Z.ltb_ge]
    end; try lia; case_cmp; Z.div_mod_to_equations; lia.
Qed.

Lemma u32_lor_small v x : 0 <= x < 128 → u32 (Z.lor v x) = Z.lor (u32 v) x.
Proof.
  intros Hx. unfold u32. rewrite <- !Z.land_ones, Z.land_lor_distr_l by lia. f_equal.
  rewrite Z.land_ones by lia. apply Z.mod_small. lia.
Qed.

Lemma parse_int_loop_shorter rest v v' rest' :
  parse_int_loop v rest = Some (v', rest') → (length rest' < length rest)%nat.
Proof.
  revert v. induction rest as [|d rest IH]; intros v; [done|]. cbn [parse_int_loop].
  destruct (flag_set d 128); [intros ?%IH; cbn; lia|]. intros [= <- <-]. cbn. lia.
Qed.

Lemma parse_loop_int rest : ∀ v pos,
  parse_loop rest v pos =
    match parse_int_loop v rest with
    | Some (v', rest') => Val (v', pos + Z.of_nat (length rest - length rest'))
    | None => Undef
    end.
Proof.
  induction rest as [|c rest IH]; intros v pos; [done|]. cbn [parse_loop parse_int_loop].
  rewrite u32_lor_small by (rewrite land_7f; apply Z.mod_pos_bound; lia).
  set (v1 := Z.lor _ _). destruct (flag_set c 128).
  - rewrite IH. destruct (parse_int_loop v1 rest) as [[v' rest']|] eqn:E; [|done].
    f_equal. f_equal. apply parse_int_loop_shorter in E. cbn [length]. lia.
  - unfold mret, hres_ret. f_equal. f_equal. cbn [length]. lia.
Qed.

(** The host's parser at a position is the firmware's on the bytes from there on. *)
Lemma PT_base_parse_int pre bs v rest :
  parse_int (bs ++ rest) = Some (v, rest) →
  PT_base_parse (pre ++ bs ++ rest) (Z.of_nat (length pre))
  = Val (v, Z.of_nat (length (pre ++ bs))).
Proof.
  intros Hp. unfold PT_base_parse. rewrite Nat2Z.id, drop_app_length.
  destruct (bs ++ rest) as [|c l] eqn:E; [done|]. cbn [parse_int] in Hp.
  assert (Hl : length bs = (length l + 1 - length rest)%nat).
  { apply (f_equal length) in E. rewrite length_app in E. cbn in E. lia. }
  destruct (flag_set c 128).
  - rewrite parse_loop_int, Hp. apply parse_int_loop_shorter in Hp. f_equal. f_equal.
    rewrite length_app, Hl. lia.
  - simplify_eq. unfold mret, hres_ret. f_equal. f_equal. rewrite length_app. lia.
Qed.

(** ** Packets *)

Lemma or_undef_bind {A B} (o : option A) a (f : A → hres B) : o = Some a → (or_undef o ≫= f) = f a.
Proof. by intros ->. Qed.

Lemma check_packet_frame seq c rest :
  seq_ok seq → (length c <= 59)%nat →
  check_packet (frame seq c ++ rest) = Val (Z.of_nat (length (frame seq c))).
Proof.
  intros Hseq Hlen. set (a := Z.of_nat (length c) + 5). set (crc := crc16_ccitt (a :: seq :: c)).
  pose proof (shape_tail a seq c (crc / 256) (crc mod 256) MESSAGE_SYNC rest) as Ht.
  pose proof (shape_crc_input a seq c (crc / 256) (crc mod 256) MESSAGE_SYNC rest) as Hin.
  change (frame seq c) with (a :: seq :: c ++ [crc / 256; crc mod 256; MESSAGE_SYNC]).
  fold a in Ht, Hin. unfold check_packet. set (buf := _ ++ rest) in *.
  assert (Hb : length buf = (length c + 5 + length rest)%nat)
    by (unfold buf; cbn; rewrite !length_app; cbn; lia).
  rewrite (proj2 (Z.ltb_ge _ MESSAGE_MIN)) by (unfold MESSAGE_MIN; lia).
  rewrite (or_undef_bind _ a), (or_undef_bind _ seq) by done.
  rewrite (proj2 (Z.ltb_ge a MESSAGE_MIN)), (proj2 (Z.ltb_ge MESSAGE_MAX a))
    by (unfold MESSAGE_MIN, MESSAGE_MAX; lia). cbn [orb].
  rewrite seq_mask, bool_decide_eq_true_2 by (unfold seq_ok, is_byte in *; lia). cbn [negb].
  rewrite (proj2 (Z.ltb_ge _ a)) by lia.
  rewrite (or_undef_bind _ MESSAGE_SYNC).
  2: { rewrite <- (Ht 2%nat); [f_equal; unfold MESSAGE_TRAILER_SYNC; lia|done]. }
  rewrite Z.eqb_refl, Hin, host_crc_eq. fold crc. cbn [negb].
  assert (take 2 (drop (Z.to_nat (a - MESSAGE_TRAILER_CRC)) buf) = [crc / 256; crc mod 256]) as ->.
  { replace (Z.to_nat (a - MESSAGE_TRAILER_CRC)) with (length (a :: seq :: c))
      by (unfold MESSAGE_TRAILER_CRC; cbn; lia).
    unfold buf. change (a :: seq :: c ++ ?t) with ((a :: seq :: c) ++ t).
    by rewrite <- app_assoc, drop_app_length. }
  rewrite bool_decide_eq_true_2 by done. cbn. unfold mret, hres_ret. f_equal.
  rewrite length_app. cbn. lia.
Qed.

Lemma hres_bind_undef {A B} (o : option A) (f : A → hres B) n :
  (or_undef o ≫= f) = Val n → ∃ a, o = Some a ∧ f a = Val n.
Proof. destruct o as [a|]; [|done]. intros Hf. by exists a. Qed.

(** What a finished check has seen. *)
Lemma check_packet_inv s n :
  check_packet s = Val n → n ≠ 0 →
  ∃ msglen msgseq, s !! 0%nat = Some msglen ∧
    ((msglen < 5 ∨ 64 < msglen) ∧ n = -1
     ∨ 5 <= msglen <= 64 ∧ s !! 1%nat = Some msgseq
       ∧ (Z.land msgseq (Z.lnot MESSAGE_SEQ_MASK) ≠ MESSAGE_DEST ∧ n = -1
          ∨ Z.land msgseq (Z.lnot MESSAGE_SEQ_MASK) = MESSAGE_DEST
            ∧ msglen <= Z.of_nat (length s)
            ∧ let blk := take (Z.to_nat msglen) s in
              n = if bool_decide (blk !! Z.to_nat (msglen - 1) = Some MESSAGE_SYNC
                                  ∧ host_crc16_ccitt (take (Z.to_nat (msglen - 3)) blk)
                                    = take 2 (drop (Z.to_nat (msglen - 3)) blk))
                  then msglen else -1)).
Proof.
  unfold check_packet. destruct (Z.ltb_spec (Z.of_nat (length s)) MESSAGE_MIN); [by intros [= <-]|].
  intros (msglen & H0 & Hc)%hres_bind_undef Hn. unfold MESSAGE_MIN, MESSAGE_MAX in *.
  destruct ((msglen <? 5) || (64 <? msglen)) eqn:El in Hc.
  { injection Hc as <-. exists msglen, 0. split; [done|]. left. split; [|done].
    apply orb_prop in El as [?%Z.ltb_lt|?%Z.ltb_lt]; lia. }
  apply orb_false_iff in El as [?%Z.ltb_ge ?%Z.ltb_ge].
  apply hres_bind_undef in Hc as (msgseq & Hseq & Hc). exists msglen, msgseq. split; [done|].
  right. split; [lia|]. split; [done|].
  destruct (Z.eqb_spec (Z.land msgseq (Z.lnot MESSAGE_SEQ_MASK)) MESSAGE_DEST) as [E|E]; cbn in Hc.
  2: { left. split; [done|]. by injection Hc as <-. }
  destruct (Z.ltb_spec (Z.of_nat (length s)) msglen); [by injection Hc as <-|].
  right. split_and!; [done|done|]. cbv zeta.
  apply hres_bind_undef in Hc as (sync & Hsync & Hc).
  unfold MESSAGE_TRAILER_SYNC, MESSAGE_TRAILER_CRC, MESSAGE_TRAILER_SIZE in *.
  rewrite lookup_take_lt by lia. rewrite Hsync. rewrite take_take, Nat.min_l by lia.
  assert (take 2 (drop (Z.to_nat (msglen - 3)) (take (Z.to_nat msglen) s))
          = take 2 (drop (Z.to_nat (msglen - 3)) s)) as ->.
  { replace (Z.to_nat msglen) with (Z.to_nat (msglen - 3) + 3)%nat by lia.
    by rewrite <- take_drop_commute, take_take. }
  destruct (Z.eqb_spec sync MESSAGE_SYNC) as [Es|Es]; cbn in Hc.
  - destruct (bool_decide (host_crc16_ccitt _ = _)) eqn:Ecrc in Hc; cbn in Hc; injection Hc as <-.
    + apply bool_decide_eq_true in Ecrc. rewrite bool_decide_eq_true_2; [done|]. by rewrite Es.
    + apply bool_decide_eq_false in Ecrc. rewrite bool_decide_eq_false_2; [done|]. naive_solver.
  - injection Hc as <-. rewrite bool_decide_eq_false_2; [done|]. naive_solver.
Qed.

Lemma check_packet_accepts s msglen msgseq :
  byte_list s → s !! 0%nat = Some msglen → s !! 1%nat = Some msgseq → 5 <= msglen <= 64 →
  msglen <= Z.of_nat (length s) → Z.land msgseq (Z.lnot MESSAGE_SEQ_MASK) = MESSAGE_DEST →
  let blk := take (Z.to_nat msglen) s in
  blk !! Z.to_nat (msglen - 1) = Some MESSAGE_SYNC →
  host_crc16_ccitt (take (Z.to_nat (msglen - 3)) blk) = take 2 (drop (Z.to_nat (msglen - 3)) blk) →
  ∃ c, s = frame msgseq c ++ drop (Z.to_nat msglen) s ∧ seq_ok msgseq
    ∧ msglen = Z.of_nat (length c) + 5.
Proof.
  intros Hs H0 H1 Hlen Hls Hseq blk Hsync Hcrc.
  destruct (split_block blk) as (a & b & c & x & y & z & Heq); [unfold blk; rewrite length_take; lia|].
  assert (Hbl : Z.of_nat (length blk) = msglen) by (unfold blk; rewrite length_take; lia).
  assert (Hc : msglen = Z.of_nat (length c) + 5).
  { rewrite <- Hbl, Heq. cbn. rewrite length_app. cbn. lia. }
  assert (a = msglen ∧ b = msgseq) as [-> ->].
  { rewrite <- (take_drop (Z.to_nat msglen) s) in H0, H1. fold blk in H0, H1. rewrite Heq in H0, H1.
    cbn in *. by simplify_eq. }
  assert (Hm : is_byte msgseq).
  { eapply Forall_lookup_1; [exact Hs|exact H1]. }
  assert (Hok : seq_ok msgseq).
  { pose proof (seq_mask msgseq Hm) as E. rewrite Hseq, Z.eqb_refl in E. symmetry in E.
    by apply bool_decide_eq_true in E. }
  pose proof (shape_tail msglen msgseq c x y z []) as Ht.
  pose proof (shape_crc_input msglen msgseq c x y z []) as Hin.
  rewrite <- Hc, app_nil_r in Ht, Hin. rewrite <- Heq in Ht, Hin. unfold MESSAGE_TRAILER_SIZE in Hin.
  assert (z = MESSAGE_SYNC) as ->.
  { specialize (Ht 2%nat z eq_refl). replace (msglen - 3 + Z.of_nat 2) with (msglen - 1) in Ht by lia.
    by simplify_eq. }
  rewrite Hin, host_crc_eq in Hcrc. replace (Z.to_nat (msglen - 3)) with (length (msglen :: msgseq :: c))
    in Hcrc by (cbn; lia).
  rewrite Heq in Hcrc. change (msglen :: msgseq :: c ++ ?t) with ((msglen :: msgseq :: c) ++ t) in Hcrc.
  rewrite drop_app_length in Hcrc. cbn [take] in Hcrc. simplify_eq Hcrc. intros Hx Hy.
  exists c. split_and!; [|done..]. rewrite <- (take_drop (Z.to_nat msglen) s) at 1. f_equal.
  fold blk. rewrite Heq. unfold frame. rewrite <- Hx, <- Hy, Hc. done.
Qed.

Lemma frame_block_len seq c : frame seq c !! 0%nat = Some (Z.of_nat (length c) + 5).
Proof. done. Qed.

Lemma check_packet_total s : byte_list s → ∃ n, check_packet s = Val n.
Proof.
  intros Hs. unfold check_packet, MESSAGE_MIN, MESSAGE_MAX, MESSAGE_TRAILER_SYNC.
  destruct (Z.ltb_spec (Z.of_nat (length s)) 5); [by eexists|].
  destruct s as [|len [|seq s']] eqn:E; cbn in H; [lia..|]. rewrite <- E in *.
  assert (s !! Z.to_nat MESSAGE_POS_LEN = Some len) as -> by (by rewrite E).
  assert (s !! Z.to_nat MESSAGE_POS_SEQ = Some seq) as -> by (by rewrite E). cbn.
  destruct (_ || _) eqn:El; [by eexists|]. apply orb_false_iff in El as [?%Z.ltb_ge ?%Z.ltb_ge].
  destruct (negb _); [by eexists|]. destruct (Z.ltb_spec (Z.of_nat (length s)) len); [by eexists|].
  destruct (lookup_lt_is_Some_2 s (Z.to_nat (len - 1))) as [sync ->]; [lia|]. cbn.
  destruct (negb _); [by eexists|]. destruct (negb _); by eexists.
Qed.

Lemma check_packet_rejects s n seq c rest more :
  check_packet s = Val n → n < 0 → seq_ok seq → (length c <= 59)%nat →
  s ++ more ≠ frame seq c ++ rest.
Proof.
  intros Hs Hn Hseq Hlen Heq.
  destruct (check_packet_inv s n Hs ltac:(lia)) as (len & sq & H0 & Hcase).
  destruct (frame_block_bytes seq c rest) as [F0 F1 _ _].
  assert (len = Z.of_nat (length c) + 5).
  { apply (lookup_app_l_Some _ more) in H0. rewrite Heq in H0. by simplify_eq. }
  destruct Hcase as [[? _]|(Hb & H1 & Hcase)]; [lia|].
  assert (sq = seq).
  { apply (lookup_app_l_Some _ more) in H1. rewrite Heq in H1. by simplify_eq. }
  assert (Hd : Z.land sq (Z.lnot MESSAGE_SEQ_MASK) = MESSAGE_DEST).
  { apply Z.eqb_eq. subst sq. rewrite seq_mask by (unfold seq_ok, is_byte in *; lia).
    by apply bool_decide_eq_true_2. }
  destruct Hcase as [[? _]|(_ & Hl & Hif)]; [done|]. cbv zeta in Hif.
  assert (Hf : check_packet (frame seq c) = Val len).
  { rewrite <- (app_nil_r (frame seq c)) at 1. rewrite check_packet_frame by done.
    rewrite frame_length. f_equal. lia. }
  assert (Hblk : take (Z.to_nat len) s = take (Z.to_nat len) (frame seq c)).
  { rewrite <- (take_app_le s more), Heq, take_app_le by (rewrite ?frame_length; lia). done. }
  destruct (check_packet_inv _ _ Hf ltac:(lia)) as (len' & sq' & F0' & Hcase').
  assert (len' = len) as -> by (rewrite frame_block_len in F0'; simplify_eq; lia).
  destruct Hcase' as [[? _]|(_ & _ & [[_ ?]|(_ & _ & Hif')])]; [lia..|]. cbv zeta in Hif'.
  rewrite <- Hblk in Hif'. case_bool_decide; lia.
Qed.

(** The check asks for more bytes only while the block is incomplete. *)
Lemma check_packet_waits s :
  check_packet s = Val 0 →
  (length s < 5)%nat ∨ ∃ len, s !! 0%nat = Some len ∧ Z.of_nat (length s) < len <= 64.
Proof.
  unfold check_packet, MESSAGE_MIN, MESSAGE_MAX.
  destruct (Z.ltb_spec (Z.of_nat (length s)) 5); [intros _; left; lia|].
  intros (len & H0 & Hc)%hres_bind_undef. right. exists len. split; [done|].
  destruct (_ || _) eqn:El in Hc; [done|]. apply orb_false_iff in El as [?%Z.ltb_ge ?%Z.ltb_ge].
  apply hres_bind_undef in Hc as (sq & _ & Hc). destruct (negb _) in Hc; [done|].
  destruct (Z.ltb_spec (Z.of_nat (length s)) len); [lia|].
  apply hres_bind_undef in Hc as (sync & _ & Hc).
  destruct (negb _) in Hc; [done|]. destruct (negb _) in Hc; [done|]. injection Hc as ?. lia.
Qed.

(** C32: the host's packet check accepts exactly the blocks the firmware accepts:
    it never reads past the bytes it has; a positive result is the length of an
    intact block with a valid sequence number at the start of the bytes; every such
    block is accepted whatever follows it; bytes it refuses are not the start of
    a block, however they continue; and it waits for more bytes only while fewer have
    arrived than the length byte announces. *)
Theorem check_packet_exact s (Hs : byte_list s) :
  ∃ n, check_packet s = Val n
    ∧ (0 < n → ∃ seq c rest, s = frame seq c ++ rest ∧ seq_ok seq ∧ (length c <= 59)%nat
                 ∧ n = Z.of_nat (length (frame seq c)))
    ∧ (∀ seq c rest, seq_ok seq → (length c <= 59)%nat → s = frame seq c ++ rest →
         n = Z.of_nat (length (frame seq c)))
    ∧ (n < 0 → ∀ seq c rest more, seq_ok seq → (length c <= 59)%nat →
         s ++ more ≠ frame seq c ++ rest)
    ∧ (n = 0 → (length s < 5)%nat
               ∨ ∃ len, s !! 0%nat = Some len ∧ Z.of_nat (length s) < len <= 64).
Proof.
  destruct (check_packet_total s Hs) as [n Hn]. exists n. split_and!; [done| | | |].
  - intros Hpos. destruct (check_packet_inv s n Hn ltac:(lia)) as (len & seq & H0 & Hcase).
    destruct Hcase as [[_ ?]|(Hb & H1 & [[_ ?]|(Hd & Hl & Hif)])]; [lia..|]. cbv zeta in Hif.
    case_bool_decide as Hok; [|lia]. destruct Hok as [Hsync Hcrc]. subst n.
    destruct (check_packet_accepts s len seq Hs H0 H1 Hb Hl Hd Hsync Hcrc) as (c & Heq & Hseq & Hlen).
    exists seq, c, (drop (Z.to_nat len) s). split_and!; [done..|lia|]. rewrite frame_length. lia.
  - intros seq c rest Hseq Hlen ->. rewrite check_packet_frame in Hn by done. by simplify_eq.
  - intros Hneg seq c rest more. by eapply check_packet_rejects.
  - intros ->. by apply check_packet_waits.
Qed.

Lemma check_packet_exact_witness :
  let s := frame 0x15 [7; 0x81; 5] ++ [1; 2] in
  ∃ n, check_packet s = Val n
    ∧ (0 < n → ∃ seq c rest, s = frame seq c ++ rest ∧ seq_ok seq ∧ (length c <= 59)%nat
                 ∧ n = Z.of_nat (length (frame seq c)))
    ∧ (∀ seq c rest, seq_ok seq → (length c <= 59)%nat → s = frame seq c ++ rest →
         n = Z.of_nat (length (frame seq c)))
    ∧ (n < 0 → ∀ seq c rest more, seq_ok seq → (length c <= 59)%nat →
         s ++ more ≠ frame seq c ++ rest)
    ∧ (n = 0 → (length s < 5)%nat
               ∨ ∃ len, s !! 0%nat = Some len ∧ Z.of_nat (length s) < len <= 64).
Proof.
  intros s. apply (check_packet_exact s). vm_compute.
  repeat (apply List.Forall_cons; [split; [discriminate|reflexivity]|]). apply List.Forall_nil.
Defined.

(** The bytes of a string made of bytes. *)
Lemma str_bytes_string bs : byte_list bs → str_bytes (bytes_string bs) = bs.
Proof.
  unfold str_bytes, bytes_string. rewrite String.list_ascii_of_string_of_list_ascii, map_map.
  induction 1 as [|b bs Hb _ IH]; [done|]. cbn. rewrite IH. f_equal.
  unfold code_char, is_byte in *. unfold Ascii.nat_of_ascii. rewrite N_ascii_embedding by lia. lia.
Qed.

(** ** Commands as text *)

(** The text of a command: its name and [name=value] for every argument. *)
Fixpoint args_text (args : list (string * string)) : string :=
  match args with
  | [] => ""
  | (k, v) :: args => String " " (k +:+ String "=" v +:+ args_text args)
  end.
Definition command_text (name : string) (args : list (string * string)) : string :=
  name +:+ args_text args.

(** Names of parameters. *)
Definition is_name (k : string) : bool :=
  is_word k && str_all (λ c, negb (bool_decide (c = "="%char))) k.

Definition arg_ok (kv : string * string) : Prop :=
  is_name kv.1 = true ∧ str_all word_char kv.2 = true.

(** The bytes of a parameter given as text. *)
Definition param_any (t : host_type) (v : string) : hres Any :=
  if is_dynamic_string t then bs ← parse_buffer v; mret (Any_bytes bs) else mret (Any_string v).
Definition param_bytes (t : host_type) (v : string) : hres (list Z) :=
  a ← param_any t v; encode t a.

Definition token (kv : string * string) : string := kv.1 +:+ String "=" kv.2.

Lemma word_no_space w : str_all word_char w = true → str_all (λ c, negb (bool_decide (c = " "%char))) w = true.
Proof.
  apply str_all_impl. intros c Hc. apply negb_true_iff. case_bool_decide; [|done]. by subst c.
Qed.

Lemma token_word kv : arg_ok kv → is_word (token kv) = true.
Proof.
  destruct kv as [k v]. intros [Hk Hv]. cbn in *. unfold is_name, is_word, token in *. cbn.
  apply andb_true_iff in Hk as [[Hk _]%andb_true_iff _]. rewrite str_all_app, Hk. cbn. rewrite Hv. cbn.
  apply negb_true_iff, bool_decide_eq_false. by destruct k.
Qed.

Lemma args_text_cons kv args : args_text (kv :: args) = String " " (token kv +:+ args_text args).
Proof. destruct kv as [k v]. unfold token. cbn. by rewrite <- !app_assoc_s. Qed.

Lemma args_text_snoc args kv : args_text (args ++ [kv]) = args_text args +:+ String " " (token kv).
Proof.
  induction args as [|kv' args IH]; cbn [app].
  - rewrite args_text_cons. cbn. by rewrite app_empty_r.
  - by rewrite !args_text_cons, IH, app_cons, app_assoc_s.
Qed.

Lemma split_args_text w args :
  str_all (λ c, negb (bool_decide (c = " "%char))) w = true → Forall arg_ok args →
  split " " (w +:+ args_text args) = w :: map token args.
Proof.
  intros Hw Hargs. revert w Hw. induction Hargs as [|kv args Hkv Hargs IH]; intros w Hw; cbn [map].
  - cbn. rewrite app_empty_r. by apply split_last.
  - rewrite args_text_cons, split_cons by done. rewrite IH; [done|].
    apply token_word in Hkv. unfold is_word in Hkv. apply andb_true_iff in Hkv as [? _].
    by apply word_no_space.
Qed.

Lemma strip_command_text name args :
  is_word name = true → Forall arg_ok args → strip (command_text name args) = command_text name args.
Proof.
  intros Hn Hargs. unfold command_text. destruct args as [|kv args _] using rev_ind.
  - cbn. rewrite app_empty_r. by apply strip_word.
  - apply Forall_app in Hargs as [_ Hkv]. apply Forall_cons in Hkv as [Hkv _].
    rewrite args_text_snoc. change (String " " (token kv)) with (" " +:+ token kv).
    rewrite (app_assoc_s (args_text args)). by apply strip_words, token_word.
Qed.

Lemma split_command_text name args :
  is_word name = true → Forall arg_ok args →
  split " " (strip (command_text name args)) = name :: map token args.
Proof.
  intros Hn Hargs. rewrite strip_command_text by done. apply split_args_text; [|done].
  unfold is_word in Hn. apply andb_true_iff in Hn as [? _]. by apply word_no_space.
Qed.

Lemma split_once_token kv : arg_ok kv → split_once (token kv) "=" = kv.
Proof.
  destruct kv as [k v]. intros [[_ Hk]%andb_true_iff _]. unfold split_once, token. cbn in *.
  by rewrite break_app.
Qed.

(** The arguments in the map of the command. *)
Definition argparts (args : list (string * string)) : smap string :=
  fold_left (λ m p, smap_set p.1 p.2 m) args [].

Lemma argparts_tokens args : Forall arg_ok args →
  fold_left (λ m part, let kv := split_once part "=" in smap_set kv.1 kv.2 m) (map token args) []
  = argparts args.
Proof.
  intros Hargs. unfold argparts. generalize ([] : smap string).
  induction Hargs as [|kv args Hkv _ IH]; intros m; [done|]. cbn. by rewrite split_once_token, IH.
Qed.

Lemma hmap_named {A B} (f : string * A → hres (string * B)) (R : string → A → B → Prop) m :
  (∀ k a, (k, a) ∈ m → ∃ b, f (k, a) = Val (k, b) ∧ R k a b) →
  ∃ m', hmap f m = Val m' ∧ ∀ k, match smap_find k m with
                                 | Some a => ∃ b, smap_find k m' = Some b ∧ R k a b
                                 | None => smap_find k m' = None
                                 end.
Proof.
  induction m as [|[k a] m IH]; intros Hf; cbn [hmap]; [by exists []|].
  destruct (Hf k a) as (b & Hb & HR); [left|].
  destruct IH as (m' & Hm & Hk); [intros; apply Hf; by right|].
  exists ((k, b) :: m'). rewrite Hb. cbn. rewrite Hm. split; [done|]. intros k'. cbn.
  case_bool_decide; [subst; by exists b|apply Hk].
Qed.

Lemma smap_set_elem {A} k (a : A) k' a' m : (k, a) ∈ smap_set k' a' m → (k, a) = (k', a') ∨ (k, a) ∈ m.
Proof.
  induction m as [|[k1 a1] m IH]; cbn; [rewrite list_elem_of_singleton; by left|].
  destruct (String.compare k' k1); rewrite ?elem_of_cons; naive_solver.
Qed.
Lemma argparts_elem k v args : (k, v) ∈ argparts args → (k, v) ∈ args.
Proof.
  assert (∀ m, (k, v) ∈ fold_left (λ m p, smap_set p.1 p.2 m) args m → (k, v) ∈ args ∨ (k, v) ∈ m) as H.
  { induction args as [|[k1 v1] args IH]; intros m; cbn; [by right|].
    intros [?|[?|?]%smap_set_elem]%IH; rewrite elem_of_cons; naive_solver. }
  intros [?|E]%H; [done|]. by apply not_elem_of_nil in E.
Qed.

(** A format whose parameters have different names and known types. *)
Record format_wf (f : message_format) (ps : list (string * host_type)) : Prop := {
  fw_params : f.(mf_param_names) = map (λ p, (p.1, Some p.2)) ps;
  fw_nodup : NoDup ps.*1;
  fw_types : ∀ k t, (k, t) ∈ ps → smap_find k f.(mf_name_to_type) = Some (Some t);
}.

Lemma encode_named_bytes ps params bss :
  Forall2 (λ p bs, ∃ a, smap_find p.1 params = Some a ∧ encode p.2 a = Val bs) ps bss →
  encode_named (map (λ p, (p.1, Some p.2)) ps) params = Val (concat bss).
Proof.
  induction 1 as [|[k t] bs ps bss (a & Ha & Hb) _ IH]; [done|]. cbn in *. rewrite Ha. cbn. rewrite Hb.
  cbn. by rewrite IH.
Qed.

(** The arguments name the parameters, in any order, and have these bytes. *)
Record arguments (ps : list (string * host_type)) (args : list (string * string))
    (bss : list (list Z)) : Prop := {
  ag_ok : Forall arg_ok args;
  ag_names : args.*1 ≡ₚ ps.*1;
  ag_bytes : Forall2 (λ p bs, ∃ v, (p.1, v) ∈ args ∧ param_bytes p.2 v = Val bs) ps bss;
}.

Lemma Forall2_elem_impl {A B} (P Q : A → B → Prop) l k :
  Forall2 P l k → (∀ a b, a ∈ l → P a b → Q a b) → Forall2 Q l k.
Proof.
  induction 1 as [|a b l k Hab _ IH]; intros HQ; constructor.
  - apply HQ; [by left|done].
  - apply IH. intros ??? . apply HQ. by right.
Qed.

Lemma create_command_bytes mp name f ps args bss :
  mp.(mp_messages_by_name) !! name = Some f → is_word name = true →
  format_wf f ps → arguments ps args bss →
  create_command mp (command_text name args) = Val (f.(mf_msgid_bytes) ++ concat bss).
Proof.
  intros Hf Hname [Hps Hnd Hty] [Hok Hperm Hbytes]. unfold create_command.
  rewrite split_command_text, Hf, argparts_tokens by done.
  assert (Hnda : NoDup args.*1) by (by rewrite Hperm).
  destruct (hmap_named (argument_value f)
    (λ k v a, ∃ t, (k, t) ∈ ps ∧ param_any t v = Val a) (argparts args)) as (m' & Hm & Hk).
  { intros k v Hin%argparts_elem. assert (k ∈ ps.*1) as Hkp.
    { rewrite <- Hperm. by apply (list_elem_of_fmap_2 fst _ (k, v)). }
    apply list_elem_of_fmap in Hkp as ([k' t] & -> & Hp). cbn in *.
    apply list_elem_of_lookup in Hp as Hi. destruct Hi as [i Hi].
    destruct (Forall2_lookup_l _ _ _ _ _ Hbytes Hi) as (bs & _ & v' & Hv' & Hb). cbn in *.
    assert (v' = v) as ->.
    { apply (smap_find_elem _ _ _ Hnda) in Hin, Hv'. by simplify_eq. }
    unfold param_bytes in Hb. unfold argument_value. cbn. rewrite (Hty _ _ Hp). cbn.
    unfold param_any in *. destruct (is_dynamic_string t) eqn:Ed.
    - destruct (parse_buffer v) as [b| | |] eqn:Eb; try done. exists (Any_bytes b). cbn.
      split; [done|]. exists t. by rewrite Ed.
    - exists (Any_string v). split; [done|]. exists t. by rewrite Ed. }
  rewrite Hm. cbn. unfold encode_by_name. rewrite Hps, (encode_named_bytes ps m' bss); [done|].
  apply (Forall2_elem_impl _ _ _ _ Hbytes). intros [k t] bs Hp (v & Hv & Hb). cbn in *.
  specialize (Hk k). unfold argparts in Hk. rewrite smap_find_fold in Hk by done.
  rewrite (smap_find_elem k v args Hnda Hv) in Hk. destruct Hk as (a & Ha & t' & Hp' & Hany).
  assert (t' = t) as ->.
  { apply (smap_find_elem _ _ _ Hnd) in Hp, Hp'. by simplify_eq. }
  exists a. split; [done|]. unfold param_bytes in Hb. by rewrite Hany in Hb.
Qed.

(** ** Formats of the firmware's declarations *)

(** The type of a parameter without its enumeration. *)
Fixpoint base_type (t : host_type) : param_type :=
  match t with Plain t => t | Enumeration pt _ _ => base_type pt end.

(** The parameters a format declares. *)
Definition declared_params (msg : string) : option (list (string * param_type)) :=
  mapM (λ tok, '(k, f) ← break "=" tok; t ← MessageTypes f; Some (k, t)) (tail (String.words msg)).

(** A format with a name and different, well-formed names of parameters. *)
Definition format_ok (msg : string) : bool :=
  match String.words msg, declared_params msg with
  | name :: _, Some ps =>
      is_word name && forallb (λ p, is_name p.1) ps && bool_decide (NoDup ps.*1)
  | _, _ => false
  end.

Lemma lookup_param_known es tok k fmt t :
  break "=" tok = Some (k, fmt) → MessageTypes fmt = Some t →
  lookup_param es tok
  = Val (k, Some match enumeration_for k es with
                 | Some (en, enums) => Enumeration (Plain t) en enums
                 | None => Plain t
                 end).
Proof.
  intros Hb Ht. unfold lookup_param. rewrite Hb, Ht. by destruct (enumeration_for k es) as [[]|].
Qed.

Lemma lookup_params_declared msg es ps :
  declared_params msg = Some ps →
  ∃ ts, lookup_params msg es = Val (map (λ p, (p.1, Some p.2)) ts)
    ∧ ts.*1 = ps.*1 ∧ map base_type ts.*2 = ps.*2.
Proof.
  unfold declared_params, lookup_params. generalize (tail (String.words msg)).
  intros toks Hps%mapM_Some. induction Hps as [|tok [k t] toks ps Htok _ IH]; cbn [hmap].
  { by exists []. }
  destruct IH as (ts & Hts & Hk & Ht).
  destruct (break "=" tok) as [[k' fmt]|] eqn:Eb; cbn in Htok; [|done].
  destruct (MessageTypes fmt) as [t'|] eqn:Et; [|done]. cbn in Htok. simplify_eq.
  rewrite (lookup_param_known _ _ _ _ _ Eb Et). unfold mbind, hres_bind. rewrite Hts.
  eexists ((k, match enumeration_for k es with
               | Some (en, enums) => Enumeration (Plain t) en enums | None => Plain t end) :: ts).
  cbn. rewrite Hk, Ht. by destruct (enumeration_for k es) as [[]|].
Qed.

(** The format the host builds from a declaration. *)
Lemma new_format_wf id_bytes msg es f :
  format_ok msg = true → new_MessageFormat id_bytes msg es = Val f →
  ∃ ts, format_wf f ts ∧ is_word f.(mf_name) = true ∧ f.(mf_msgid_bytes) = id_bytes
    ∧ f.(mf_msgformat) = msg ∧ Forall (λ p, is_name p.1 = true) ts
    ∧ declared_params msg = Some (zip ts.*1 (map base_type ts.*2)).
Proof.
  unfold format_ok, new_MessageFormat. intros Hok.
  destruct (String.words msg) as [|name toks] eqn:Ew; [done|].
  destruct (declared_params msg) as [ps|] eqn:Eps; [|done].
  apply andb_true_iff in Hok as [[Hname Hns]%andb_true_iff Hnd%bool_decide_eq_true].
  destruct (lookup_params_declared msg es ps Eps) as (ts & Hts & Hk & Ht). rewrite Hts. cbn.
  intros [= <-]. exists ts. cbn. rewrite <- Hk in Hnd. split; [split; cbn|split_and!]; try done.
  - intros k t Hin. rewrite smap_find_fold.
    + rewrite (smap_find_elem k (Some t)); [done| |].
      * rewrite <- list_fmap_compose. exact Hnd.
      * apply (list_elem_of_fmap_2 (λ p : string * host_type, (p.1, Some p.2)) _ (k, t) Hin).
    + rewrite <- list_fmap_compose. exact Hnd.
  - rewrite forallb_forall in Hns. apply Forall_forall. intros [k t] Hin. cbn.
    assert (k ∈ ps.*1) as Hkp by (rewrite <- Hk; by apply (list_elem_of_fmap_2 fst _ (k, t))).
    apply list_elem_of_fmap in Hkp as (p & -> & Hp). apply Hns. by apply list_elem_of_In.
  - f_equal. rewrite Hk, Ht. symmetry. apply zip_fst_snd.
Qed.
