(* ===== verification/TextCommand.v ===== *)
(** * From the text of a command to its handler (elegoo/msgproto.cpp to src/command.c)

    The host sends a command that is given as text: [create_command] turns the text
    into bytes, a block carries them, and the firmware's dispatcher parses them.  The
    handler that runs is the one whose DECL_COMMAND has the format, and its arguments
    are the numbers of the text in the order of the declaration. *)

From S2P Require Import Prelude.
From S2P Require Import Vlq.
From S2P Require Import State.
From S2P Require Import Machine.
From S2P Require Import Sched.
From S2P Require Import Command.
From S2P Require Import CommandSpec.
From S2P Require Import CommandRun.
From S2P Require Import MsgBlock.
From S2P Require Import Firmware.
From S2P Require Import HostText.
From S2P Require Import MsgProto.
From S2P Require Import MsgProtoSpec.

(** ** The parser of the firmware on parameters *)

(** A number, or the bytes of a buffer. *)
Inductive value := V_int (v : Z) | V_buf (bs : list Z).

(** [e] are bytes from which the firmware reads the value. *)
Definition value_enc (t : param_type) (val : value) (e : list Z) : Prop :=
  match val with
  | V_int v => int_param t = true ∧ (length e <= 5)%nat ∧ ∀ p, parse_int (e ++ p) = Some (v, p)
  | V_buf bs => t = PT_buffer ∧ e = Z.of_nat (length bs) :: bs
  end.

Section dispatch.
Context `{Board} (index : list command_parser).

(** The words the handler gets for values that start at [p]: a buffer is passed
    as its length and the address of its bytes in the receive buffer. *)
Fixpoint passed (p : Z) (ves : list (value * list Z)) : list Z :=
  match ves with
  | [] => []
  | (V_int v, e) :: ves => v :: passed (p + Z.of_nat (length e)) ves
  | (V_buf bs, e) :: ves =>
      Z.of_nat (length bs) :: command_encode_ptr (p + 1) :: passed (p + Z.of_nat (length e)) ves
  end.

Definition bytes_of (ves : list (value * list Z)) : list Z := concat ves.*2.

Lemma parse_param_value t val e maxend num acc pre tail :
  value_enc t val e → Z.of_nat (length (pre ++ e)) <= maxend →
  Z.of_nat (length acc + length (passed 0 [(val, e)])) <= num →
  parse_param (pre ++ e ++ tail) maxend num t acc (Z.of_nat (length pre))
  = mret (acc ++ passed (Z.of_nat (length pre)) [(val, e)], Z.of_nat (length (pre ++ e))).
Proof.
  rewrite length_app. destruct val as [v|bs]; cbn [value_enc passed length].
  - intros (Ht & _ & Hp) Hmax Hnum. unfold parse_param.
    destruct t; try done; rewrite (parse_at_encoded parse_int _ _ _ v) by apply Hp;
      rewrite bind_ret; unfold store_arg; rewrite (proj2 (Z.ltb_lt _ _)) by lia;
      rewrite length_app; done.
  - intros [-> ->] Hmax Hnum. cbn [length] in Hmax. unfold parse_param, byte_at.
    rewrite Nat2Z.id, lookup_app_r, Nat.sub_diag by done. cbn [app lookup]. cbn. rewrite bind_ret.
    rewrite (proj2 (Z.ltb_ge _ _)) by lia. unfold store_arg.
    rewrite (proj2 (Z.ltb_lt _ num)) by lia. rewrite bind_ret, length_app. cbn [length].
    rewrite (proj2 (Z.ltb_lt _ num)) by lia. rewrite bind_ret, <- app_assoc. cbn. do 2 f_equal. lia.
Qed.

Lemma passed_app p ve ves :
  passed p (ve :: ves) = passed p [ve] ++ passed (p + Z.of_nat (length ve.2)) ves.
Proof. by destruct ve as [[v|bs] e]. Qed.

Lemma passed_length p q ves : length (passed p ves) = length (passed q ves).
Proof.
  revert p q. induction ves as [|[[v|bs] e] ves IH]; intros p q; cbn; [done|f_equal; apply IH|].
  do 2 f_equal. apply IH.
Qed.

Lemma parsef_loop_values types ves maxend num acc pre tail :
  Forall2 (λ t ve, value_enc t ve.1 ve.2) types ves →
  num = Z.of_nat (length acc + length (passed 0 ves)) →
  Z.of_nat (length (pre ++ bytes_of ves)) <= maxend →
  parsef_loop (pre ++ bytes_of ves ++ tail) maxend num types acc (Z.of_nat (length pre))
  = mret (acc ++ passed (Z.of_nat (length pre)) ves, Z.of_nat (length (pre ++ bytes_of ves))).
Proof.
  intros Hty. revert acc pre. induction Hty as [|t [val e] types ves Ht Hty IH]; intros acc pre Hnum Hmax.
  { cbn. by rewrite !app_nil_r. }
  unfold bytes_of in *. cbn [fmap list_fmap concat] in *. cbn [snd] in *.
  rewrite passed_app in Hnum |- *. rewrite !length_app in *. cbn [parsef_loop].
  rewrite (proj2 (Z.ltb_ge _ _)) by lia. rewrite <- app_assoc.
  rewrite (parse_param_value t val e); [|exact Ht|rewrite length_app; lia|lia]. rewrite bind_ret.
  rewrite app_assoc, (IH _ (pre ++ e)).
  - rewrite <- !app_assoc, !length_app. cbn [snd]. by rewrite Nat2Z.inj_add.
  - rewrite length_app. rewrite (passed_length (Z.of_nat (length pre)) 0).
    rewrite (passed_length 0 (0 + Z.of_nat (length e)) ves). cbn [snd] in Hnum. lia.
  - rewrite !length_app. lia.
Qed.

(** A command of the table and the values of its parameters. *)
Record call_ok (id : Z) (cp : command_parser) (ves : list (value * list Z)) : Prop := {
  co_id : 1 <= id < 2 ^ 12;
  co_index : index !! Z.to_nat id = Some cp;
  co_types : Forall2 (λ t ve, value_enc t ve.1 ve.2) cp.(cp_param_types) ves;
  co_args : cp.(cp_num_args) = Z.of_nat (length (passed 0 ves));
}.

Lemma dispatch_one_values id cp ves pre tail msgend s :
  call_ok id cp ves →
  let msg := encode_int id ++ bytes_of ves in
  Z.of_nat (length (pre ++ msg)) <= msgend →
  dispatch_one index (pre ++ msg ++ tail) msgend (Z.of_nat (length pre)) s
  = (run_command index (id, passed (Z.of_nat (length (pre ++ encode_int id))) ves);;
     mret (Z.of_nat (length (pre ++ msg)))) s.
Proof.
  intros [Hid Hcp Hty Hargs] msg Hmax. unfold msg in *. unfold dispatch_one.
  rewrite <- app_assoc, (parse_at_encoded command_parse_msgid _ _ _ id)
    by (apply encode_int_msgid; lia).
  rewrite bind_ret. unfold command_lookup_parser. pose proof (lookup_lt_Some _ _ _ Hcp) as Hlt.
  rewrite (proj2 (Z.eqb_neq id 0)), (proj2 (Z.leb_gt _ id)) by lia. cbn [orb].
  unfold run_command. cbn [fst snd]. rewrite Hcp. cbn [of_option]. rewrite !bind_ret. unfold command_parsef.
  rewrite (app_assoc pre), (parsef_loop_values _ ves); [|done|done|by rewrite <- app_assoc].
  rewrite bind_ret. cbn [app]. rewrite <- app_assoc.
  unfold mbind, M_bind, sched_is_shutdown, gets. cbn. by destruct (_ && _).
Qed.

Lemma dispatch_loop_value id cp ves pre tail fuel s :
  call_ok id cp ves →
  let msg := encode_int id ++ bytes_of ves in
  dispatch_loop (S (S fuel)) index (pre ++ msg ++ tail) (Z.of_nat (length (pre ++ msg)))
    (Z.of_nat (length pre)) s
  = run_command index (id, passed (Z.of_nat (length (pre ++ encode_int id))) ves) s.
Proof.
  intros Hok msg. cbn [dispatch_loop].
  assert (Hpos : (1 <= length msg)%nat).
  { unfold msg. rewrite length_app. pose proof (encode_int_length id). lia. }
  rewrite (proj2 (Z.ltb_lt _ _)) by (rewrite length_app; lia).
  unfold mbind at 1, M_bind at 1. unfold msg at 1 3. rewrite (dispatch_one_values id cp) by done.
  unfold mbind, M_bind. fold msg. destruct (run_command _ _ s) as [[[]| |] s']; [|done..].
  cbn. by rewrite Z.ltb_irrefl.
Qed.

(** A block with one command runs the handler and is acknowledged. *)
Lemma dispatch_block_value id cp ves seq rest n s :
  call_ok id cp ves →
  let msg := encode_int id ++ bytes_of ves in
  (length msg <= 59)%nat → seq_ok seq → s.(cmd).(next_sequence) = seq → need_sync s = false →
  Z.of_nat (length msg) + 5 <= n →
  command_find_and_dispatch index (frame seq msg ++ rest) n s
  = (run_command index (id, passed (Z.of_nat (length (encode_int id)) + 2) ves);;
     command_send_ack;; mret (1, Z.of_nat (length msg) + 5)) (accepted s).
Proof.
  intros Hok msg Hlen Hseq Hnext Hns Hn.
  assert (Hfl : Z.of_nat (length (frame seq msg)) = Z.of_nat (length msg) + 5)
    by (rewrite frame_length; lia).
  set (h := [Z.of_nat (length msg) + MESSAGE_MIN; seq]).
  assert (Hd : ∀ s, command_dispatch index (frame seq msg ++ rest) (Z.of_nat (length msg) + 5) s
    = run_command index (id, passed (Z.of_nat (length (encode_int id)) + 2) ves) s).
  { intros s0. unfold command_dispatch, frame. cbv zeta.
    set (trailer := [_; _; _]). change (_ :: seq :: msg) with (h ++ msg). rewrite <- !app_assoc.
    replace (Z.to_nat (Z.of_nat (length msg) + 5)) with (S (S (length msg + 3))) by lia.
    replace (Z.of_nat (length msg) + 5 - MESSAGE_TRAILER_SIZE) with (Z.of_nat (length (h ++ msg)))
      by (unfold MESSAGE_TRAILER_SIZE; cbn; lia).
    unfold msg. rewrite (dispatch_loop_value id cp ves h (trailer ++ rest)) by done.
    do 3 f_equal. cbn. lia. }
  unfold command_find_and_dispatch, mbind at 1, M_bind at 1.
  rewrite find_block_frame by (done || lia). rewrite Hfl. unfold mbind, M_bind. cbn [when Z.ltb Z.compare].
  rewrite Hd. by destruct (run_command _ _ (accepted s)) as [[[]| |] s'].
Qed.
End dispatch.

(** ** Buffers as text *)

Fixpoint hex_text (bs : list Z) : string :=
  match bs with
  | [] => ""
  | b :: bs => String (hex_char (b / 16)) (String (hex_char (b mod 16)) (hex_text bs))
  end.

(** The number whose bytes are [bs], the first one highest. *)
Definition bytes_value (bs : list Z) : Z := fold_left (λ v b, 256 * v + b) bs 0.

Lemma below_16 (P : Z → Prop) d :
  Forall P [0; 1; 2; 3; 4; 5; 6; 7; 8; 9; 10; 11; 12; 13; 14; 15] → 0 <= d < 16 → P d.
Proof. intros HP Hd. apply (proj1 (Forall_forall P _) HP). rewrite !elem_of_cons. lia. Qed.

Lemma hex_char_digit d : 0 <= d < 16 → digit (hex_char d) = Some d.
Proof. apply (below_16 (λ d, digit (hex_char d) = Some d)). by repeat constructor. Qed.

Lemma hex_char_word d : 0 <= d < 16 → word_char (hex_char d) = true.
Proof. apply (below_16 (λ d, word_char (hex_char d) = true)). by repeat constructor. Qed.

Lemma byte_nibbles b : is_byte b → 0 <= b / 16 < 16 ∧ 0 <= b mod 16 < 16 ∧ b = b / 16 * 16 + b mod 16.
Proof. unfold is_byte. intros Hb. Z.div_mod_to_equations. lia. Qed.

Lemma hex_text_value bs acc : byte_list bs →
  digits_value 16 acc (hex_text bs) = fold_left (λ v b, 256 * v + b) bs acc.
Proof.
  intros Hbs. revert acc. induction Hbs as [|b bs Hb _ IH]; intros acc; [done|]. cbn [hex_text digits_value].
  destruct (byte_nibbles b Hb) as (H1 & H2 & H3). rewrite !hex_char_digit by done.
  rewrite !(proj2 (Z.ltb_lt _ 16)) by lia. rewrite IH. cbn. f_equal. lia.
Qed.

Lemma hex_text_length bs : String.length (hex_text bs) = (2 * length bs)%nat.
Proof. induction bs as [|b bs IH]; [done|]. cbn [hex_text String.length length]. lia. Qed.

Lemma hex_text_chars bs : byte_list bs → str_all word_char (hex_text bs) = true.
Proof.
  induction 1 as [|b bs Hb _ IH]; [done|]. cbn. destruct (byte_nibbles b Hb) as (H1 & H2 & _).
  by rewrite !hex_char_word, IH.
Qed.

Lemma strto_hex d s : 0 <= d < 16 →
  strto 16 (String (hex_char d) s) = pair false <$> magnitude 16 (String (hex_char d) s).
Proof.
  intros Hd. revert s. revert Hd.
  apply (below_16 (λ d, ∀ s, strto 16 (String (hex_char d) s)
                        = pair false <$> magnitude 16 (String (hex_char d) s))).
  repeat (apply Forall_cons; split; [by intros s|]). by apply Forall_nil.
Qed.

Lemma strip_prefix_hex c e s : 0 <= e < 16 →
  strip_prefix 16 (String c (String (hex_char e) s)) = String c (String (hex_char e) s).
Proof.
  intros He. assert (hex_char e ≠ "x"%char ∧ hex_char e ≠ "X"%char) as [Hx HX].
  { revert He. apply (below_16 (λ e, hex_char e ≠ "x"%char ∧ hex_char e ≠ "X"%char)).
    by repeat constructor. }
  destruct c as [[] [] [] [] [] [] [] []]; try done. destruct s as [|c s]; [done|]. cbn.
  by rewrite !bool_decide_eq_false_2.
Qed.

(** A buffer of one to eight bytes is read back from its text, and a longer one
    with a first byte that is not zero is refused. *)
Lemma strto_hex_text bs : byte_list bs → bs ≠ [] →
  strto 16 (hex_text bs) = Some (false, bytes_value bs).
Proof.
  intros Hbs Hne. pose proof (hex_text_value bs 0 Hbs) as Hv.
  destruct Hbs as [|b bs Hb Hbs]; [done|]. cbn [hex_text] in *.
  destruct (byte_nibbles b Hb) as (H1 & H2 & _).
  rewrite strto_hex by done. unfold magnitude. rewrite strip_prefix_hex by done.
  unfold is_digit. rewrite hex_char_digit by done. rewrite (proj2 (Z.ltb_lt _ 16)) by lia.
  cbn [fmap option_fmap option_map]. by rewrite Hv.
Qed.

Lemma bytes_value_snoc bs b : bytes_value (bs ++ [b]) = 256 * bytes_value bs + b.
Proof. unfold bytes_value. by rewrite fold_left_app. Qed.

Lemma bytes_value_range bs : byte_list bs → 0 <= bytes_value bs < 256 ^ Z.of_nat (length bs).
Proof.
  induction bs as [|b bs IH] using rev_ind; [done|]. intros [Hbs Hb]%Forall_app.
  apply Forall_cons in Hb as [Hb _]. unfold is_byte in Hb. specialize (IH Hbs).
  rewrite bytes_value_snoc, length_app. cbn [length].
  rewrite Nat.add_1_r, Nat2Z.inj_succ, Z.pow_succ_r by lia. lia.
Qed.

Lemma buffer_bytes_value bs : byte_list bs → rev (buffer_bytes (length bs) (bytes_value bs)) = bs.
Proof.
  induction bs as [|b bs IH] using rev_ind; [done|]. intros [Hbs Hb]%Forall_app.
  apply Forall_cons in Hb as [Hb _]. unfold is_byte in Hb. rewrite bytes_value_snoc, length_app.
  cbn [length]. rewrite Nat.add_1_r. cbn [buffer_bytes].
  change 0xff with (Z.ones 8). rewrite Z.land_ones, Z.shiftr_div_pow2 by lia. change (2 ^ 8) with 256.
  replace ((256 * bytes_value bs + b) mod 256) with b by (Z.div_mod_to_equations; lia).
  replace ((256 * bytes_value bs + b) / 256) with (bytes_value bs) by (Z.div_mod_to_equations; lia).
  cbn [rev]. by rewrite IH.
Qed.

Lemma parse_buffer_text bs : byte_list bs → (length bs <= 8)%nat → parse_buffer (hex_text bs) = Val bs.
Proof.
  intros Hbs Hl. unfold parse_buffer. case_bool_decide as E.
  { by destruct bs. }
  assert (Hne : bs ≠ []) by (by intros ->). unfold stoull. rewrite strto_hex_text by done.
  assert (String.length (hex_text bs) / 2 = length bs)%nat as ->.
  { rewrite hex_text_length, Nat.mul_comm. by apply Nat.div_mul. }
  pose proof (bytes_value_range bs Hbs) as Hr.
  assert (256 ^ Z.of_nat (length bs) <= 256 ^ 8) by (apply Z.pow_le_mono_r; lia).
  rewrite (proj2 (Z.ltb_lt _ _)) by (change (2 ^ 64) with (256 ^ 8); lia). cbn.
  by rewrite buffer_bytes_value.
Qed.

Lemma parse_buffer_long b bs : byte_list (b :: bs) → b ≠ 0 → (8 <= length bs)%nat →
  parse_buffer (hex_text (b :: bs)) = Throws out_of_range.
Proof.
  intros Hbs Hb Hl. unfold parse_buffer, stoull. rewrite strto_hex_text by done. cbn [hex_text].
  rewrite bool_decide_eq_false_2 by done.
  assert (Hv : ∀ bs v, byte_list bs → v * 256 ^ Z.of_nat (length bs) <= fold_left (λ v b, 256 * v + b) bs v).
  { clear. intros bs v Hbs. revert v. induction Hbs as [|b bs Hb _ IH]; intros v; cbn [fold_left length]; [cbn; lia|].
    etransitivity; [|apply IH]. unfold is_byte in Hb. rewrite Nat2Z.inj_succ, Z.pow_succ_r by lia.
    assert (0 < 256 ^ Z.of_nat (length bs)) by (apply Z.pow_pos_nonneg; lia). nia. }
  apply Forall_cons in Hbs as [Hb' Hbs]. specialize (Hv bs b Hbs). unfold is_byte in Hb'.
  assert (256 ^ 8 <= 256 ^ Z.of_nat (length bs)) by (apply Z.pow_le_mono_r; lia).
  rewrite (proj2 (Z.ltb_ge _ _)); [done|]. change (2 ^ 64) with (256 ^ 8). unfold bytes_value.
  cbn [fold_left]. replace (256 * 0 + b) with b by lia. nia.
Qed.

(** ** Texts and declarations *)

(** The values that texts of parameters stand for: a decimal number, an
    enumerator, or the bytes of a buffer in hexadecimal. *)
Inductive text_value : host_type → string → value → Prop :=
| text_int t z :
    int_param t = true → - 2 ^ 63 <= z < 2 ^ 63 →
    text_value (Plain t) (to_string z) (V_int (u32 z))
| text_enum t en enums v z :
    int_param t = true → str_all word_char v = true →
    smap_find v enums = Some z → - 2 ^ 31 <= z < 2 ^ 31 →
    text_value (Enumeration (Plain t) en enums) v (V_int (u32 z))
| text_buffer bs :
    byte_list bs → (length bs <= 8)%nat →
    text_value (Plain PT_buffer) (hex_text bs) (V_buf bs).

Lemma text_value_chars t v val : text_value t v val → str_all word_char v = true.
Proof.
  intros []; [|done|by apply hex_text_chars]. pose proof (to_string_word z) as Hw.
  unfold is_word in Hw. by apply andb_true_iff in Hw as [? _].
Qed.

Lemma PT_base_encode_length v : (length (PT_base_encode v) <= 5)%nat.
Proof. unfold PT_base_encode. repeat case_match; cbn; lia. Qed.

Lemma text_value_bytes t v val : text_value t v val →
  ∃ e, param_bytes t v = Val e ∧ value_enc (base_type t) val e.
Proof.
  intros [t' z Ht Hz|t' en enums v' z Ht _ Hv Hz|bs Hbs Hl].
  - exists (PT_base_encode z). split.
    + unfold param_bytes, param_any. destruct t'; try done; cbn -[stoll to_string];
        by rewrite stoll_to_string.
    + split; [done|]. split; [apply PT_base_encode_length|]. intros p. apply parse_PT_base_encode.
  - exists (PT_base_encode z). split.
    + unfold param_bytes, param_any. cbn -[stoll to_string]. rewrite Hv.
      destruct t'; try done; cbn -[stoll to_string]; rewrite stoll_to_string; done || lia.
    + split; [done|]. split; [apply PT_base_encode_length|]. intros p. apply parse_PT_base_encode.
  - exists (Z.of_nat (length bs) :: bs). split; [|done].
    unfold param_bytes, param_any. cbn -[parse_buffer]. rewrite parse_buffer_text by done. cbn.
    unfold PT_string_encode. rewrite u8_small by lia. done.
Qed.

(** The entry of the firmware's table for a declaration. *)
Record parser_of (d : declaration) (cp : command_parser) : Prop := {
  pf_func : cp.(cp_func) = d.(dc_func);
  pf_flags : cp.(cp_flags) = d.(dc_flags);
  pf_types : ∃ ps, declared_params d.(dc_msg) = Some ps ∧ cp.(cp_param_types) = ps.*2;
  pf_args : cp.(cp_num_args) = arg_count cp.(cp_param_types);
}.

Lemma declared_formats `{Board} data polls d :
  d ∈ declarations data polls → format_ok d.(dc_msg) = true.
Proof.
  assert (forallb format_ok (map dc_msg (declarations data polls)) = true) as Hall
    by (vm_compute; reflexivity).
  intros Hd. rewrite forallb_forall in Hall. apply Hall, in_map, list_elem_of_In, Hd.
Qed.

Lemma passed_count `{Board} types ves p :
  Forall2 (λ t ve, value_enc t ve.1 ve.2) types ves →
  Z.of_nat (length (passed p ves)) = arg_count types.
Proof.
  intros Hty. revert p. induction Hty as [|t [[v|bs] e] types ves Ht _ IH]; intros p; [done| |].
  - destruct Ht as [Ht _]. cbn [passed length]. rewrite Nat2Z.inj_succ, IH. destruct t; cbn in *; done || lia.
  - destruct Ht as [-> _]. cbn [passed length]. rewrite !Nat2Z.inj_succ, IH. cbn. lia.
Qed.

(** PT_base writes the ids of messages the way the firmware's encoder would. *)
Lemma PT_base_encode_int v : 0 <= v < 2 ^ 31 → PT_base_encode v = encode_int v.
Proof.
  intros Hv. rewrite PT_base_encode_groups, encode_int_groups by lia. cbv zeta.
  rewrite s32_small by lia.
  rewrite !(proj2 (Z.ltb_ge v (Z.neg _))), !orb_false_r by lia.
  rewrite !(proj2 (Z.leb_le (Z.neg _) v)), !andb_true_r by lia.
  destruct (Z.ltb_spec v 96), (Z.ltb_spec v 12288), (Z.ltb_spec v 1572864), (Z.ltb_spec v 201326592);
    try lia; rewrite ?(proj2 (Z.leb_gt _ v)), ?(proj2 (Z.leb_le _ v)) by lia; try done.
  cbn. do 2 f_equal. apply Z.mod_small. Z.div_mod_to_equations. lia.
Qed.

Lemma format_wf_unique f ts ts' : format_wf f ts → format_wf f ts' → ts' = ts.
Proof.
  intros [E _ _] [E' _ _]. rewrite E in E'. revert ts' E'. clear E.
  induction ts as [|[k t] ts IH]; intros [|[k' t'] ts'] E; try done. cbn in E.
  injection E as -> -> E. f_equal. by apply IH.
Qed.

Lemma argument_for {V} (R : host_type → string → V → Prop)
    (ts : list (string * host_type)) (args : list (string * string)) vals k v :
  NoDup ts.*1 → args.*1 ≡ₚ ts.*1 →
  Forall2 (λ p val, ∃ v, (p.1, v) ∈ args ∧ R p.2 v val) ts vals →
  (k, v) ∈ args → ∃ t val, (k, t) ∈ ts ∧ R t v val.
Proof.
  intros Hnd Hperm Hvals Hin. assert (Hnda : NoDup args.*1) by (by rewrite Hperm).
  assert (k ∈ ts.*1) as Hk by (rewrite <- Hperm; by apply (list_elem_of_fmap_2 fst _ (k, v))).
  apply list_elem_of_fmap in Hk as ([k' t] & -> & Hp). cbn in *.
  apply list_elem_of_lookup in Hp as Hi. destruct Hi as [i Hi].
  destruct (Forall2_lookup_l _ _ _ _ _ Hvals Hi) as (val & _ & v' & Hv' & HR).
  assert (v' = v) as ->; [|by exists t, val].
  apply (smap_find_elem _ _ _ Hnda) in Hin, Hv'. cbn in *. congruence.
Qed.

(** The bytes of the texts. *)
Lemma texts_encoded (ts : list (string * host_type)) (args : list (string * string)) vals :
  Forall2 (λ p val, ∃ v, (p.1, v) ∈ args ∧ text_value p.2 v val) ts vals →
  ∃ ves, ves.*1 = vals
    ∧ Forall2 (λ p bs, ∃ v, (p.1, v) ∈ args ∧ param_bytes p.2 v = Val bs) ts ves.*2
    ∧ Forall2 (λ t ve, value_enc t ve.1 ve.2) (map base_type ts.*2) ves.
Proof.
  induction 1 as [|[k t] val ts vals (v & Hin & Hv) _ IH]; [by exists []|].
  destruct IH as (ves & <- & H1 & H2). destruct (text_value_bytes _ _ _ Hv) as (e & He & Henc).
  exists ((val, e) :: ves). split_and!; [done| |]; constructor; try done. by exists v.
Qed.

Lemma command_text_runs `{B : Board} data polls mp index d id cp f ts args vals seq rest n s :
  d ∈ declarations data polls → 1 <= id < 2 ^ 12 →
  new_MessageFormat (PT_base_encode id) d.(dc_msg) mp.(mp_enumerations) = Val f →
  mp.(mp_messages_by_name) !! f.(mf_name) = Some f → format_wf f ts →
  index !! Z.to_nat id = Some cp → parser_of d cp →
  args.*1 ≡ₚ ts.*1 →
  Forall2 (λ p val, ∃ v, (p.1, v) ∈ args ∧ text_value p.2 v val) ts vals →
  seq_ok seq → s.(cmd).(next_sequence) = seq → need_sync s = false →
  ∃ ves, ves.*1 = vals ∧ Forall2 (λ t ve, value_enc t ve.1 ve.2) cp.(cp_param_types) ves
    ∧ let msg := encode_int id ++ bytes_of ves in
      create_command mp (command_text f.(mf_name) args) = Val msg
      ∧ ((length msg <= 59)%nat → Z.of_nat (length msg) + 5 <= n →
         command_find_and_dispatch index (frame seq msg ++ rest) n s
         = (sd ← sched_is_shutdown;
            (if sd && negb (flag_set d.(dc_flags) HF_IN_SHUTDOWN) then sched_report_shutdown
             else d.(dc_func) (passed (Z.of_nat (length (encode_int id)) + 2) ves));;
            command_send_ack;; mret (1, Z.of_nat (length msg) + 5)) (accepted s)).
Proof.
  intros Hd Hid Hf Hmp Hwf Hcp [Hfunc Hflags (ps & Hps & Hty) Hargs] Hperm Hvals Hseq Hnext Hns.
  apply declared_formats in Hd.
  destruct (new_format_wf _ _ _ _ Hd Hf) as (ts' & Hwf' & Hname & Hidb & _ & Hnames & Hdecl).
  assert (ts' = ts) as -> by (by eapply format_wf_unique).
  assert (Htys : cp.(cp_param_types) = map base_type ts.*2).
  { rewrite Hty. rewrite Hdecl in Hps. simplify_eq. apply snd_zip. by rewrite !length_fmap. }
  destruct (texts_encoded _ _ _ Hvals) as (ves & Hv1 & Hv2 & Hv3). exists ves. split; [done|]. split; [by rewrite Htys|].
  cbv zeta. assert (Hok : Forall arg_ok args).
  { apply Forall_forall. intros [k v] Hin.
    destruct (argument_for text_value ts args vals k v (fw_nodup _ _ Hwf) Hperm Hvals Hin)
      as (t & val & Hp & Hv).
    split; [|by eapply text_value_chars]. exact (proj1 (Forall_forall _ _) Hnames _ Hp). }
  split.
  - rewrite (create_command_bytes mp _ f ts args ves.*2) by done. rewrite Hidb, PT_base_encode_int by lia.
    done.
  - intros Hlen Hn.
    assert (Hcall : call_ok index id cp ves).
    { split; [done|done|by rewrite Htys|]. rewrite Hargs, Htys. symmetry. by apply passed_count. }
    rewrite (dispatch_block_value index id cp ves) by done. unfold run_command. cbn [fst snd].
    rewrite Hcp, <- Hfunc, <- Hflags. unfold mbind, M_bind. cbn. by destruct (_ && _).
Qed.


(** ** An example: configuring a stepper *)

Definition example_pins : smap (smap Z) := [("pin", [("PA4", 4); ("PC13", 45)])].
Definition example_types : list (string * host_type) :=
  let pin := Enumeration (Plain PT_byte) "pin" [("PA4", 4); ("PC13", 45)] in
  [("oid", Plain PT_byte); ("step_pin", pin); ("dir_pin", pin); ("invert_step", Plain PT_byte);
   ("step_pulse_ticks", Plain PT_uint32)].
Definition example_msg : string :=
  "config_stepper oid=%c step_pin=%c dir_pin=%c invert_step=%c step_pulse_ticks=%u".
Definition example_format : message_format :=
  let ps := map (λ p : string * host_type, (p.1, Some p.2)) example_types in
  mk_message_format [5] example_msg (convert_msg_format example_msg) "config_stepper" ps
    (fold_left (λ m p, smap_set p.1 p.2 m) ps []).
Definition example_parser : MessageParser :=
  mk_MessageParser example_pins [] ∅ {["config_stepper" := example_format]} ∅ [] "" "" "".
Definition example_decl `{Board} : declaration := DECL_COMMAND Stepper.command_config_stepper example_msg.
Definition example_cp `{Board} : command_parser :=
  mk_command_parser 5 5 0 [PT_byte; PT_byte; PT_byte; PT_byte; PT_uint32] Stepper.command_config_stepper.
Definition example_args : list (string * string) :=
  [("step_pin", "PC13"); ("oid", "2"); ("step_pulse_ticks", "3000000000"); ("dir_pin", "PA4");
   ("invert_step", "-1")].

