(* ===== verification/Response.v ===== *)
(** * Responses of the firmware as the host reads them (src/command.c to elegoo/msgproto.cpp)

    The firmware encodes a response and puts it into a block; the host checks the
    block, finds the format by the message id and turns the parameters into text.
    The data dictionary itself is read that way, piece by piece. *)

From S2P Require Import Prelude.
From S2P Require Import Crc16.
From S2P Require Import Vlq.
From S2P Require Import State.
From S2P Require Import Machine.
From S2P Require Import Sched.
From S2P Require Import Command.
From S2P Require Import CommandSpec.
From S2P Require Import CommandRun.
From S2P Require Import MsgBlock.
From S2P Require Import HostText.
From S2P Require Import MsgProto.
From S2P Require Import MsgProtoSpec.
From S2P Require Import TextCommand.

(** The text the host has for an argument of a response. *)
Inductive arg_text : host_type → arg → string → Prop :=
| text_of_int t v :
    int_param t = true →
    arg_text (Plain t) (A_int v)
      (if signed_value (Plain t) then to_string (s32 v) else to_string (u32 v))
| text_of_enum t en enums v :
    int_param t = true → s32 v ∈ enums.*2 →
    arg_text (Enumeration (Plain t) en enums) (A_int v) (to_string (s32 v))
| text_of_buffer t bs :
    t = PT_progmem_buffer ∨ t = PT_buffer → (length bs <= 255)%nat →
    arg_text (Plain t) (A_buf bs) (bytes_string bs).

(** The bytes of an argument. *)
Definition arg_bytes (a : arg) : list Z :=
  match a with
  | A_int v => encode_int (u32 v)
  | A_buf bs => Z.of_nat (length bs) :: bs
  | A_str _ => []
  end.
Definition args_bytes (args : list arg) : list Z := concat (map arg_bytes args).

(** ** The firmware's encoder *)

Lemma encodef_loop_args `{Board} (ts : list host_type) args texts maxend out s :
  Forall3 arg_text ts args texts →
  MESSAGE_HEADER_SIZE + Z.of_nat (length (out ++ args_bytes args)) <= maxend →
  encodef_loop maxend (map base_type ts) args out s = (Ret (out ++ args_bytes args), s).
Proof.
  intros Hts. revert out. unfold args_bytes.
  induction Hts as [|t a txt ts args texts Ht _ IH]; intros out Hmax; cbn [map concat] in *.
  { cbn. by rewrite app_nil_r. }
  rewrite !length_app in Hmax. cbn [encodef_loop]. unfold MESSAGE_HEADER_SIZE in *.
  rewrite (proj2 (Z.ltb_ge _ _)) by lia. rewrite app_assoc.
  destruct Ht as [t v Hint|t en enums v Hint _|t bs Hb Hl]; cbn [base_type arg_bytes] in *.
  - rewrite <- IH by (rewrite ?length_app; lia). by destruct t.
  - rewrite <- IH by (rewrite ?length_app; lia). by destruct t.
  - cbn [length] in Hmax. rewrite <- IH by (rewrite ?length_app; cbn [length]; lia).
    destruct Hb as [-> | ->]; rewrite (proj2 (Z.ltb_ge _ (Z.of_nat (length bs)))) by lia;
      by rewrite Nat2Z.id, firstn_all, u8_small by lia.
Qed.

(** ** The host's parser *)

Lemma param_value_text t a txt pre tail :
  arg_text t a txt →
  param_value t (pre ++ arg_bytes a ++ tail) (Z.of_nat (length pre))
  = Val (txt, Z.of_nat (length (pre ++ arg_bytes a))).
Proof.
  intros [t' v Hint|t' en enums v Hint Hin|t' bs Hb Hl]; unfold param_value.
  - assert (is_int (Plain t') = true) as -> by (by destruct t').
    cbn [pt_parse arg_bytes]. rewrite (PT_base_parse_int _ _ (u32 v)) by (apply parse_encode_int, u32_range).
    unfold mbind, hres_bind, mret, hres_ret. do 2 f_equal. destruct (signed_value _); f_equal.
    + apply s32_u32.
    + by rewrite s32_u32, u32_s32.
  - cbn [is_int is_dynamic_string pt_parse arg_bytes].
    rewrite (PT_base_parse_int _ _ (u32 v)) by (apply parse_encode_int, u32_range).
    unfold mbind, hres_bind, mret, hres_ret. rewrite s32_u32, bool_decide_eq_true_2 by done.
    do 3 f_equal. by rewrite s32_u32, s32_small by apply s32_range.
  - assert (is_int (Plain t') = false ∧ is_dynamic_string (Plain t') = true) as [-> ->]
      by (by destruct Hb as [-> | ->]).
    cbn [arg_bytes]. unfold parseStr. rewrite Nat2Z.id, lookup_app_r, Nat.sub_diag by done. cbn [app].
    change ((?x :: ?l) !! 0%nat) with (Some x). cbv iota.
    rewrite (proj2 (Z.ltb_ge _ _)) by (rewrite length_app; cbn [length]; rewrite length_app; lia).
    replace (Z.to_nat (Z.of_nat (length pre) + 1)) with (length (pre ++ [Z.of_nat (length bs)]))
      by (rewrite length_app; cbn; lia).
    change (?x :: bs ++ tail) with ([x] ++ bs ++ tail).
    rewrite (app_assoc pre), drop_app_length, Nat2Z.id, take_app_length.
    unfold mret, hres_ret. do 2 f_equal. rewrite length_app. cbn [length]. lia.
Qed.

Lemma parse_params_texts (ts : list (string * host_type)) args texts pre tail out :
  Forall3 arg_text ts.*2 args texts →
  parse_params (map (λ p, (p.1, Some p.2)) ts) (pre ++ args_bytes args ++ tail) (Z.of_nat (length pre)) out
  = Val (fold_left (λ m p, smap_set p.1 p.2 m) (zip ts.*1 texts) out,
         Z.of_nat (length (pre ++ args_bytes args))).
Proof.
  revert args texts pre out. unfold args_bytes.
  induction ts as [|[k t] ts IH]; intros args texts pre out Hts; cbn [fmap list_fmap] in Hts.
  - inversion Hts; subst. cbn. by rewrite app_nil_r.
  - apply Forall3_cons_inv_l in Hts as (a & args' & txt & texts' & -> & -> & Ha & Hrest). cbn [map concat parse_params].
    unfold or_undef. cbn [snd fst]. unfold mbind at 1, hres_bind at 1.
    rewrite <- app_assoc, (param_value_text t a txt) by done.
    unfold mbind, hres_bind. rewrite app_assoc, (IH args' texts') by done. by rewrite <- app_assoc.
Qed.

(** ** A response *)

(** The entry of the firmware's encoder table and the format of the dictionary
    belong to the same response. *)
Record response_known (mp : MessageParser) (ce : command_encoder) (f : message_format)
    (ts : list (string * host_type)) : Prop := {
  rk_id : 0 <= ce.(ce_encoded_msgid) < 96 ∨ 128 <= ce.(ce_encoded_msgid) < 12288;
  rk_types : ce.(ce_param_types) = map base_type ts.*2;
  rk_size : MESSAGE_MIN < ce.(ce_max_size) <= MESSAGE_MAX;
  rk_found : mp.(mp_messages_by_id) !! ce.(ce_encoded_msgid) = Some (MessageFormat f);
  rk_bytes : f.(mf_msgid_bytes) = PT_base_encode ce.(ce_encoded_msgid);
  rk_wf : format_wf f ts;
  rk_names : "#name" ∉ ts.*1;
}.

(** What the firmware sends. *)
Lemma response_framed `{Board} ce (ts : list host_type) args texts s :
  0 <= ce.(ce_encoded_msgid) < 96 ∨ 128 <= ce.(ce_encoded_msgid) < 12288 →
  ce.(ce_param_types) = map base_type ts →
  MESSAGE_MIN < ce.(ce_max_size) <= MESSAGE_MAX →
  Forall3 arg_text ts args texts →
  let contents := encode_int ce.(ce_encoded_msgid) ++ args_bytes args in
  Z.of_nat (length contents) <= ce.(ce_max_size) - MESSAGE_MIN →
  command_encode_and_frame ce args s = (Ret (frame s.(cmd).(next_sequence) contents), s).
Proof.
  intros Hid Hty Hmax Hts contents Hfit. unfold MESSAGE_MIN, MESSAGE_MAX in *.
  unfold command_encode_and_frame, command_encodef, mbind, M_bind, MESSAGE_MIN.
  rewrite (proj2 (Z.leb_gt _ _)) by lia. rewrite encode_msgid_int, Hty by done.
  rewrite (encodef_loop_args ts args texts);
    [|done|fold contents; unfold MESSAGE_HEADER_SIZE; lia].
  fold contents. cbn. unfold MESSAGE_HEADER_SIZE, MESSAGE_TRAILER_SIZE.
  replace (2 + Z.of_nat (length contents) + 3) with (Z.of_nat (length contents) + 5) by lia.
  rewrite add_frame_eq by lia. done.
Qed.

(** What the host makes of it. *)
Lemma response_read mp ce f ts args texts seq :
  response_known mp ce f ts → Forall3 arg_text ts.*2 args texts →
  let contents := encode_int ce.(ce_encoded_msgid) ++ args_bytes args in
  (length contents <= 59)%nat →
  parse mp (frame seq contents)
  = Val (Some (smap_set "#name" f.(mf_name)
                 (fold_left (λ m p, smap_set p.1 p.2 m) (zip ts.*1 texts) []))).
Proof.
  intros [Hid _ _ Hfound Hbytes [Hps Hnd _] _] Hts contents Hlen.
  set (id := ce.(ce_encoded_msgid)) in *.
  assert (Hid32 : 0 <= id < 2 ^ 31) by lia.
  assert (Hp : ∀ p, parse_int (encode_int id ++ p) = Some (id, p))
    by (intros p; apply parse_encode_int; lia).
  set (h := [Z.of_nat (length contents) + MESSAGE_MIN; seq]).
  set (crc := crc16_ccitt (h ++ contents)). set (trailer := [crc / 256; crc mod 256; MESSAGE_SYNC]).
  assert (Hf : frame seq contents = h ++ contents ++ trailer) by done.
  unfold parse, format_at. change MESSAGE_HEADER_SIZE with (Z.of_nat (length h)).
  rewrite Hf. unfold contents. rewrite <- app_assoc.
  rewrite (PT_base_parse_int h (encode_int id) id) by apply Hp.
  unfold mbind, hres_bind, mret, hres_ret. rewrite s32_small, Hfound by lia.
  change (default UnknownFormat (Some (MessageFormat f))) with (MessageFormat f). cbn [format_parse].
  rewrite Hps, Hbytes, PT_base_encode_int by done.
  replace (Z.of_nat (length h) + Z.of_nat (length (encode_int id)))
    with (Z.of_nat (length (h ++ encode_int id))) by (rewrite length_app; lia).
  rewrite (app_assoc h), (parse_params_texts ts args texts) by done.
  assert (Hpos : Z.of_nat (length ((h ++ encode_int id) ++ args_bytes args))
                 = u64 (Z.of_nat (length ((h ++ encode_int id) ++ args_bytes args ++ trailer))
                        - MESSAGE_TRAILER_SIZE)).
  { unfold contents in Hlen. rewrite !length_app in *. unfold MESSAGE_TRAILER_SIZE.
    rewrite u64_small; cbn [length h trailer] in *; lia. }
  rewrite Hpos, Z.eqb_refl. done.
Qed.

Lemma zip_find (ts : list (string * host_type)) (texts : list string) k v :
  NoDup ts.*1 → k ∉ ts.*1 → length ts = length texts →
  Forall2 (λ p txt, smap_find p.1 (smap_set k v
      (fold_left (λ m p, smap_set p.1 p.2 m) (zip ts.*1 texts) [])) = Some txt) ts texts.
Proof.
  intros Hnd Hk Hl.
  assert (Hz : (zip ts.*1 texts).*1 = ts.*1) by (apply fst_zip; rewrite length_fmap; lia).
  apply Forall2_same_length_lookup_2; [done|]. intros i p txt Hp Htxt.
  assert (Hpk : ts.*1 !! i = Some p.1) by (by rewrite list_lookup_fmap, Hp).
  rewrite smap_find_set, bool_decide_eq_false_2.
  2: { intros <-. apply Hk. by eapply list_elem_of_lookup_2. }
  rewrite smap_find_fold by (by rewrite Hz).
  rewrite (smap_find_elem p.1 txt); [done|by rewrite Hz|].
  apply (list_elem_of_lookup_2 _ i). apply lookup_zip_with_Some. by exists p.1, txt.
Qed.


(** ** An example: a response with a signed number and a buffer *)

Definition example_response_types : list (string * host_type) :=
  [("oid", Plain PT_byte); ("pos", Plain PT_int32); ("data", Plain PT_buffer)].
Definition example_response : message_format :=
  let ps := map (λ p : string * host_type, (p.1, Some p.2)) example_response_types in
  let msg := "sensor_state oid=%c pos=%i data=%*s" in
  mk_message_format (PT_base_encode 77) msg (convert_msg_format msg) "sensor_state" ps
    (fold_left (λ m p, smap_set p.1 p.2 m) ps []).
Definition example_host : MessageParser :=
  mk_MessageParser [] [] {[77 := MessageFormat example_response]} ∅ ∅ [] "" "" "".

