(* ===== verification/Identify.v ===== *)
(** * Reading the data dictionary (elegoo/serialhdl.cpp)

    Before anything else the host asks the firmware for its data dictionary, 40
    bytes at a time, with the two messages it knows in advance.  The requests may be
    answered late or twice: the host only uses an answer for the offset it needs. *)

From S2P Require Import Prelude.
From S2P Require Import Vlq.
From S2P Require Import State.
From S2P Require Import Machine.
From S2P Require Import Sched.
From S2P Require Import Basecmd.
From S2P Require Import Command.
From S2P Require Import CommandSpec.
From S2P Require Import CommandRun.
From S2P Require Import MsgBlock.
From S2P Require Import Firmware.
From S2P Require Import HostText.
From S2P Require Import MsgProto.
From S2P Require Import MsgProtoSpec.
From S2P Require Import TextCommand.
From S2P Require Import Response.

(** [SerialReader::get_identify_data]; the [k]-th request is answered by
    [send_with_response k], or fails with a [SerialError]. *)
Fixpoint get_identify_data (fuel : nat) (send_with_response : nat → string → option (smap string))
    (k : nat) (identify_data : list Z) : hres (option (list Z)) :=
  match fuel with
  | O => Endless
  | S fuel =>
      let size := Z.of_nat (length identify_data) in
      let msg := "identify offset=" +:+ to_string size +:+ " count=" +:+ to_string 40 in
      match send_with_response k msg with
      | None => mret None
      | Some params =>
          offset ← or_throw type_error (smap_find "offset" params);
          offset ← stoull 10 offset;
          if offset =? size then
            msgdata ← or_throw type_error (smap_find "data" params);
            if bool_decide (msgdata = "") then mret (Some identify_data)
            else get_identify_data fuel send_with_response (S k) (identify_data ++ str_bytes msgdata)
          else get_identify_data fuel send_with_response (S k) identify_data
      end
  end.

Definition identify_request (offset : Z) : string :=
  "identify offset=" +:+ to_string offset +:+ " count=" +:+ to_string 40.

Lemma identify_request_text offset :
  identify_request offset
  = command_text "identify" [("offset", to_string offset); ("count", to_string 40)].
Proof. unfold identify_request, command_text. cbn. by rewrite app_empty_r. Qed.

(** ** One exchange *)

Definition identify_types : list (string * host_type) :=
  [("offset", Plain PT_uint32); ("count", Plain PT_byte)].
Definition identify_response_types : list (string * host_type) :=
  [("offset", Plain PT_uint32); ("data", Plain PT_progmem_buffer)].
Definition identify_response : string := "identify_response offset=%u data=%.*s".

(** The formats the host has before it knows the dictionary. *)
Lemma first_parser :
  ∃ mp f g, new_MessageParser = Val mp
    ∧ mp.(mp_enumerations) = []
    ∧ new_MessageFormat (PT_base_encode 1) "identify offset=%u count=%c" [] = Val f
    ∧ mp.(mp_messages_by_name) !! "identify" = Some f ∧ f.(mf_name) = "identify"
    ∧ format_wf f identify_types
    ∧ mp.(mp_messages_by_id) !! 0 = Some (MessageFormat g)
    ∧ g.(mf_msgid_bytes) = PT_base_encode 0 ∧ format_wf g identify_response_types.
Proof.
  eexists _, _, _. split; [vm_compute; reflexivity|]. split; [reflexivity|].
  split; [vm_compute; reflexivity|]. split; [reflexivity|]. split; [reflexivity|].
  split; [|split; [reflexivity|split; [reflexivity|]]].
  - split; [reflexivity|by apply (bool_decide_unpack _)|].
    intros k t Hin. unfold identify_types in Hin. rewrite !elem_of_cons, elem_of_nil in Hin.
    destruct Hin as [?|[?|[]]]; by simplify_eq.
  - split; [reflexivity|by apply (bool_decide_unpack _)|].
    intros k t Hin. unfold identify_response_types in Hin. rewrite !elem_of_cons, elem_of_nil in Hin.
    destruct Hin as [?|[?|[]]]; by simplify_eq.
Qed.

Section identify.
Context `{B : Board} (data : list Z) (polls : nat).
(** The tables of the firmware: the command with id 1 and the response with id 0. *)
Context (index : list command_parser) (cp : command_parser) (max_size : Z).

Definition identify_decl : declaration :=
  DECL_COMMAND_FLAGS (command_identify data) HF_IN_SHUTDOWN "identify offset=%u count=%c".
Definition identify_encoder : command_encoder :=
  mk_command_encoder 0 max_size [PT_uint32; PT_progmem_buffer].

Record tables_ok : Prop := {
  to_index : index !! 1%nat = Some cp;
  to_parser : parser_of identify_decl cp;
  to_size : 52 <= max_size <= MESSAGE_MAX;
}.

(** The host's request for [offset] is executed by the firmware in some state, and
    [params] is what the host reads in the response. *)
Definition exchange (mp : MessageParser) (offset : Z) (params : smap string) : Prop :=
  ∃ s s' msg args blk r,
    create_command mp (identify_request offset) = Val msg
    ∧ s.(cmd).(in_sendf) = false ∧ need_sync s = false ∧ seq_ok s.(cmd).(next_sequence)
    ∧ command_find_and_dispatch index (frame s.(cmd).(next_sequence) msg ++ []) 64 s = (Ret r, s')
    ∧ s'.(trace) = Ev_send "" [] :: Ev_send identify_response args :: s.(trace)
    ∧ command_encode_and_frame identify_encoder args s' = (Ret blk, s')
    ∧ parse mp blk = Val (Some params).

Definition piece (offset : Z) : list Z := take 40 (drop (Z.to_nat offset) data).

Hypothesis Htab : tables_ok.
Hypothesis Hdata : byte_list data.
Hypothesis Hlen : Z.of_nat (length data) < 2 ^ 31.

Lemma identify_piece offset :
  0 <= offset <= Z.of_nat (length data) →
  take (Z.to_nat (identify_count (Z.of_nat (length data)) offset 40)) (drop (Z.to_nat offset) data)
  = piece offset.
Proof.
  intros Ho. unfold piece, identify_count. destruct (Z.leb_spec (Z.of_nat (length data)) offset).
  { rewrite drop_ge by lia. done. }
  rewrite u32_small by lia. destruct (Z.ltb_spec (Z.of_nat (length data)) (offset + 40)); [|done].
  rewrite u8_small by lia. rewrite !take_ge by (rewrite length_drop; lia). done.
Qed.

Lemma identify_runs offset s :
  0 <= offset <= Z.of_nat (length data) → s.(cmd).(in_sendf) = false →
  command_identify data [offset; 40] s
  = (Ret tt, s <| trace ::= cons (Ev_send identify_response [A_int offset; A_buf (piece offset)]) |>).
Proof.
  intros Ho Hs. unfold command_identify. change (u8 40) with 40. rewrite identify_piece by done.
  rewrite (op_eq (m := sendf _ _)). unfold sent. by rewrite Hs.
Qed.

Lemma request_executed mp offset s :
  new_MessageParser = Val mp →
  0 <= offset <= Z.of_nat (length data) →
  s.(cmd).(in_sendf) = false → need_sync s = false → seq_ok s.(cmd).(next_sequence) →
  ∃ msg s' r,
    create_command mp (identify_request offset) = Val msg
    ∧ command_find_and_dispatch index (frame s.(cmd).(next_sequence) msg ++ []) 64 s = (Ret r, s')
    ∧ s'.(trace) = [Ev_send "" []; Ev_send identify_response [A_int offset; A_buf (piece offset)]]
                     ++ s.(trace)
    ∧ seq_ok s'.(cmd).(next_sequence).
Proof.
  intros Hmp Ho Hs Hns Hseq. destruct first_parser as (mp' & f & g & Hmp' & He & Hf & Hfound & Hname & Hwf & _).
  rewrite Hmp in Hmp'. injection Hmp' as <-. destruct Htab as [Hidx Hpar _].
  destruct (command_text_runs data polls mp index identify_decl 1 cp f identify_types
    [("offset", to_string offset); ("count", to_string 40)] [V_int (u32 offset); V_int 40]
    (next_sequence (cmd s)) [] 64 s) as (ves & Hves & Henc & Hmsg & Hrun); try done.
  - unfold declarations. rewrite !elem_of_app. left. unfold basecmd_commands. set_solver.
  - by rewrite He.
  - by rewrite Hname.
  - repeat (apply Forall2_cons; split); [| |by apply Forall2_nil].
    + exists (to_string offset). split; [set_solver|]. apply (text_int PT_uint32 offset); [done|lia].
    + exists (to_string 40). split; [set_solver|]. by apply (text_int PT_byte 40).
  - rewrite Hname, <- identify_request_text in Hmsg.
    destruct ves as [|[v1 e1] [|[v2 e2] [|]]]; cbn in Hves; try done. simplify_eq.
    assert (Hl : (length e1 <= 5 ∧ length e2 <= 5)%nat).
    { destruct Hpar as [_ _ (ps & Hps & Hty) _]. rewrite Hty in Henc. vm_compute in Hps. simplify_eq.
      cbn in Henc. apply Forall2_cons in Henc as [(_ & ? & _) Henc].
      apply Forall2_cons in Henc as [(_ & ? & _) _]. done. }
    set (msg := encode_int 1 ++ _) in *.
    assert (Hm : (length msg <= 15)%nat).
    { unfold msg, bytes_of. pose proof (encode_int_length 1). cbn [fmap list_fmap snd concat].
      rewrite !length_app. cbn [length]. lia. }
    specialize (Hrun ltac:(lia) ltac:(lia)). eexists msg, _, _. split; [done|].
    rewrite Hrun. unfold mbind, M_bind, sched_is_shutdown, gets. cbn [dc_flags identify_decl].
    change (flag_set HF_IN_SHUTDOWN HF_IN_SHUTDOWN) with true. rewrite andb_false_r.
    cbn [dc_func identify_decl passed]. rewrite u32_small by lia.
    rewrite identify_runs by done. unfold command_send_ack, command_send_acknak.
    rewrite (op_eq (m := command_sendf _ _)). unfold sent. cbn. rewrite Hs. split; [done|]. cbn.
    split; [done|]. by apply seq_next_ok.
Qed.
Lemma identify_response_known mp : new_MessageParser = Val mp →
  ∃ g, response_known mp identify_encoder g identify_response_types.
Proof.
  intros Hmp. destruct first_parser as (mp' & f & g & Hmp' & _ & _ & _ & _ & _ & Hfound & Hb & Hwf).
  rewrite Hmp in Hmp'. injection Hmp' as <-. exists g. destruct Htab as [_ _ Hsize].
  split; try done; [left; cbn; lia|unfold MESSAGE_MIN in *; cbn; lia|].
  by apply (bool_decide_unpack _).
Qed.

(** What the host reads in the response for an offset. *)
Lemma response_answer mp offset s :
  new_MessageParser = Val mp → 0 <= offset <= Z.of_nat (length data) →
  ∃ blk params,
    command_encode_and_frame identify_encoder [A_int offset; A_buf (piece offset)] s = (Ret blk, s)
    ∧ parse mp blk = Val (Some params)
    ∧ smap_find "offset" params = Some (to_string offset)
    ∧ smap_find "data" params = Some (bytes_string (piece offset)).
Proof.
  intros Hmp Ho. destruct (identify_response_known mp Hmp) as [g Hk].
  set (args := [A_int offset; A_buf (piece offset)]).
  set (texts := [to_string (u32 offset); bytes_string (piece offset)]).
  assert (Hp : (length (piece offset) <= 40)%nat) by (unfold piece; rewrite length_take; lia).
  assert (Hts : Forall3 arg_text identify_response_types.*2 args texts).
  { apply Forall3_cons; [by apply (text_of_int PT_uint32)|].
    apply Forall3_cons; [apply text_of_buffer; [by left|lia]|]. by apply Forall3_nil. }
  set (contents := encode_int (ce_encoded_msgid identify_encoder) ++ args_bytes args).
  assert (Hc : (length contents <= 47)%nat).
  { unfold contents, args_bytes, args. cbn [map arg_bytes concat]. rewrite !length_app. cbn [length].
    pose proof (encode_int_length (u32 offset)). change (length (encode_int _)) with 1%nat at 1. lia. }
  destruct Htab as [_ _ Hsize]. unfold MESSAGE_MAX in Hsize.
  exists (frame s.(cmd).(next_sequence) contents). eexists.
  split; [|split].
  - apply (response_framed identify_encoder identify_response_types.*2 args texts);
      [left; cbn; lia|done| |exact Hts|]; unfold MESSAGE_MIN, MESSAGE_MAX; cbn [ce_max_size identify_encoder];
      fold contents; lia.
  - apply (response_read mp identify_encoder g _ args texts _ Hk Hts). fold contents. lia.
  - rewrite !smap_find_set. cbn. rewrite u32_small by lia. done.
Qed.
Definition answered (offset : Z) (params : smap string) : Prop :=
  smap_find "offset" params = Some (to_string offset)
  ∧ smap_find "data" params = Some (bytes_string (piece offset)).

Lemma exchange_answered mp offset params :
  new_MessageParser = Val mp → 0 <= offset <= Z.of_nat (length data) →
  exchange mp offset params → answered offset params.
Proof.
  intros Hmp Ho (s & s' & msg & args & blk & r & Hmsg & Hs & Hns & Hseq & Hrun & Htr & Hblk & Hparse).
  destruct (request_executed mp offset s Hmp Ho Hs Hns Hseq) as (msg' & s1 & r' & Hmsg' & Hrun' & Htr' & _).
  rewrite Hmsg in Hmsg'. injection Hmsg' as <-. rewrite Hrun in Hrun'. injection Hrun' as <- <-.
  rewrite Htr in Htr'. cbn in Htr'. injection Htr' as ->.
  destruct (response_answer mp offset s' Hmp Ho) as (blk' & params' & Hblk' & Hparse' & H1 & H2).
  rewrite Hblk in Hblk'. injection Hblk' as <-. rewrite Hparse in Hparse'. by injection Hparse' as <-.
Qed.

(** Every request has an answer. *)
Lemma exchange_exists mp offset s :
  new_MessageParser = Val mp → 0 <= offset <= Z.of_nat (length data) →
  s.(cmd).(in_sendf) = false → need_sync s = false → seq_ok s.(cmd).(next_sequence) →
  ∃ params, exchange mp offset params.
Proof.
  intros Hmp Ho Hs Hns Hseq.
  destruct (request_executed mp offset s Hmp Ho Hs Hns Hseq) as (msg & s' & r & Hmsg & Hrun & Htr & _).
  destruct (response_answer mp offset s' Hmp Ho) as (blk & params & Hblk & Hparse & _).
  exists params, s, s', msg, [A_int offset; A_buf (piece offset)], blk, r. by split_and!.
Qed.

Lemma stoull_to_string z : 0 <= z < 2 ^ 64 → stoull 10 (to_string z) = Val z.
Proof.
  intros Hz. unfold stoull. rewrite strto_to_string, (proj2 (Z.ltb_ge z 0)), Z.abs_eq by lia.
  by rewrite (proj2 (Z.ltb_lt _ _)) by lia.
Qed.

Lemma bytes_string_empty bs : bytes_string bs = "" → bs = [].
Proof. by destruct bs. Qed.

(** An answer for another offset changes nothing, and an answer for the right one
    adds a piece. *)
Lemma identify_step fuel ask k n o params :
  (n <= length data)%nat → 0 <= o <= Z.of_nat (length data) →
  ask k (identify_request (Z.of_nat n)) = Some params → answered o params →
  get_identify_data (S fuel) ask k (take n data)
  = if o =? Z.of_nat n then
      if bool_decide (n = length data) then Val (Some data)
      else get_identify_data fuel ask (S k) (take (n + 40) data)
    else get_identify_data fuel ask (S k) (take n data).
Proof.
  intros Hn Ho Hask [Ha Hd]. cbn [get_identify_data]. rewrite length_take, Nat.min_l by done.
  change ("identify offset=" +:+ _) with (identify_request (Z.of_nat n)). rewrite Hask, Ha.
  unfold or_throw, mbind, hres_bind. rewrite stoull_to_string by lia.
  destruct (Z.eqb_spec o (Z.of_nat n)) as [->|]; [|done]. rewrite Hd. unfold piece. rewrite Nat2Z.id. case_bool_decide as E.
  - apply bytes_string_empty in E. apply (f_equal length) in E. rewrite length_take, length_drop in E.
    change (length []) with 0%nat in E. rewrite bool_decide_eq_true_2 by lia. by rewrite take_ge by lia.
  - rewrite bool_decide_eq_false_2; [|intros ->; apply E; by rewrite drop_all].
    rewrite str_bytes_string by (by apply Forall_take, Forall_drop).
    by rewrite take_take_drop.
Qed.

(** C18: the host gets the whole dictionary: whatever requests are answered late,
    as long as at most [K] answers in a row are for an offset already read, the host
    ends with exactly the bytes of the firmware's dictionary.  A request is the
    text the host builds, encoded, framed and executed by the firmware; an answer is
    the response the firmware then encodes, as the host parses it. *)
Theorem dictionary_transferred mp ask K fuel :
  new_MessageParser = Val mp →
  (∀ k o, 0 <= o <= Z.of_nat (length data) →
     ∃ o' params, 0 <= o' <= Z.of_nat (length data) ∧ ask k (identify_request o) = Some params
       ∧ exchange mp o' params) →
  (∀ k o, 0 <= o <= Z.of_nat (length data) →
     ∃ j params, (j <= K)%nat ∧ ask (k + j)%nat (identify_request o) = Some params
       ∧ exchange mp o params) →
  (S (length data) * S K <= fuel)%nat →
  get_identify_data fuel ask 0 [] = Val (Some data).
Proof.
  intros Hmp Hany Hfair Hfuel. change [] with (take 0 data).
  assert (Hgen : ∀ m n j k fuel, (n + m = length data)%nat → (j <= K)%nat →
    (∃ params, ask (k + j)%nat (identify_request (Z.of_nat n)) = Some params
       ∧ exchange mp (Z.of_nat n) params) →
    (m * S K + S j <= fuel)%nat → get_identify_data fuel ask k (take n data) = Val (Some data)).
  { induction m as [m IHm] using lt_wf_ind. intros n j.
    induction j as [j IHj] using lt_wf_ind. intros k fuel' Hn Hj (params & Hask & Hex) Hf.
    destruct fuel' as [|fuel']; [lia|].
    destruct (Hany k (Z.of_nat n) ltac:(lia)) as (o & params' & Ho & Hask' & Hex').
    rewrite (identify_step fuel' ask k n o params')
      by (lia || done || by apply (exchange_answered mp)).
    destruct (Z.eqb_spec o (Z.of_nat n)) as [->|Hne].
    - case_bool_decide as E; [done|].
      assert (take (n + 40) data = take (Nat.min (n + 40) (length data)) data) as ->.
      { destruct (Nat.min_spec (n + 40) (length data)) as [[? ->]|[? ->]]; [done|].
        by rewrite !take_ge by lia. }
      set (n' := Nat.min (n + 40) (length data)).
      destruct (Hfair (S k) (Z.of_nat n') ltac:(lia)) as (j' & params'' & Hj' & Hask'' & Hex'').
      apply (IHm (length data - n')%nat ltac:(lia) n' j'); [lia|done|by exists params''|nia].
    - destruct j as [|j].
      + exfalso. apply Hne. rewrite Nat.add_0_r, Hask' in Hask. injection Hask as ->.
        apply (exchange_answered mp) in Hex; [|done|lia]. apply (exchange_answered mp) in Hex'; [|done..].
        destruct Hex as [H1 _], Hex' as [H2 _]. rewrite H1 in H2. injection H2 as H2.
        apply (f_equal (stoull 10)) in H2. rewrite !stoull_to_string in H2 by lia. by injection H2.
      + apply (IHj j ltac:(lia)); [done|lia| |lia]. exists params. by rewrite Nat.add_succ_comm. }
  destruct (Hfair 0%nat 0 ltac:(lia)) as (j & params & Hj & Hask & Hex).
  apply (Hgen (length data) 0%nat j 0%nat); [done|done|by exists params|nia].
Qed.
End identify.

(** ** An example *)

Definition example_mp : MessageParser :=
  match new_MessageParser with Val mp => mp | _ => mk_MessageParser [] [] ∅ ∅ ∅ [] "" "" "" end.
Definition example_data : list Z := [200].
Definition example_identify `{Board} : command_parser :=
  mk_command_parser 1 2 HF_IN_SHUTDOWN [PT_uint32; PT_byte] (command_identify example_data).
Definition example_answer (o : Z) : smap string :=
  [("#name", "identify_response"); ("data", bytes_string (piece example_data o)); ("offset", to_string o)].
(** Every other answer is for the start of the dictionary. *)
Definition example_ask (k : nat) (msg : string) : option (smap string) :=
  if Nat.even k then Some (example_answer 0)
  else smap_find msg (map (λ o, (identify_request o, example_answer o)) [0; 1]).

Lemma example_exchange o : o ∈ [0; 1] →
  let b := example_board in
  exchange [example_identify; example_identify] 64 example_mp o (example_answer o).
Proof.
  intros Ho b. revert o Ho. apply Forall_forall.
  apply Forall_cons; split; [|apply Forall_cons; split; [|by apply Forall_nil]];
    (eexists init_mcu, _, _, _, _, _; split; [vm_compute; reflexivity|];
     split; [reflexivity|]; split; [reflexivity|]; split; [vm_compute; split; [discriminate|reflexivity]|];
     split; [vm_compute; reflexivity|]; split; [reflexivity|]; split; [vm_compute; reflexivity|]; vm_compute; reflexivity).
Qed.

Lemma example_mp_new : new_MessageParser = Val example_mp.
Proof. vm_compute. reflexivity. Qed.

Lemma dictionary_transferred_witness :
  let b := example_board in get_identify_data 4 example_ask 0 [] = Val (Some example_data).
Proof.
  intros b.
  apply (dictionary_transferred example_data 10 [example_identify; example_identify] example_identify 64)
    with (mp := example_mp) (K := 1%nat).
  - split; [reflexivity| |vm_compute; split; discriminate].
    split; [reflexivity|reflexivity|eexists; split; reflexivity|reflexivity].
  - apply List.Forall_cons; [split; [discriminate|reflexivity]|apply List.Forall_nil].
  - reflexivity.
  - apply example_mp_new.
  - intros k o Ho. assert (Hin : o ∈ [0; 1]) by (rewrite !elem_of_cons; cbn in Ho; lia).
    unfold example_ask. destruct (Nat.even k).
    + exists 0, (example_answer 0). split; [lia|]. split; [done|]. apply example_exchange. by left.
    + exists o, (example_answer o). split; [lia|]. split; [|by apply example_exchange].
      clear Ho. revert o Hin. apply Forall_forall. by repeat constructor.
  - intros k o Ho. assert (Hin : o ∈ [0; 1]) by (rewrite !elem_of_cons; cbn in Ho; lia).
    exists (if Nat.even k then 1 else 0)%nat, (example_answer o). split; [by destruct (Nat.even k); lia|].
    split; [|by apply example_exchange]. unfold example_ask.
    assert (Nat.even (k + (if Nat.even k then 1 else 0)) = false) as ->.
    { destruct (Nat.even k) eqn:E; rewrite Nat.even_add, E; done. }
    clear Ho. revert o Hin. apply Forall_forall. by repeat constructor.
  - vm_compute. lia.
Defined.
