(* ===== verification/EndToEnd.v ===== *)
(** * From requested step times to the stepper (stepcompress.c to stepper.c)

    The composition of the motion path: the host compresses the requested step
    times into queue_step messages, blocks carry the messages to the firmware, and the
    dispatcher runs the handlers, which extend the schedule of the stepper. *)

From stdpp Require Import sorting.
From S2P Require Import Prelude.
From S2P Require Import Vlq.
From S2P Require Import State.
From S2P Require Import Machine.
From S2P Require Import Sched.
From S2P Require Import SchedList.
From S2P Require Import SchedSpec.
From S2P Require Import Basecmd.
From S2P Require Import BasecmdSpec.
From S2P Require Import Stepper.
From S2P Require Import StepperSpec.
From S2P Require Import StepperCmd.
From S2P Require Import StepperThms.
From S2P Require Import Command.
From S2P Require Import CommandSpec.
From S2P Require Import CommandRun.
From S2P Require Import MsgBlock.
From S2P Require Import SerialQueue.
From S2P Require Import StepCompress.
From S2P Require Import StepCompressSpec.

(** ** Schedules modulo the clock *)

Lemma times_clock n w w' i add : u32 w = u32 w' →
  map u32 (times n w i add) = map u32 (times n w' i add).
Proof.
  revert w w' i. induction n as [|n IH]; intros w w' i Hw; [done|]. cbn.
  assert (u32 (w + i) = u32 (w' + i)) as Hi by (rewrite <- u32_add_l, Hw; apply u32_add_l).
  rewrite Hi. f_equal. by apply IH.
Qed.

Lemma moves_times_clock w w' ms : u32 w = u32 w' →
  map u32 (moves_times w ms) = map u32 (moves_times w' ms).
Proof.
  revert w w'. induction ms as [|mv ms IH]; intros w w' Hw; [done|]. cbn. rewrite !map_app. f_equal.
  - by apply times_clock.
  - apply IH. unfold end_time. rewrite <- !Z.add_assoc, <- (u32_add_l w), Hw. apply u32_add_l.
Qed.

(** ** The queued moves *)

Definition queue_step_args (sc : stepcompress) (mv : step_move) : list Z :=
  [sc.(sc_oid); mv.(sm_interval); mv.(sm_count); u32 mv.(sm_add)].

Lemma arg_move_sent n mv : move_ok n mv →
  arg_move mv.(sm_interval) mv.(sm_count) (u32 mv.(sm_add)) false = to_move mv.
Proof.
  intros []. unfold arg_move, to_move. rewrite u32_small, u16_small by lia. f_equal. int_lia.
Qed.

Lemma after_concat w pos d ms ms' :
  after w pos d (ms ++ ms') = let '(w', pos', d') := after w pos d ms in after w' pos' d' ms'.
Proof. revert w pos d. induction ms as [|m ms IH]; intros w pos d; [done|]. apply IH. Qed.

Section run.
Context `{Board} (index : list command_parser) (sc : stepcompress) (p : Z).
Let id := u32 sc.(sc_queue_step_msgtag).
Let oid := sc.(sc_oid).

(** The firmware's table has queue_step under the tag the host uses. *)
Definition queue_step_known : Prop :=
  1 <= id < 2 ^ 12 ∧ ∃ cp, index !! Z.to_nat id = Some cp ∧ cp.(cp_func) = command_queue_step
    ∧ cp.(cp_param_types) = [PT_byte; PT_uint32; PT_uint16; PT_int16] ∧ cp.(cp_num_args) = 4.

(** A stepper that executes [sch] and then stands as in [e]. *)
Record ready (s : mcu) (sch : list (Z * Z)) (free : nat) (e : Z * Z * Z) : Prop := {
  rd_oid : oid_names s oid OT_stepper p;
  rd_follows : ∃ F st, follows_to p s sch F st e ∧ turns st = false ∧ length F = free;
  rd_run : s.(sst).(shutdown_status) = 0;
}.

Hypothesis Hknown : queue_step_known.

Lemma wp_run_queue_step n mv s sch free w pos d :
  ready s sch (S free) (w, pos, d) → move_ok n mv →
  wp (run_command index (id, queue_step_args sc mv))
    (λ _ s', ready s' (sch ++ schedule w pos d [to_move mv]) free (after w pos d [to_move mv])
             ∧ s'.(cmd) = s.(cmd))
    (λ _ _, False) s.
Proof.
  intros [Ho (F & st & Hf & Ht & HF) Hs] Hmv. destruct Hknown as (_ & cp & Hcp & Hfun & _).
  destruct F as [|a F]; [done|]. unfold run_command. cbn [fst snd]. rewrite Hcp.
  apply wp_bind, wp_ret. unfold sched_is_shutdown. wp_steps. rewrite Hs. cbn. rewrite Hfun.
  pose proof Hmv as []. unfold queue_step_args.
  eapply wp_mono; [eapply (wp_queue_step_active p s st a F); [done|done|]| |done].
  { rewrite u16_small by lia. lia. }
  cbv beta. intros _ s' (st' & Hf' & _ & _ & Hsst & _ & Hcmd & Ho' & Ht').
  rewrite Ht, (arg_move_sent n mv Hmv) in Hf'. split; [|done].
  split; [done| |by rewrite Hsst]. exists F, st'. split_and!; [done|done|]. cbn in HF. lia.
Qed.

Lemma wp_run_queue_steps n ms s sch free w pos d :
  ready s sch (length ms + free) (w, pos, d) → Forall (move_ok n) ms →
  wp (run_commands index (map (λ mv, (id, queue_step_args sc mv)) ms))
    (λ _ s', ready s' (sch ++ schedule w pos d (map to_move ms)) free
               (after w pos d (map to_move ms)) ∧ s'.(cmd) = s.(cmd))
    (λ _ _, False) s.
Proof.
  intros Hr Hms. revert s sch w pos d Hr.
  induction Hms as [|mv ms Hmv _ IH]; intros s sch w pos d Hr; cbn [map run_commands].
  { apply wp_ret. cbn. by rewrite app_nil_r. }
  apply wp_bind. eapply wp_mono; [by apply (wp_run_queue_step n mv s sch (length ms + free))| |done].
  cbv beta. intros _ s1 [Hr1 Hc1]. destruct (after w pos d [to_move mv]) as [[w1 pos1] d1] eqn:Ea.
  eapply wp_mono; [by apply IH| |done]. cbv beta. intros _ s2 [Hr2 Hc2].
  rewrite <- app_assoc in Hr2. split; [|congruence].
  change (to_move mv :: map to_move ms) with ([to_move mv] ++ map to_move ms).
  rewrite schedule_app, Ea. cbn in Ea. simplify_eq. exact Hr2.
Qed.
Lemma ready_frame s s' sch free e :
  ready s sch free e → s'.(objs) = s.(objs) → s'.(nodes) = s.(nodes) → s'.(base) = s.(base) →
  s'.(timers) = s.(timers) → s'.(sst) = s.(sst) → ready s' sch free e.
Proof.
  intros [Ho (F & st & (L & ms & w & i & a & pos & d & Hact & Hrest) & Ht & HF) Hs] Hobjs Hn Hb Htm Hsst.
  split; [unfold oid_names in *; by rewrite Hb| |by rewrite Hsst].
  exists F, st. split_and!; [|done|done]. exists L, ms, w, i, a, pos, d. split; [|done].
  eapply active_frame; [done..| |]; rewrite Htm; [|done]. destruct Hact as [_ _ (t & -> & _)]. by eexists.
Qed.

(** The state in which the firmware waits for the next block. *)
Definition waiting (s : mcu) : Prop := need_sync s = false ∧ seq_ok s.(cmd).(next_sequence).

(** Blocks that arrive one after the other, each with the sequence number the
    firmware expects. *)
Fixpoint receive_blocks (blks : list (list Z)) : M unit :=
  match blks with
  | [] => mret tt
  | c :: blks =>
      q ← gets (λ s, s.(cmd).(next_sequence));
      command_find_and_dispatch index (frame q c) (Z.of_nat (length (frame q c)));;
      receive_blocks blks
  end.

Lemma waiting_accepted s : waiting s → waiting (accepted s).
Proof.
  intros [Hn Hs]. split; [|by apply seq_next_ok]. unfold need_sync in *. cbn.
  change CF_NEED_SYNC with (Z.shiftl 1 (Z.of_nat 0)) in *. rewrite flag_bit in *.
  by rewrite Z.land_spec, Hn.
Qed.

Lemma queue_step_data_command mv :
  queue_step_data sc mv = encode_command (id, queue_step_args sc mv).
Proof. done. Qed.

Lemma queue_step_ok n mv : is_byte oid → move_ok n mv → command_ok index (id, queue_step_args sc mv).
Proof.
  intros Ho []. destruct Hknown as (Hid & cp & Hcp & _ & Hty & Hnum). split; [done|]. split.
  - unfold is_byte in Ho. unfold queue_step_args. fold oid. unfold is_u32.
    repeat constructor; (lia || apply u32_range).
  - exists cp. rewrite Hty, Hnum. split_and!; [done| |done|done]. by repeat constructor.
Qed.

Lemma wp_receive_block n ms s sch free w pos d :
  is_byte oid → Forall (move_ok n) ms → ready s sch (length ms + free) (w, pos, d) → waiting s →
  let c := concat (map (queue_step_data sc) ms) in
  (length c <= 59)%nat →
  wp (q ← gets (λ s, s.(cmd).(next_sequence));
      command_find_and_dispatch index (frame q c) (Z.of_nat (length (frame q c))))
    (λ _ s', ready s' (sch ++ schedule w pos d (map to_move ms)) free
               (after w pos d (map to_move ms)) ∧ waiting s')
    (λ _ _, False) s.
Proof.
  intros Ho Hms Hr Hw c Hlen. wp_steps. set (q := s.(cmd).(next_sequence)).
  destruct (Hw) as [Hns Hseq]. unfold command_find_and_dispatch. apply wp_bind.
  assert (Hfind : command_find_block (frame q c) (Z.of_nat (length (frame q c))) s
                  = (Ret (1, Z.of_nat (length (frame q c))), accepted s)).
  { rewrite <- (app_nil_r (frame q c)) at 1. by apply find_block_frame. }
  unfold wp at 1. rewrite Hfind. apply wp_bind. cbn [when Z.ltb Z.compare]. apply wp_bind.
  set (cs := map (λ mv, (id, queue_step_args sc mv)) ms).
  assert (Hc : c = concat (map encode_command cs)) by (unfold c, cs; by rewrite map_map).
  assert (Hd : ∀ s, command_dispatch index (frame q c) (Z.of_nat (length (frame q c))) s
                    = run_commands index cs s).
  { intros s0. pose proof (dispatch_frame index cs q [] s0) as Hd. cbv zeta in Hd.
    rewrite <- Hc, app_nil_r in Hd. apply Hd. unfold cs. apply Forall_map.
    eapply Forall_impl; [exact Hms|]. intros mv Hmv. by apply (queue_step_ok n). }
  unfold wp. rewrite Hd. apply (ready_frame s (accepted s)) in Hr; [|done..].
  pose proof (wp_run_queue_steps n ms (accepted s) sch free w pos d Hr Hms) as Hrun. unfold wp in Hrun.
  fold cs in Hrun. destruct (run_commands index cs (accepted s)) as [[[]| |] s1]; [|done..].
  destruct Hrun as [Hr1 Hc1]. unfold command_send_ack, command_send_acknak.
  rewrite (op_eq (m := command_sendf _ _)). cbn. apply waiting_accepted in Hw.
  split.
  - eapply ready_frame; [exact Hr1|..]; unfold sent; by destruct (in_sendf _).
  - unfold waiting, need_sync in *. unfold sent. destruct (in_sendf _); cbn; by rewrite Hc1.
Qed.

Lemma wp_receive_blocks n blks : ∀ s sch free w pos d,
  is_byte oid → Forall (Forall (move_ok n)) blks →
  ready s sch (length (concat blks) + free) (w, pos, d) → waiting s →
  Forall (λ ms, (length (concat (map (queue_step_data sc) ms)) <= 59)%nat) blks →
  wp (receive_blocks (map (λ ms, concat (map (queue_step_data sc) ms)) blks))
    (λ _ s', ready s' (sch ++ schedule w pos d (map to_move (concat blks))) free
               (after w pos d (map to_move (concat blks))) ∧ waiting s')
    (λ _ _, False) s.
Proof.
  induction blks as [|ms blks IH]; intros s sch free w pos d Ho Hok Hr Hw Hlen; cbn [map receive_blocks concat] in *.
  { apply wp_ret. cbn. by rewrite app_nil_r. }
  apply Forall_cons in Hok as [Hms Hok]. apply Forall_cons in Hlen as [Hl Hlen].
  rewrite length_app, <- Nat.add_assoc in Hr.
  pose proof (wp_receive_block n ms s sch _ w pos d Ho Hms Hr Hw Hl) as Hb.
  unfold wp, mbind, M_bind, gets in Hb |- *. cbv zeta in Hb. set (c := concat _) in *.
  destruct (command_find_and_dispatch index _ _ s) as [[r| |] s1]; [|done..].
  destruct Hb as [Hr1 Hw1]. destruct (after w pos d (map to_move ms)) as [[w1 pos1] d1] eqn:Ea.
  pose proof (IH s1 _ free w1 pos1 d1 Ho Hok Hr1 Hw1 Hlen) as Hrec. unfold wp in Hrec.
  rewrite map_app, schedule_app, after_concat, Ea, app_assoc. exact Hrec.
Qed.
End run.

(** ** The whole path *)

Lemma unconcat {A C} (f : A → C) (blks : list (list C)) (ms : list A) :
  concat blks = map f ms → ∃ mss, concat mss = ms ∧ blks = map (map f) mss.
Proof.
  revert ms. induction blks as [|b blks IH]; intros ms Hb; cbn in Hb.
  { exists []. by destruct ms. }
  symmetry in Hb. apply fmap_app_inv in Hb as (ms1 & ms2 & -> & Hms2 & ->).
  destruct (IH ms2 Hms2) as (mss & <- & ->). by exists (ms1 :: mss).
Qed.

Lemma steps_length c w i a pos d : length (steps c w i a pos d) = c.
Proof. revert w i pos. induction c as [|c IH]; intros; cbn; [done|]. by rewrite IH. Qed.

Lemma schedule_positions ms : ∀ w pos d i tm x,
  schedule w pos d (map to_move ms) !! i = Some (tm, x) → x = pos + (Z.of_nat i + 1) * d.
Proof.
  induction ms as [|mv ms IH]; intros w pos d i tm x; [done|]. cbn [map schedule to_move mv_dir].
  set (c := Z.to_nat (sm_count mv)). set (l := steps _ _ _ _ _ _).
  assert (Hl : length l = c) by apply steps_length.
  destruct (decide (i < c)%nat) as [Hi|Hi].
  - rewrite lookup_app_l by lia. unfold l. rewrite steps_lookup by done. intros [= _ <-].
    reflexivity.
  - rewrite lookup_app_r by lia. intros Hx%IH. rewrite Hx, Hl. cbn [mv_count].
    rewrite Nat2Z.inj_sub by lia. change (mv_count (to_move mv)) with c. ring.
Qed.


(** ** An example: six accelerating steps for a stepper that is moving *)

Definition example_steps : list Z := map (Z.add (2 ^ 32 + 1318)) example_times.
Definition example_compress : stepcompress :=
  (stepcompress_fill (stepcompress_alloc 0) 25 7 8)
    <| sc_queue := map u32 example_steps |> <| sc_alloc := 1024 |>
    <| sc_last_step_clock := 2 ^ 32 + 1318 |>.
Definition example_table `{Board} : list command_parser :=
  replicate 8 (mk_command_parser 7 4 0 [PT_byte; PT_uint32; PT_uint16; PT_int16] command_queue_step).
Definition example_flushed : Z * stepcompress :=
  match queue_flush example_compress UINT64_MAX with Ok r => r | _ => (1, example_compress) end.

