(* ===== verification/HostButtons.v ===== *)
(** * Buttons of the host (elegoo/extras/buttons.cpp)

    The host configures up to eight pins per object, receives the states the firmware
    has recorded, acknowledges the new ones and calls the functions registered for the
    pins that have changed.  Rotary encoders are two such pins with a state table. *)

From S2P Require Import Prelude.
From S2P Require Import State.
From S2P Require Import Machine.
From S2P Require Import Command.
From S2P Require Import HostText.
From S2P Require Import MsgProto.

(** ** [MCU_buttons] *)

(** The parts of [PinParams] in use. *)
Record PinParams := mk_PinParams { pp_pin : string; pp_pullup : Z; pp_invert : Z }.

(** A callback is known by its place in the list, which has its mask and shift. *)
Record MCU_buttons := mk_MCU_buttons {
  mb_pin_list : list (string * Z);
  mb_callbacks : list (Z * Z);
  mb_invert : Z;
  mb_last_button : Z;
  mb_ack_count : Z;
  mb_oid : Z;
}.
#[export] Instance eta_MCU_buttons : Eta MCU_buttons :=
  λ r, mk_MCU_buttons r.(mb_pin_list) r.(mb_callbacks) r.(mb_invert) r.(mb_last_button)
         r.(mb_ack_count) r.(mb_oid).

Definition new_MCU_buttons : MCU_buttons := mk_MCU_buttons [] [] 0 0 0 0.

(** The loop of [setup_buttons]: the object and the mask of the pins. *)
Fixpoint setup_pins (pins : list PinParams) (mask : Z) (mb : MCU_buttons) : Z * MCU_buttons :=
  match pins with
  | [] => (mask, mb)
  | pin :: pins =>
      let bit := Z.shiftl 1 (Z.of_nat (length mb.(mb_pin_list))) in
      let mb := if negb (pin.(pp_invert) =? 0) then mb <| mb_invert ::= λ i, u8 (Z.lor i bit) |> else mb in
      setup_pins pins (u8 (Z.lor mask bit))
        (mb <| mb_pin_list ::= λ l, l ++ [(pin.(pp_pin), pin.(pp_pullup))] |>)
  end.

Definition setup_buttons (pins : list PinParams) (mb : MCU_buttons) : MCU_buttons :=
  let shift := u8 (Z.of_nat (length mb.(mb_pin_list))) in
  let '(mask, mb) := setup_pins pins 0 mb in
  mb <| mb_callbacks ::= λ l, l ++ [(mask, shift)] |>.

Definition RETRANSMIT_COUNT : Z := 50.

Fixpoint add_commands (oid i : Z) (pins : list (string * Z)) : list (string * bool) :=
  match pins with
  | [] => []
  | (pin, pullup) :: pins =>
      ("buttons_add oid=" +:+ to_string oid +:+ " pos=" +:+ to_string i +:+ " pin=" +:+ pin
         +:+ " pull_up=" +:+ to_string pullup, true) :: add_commands oid (i + 1) pins
  end.

(** The commands [build_config] adds, with the flag of those sent on a restart too.
    The object id, the time of the first query and the interval come from the
    micro-controller object. *)
Definition build_config (oid clock rest_ticks : Z) (mb : MCU_buttons) :
    list (string * bool) * MCU_buttons :=
  if bool_decide (mb.(mb_pin_list) = []) then ([], mb)
  else
    ([("config_buttons oid=" +:+ to_string oid +:+ " button_count="
         +:+ to_string (Z.of_nat (length mb.(mb_pin_list))), false)]
     ++ add_commands oid 0 mb.(mb_pin_list)
     ++ [("buttons_query oid=" +:+ to_string oid +:+ " clock=" +:+ to_string clock
            +:+ " rest_ticks=" +:+ to_string rest_ticks +:+ " retransmit_count="
            +:+ to_string RETRANSMIT_COUNT +:+ " invert=" +:+ to_string mb.(mb_invert), true)],
     mb <| mb_oid := oid |>).

(** What a report makes the host do: send an acknowledgement, or call the [cb]-th
    callback with a state. *)
Inductive button_effect :=
| Ack (oid count : Z)
| Call (cb : nat) (state : Z).

(** The callbacks of one state, in the order of their registration. *)
Fixpoint callback_calls (cbs : list (Z * Z)) (i : nat) (button changed : Z) : list button_effect :=
  match cbs with
  | [] => []
  | (mask, shift) :: cbs =>
      (if flag_set changed mask then [Call i (u8 (Z.shiftr (Z.land button mask) shift))] else [])
      ++ callback_calls cbs (S i) button changed
  end.

Fixpoint handle_states (new_buttons : list Z) (mb : MCU_buttons) : list button_effect * MCU_buttons :=
  match new_buttons with
  | [] => ([], mb)
  | button :: new_buttons =>
      let button := Z.lxor button mb.(mb_invert) in
      let changed := Z.lxor button mb.(mb_last_button) in
      let '(effs, mb') := handle_states new_buttons (mb <| mb_last_button := button |>) in
      (callback_calls mb.(mb_callbacks) 0 button changed ++ effs, mb')
  end.

(** [handle_buttons_state]: a missing parameter and a copy from before the start of
    the vector are undefined. *)
Definition handle_buttons_state (params : smap string) (mb : MCU_buttons) :
    hres (list button_effect * MCU_buttons) :=
  let ack_count := mb.(mb_ack_count) in
  text ← or_undef (smap_find "ack_count" params);
  n ← stoi text;
  let ack_diff := Z.land (u8 n - ack_count) 0xff in
  let ack_diff := ack_diff - Z.shiftl (Z.land ack_diff 0x80) 1 in
  let msg_ack_count := ack_count + ack_diff in
  state ← or_undef (smap_find "state" params);
  let buttons := str_bytes state in
  let new_count := s32 (u64 (msg_ack_count + Z.of_nat (length buttons) - ack_count)) in
  if new_count <=? 0 then mret ([], mb)
  else if Z.of_nat (length buttons) <? new_count then Undef
  else
    let new_buttons := drop (Z.to_nat (Z.of_nat (length buttons) - new_count)) buttons in
    let '(calls, mb) := handle_states new_buttons
                          (mb <| mb_ack_count := u8 (ack_count + new_count) |>) in
    mret (Ack mb.(mb_oid) new_count :: calls, mb).

(** ** [PrinterButtons::register_buttons]

    The objects live in a list; the map has the one that takes more pins, and each
    has registered itself with the configuration of its micro-controller by its
    address.  Replacing the entry of the map frees the object. *)
Record PrinterButtons := mk_PrinterButtons {
  pb_objects : list (option MCU_buttons);
  pb_mcu_buttons : smap nat;
}.

Definition register_buttons (mcu_name : string) (pins : list PinParams) (pb : PrinterButtons) :
    hres PrinterButtons :=
  let fresh := length pb.(pb_objects) in
  match smap_find mcu_name pb.(pb_mcu_buttons) with
  | None =>
      mret (mk_PrinterButtons (pb.(pb_objects) ++ [Some (setup_buttons pins new_MCU_buttons)])
              (smap_set mcu_name fresh pb.(pb_mcu_buttons)))
  | Some i =>
      mb ← or_undef (pb.(pb_objects) !! i ≫= id);
      if (8 <? length mb.(mb_pin_list) + length pins)%nat then
        mret (mk_PrinterButtons
                (<[i := None]> pb.(pb_objects) ++ [Some (setup_buttons pins new_MCU_buttons)])
                (smap_set mcu_name fresh pb.(pb_mcu_buttons)))
      else mret (mk_PrinterButtons (<[i := Some (setup_buttons pins mb)]> pb.(pb_objects))
                   pb.(pb_mcu_buttons))
  end.

(** The configuration callbacks run for every object, freed or not; the [i]-th
    micro-controller object gives it the values [slot i]. *)
Fixpoint build_configs (slot : nat → Z * Z * Z) (i : nat) (objects : list (option MCU_buttons)) :
    hres (list (string * bool)) :=
  match objects with
  | [] => mret []
  | mb :: objects =>
      mb ← or_undef mb;
      let '(oid, clock, rest_ticks) := slot i in
      rest ← build_configs slot (S i) objects;
      mret ((build_config oid clock rest_ticks mb).1 ++ rest)
  end.

(** ** Rotary encoders *)

Definition R_START : Z := 0x0.
Definition R_DIR_CW : Z := 0x10.
Definition R_DIR_CCW : Z := 0x20.
Definition R_DIR_MSK : Z := 0x30.

Module Full.
Definition R_CW_FINAL : Z := 0x1.
Definition R_CW_BEGIN : Z := 0x2.
Definition R_CW_NEXT : Z := 0x3.
Definition R_CCW_BEGIN : Z := 0x4.
Definition R_CCW_FINAL : Z := 0x5.
Definition R_CCW_NEXT : Z := 0x6.
Definition FULL_STATES : list (list Z) :=
  [ [R_START; R_CW_BEGIN; R_CCW_BEGIN; R_START];
    [R_CW_NEXT; R_START; R_CW_FINAL; Z.lor R_START R_DIR_CW];
    [R_CW_NEXT; R_CW_BEGIN; R_START; R_START];
    [R_CW_NEXT; R_CW_BEGIN; R_CW_FINAL; R_START];
    [R_CCW_NEXT; R_START; R_CCW_BEGIN; R_START];
    [R_CCW_NEXT; R_CCW_FINAL; R_START; Z.lor R_START R_DIR_CCW];
    [R_CCW_NEXT; R_CCW_FINAL; R_CCW_BEGIN; R_START] ].
End Full.

Module Half.
Definition R_CCW_BEGIN : Z := 0x1.
Definition R_CW_BEGIN : Z := 0x2.
Definition R_START_M : Z := 0x3.
Definition R_CW_BEGIN_M : Z := 0x4.
Definition R_CCW_BEGIN_M : Z := 0x5.
Definition HALF_STATES : list (list Z) :=
  [ [R_START_M; R_CW_BEGIN; R_CCW_BEGIN; R_START];
    [Z.lor R_START_M R_DIR_CCW; R_START; R_CCW_BEGIN; R_START];
    [Z.lor R_START_M R_DIR_CW; R_CW_BEGIN; R_START; R_START];
    [R_START_M; R_CCW_BEGIN_M; R_CW_BEGIN_M; R_START];
    [R_START_M; R_START_M; R_CW_BEGIN_M; Z.lor R_START R_DIR_CW];
    [R_START_M; R_CCW_BEGIN_M; R_START_M; Z.lor R_START R_DIR_CCW] ].
End Half.

Inductive rotation := Cw | Ccw.

(** [encoder_callback]: the next state and the callback that is called.  [==] binds
    tighter than [&], so the conditions are [es & (R_DIR_MSK == R_DIR_CW)]. *)
Definition encoder_callback (states : list (list Z)) (encoder_state state : Z) :
    hres (Z * option rotation) :=
  row ← or_undef (states !! Z.to_nat (Z.land encoder_state 0xF));
  es ← or_undef (row !! Z.to_nat (Z.land state 0x3));
  mret (es,
    if flag_set es (b2z (R_DIR_MSK =? R_DIR_CW)) then Some Cw
    else if flag_set es (b2z (R_DIR_MSK =? R_DIR_CCW)) then Some Ccw
    else None).

(** ** What the conditions of the encoders do *)

(** The callbacks of an encoder are never called, whatever its state table says. *)
Lemma encoder_never_calls states es st es' r :
  encoder_callback states es st = Val (es', r) → r = None.
Proof.
  unfold encoder_callback. destruct (states !! _) as [row|]; [|done]. cbn.
  destruct (row !! _) as [e|]; [|done].
  cbv [mbind hres_bind or_undef mret hres_ret]. unfold flag_set.
  change (b2z (R_DIR_MSK =? R_DIR_CW)) with 0. change (b2z (R_DIR_MSK =? R_DIR_CCW)) with 0.
  rewrite Z.land_0_r. by intros [= <- <-].
Qed.

Fixpoint encoder_run (states : list (list Z)) (es : Z) (inputs : list Z) : hres Z :=
  match inputs with
  | [] => mret es
  | i :: inputs => '(es, _) ← encoder_callback states es i; encoder_run states es inputs
  end.

(** The tables themselves recognise a turn in both directions. *)
Lemma encoder_tables_turn :
  encoder_run Full.FULL_STATES R_START [1; 0; 2; 3] = Val R_DIR_CW
  ∧ encoder_run Full.FULL_STATES R_START [2; 0; 1; 3] = Val R_DIR_CCW
  ∧ encoder_run Half.HALF_STATES R_START [2; 0] = Val (Z.lor Half.R_START_M R_DIR_CCW).
Proof. done. Qed.

(** ** More than eight buttons *)

Lemma setup_pins_length pins mask mb :
  length (setup_pins pins mask mb).2.(mb_pin_list) = (length mb.(mb_pin_list) + length pins)%nat.
Proof.
  revert mask mb. induction pins as [|pin pins IH]; intros mask mb; cbn [setup_pins]; [cbn; lia|].
  rewrite IH. destruct (negb _); cbn; rewrite length_app; cbn; lia.
Qed.

(** A second registration that exceeds eight pins frees an object which the
    configuration then uses. *)
Lemma ninth_button_undefined mcu_name pins1 pins2 pb1 pb2 slot :
  register_buttons mcu_name pins1 (mk_PrinterButtons [] []) = Val pb1 →
  register_buttons mcu_name pins2 pb1 = Val pb2 →
  (8 < length pins1 + length pins2)%nat →
  build_configs slot 0 pb2.(pb_objects) = Undef.
Proof.
  intros [= <-] Hr Hl.
  assert (Hp : length (setup_buttons pins1 new_MCU_buttons).(mb_pin_list) = length pins1).
  { unfold setup_buttons. pose proof (setup_pins_length pins1 0 new_MCU_buttons) as He.
    destruct (setup_pins _ _ _). exact He. }
  unfold register_buttons in Hr. cbn [pb_mcu_buttons smap_set smap_find] in Hr.
  rewrite bool_decide_eq_true_2 in Hr by done.
  change (or_undef _) with (Val (setup_buttons pins1 new_MCU_buttons)) in Hr.
  unfold mbind, hres_bind in Hr. rewrite Hp, (proj2 (Nat.ltb_lt _ _)) in Hr by lia. by injection Hr as <-.
Qed.
