(* ===== verification/ButtonsSpec.v ===== *)
(** * The states of the buttons reach the host (src/buttons.c, elegoo/extras/buttons.cpp)

    The firmware records the debounced states of the pins and reports them until they
    are acknowledged; reports may be lost on the way, and a report repeats states of
    earlier ones.  The host recognises the new ones by a count modulo 256.  Joined
    together, firmware and host form a transition system, in which the host handles
    every recorded state once and in order. *)

From stdpp Require Import relations.
From S2P Require Import Prelude.
From S2P Require Import State.
From S2P Require Import Machine.
From S2P Require Import Sched.
From S2P Require Import SchedSpec.
From S2P Require Import Basecmd.
From S2P Require Import BasecmdSpec.
From S2P Require Import StepperCmd.
From S2P Require Import Hal.
From S2P Require Import Devices.
From S2P Require Import Command.
From S2P Require Import CommandSpec.
From S2P Require Import Response.
From S2P Require Import SensorsSpec.
From S2P Require Import HostText.
From S2P Require Import MsgProto.
From S2P Require Import MsgProtoSpec.
From S2P Require Import HostButtons.

(** ** The firmware's routines *)

(** The states that wait for their acknowledgement. *)
Definition pending (b : buttons) : list Z := take (Z.to_nat b.(b_report_count)) b.(b_reports).

Definition state_message (oid ack : Z) (states : list Z) : event :=
  Ev_send "buttons_state oid=%c ack_count=%c state=%*s" [A_int oid; A_int ack; A_buf states].

(** The reports of an object among the events of a trace, oldest first. *)
Definition report_of (oid : Z) (e : event) : option (Z * list Z) :=
  match e with
  | Ev_send fmt [A_int o; A_int ack; A_buf states] =>
      if bool_decide (fmt = "buttons_state oid=%c ack_count=%c state=%*s") && (o =? oid)
      then Some (ack, states) else None
  | _ => None
  end.
Definition reports_of (oid : Z) (evs : list event) : list (Z * list Z) :=
  omap (report_of oid) (reverse evs).

Record buttons_ok (b : buttons) : Prop := {
  bo_reports : length b.(b_reports) = 8%nat;
  bo_count : 0 <= b.(b_report_count) <= 8;
  bo_pressed : is_byte b.(b_pressed);
  bo_bytes : byte_list (pending b);
}.

Section Firmware.
Context `{Board}.

Lemma wp_read_buttons pins bit status Q E s :
  is_byte status → is_byte bit →
  (∀ st n, is_byte st → Q st (s <| reads ::= λ r, (n + r)%nat |>)) →
  wp (read_buttons pins bit status) Q E s.
Proof.
  revert bit status s. induction pins as [|pin pins IH]; intros bit status s Hs Hb HQ; cbn [read_buttons].
  - apply wp_ret. specialize (HQ status 0%nat Hs). by destruct s.
  - unfold gpio_in_read. wp_steps. apply IH; [|apply u8_range|].
    + case_match; [by apply lor_byte|done].
    + intros st n Hst.
      replace (_ <| reads ::= _ |>) with (s <| reads ::= λ r, (n + 1 + r)%nat |>).
      * by apply HQ.
      * destruct s. unfold set_field. cbn. f_equal; lia.
Qed.

(** What a sample does to the object: at most one state is recorded. *)
Record sampled (b b' : buttons) (new : list Z) : Prop := {
  sp_ok : buttons_ok b';
  sp_pending : pending b' = pending b ++ new;
  sp_count : b'.(b_report_count) = b.(b_report_count) + Z.of_nat (length new);
  sp_ack : b'.(b_ack_count) = b.(b_ack_count);
}.

Lemma debounce_sampled b status :
  buttons_ok b → is_byte status → ∃ new, sampled b (debounce b status).1 new.
Proof.
  intros [Hl Hc Hp Hb] Hs. unfold debounce.
  set (deb := u8 _). set (pr := Z.lor _ _).
  assert (is_byte pr) by (apply lor_byte; by apply land_byte_l).
  destruct (negb _ && _); cbn; [|by exists []; split; rewrite ?app_nil_r; cbn; try lia].
  destruct (Z.ltb_spec b.(b_report_count) 8); cbn.
  - exists [pr].
    assert (He : take (Z.to_nat (b.(b_report_count) + 1))
                   (<[Z.to_nat b.(b_report_count) := pr]> b.(b_reports)) = pending b ++ [pr]).
    { rewrite Z2Nat.inj_add, Nat.add_1_r by lia. erewrite take_S_r.
      - unfold pending. rewrite take_insert_ge by lia. done.
      - apply list_lookup_insert_eq. lia. }
    split; [split|..]; cbn; rewrite ?length_insert; try done; try lia.
    unfold pending. cbn. rewrite He. by apply Forall_app_2; [|apply Forall_singleton].
  - exists []. split; [split|..]; cbn; rewrite ?app_nil_r; try done; lia.
Qed.

(** The parts of the firmware that the routines of a button leave alone. *)
Record same_rest (s s' : mcu) : Prop := {
  sr_base : s'.(base) = s.(base);
  sr_sendf : s'.(cmd).(in_sendf) = s.(cmd).(in_sendf);
  sr_timers : ∀ t, is_Some (s.(timers) !! t) → is_Some (s'.(timers) !! t);
}.

Lemma wp_add_waketime t d Q E s :
  is_Some (s.(timers) !! t) →
  (∀ w, Q tt (s <| timers ::= alter (λ n, n <| waketime := w |>) t |>)) →
  wp (add_waketime t d) Q E s.
Proof.
  intros [n Hn] HQ. unfold add_waketime. wp_steps. eapply wp_read_timer; [done|].
  unfold set_waketime, update_timer. wp_steps. apply HQ.
Qed.

(** Steps that change neither the objects nor the trace. *)
Record quiet (s s' : mcu) : Prop := {
  qu_rest : same_rest s s';
  qu_trace : s'.(trace) = s.(trace);
  qu_objs : s'.(objs) = s.(objs);
}.
Lemma quiet_trans s1 s2 s3 : quiet s1 s2 → quiet s2 s3 → quiet s1 s3.
Proof. intros [[] ? ?] [[] ? ?]. split; [split|..]; [congruence..|auto|congruence|congruence]. Qed.

Lemma wp_when_wake c w Q E s :
  (∀ s', quiet s s' → Q tt s') → wp (when c (sched_wake_task w)) Q E s.
Proof.
  intros HQ. apply wp_when; intros _; [unfold sched_wake_task, sched_wake_tasks; wp_steps|];
    by apply HQ; split.
Qed.

Lemma sampled_ext b b1 b2 new :
  sampled b b1 new →
  b2.(b_reports) = b1.(b_reports) → b2.(b_report_count) = b1.(b_report_count) →
  b2.(b_pressed) = b1.(b_pressed) → b2.(b_ack_count) = b1.(b_ack_count) → sampled b b2 new.
Proof.
  intros [[] ? ? ?] E1 E2 E3 E4. split; [split|..]; unfold pending in *; congruence.
Qed.

Lemma wp_buttons_event p b s :
  buttons_ok b → obj_at s p b → is_Some (s.(timers) !! obj_timer p) →
  wp (buttons_event p)
    (λ _ s', same_rest s s' ∧ s'.(trace) = s.(trace)
       ∧ (∀ q, q ≠ p → s'.(objs) !! q = s.(objs) !! q)
       ∧ ∃ b' new, obj_at s' p b' ∧ sampled b b' new)
    (λ _ _, False) s.
Proof.
  intros Hok Hb Ht. unfold buttons_event. wp_steps. eapply wp_read_obj; [done|]. wp_steps.
  apply wp_read_buttons; [done..|]. intros st n Hst. cbv beta.
  destruct (debounce_sampled b st Hok Hst) as [new Hnew].
  destruct (debounce b st) as [b1 rep]. cbn in Hnew. wp_steps.
  apply wp_when_wake. intros s1 Hq1. wp_steps.
  apply wp_mono with (λ b2 s2, quiet s1 s2 ∧ sampled b b2 new) (λ _ _, False); [| |done].
  { case_match; wp_steps; [apply wp_when_wake; intros s2 Hq2; wp_steps; split; [done|]|split; [by split|]];
         by eapply sampled_ext. }
  intros b2 s2 [Hq2 Hsp].
  assert (Hq : quiet s s2) by (eapply quiet_trans; [|eapply quiet_trans; [exact Hq1|exact Hq2]]; split; [split|..]; done).
  destruct Hq as [[R1 R2 R3] Htr Hob]. wp_steps.
  apply wp_add_waketime; [cbn; by apply R3|]. intros w. wp_steps. cbn. split_and!; [split; cbn; try done|done| |].
  - intros t Hi. apply lookup_alter_is_Some. by apply R3.
  - intros q Hq. rewrite lookup_insert_ne by done. by rewrite Hob.
  - exists b2, new. split; [|done]. unfold obj_at. cbn. apply lookup_insert_eq.
Qed.

(** ** Acknowledgements *)

Lemma shift_reports_spec k i count l :
  (i + count + k <= length l)%nat →
  ∃ l', shift_reports k i count l = Some l' ∧ length l' = length l
    ∧ (∀ j, (j < k)%nat → l' !! (i + j)%nat = l !! (i + count + j)%nat)
    ∧ (∀ j, (j < i)%nat → l' !! j = l !! j).
Proof.
  revert i l. induction k as [|k IH]; intros i l Hl; cbn [shift_reports].
  { exists l. split_and!; auto with lia. }
  destruct (lookup_lt_is_Some_2 l (i + count)) as [r Hr]; [lia|]. rewrite Hr. cbn.
  destruct (IH (S i) (<[i:=r]> l)) as (l' & -> & Hlen & Hin & Hout); [rewrite length_insert; lia|].
  exists l'. rewrite length_insert in Hlen. split_and!; [done|done| |].
  - intros [|j] Hj.
    + rewrite !Nat.add_0_r, Hr, Hout by lia. apply list_lookup_insert_eq. lia.
    + rewrite Nat.add_succ_r, <- Nat.add_succ_l, Hin by lia. rewrite list_lookup_insert_ne by lia. f_equal. lia.
  - intros j Hj. rewrite Hout by lia. apply list_lookup_insert_ne. lia.
Qed.

Lemma shift_reports_take k count l :
  (count + k <= length l)%nat →
  ∃ l', shift_reports k 0 count l = Some l' ∧ length l' = length l
    ∧ take k l' = take k (drop count l).
Proof.
  intros Hl. destruct (shift_reports_spec k 0 count l Hl) as (l' & E & Hlen & Hin & _).
  exists l'. split_and!; [done..|]. apply list_eq. intros j.
  destruct (decide (j < k)%nat).
  - rewrite !lookup_take_lt, lookup_drop by lia. by apply (Hin j).
  - by rewrite !lookup_take_ge by lia.
Qed.

(** What an acknowledgement of [c] states does. *)
Record acked (c : Z) (b b' : buttons) : Prop := {
  ak_ok : buttons_ok b';
  ak_pending : pending b' = drop (Z.to_nat c) (pending b);
  ak_ack : b'.(b_ack_count) = u8 (b.(b_ack_count) + c);
}.

Lemma wp_buttons_ack oid p c b s :
  buttons_ok b → obj_at s p b → oid_names s oid OT_buttons p → 0 <= c <= b.(b_report_count) →
  wp (command_buttons_ack [oid; c])
    (λ _ s', same_rest s s' ∧ s'.(trace) = s.(trace)
       ∧ (∀ q, q ≠ p → s'.(objs) !! q = s.(objs) !! q)
       ∧ ∃ b', obj_at s' p b' ∧ acked c b b')
    (λ _ _, False) s.
Proof.
  intros [Hl Hc Hp Hb] Ho Hn Hcr. unfold command_buttons_ack. wp_steps.
  eapply wp_oid_lookup; [done|]. wp_steps. eapply wp_update_obj; [done|]. wp_steps.
  eapply wp_read_obj; [apply obj_at_write|]. wp_steps. rewrite u8_small by lia. cbn.
  set (P := λ (_ : unit) s', same_rest s s' ∧ _).
  assert (HP : ∀ b' x s', same_rest s s' → s'.(trace) = s.(trace) →
            s'.(objs) = <[p := O_buttons b']> (<[p := x]> s.(objs)) → acked c b b' → P tt s').
  { intros b' x s' Hr Ht Hob Ha. subst P. split_and!; [done|done| |].
    - intros q Hne. by rewrite Hob, !lookup_insert_ne.
    - exists b'. split; [|done]. unfold obj_at. rewrite Hob. apply lookup_insert_eq. }
  destruct (Z.leb_spec b.(b_report_count) c); wp_steps.
  - eapply HP; [by split|done|done|]. split; [split|..]; cbn; try done; try lia.
    unfold pending. cbn. rewrite drop_ge; [done|]. rewrite length_take. lia.
  - destruct (shift_reports_take (Z.to_nat (b.(b_report_count) - c)) (Z.to_nat c) b.(b_reports))
      as (l' & Hs & Hlen & Htk); [lia|].
    eapply wp_some; [exact Hs|]. wp_steps. eapply HP; [by split|done|done|].
    assert (He : take (Z.to_nat (b.(b_report_count) - c)) l' = drop (Z.to_nat c) (pending b)).
    { unfold pending. rewrite Htk, skipn_firstn_comm. f_equal. lia. }
    split; [split|..]; cbn; try done; try lia. unfold pending at 1. cbn. rewrite He.
    by apply Forall_drop.
Qed.

(** ** Reports *)

(** The body of [buttons_task]. *)
Definition report_buttons (oid p : Z) : M unit :=
  b ← read_obj p;
  if negb (b.(b_retransmit_state) =? BF_PENDING) then mret tt
  else
    irq_disable;;
    b ← read_obj p;
    let report_count := b.(b_report_count) in
    if report_count =? 0 then irq_enable
    else
      write_obj p (b <| b_retransmit_state := b.(b_retransmit_count) |>);;
      irq_enable;;
      sendf "buttons_state oid=%c ack_count=%c state=%*s"
        [A_int oid; A_int b.(b_ack_count); A_buf (take (Z.to_nat report_count) b.(b_reports))].

Definition due (b : buttons) : bool :=
  (b.(b_retransmit_state) =? BF_PENDING) && negb (b.(b_report_count) =? 0).
Definition reported (b : buttons) : buttons :=
  if due b then b <| b_retransmit_state := b.(b_retransmit_count) |> else b.

Lemma wp_report_buttons oid p b s :
  obj_at s p b → s.(cmd).(in_sendf) = false →
  wp (report_buttons oid p)
    (λ _ s', same_rest s s' ∧ s'.(objs) = <[p := O_buttons (reported b)]> s.(objs)
       ∧ s'.(trace) = (if due b then [state_message oid b.(b_ack_count) (pending b)] else []) ++ s.(trace))
    (λ _ _, False) s.
Proof.
  intros Ho Hs. assert (Hsame : s.(objs) = <[p := O_buttons b]> s.(objs)) by (symmetry; by apply insert_id).
  unfold report_buttons, reported, due. wp_steps. eapply wp_read_obj; [done|].
  destruct (b.(b_retransmit_state) =? BF_PENDING); cbn [negb andb]; [|wp_steps; by split_and!].
  wp_steps. eapply wp_read_obj; [done|]. destruct (b.(b_report_count) =? 0); cbn [negb]; wp_steps.
  { by split_and!. }
  unfold sent. cbn. rewrite Hs. by split_and!.
Qed.

Lemma buttons_task_iter s :
  oids_ok s.(base) → s.(wakes) W_buttons = true →
  ∃ s1, quiet s s1 ∧ buttons_task s = iter_oids (oids_of s.(base) OT_buttons) report_buttons s1.
Proof.
  intros Hok Hw. set (s1 := s <| wakes ::= λ f x, if decide (x = W_buttons) then false else f x |>).
  exists s1. split; [by split|]. unfold buttons_task, sched_check_wake, mbind, M_bind, gets. rewrite Hw.
  apply (foreach_oid_iter OT_buttons report_buttons s1); [|done]. clear.
  intros i d s1. unfold report_buttons, read_obj, mbind, M_bind. cbn.
  destruct (s1.(objs) !! d) as [o|]; [|done]. cbn. destruct o; try done. cbn.
  destruct (negb _); [done|]. cbn. destruct (s1.(objs) !! d) as [o'|]; [|done]. cbn.
  destruct o'; try done. cbn. destruct (_ =? 0); [done|]. cbn. rewrite op_eq. cbn.
  unfold sent. cbn. by destruct (in_sendf _).
Qed.

(** The reports of one object when all are reported: its own at most. *)
Lemma report_of_message oid i ack states :
  report_of oid (state_message i ack states) = if i =? oid then Some (ack, states) else None.
Proof. done. Qed.

Lemma wp_report_all oid p b l s :
  NoDup l.*1 → (∀ i q, (i, q) ∈ l → (i = oid ↔ q = p)) →
  (∀ i q, (i, q) ∈ l → ∃ b : buttons, obj_at s q b) →
  obj_at s p b → s.(cmd).(in_sendf) = false →
  wp (iter_oids l report_buttons)
    (λ _ s', same_rest s s' ∧ (∀ q (b : buttons), obj_at s q b → ∃ b' : buttons, obj_at s' q b')
       ∧ ∃ evs, s'.(trace) = evs ++ s.(trace)
           ∧ obj_at s' p (if decide (oid ∈ l.*1) then reported b else b)
           ∧ reports_of oid evs = (if decide (oid ∈ l.*1)
                                   then if due b then [(b.(b_ack_count), pending b)] else [] else []))
    (λ _ _, False) s.
Proof.
  revert s b. induction l as [|[i q] l IH]; intros s b Hnd Hiff Hty Hb Hs; cbn [iter_oids].
  - wp_steps. split_and!; [by split|by eauto|]. exists []. by rewrite decide_False by apply not_elem_of_nil.
  - rewrite fmap_cons, NoDup_cons in Hnd. destruct Hnd as [Hi Hnd]. wp_steps.
    destruct (Hty i q) as [bq Hq]; [by apply elem_of_cons; left|].
    eapply wp_mono; [by apply (wp_report_buttons i q bq)| |done]. cbv beta.
    intros _ s1 (Hr1 & Ho1 & Ht1).
    assert (Hty1 : ∀ q' (b' : buttons), obj_at s q' b' → ∃ b' : buttons, obj_at s1 q' b').
    { intros q' b' Hq'. unfold obj_at. rewrite Ho1. destruct (decide (q' = q)) as [->|].
      - eexists. apply lookup_insert_eq.
      - exists b'. by rewrite lookup_insert_ne. }
    assert (Hb1 : obj_at s1 p (if decide (i = oid) then reported b else b)).
    { unfold obj_at. rewrite Ho1. destruct (Hiff i q) as [H1 H2]; [by apply elem_of_cons; left|].
      destruct (decide (i = oid)) as [Hio|Hio].
      - assert (q = p) as -> by auto. rewrite lookup_insert_eq. unfold obj_at in *. by simplify_eq.
      - rewrite lookup_insert_ne by naive_solver. done. }
    eapply wp_mono; [apply (IH s1 (if decide (i = oid) then reported b else b) Hnd); [| |exact Hb1|by rewrite (sr_sendf _ _ Hr1)]| |done].
    + intros i' q' Hin. apply Hiff. by apply elem_of_cons; right.
    + intros i' q' Hin. destruct (Hty i' q') as [b' Hb']; [by apply elem_of_cons; right|]. by eapply Hty1.
    + cbv beta. intros _ s2 (Hr2 & Hty2 & evs & Ht2 & Hp2 & Hev). split_and!.
      * destruct Hr1, Hr2. split; [congruence..|auto].
      * intros q' b' Hq'. destruct (Hty1 q' b' Hq') as [b2 Hb2]. by eapply Hty2.
      * exists (evs ++ (if due bq then [state_message i bq.(b_ack_count) (pending bq)] else [])).
        rewrite Ht2, Ht1, app_assoc. split; [done|].
        assert (Hrep : reports_of oid (evs ++ (if due bq then [state_message i bq.(b_ack_count) (pending bq)] else []))
          = (if decide (i = oid) then if due bq then [(bq.(b_ack_count), pending bq)] else [] else [])
            ++ reports_of oid evs).
        { unfold reports_of. rewrite reverse_app, omap_app. f_equal.
          destruct (decide (i = oid)) as [Hio|Hio].
          - subst i. destruct (due bq); cbn; [|done]. by rewrite Z.eqb_refl.
          - destruct (due bq); cbn; [|done]. by rewrite (proj2 (Z.eqb_neq _ _)). }
        rewrite Hrep, Hev. clear Hrep Hev. rewrite fmap_cons.
        destruct (decide (i = oid)) as [Hio|Hio].
        -- assert (q = p) as -> by (apply (Hiff i q); [by apply elem_of_cons; left|done]).
           assert (bq = b) as -> by (unfold obj_at in *; by simplify_eq). subst i.
           rewrite decide_False in Hp2 by done. rewrite decide_True by (by apply elem_of_cons; left).
           rewrite decide_False, app_nil_r by done. split; [done|].
           by rewrite decide_True by (by apply elem_of_cons; left).
        -- destruct (decide (oid ∈ l.*1)) as [Hin|Hin].
           ++ by rewrite !(decide_True (P := oid ∈ _ :: _)) by (by apply elem_of_cons; right).
           ++ by rewrite !(decide_False (P := oid ∈ _ :: _)) by (rewrite elem_of_cons; naive_solver).
Qed.

(** The objects of the buttons as the table of the oids has them. *)
Record table_ok (oid p : Z) (s : mcu) : Prop := {
  tb_oids : oids_ok s.(base);
  tb_name : oid_names s oid OT_buttons p;
  tb_only : ∀ i q, (i, q) ∈ oids_of s.(base) OT_buttons → (i = oid ↔ q = p);
  tb_obj : ∀ i q, (i, q) ∈ oids_of s.(base) OT_buttons → ∃ b : buttons, obj_at s q b;
  tb_sendf : s.(cmd).(in_sendf) = false;
  tb_timer : is_Some (s.(timers) !! obj_timer p);
}.

Lemma table_elem oid p s : table_ok oid p s → oid ∈ (oids_of s.(base) OT_buttons).*1.
Proof.
  intros []. apply list_elem_of_fmap. exists (oid, p). split; [done|]. by apply oids_of_elem.
Qed.

Lemma table_same oid p s s' :
  table_ok oid p s → same_rest s s' →
  (∀ q (b : buttons), obj_at s q b → ∃ b' : buttons, obj_at s' q b') → table_ok oid p s'.
Proof.
  intros [] [] Hty. split; unfold oid_names in *; rewrite ?sr_base0, ?sr_sendf0; try done; [|by auto].
  intros i q Hin. destruct (tb_obj0 i q Hin) as [b Hb]. by eapply Hty.
Qed.

(** The task reports what is pending for the object, if it is due. *)
Lemma wp_buttons_task oid p b s :
  table_ok oid p s → obj_at s p b →
  wp buttons_task
    (λ _ s', table_ok oid p s'
       ∧ ∃ evs, s'.(trace) = evs ++ s.(trace)
           ∧ obj_at s' p (if s.(wakes) W_buttons then reported b else b)
           ∧ reports_of oid evs = (if s.(wakes) W_buttons && due b
                                   then [(b.(b_ack_count), pending b)] else []))
    (λ _ _, False) s.
Proof.
  intros Htb Hb. destruct (s.(wakes) W_buttons) eqn:Hw.
  - destruct (buttons_task_iter s) as (s1 & Hq & He); [by apply Htb|done|].
    match goal with |- wp _ ?Q ?E _ =>
      enough (wp (iter_oids (oids_of s.(base) OT_buttons) report_buttons) Q E s1) by (unfold wp; by rewrite He)
    end.
    destruct Hq as [Hr Htr Hob].
    assert (Htb1 : table_ok oid p s1).
    { eapply table_same; [done..|]. intros q b' Hb'. exists b'. unfold obj_at. by rewrite Hob. }
    pose proof Htb1 as [_ _ Honly Hobj Hs _]. rewrite (sr_base _ _ Hr) in Honly, Hobj.
    pose proof (wp_report_all oid p b _ s1 (typed_NoDup _ _ _) Honly Hobj) as Hwp.
    eapply wp_mono; [apply Hwp; [unfold obj_at; by rewrite Hob|done]| |done]. cbv beta.
    intros _ s2 (Hr2 & Hty & evs & Ht2 & Hp2 & Hev).
    rewrite decide_True in Hp2 by (by apply (table_elem oid p)).
    rewrite decide_True in Hev by (by apply (table_elem oid p)).
    split; [by eapply table_same|]. exists evs. rewrite Ht2, Htr. by split_and!.
  - unfold buttons_task, sched_check_wake. wp_steps. rewrite Hw. wp_steps. cbn. wp_steps.
    split; [done|]. by exists [].
Qed.

End Firmware.

(** ** The host's handler *)

(** What the host's parser makes of a report. *)
Definition report_params (ack : Z) (states : list Z) (params : smap string) : Prop :=
  smap_find "ack_count" params = Some (to_string ack)
  ∧ smap_find "state" params = Some (bytes_string states).

Lemma handle_states_app l1 l2 mb :
  handle_states (l1 ++ l2) mb
  = let '(e1, mb1) := handle_states l1 mb in
    let '(e2, mb2) := handle_states l2 mb1 in (e1 ++ e2, mb2).
Proof.
  revert mb. induction l1 as [|x l1 IH]; intros mb; cbn [handle_states app]; [by destruct (handle_states l2 mb)|].
  rewrite IH. destruct (handle_states l1 _) as [e1 mb1]. destruct (handle_states l2 mb1) as [e2 mb2].
  by rewrite app_assoc.
Qed.

Lemma handle_states_ack l a mb :
  handle_states l (mb <| mb_ack_count := a |>)
  = ((handle_states l mb).1, (handle_states l mb).2 <| mb_ack_count := a |>).
Proof.
  revert mb. induction l as [|x l IH]; intros mb; cbn [handle_states]; [done|].
  set (mb1 := mb <| mb_last_button := Z.lxor x mb.(mb_invert) |>).
  change (mb <| mb_ack_count := a |> <| mb_last_button := _ |>) with (mb1 <| mb_ack_count := a |>).
  rewrite (IH mb1). by destruct (handle_states l mb1).
Qed.

Lemma handle_states_keeps l mb :
  (handle_states l mb).2.(mb_ack_count) = mb.(mb_ack_count)
  ∧ (handle_states l mb).2.(mb_oid) = mb.(mb_oid).
Proof.
  revert mb. induction l as [|x l IH]; intros mb; cbn [handle_states]; [done|].
  specialize (IH (mb <| mb_last_button := Z.lxor x mb.(mb_invert) |>)).
  by destruct (handle_states l _) as [e mb1].
Qed.

Lemma stoi_to_string z : - 2 ^ 31 <= z < 2 ^ 31 → stoi (to_string z) = Val z.
Proof.
  intros Hz. unfold stoi, signed_number. rewrite strto_to_string.
  replace (if z <? 0 then - Z.abs z else Z.abs z) with z by (destruct (Z.ltb_spec z 0); lia).
  rewrite (proj2 (Z.leb_le _ _)), (proj2 (Z.ltb_lt _ _)) by lia. done.
Qed.

(** A difference of counts modulo 256 read as a signed number. *)
Lemma ack_diff_signed k n :
  n - 128 <= k < n + 128 →
  Z.land (u8 k - u8 n) 0xff - Z.shiftl (Z.land (Z.land (u8 k - u8 n) 0xff) 0x80) 1 = k - n.
Proof.
  intros Hk. rewrite land_ff. replace ((u8 k - u8 n) mod 256) with ((k - n) mod 256) by int_lia.
  assert (Hd : Z.land ((k - n) mod 256) 0x80 = if 128 <=? (k - n) mod 256 then 128 else 0).
  { pose proof (byte_forall (λ b, Z.land b 0x80 =? if 128 <=? b then 128 else 0)) as Hb.
    apply Z.eqb_eq, Hb; [vm_compute; reflexivity|]. unfold is_byte. apply Z.mod_pos_bound. lia. }
  rewrite Hd. rewrite shiftl_mul by lia. destruct (Z.leb_spec 128 ((k - n) mod 256)); Z.div_mod_to_equations; lia.
Qed.

(** The host takes the states after the [n]-th from a report of the states from the
    [k]-th on, whose numbers it knows modulo 256. *)
Lemma handle_report hist k m n mb params :
  k <= n <= k + 8 → (m <= 8)%nat → 0 <= k → (Z.to_nat k + m <= length hist)%nat → byte_list hist →
  report_params (u8 k) (take m (drop (Z.to_nat k) hist)) params →
  mb.(mb_ack_count) = u8 n →
  let n' := Z.max n (k + Z.of_nat m) in
  let new := take (Z.to_nat (n' - n)) (drop (Z.to_nat n) hist) in
  let '(calls, mb') := handle_states new mb in
  handle_buttons_state params mb
  = Val (if n <? n' then Ack mb.(mb_oid) (n' - n) :: calls else [],
         mb' <| mb_ack_count := u8 n' |>).
Proof.
  intros Hkn Hm Hk Hlen Hb [Hpa Hps] Hack. cbv zeta.
  set (n' := Z.max n (k + Z.of_nat m)).
  unfold handle_buttons_state. rewrite Hpa. cbn. rewrite stoi_to_string by (pose proof (u8_range k); lia).
  cbn. rewrite (u8_small (u8 k)) by apply u8_range. rewrite Hack, ack_diff_signed by lia.
  rewrite Hps. cbn. rewrite str_bytes_string by (by apply Forall_take, Forall_drop).
  rewrite length_take, length_drop, Nat.min_l by lia.
  replace (s32 (u64 (u8 n + (k - n) + Z.of_nat m - u8 n))) with (k - n + Z.of_nat m) by int_lia.
  destruct (Z.ltb_spec n n') as [Hlt|Hge].
  - replace n' with (k + Z.of_nat m) in * by lia.
    rewrite (proj2 (Z.leb_gt _ _)), (proj2 (Z.ltb_ge _ _)) by lia.
    assert (Hnew : drop (Z.to_nat (Z.of_nat m - (k - n + Z.of_nat m))) (take m (drop (Z.to_nat k) hist))
              = take (Z.to_nat (k + Z.of_nat m - n)) (drop (Z.to_nat n) hist)).
    { rewrite skipn_firstn_comm, drop_drop. f_equal; [lia|]. f_equal. lia. }
    rewrite Hnew, handle_states_ack.
    destruct (handle_states_keeps (take (Z.to_nat (k + Z.of_nat m - n)) (drop (Z.to_nat n) hist)) mb) as [_ Ho].
    destruct (handle_states _ mb) as [calls mb'] eqn:E. cbn in *. rewrite Ho. do 3 f_equal; [f_equal; lia|].
    by replace (u8 (u8 n + (k - n + Z.of_nat m))) with (u8 (k + Z.of_nat m)) by int_lia.
  - rewrite (proj2 (Z.leb_le _ _)) by lia. replace (n' - n) with 0 by lia. cbn.
    replace n' with n by lia. rewrite <- Hack. by destruct mb.
Qed.

(** ** Firmware and host joined *)

(** The firmware, the reports on their way to the host, the acknowledgements on their
    way to the firmware, the host's object, the callbacks it has called so far, and
    the states the firmware has recorded so far. *)
Record joined := mk_joined {
  j_mcu : mcu;
  j_up : list (Z * list Z);
  j_down : list Z;
  j_host : MCU_buttons;
  j_calls : list button_effect;
  j_recorded : list Z;
}.

Definition ack_of (oid : Z) (e : button_effect) : option Z :=
  match e with Ack o c => if o =? oid then Some c else None | Call _ _ => None end.
Definition is_call (e : button_effect) : bool := match e with Ack _ _ => false | Call _ _ => true end.

(** Open the invariant below. *)
Ltac open_inv H :=
  destruct H as [Ht Hb Hoid (b & N & n & lo & Ho & Hok & Hlo & Hup & Hn & Hack & Hpen & HN & Hdn & Hsum
                             & Hnl & Hh)]; cbn in *.

Section Joined.
Context `{Board} (oid p : Z).

(** The rest of the firmware does not touch the object. *)
Definition elsewhere (s s' : mcu) : Prop :=
  table_ok oid p s' ∧ s'.(objs) !! p = s.(objs) !! p.

Inductive jstep : joined → joined → Prop :=
| j_sample s s' b b' r up down h calls hist :
    obj_at s p b → buttons_event p s = (Ret r, s') → obj_at s' p b' →
    jstep (mk_joined s up down h calls hist)
      (mk_joined s' up down h calls (hist ++ drop (length (pending b)) (pending b')))
| j_task s s' evs up down h calls hist :
    buttons_task s = (Ret tt, s') → s'.(trace) = evs ++ s.(trace) →
    jstep (mk_joined s up down h calls hist)
      (mk_joined s' (up ++ reports_of oid evs) down h calls hist)
| j_lose s up1 m up2 down h calls hist :
    jstep (mk_joined s (up1 ++ m :: up2) down h calls hist)
      (mk_joined s (up1 ++ up2) down h calls hist)
| j_handle s ack states params up down h effs h' calls hist :
    report_params ack states params → handle_buttons_state params h = Val (effs, h') →
    jstep (mk_joined s ((ack, states) :: up) down h calls hist)
      (mk_joined s up (down ++ omap (ack_of oid) effs) h' (calls ++ List.filter is_call effs) hist)
| j_ack s s' c up down h calls hist :
    command_buttons_ack [oid; c] s = (Ret tt, s') →
    jstep (mk_joined s up (c :: down) h calls hist) (mk_joined s' up down h calls hist)
| j_elsewhere s s' up down h calls hist :
    elsewhere s s' →
    jstep (mk_joined s up down h calls hist) (mk_joined s' up down h calls hist).

(** After [buttons_query] and before the first sample. *)
Definition jinit (h : MCU_buttons) (j : joined) : Prop :=
  ∃ s b, j = mk_joined s [] [] h [] [] ∧ table_ok oid p s ∧ obj_at s p b ∧ buttons_ok b
    ∧ b.(b_report_count) = 0 ∧ b.(b_ack_count) = 0
    ∧ h.(mb_ack_count) = 0 ∧ h.(mb_oid) = oid.

(** The reports on their way: each has consecutive states from the [k]-th on, and
    these positions grow. *)
Fixpoint up_ok (hist : list Z) (N lo : Z) (up : list (Z * list Z)) : Prop :=
  match up with
  | [] => lo <= N
  | (ack, states) :: up =>
      ∃ k m, lo <= k ∧ ack = u8 k ∧ (m <= 8)%nat ∧ (Z.to_nat k + m <= length hist)%nat
        ∧ states = take m (drop (Z.to_nat k) hist) ∧ up_ok hist N k up
  end.

Record jinv (h0 : MCU_buttons) (j : joined) : Prop := {
  ji_table : table_ok oid p j.(j_mcu);
  ji_bytes : byte_list j.(j_recorded);
  ji_oid : h0.(mb_oid) = oid;
  ji_main : ∃ b N n lo,
    obj_at j.(j_mcu) p b ∧ buttons_ok b
    ∧ 0 <= lo ∧ up_ok j.(j_recorded) N lo j.(j_up)
    ∧ N <= n <= lo + 8
    ∧ b.(b_ack_count) = u8 N ∧ pending b = drop (Z.to_nat N) j.(j_recorded)
    ∧ N <= Z.of_nat (length j.(j_recorded))
    ∧ Forall (λ c, 0 <= c) j.(j_down) ∧ n = N + fold_right Z.add 0 j.(j_down)
    ∧ n <= Z.of_nat (length j.(j_recorded))
    ∧ let '(calls, h) := handle_states (take (Z.to_nat n) j.(j_recorded)) h0 in
      j.(j_calls) = calls ∧ j.(j_host) = h <| mb_ack_count := u8 n |>;
}.

Lemma up_ok_bounds hist N lo up : up_ok hist N lo up → lo <= N.
Proof.
  revert lo. induction up as [|[ack st] up IH]; intros lo; cbn; [done|].
  intros (k & m & ? & _ & _ & _ & _ & Hup). apply IH in Hup. lia.
Qed.

Lemma up_ok_lower hist N lo lo' up : lo' <= lo → up_ok hist N lo up → up_ok hist N lo' up.
Proof. destruct up as [|[ack st] up]; cbn; [lia|]. intros ? (k & m & ? & ?). exists k, m. split; [lia|done]. Qed.

(** Recording a state and moving the acknowledged position keep the reports valid. *)
Lemma up_ok_grow hist new N N' lo up :
  N <= N' → up_ok hist N lo up → up_ok (hist ++ new) N' lo up.
Proof.
  intros HN. revert lo. induction up as [|[ack st] up IH]; intros lo; cbn; [lia|].
  intros (k & m & Hlo & Ha & Hm & Hl & Hst & Hup). exists k, m.
  split_and!; [done..|rewrite length_app; lia| |by apply IH].
  rewrite drop_app_le, take_app_le by (rewrite ?length_drop; lia). done.
Qed.

Lemma up_ok_lose hist N lo up1 m up2 :
  up_ok hist N lo (up1 ++ m :: up2) → up_ok hist N lo (up1 ++ up2).
Proof.
  revert lo. induction up1 as [|[ack st] up1 IH]; intros lo; cbn.
  - destruct m as [ack st]. intros (k & m & ? & _ & _ & _ & _ & Hup). by eapply up_ok_lower.
  - intros (k & m' & ? & ? & ? & ? & ? & Hup). exists k, m'. split_and!; auto.
Qed.

Lemma up_ok_send hist N lo up m :
  0 <= N → (m <= 8)%nat → (Z.to_nat N + m <= length hist)%nat → up_ok hist N lo up →
  up_ok hist N lo (up ++ [(u8 N, take m (drop (Z.to_nat N) hist))]).
Proof.
  intros HN Hm Hl. revert lo. induction up as [|[ack st] up IH]; intros lo; cbn.
  - intros ?. by exists N, m.
  - intros (k & m' & ? & ? & ? & ? & ? & Hup). exists k, m'. split_and!; auto.
Qed.

Lemma jinit_inv h j : jinit h j → jinv h j.
Proof.
  intros (s & b & -> & Ht & Hb & Hok & Hc & Ha & Hh & Ho). split; cbn; [done|constructor|done|].
  exists b, 0, 0, 0. cbn. rewrite Ha. split_and!; try done; try lia.
  - unfold pending. by rewrite Hc.
  - destruct h. cbn in *. by subst.
Qed.

Lemma wp_returned {A} (m : M A) Q E s a s' : wp m Q E s → m s = (Ret a, s') → Q a s'.
Proof. unfold wp. intros Hwp He. by rewrite He in Hwp. Qed.

Lemma obj_at_eq {A} `{ObjType A} s q (a a' : A) : obj_at s q a → obj_at s q a' → a = a'.
Proof.
  unfold obj_at. intros Ha Ha'. rewrite Ha in Ha'. injection Ha' as He.
  pose proof (obj_prj_inj a) as H1. rewrite He, obj_prj_inj in H1. by injection H1.
Qed.

Lemma typed_other s s' (b b' : buttons) :
  obj_at s' p b' → (∀ q, q ≠ p → s'.(objs) !! q = s.(objs) !! q) →
  ∀ q (c : buttons), obj_at s q c → ∃ c' : buttons, obj_at s' q c'.
Proof.
  intros Hb' Hne q c Hc. destruct (decide (q = p)) as [->|Hq]; [by exists b'|].
  exists c. unfold obj_at. by rewrite Hne.
Qed.

Lemma handle_states_calls l mb :
  List.filter is_call (handle_states l mb).1 = (handle_states l mb).1
  ∧ omap (ack_of oid) (handle_states l mb).1 = [].
Proof.
  assert (Hc : ∀ cbs i x y, List.filter is_call (callback_calls cbs i x y) = callback_calls cbs i x y
    ∧ omap (ack_of oid) (callback_calls cbs i x y) = []).
  { induction cbs as [|[mask shift] cbs IH]; intros i x y; cbn [callback_calls]; [done|].
    destruct (IH (S i) x y). by destruct (flag_set y mask); cbn; [split; [f_equal|]|]. }
  revert mb. induction l as [|x l IH]; intros mb; cbn [handle_states]; [done|].
  specialize (IH (mb <| mb_last_button := Z.lxor x mb.(mb_invert) |>)).
  destruct (handle_states l _) as [e mb1]. cbn in *. destruct IH as [IH1 IH2].
  edestruct Hc as [H1 H2]. rewrite List.filter_app, omap_app, H1, H2, IH1, IH2. done.
Qed.

Lemma foldr_add x (l : list Z) : foldr Z.add x l = foldr Z.add 0 l + x.
Proof. induction l as [|y l IH]; cbn; [lia|]. rewrite IH. lia. Qed.

Lemma reported_same (w : bool) b :
  buttons_ok b →
  buttons_ok (if w then reported b else b) ∧ pending (if w then reported b else b) = pending b
  ∧ b_ack_count (if w then reported b else b) = b.(b_ack_count).
Proof. unfold reported. intros []. by destruct w, (due b); split_and!; try split. Qed.

Lemma jinv_sample h s s' b1 b2 r up down h1 calls hist :
  jinv h (mk_joined s up down h1 calls hist) →
  obj_at s p b1 → buttons_event p s = (Ret r, s') → obj_at s' p b2 →
  jinv h (mk_joined s' up down h1 calls (hist ++ drop (length (pending b1)) (pending b2))).
Proof.
  intros Hinv Hb1 Hrun Hb2. open_inv Hinv.
  pose proof (obj_at_eq _ _ _ _ Ho Hb1) as <-.
  pose proof (wp_returned _ _ _ _ _ _ (wp_buttons_event p b s Hok Ho (tb_timer _ _ _ Ht)) Hrun)
    as (Hr & _ & Hne & b' & new & Hb' & [Hok' Hp' Hc' Ha']).
  pose proof (obj_at_eq _ _ _ _ Hb2 Hb') as ->.
  assert (Hnew : drop (length (pending b)) (pending b') = new) by (by rewrite Hp', drop_app_length).
  rewrite Hnew. split; cbn.
  + eapply table_same; [done..|]. by eapply typed_other.
  + apply Forall_app_2; [done|]. destruct Hok' as [_ _ _ Hby]. rewrite Hp' in Hby. by apply Forall_app in Hby as [_ ?].
  + done.
  + exists b', N, n, lo. rewrite Ha', length_app. split_and!; try done; try lia.
    * by eapply up_ok_grow.
    * rewrite Hp', Hpen, drop_app_le by lia. done.
    * by rewrite take_app_le by lia.
Qed.

Lemma jinv_task h s s' evs up down h1 calls hist :
  jinv h (mk_joined s up down h1 calls hist) →
  buttons_task s = (Ret tt, s') → s'.(trace) = evs ++ s.(trace) →
  jinv h (mk_joined s' (up ++ reports_of oid evs) down h1 calls hist).
Proof.
  intros Hinv Hrun Htr. open_inv Hinv.
  pose proof (wp_returned _ _ _ _ _ _ (wp_buttons_task oid p b s Ht Ho) Hrun)
    as (Ht' & evs' & Htr' & Hp' & Hev).
  rewrite Htr in Htr'. apply app_inv_tail in Htr' as <-. split; cbn; [done..|].
  destruct (reported_same (s.(wakes) W_buttons) b Hok) as (Hok' & Hpe' & Hac').
  eexists _, N, n, lo. split; [exact Hp'|]. rewrite Hpe', Hac'. split_and!; try done; try lia.
  rewrite Hev. destruct (_ && _); [|by rewrite app_nil_r]. pose proof (up_ok_bounds _ _ _ _ Hup).
  assert (Hpl : length (pending b) = (length hist - Z.to_nat N)%nat) by (by rewrite Hpen, length_drop).
  assert (length (pending b) <= 8)%nat by (destruct Hok; unfold pending; rewrite length_take; lia).
  rewrite Hack, Hpen, <- (take_ge (drop _ hist) (length (pending b))) by (rewrite length_drop; lia).
  apply up_ok_send; [lia..|done].
Qed.

Lemma jinv_handle h s ack states params up down h1 effs h2 calls hist :
  jinv h (mk_joined s ((ack, states) :: up) down h1 calls hist) →
  report_params ack states params → handle_buttons_state params h1 = Val (effs, h2) →
  jinv h (mk_joined s up (down ++ omap (ack_of oid) effs) h2 (calls ++ List.filter is_call effs) hist).
Proof.
  intros Hinv Hpar Hrun. open_inv Hinv.
  destruct Hup as (k & m & Hk & -> & Hm & Hl & -> & Hup). pose proof (up_ok_bounds _ _ _ _ Hup).
  destruct (handle_states (take (Z.to_nat n) hist) h) as [calls0 h0] eqn:E0. destruct Hh as [-> ->].
  pose proof (handle_report hist k m n (h0 <| mb_ack_count := u8 n |>) params) as Hh.
  specialize (Hh ltac:(lia) Hm ltac:(lia) Hl Hb Hpar eq_refl). cbv zeta in Hh. rewrite handle_states_ack in Hh.
  set (n' := Z.max n (k + Z.of_nat m)) in *.
  set (new := take (Z.to_nat (n' - n)) (drop (Z.to_nat n) hist)) in *.
  destruct (handle_states new h0) as [calls1 h1] eqn:E1. cbn in Hh. rewrite Hh in Hrun.
  injection Hrun as <- <-. split; cbn; [done..|].
  assert (Hsplit : take (Z.to_nat n') hist = take (Z.to_nat n) hist ++ new).
  { unfold new. rewrite <- (take_drop (Z.to_nat n) (take (Z.to_nat n') hist)), take_take, Nat.min_l by lia.
    rewrite skipn_firstn_comm. do 2 f_equal. lia. }
  destruct (handle_states_keeps (take (Z.to_nat n) hist) h) as [_ Ho0]. rewrite E0 in Ho0. cbn in Ho0.
  destruct (handle_states_calls new h0) as [Hf Hom]. rewrite E1 in Hf, Hom. cbn in Hf, Hom.
  exists b, N, n', k. rewrite Hsplit, handle_states_app, E0, E1.
  destruct (Z.ltb_spec n n') as [Hlt|Hge].
  + cbn. rewrite Ho0, Hoid, Z.eqb_refl, Hom, Hf. rewrite foldr_app. cbn.
    split_and!; try done; try lia.
    * apply Forall_app_2; [done|]. apply Forall_singleton. lia.
    * rewrite foldr_add. lia.
  + assert (n' = n) as Hnn by lia. assert (new = []) as -> by (unfold new; by rewrite Hnn, Z.sub_diag).
    cbn in E1. injection E1 as <- <-. cbn. rewrite !app_nil_r, Hnn. by split_and!; try lia.
Qed.

Lemma jinv_ack h s s' c up down h1 calls hist :
  jinv h (mk_joined s up (c :: down) h1 calls hist) →
  command_buttons_ack [oid; c] s = (Ret tt, s') →
  jinv h (mk_joined s' up down h1 calls hist).
Proof.
  intros Hinv Hrun. open_inv Hinv.
  apply Forall_cons in Hdn as [Hc Hdn].
  assert (Hpl : Z.of_nat (length (pending b)) = Z.of_nat (length hist) - N).
  { rewrite Hpen, length_drop. pose proof (up_ok_bounds _ _ _ _ Hup). lia. }
  assert (0 <= foldr Z.add 0 down) by (clear -Hdn; induction Hdn; cbn; lia).
  assert (Hcr : 0 <= c <= b.(b_report_count)).
  { destruct Hok. unfold pending in Hpl. rewrite length_take in Hpl. lia. }
  pose proof (wp_returned _ _ _ _ _ _ (wp_buttons_ack oid p c b s Hok Ho (tb_name _ _ _ Ht) Hcr) Hrun)
    as (Hr & _ & Hne & b' & Hb' & [Hok' Hp' Ha']).
  pose proof (up_ok_bounds _ _ _ _ Hup).
  split; cbn; [eapply table_same; [done..|]; by eapply typed_other|done..|].
  exists b', (N + c), n, lo. rewrite Ha', Hack, Hp', Hpen, drop_drop. split_and!; try done; try lia.
  + rewrite <- (app_nil_r hist). eapply up_ok_grow; [|done]. lia.
  + int_lia.
  + f_equal. lia.
Qed.

Lemma jstep_inv h j j' : jinv h j → jstep j j' → jinv h j'.
Proof.
  intros Hinv Hstep.
  destruct Hstep as [s s' b1 b2 r up down h1 calls hist Hb1 Hrun Hb2|s s' evs up down h1 calls hist Hrun Htr
    |s up1 m up2 down h1 calls hist|s ack states params up down h1 effs h2 calls hist Hpar Hrun
    |s s' c up down h1 calls hist Hrun|s s' up down h1 calls hist [Ht' Hp']].
  - by eapply jinv_sample.
  - by eapply jinv_task.
  - open_inv Hinv. split; cbn; [done..|]. exists b, N, n, lo. split_and!; try done; try lia. by eapply up_ok_lose.
  - by eapply jinv_handle.
  - by eapply jinv_ack.
  - open_inv Hinv. split; cbn; [done..|]. exists b, N, n, lo. split_and!; try done; try lia. unfold obj_at. by rewrite Hp'.
Qed.

Lemma reachable_jinv h j j' : jinit h j → rtc jstep j j' → jinv h j'.
Proof.
  intros Hi Hr. apply jinit_inv in Hi. induction Hr as [|j1 j2 j3 Hs _ IH]; [done|].
  apply IH. by eapply jstep_inv.
Qed.

(** The handler is defined on every report that can arrive. *)
Lemma jinv_handles h s ack states params up down h1 calls hist :
  jinv h (mk_joined s ((ack, states) :: up) down h1 calls hist) →
  report_params ack states params →
  ∃ effs h2, handle_buttons_state params h1 = Val (effs, h2).
Proof.
  intros Hinv Hpar. open_inv Hinv. destruct Hup as (k & m & Hk & -> & Hm & Hl & -> & Hup).
  pose proof (up_ok_bounds _ _ _ _ Hup).
  destruct (handle_states (take (Z.to_nat n) hist) h) as [calls0 h0]. destruct Hh as [_ ->].
  pose proof (handle_report hist k m n (h0 <| mb_ack_count := u8 n |>) params) as Hh.
  specialize (Hh ltac:(lia) Hm ltac:(lia) Hl Hb Hpar eq_refl). cbv zeta in Hh.
  destruct (handle_states _ _) as [calls1 h2]. rewrite Hh. by eexists _, _.
Qed.

Lemma report_params_exist ack states : ∃ params, report_params ack states params.
Proof. by exists [("ack_count", to_string ack); ("state", bytes_string states)]. Qed.

Lemma pending_count b : buttons_ok b → Z.of_nat (length (pending b)) = b.(b_report_count).
Proof. intros [Hl Hc _ _]. unfold pending. rewrite length_take. lia. Qed.

Lemma due_pending b : buttons_ok b → due b = true → (0 < length (pending b) <= 8)%nat.
Proof.
  intros [Hl Hc _ _] [_ Hd%negb_true_iff%Z.eqb_neq]%andb_true_iff. unfold pending. rewrite length_take. lia.
Qed.

(** A report of all that is pending, handled while nothing else is on its way. *)
Lemma jinv_handle_all h s h1 calls hist bt params :
  jinv h (mk_joined s [] [] h1 calls hist) → obj_at s p bt → due bt = true →
  report_params bt.(b_ack_count) (pending bt) params →
  ∃ effs h2, handle_buttons_state params h1 = Val (effs, h2)
    ∧ omap (ack_of oid) effs = [Z.of_nat (length (pending bt))].
Proof.
  intros Hinv Hob Hdue Hpar. open_inv Hinv. rewrite Z.add_0_r in Hsum. subst n.
  pose proof (obj_at_eq _ _ _ _ Ho Hob) as <-. pose proof (due_pending b Hok Hdue) as Hlen.
  assert (Hpl : length (pending b) = (length hist - Z.to_nat N)%nat) by (by rewrite Hpen, length_drop).
  destruct (handle_states (take (Z.to_nat N) hist) h) as [calls0 h0] eqn:E0. destruct Hh as [_ ->].
  destruct (handle_states_keeps (take (Z.to_nat N) hist) h) as [_ Ho0]. rewrite E0 in Ho0. cbn in Ho0.
  pose proof (handle_report hist N (length (pending b)) N (h0 <| mb_ack_count := u8 N |>) params) as Hh.
  rewrite take_ge, <- Hpen, <- Hack in Hh by (rewrite length_drop; lia).
  specialize (Hh ltac:(lia) ltac:(lia) ltac:(lia) ltac:(lia) Hb Hpar ltac:(by rewrite Hack)). cbv zeta in Hh.
  match type of Hh with context [handle_states ?l ?m] =>
    destruct (handle_states_calls l m) as [_ Hom]; destruct (handle_states l m) as [calls1 h2] end.
  rewrite <- Hack, Hh, (proj2 (Z.ltb_lt _ _)) by lia. eexists _, _. split; [done|].
  cbn in *. rewrite Ho0, Hoid, Z.eqb_refl, Hom. f_equal. lia.
Qed.

(** When nothing is on its way and a report is due, it brings everything over. *)
Lemma jinv_drain h s h1 calls hist b :
  jinv h (mk_joined s [] [] h1 calls hist) → obj_at s p b →
  s.(wakes) W_buttons = true → due b = true →
  ∃ s' h2 calls2 b', rtc jstep (mk_joined s [] [] h1 calls hist) (mk_joined s' [] [] h2 calls2 hist)
    ∧ obj_at s' p b' ∧ pending b' = [].
Proof.
  intros Hinv Hob Hw Hdue. pose proof (ji_table _ _ Hinv) as Ht. cbn in Ht.
  assert (Hok : buttons_ok b).
  { destruct (ji_main _ _ Hinv) as (b0 & ? & ? & ? & Hb0 & ? & _). by rewrite (obj_at_eq _ _ _ _ Hob Hb0). }
  pose proof (wp_buttons_task oid p b s Ht Hob) as Htask. unfold wp in Htask.
  destruct (buttons_task s) as [[[]| |] s1] eqn:Hrun; [|done..].
  destruct Htask as (Ht1 & evs & Htr & Hb1 & Hev). rewrite Hw, Hdue in Hev. cbn in Hev. rewrite Hw in Hb1.
  destruct (report_params_exist b.(b_ack_count) (pending b)) as [params Hpar].
  destruct (jinv_handle_all _ _ _ _ _ _ _ Hinv Hob Hdue Hpar) as (effs & h2 & Hh & Hom).
  destruct (reported_same true b Hok) as (Hok1 & Hp1 & _). cbv iota in Hok1, Hp1.
  pose proof (due_pending b Hok Hdue) as Hlen.
  pose proof (wp_buttons_ack oid p (Z.of_nat (length (pending b))) _ s1 Hok1 Hb1 (tb_name _ _ _ Ht1)) as Hack.
  destruct (command_buttons_ack [oid; Z.of_nat (length (pending b))] s1) as [o s2] eqn:Ha.
  assert (Hret : o = Ret tt ∧ ∃ b2, obj_at s2 p b2 ∧ pending b2 = []).
  { pose proof (pending_count _ Hok1) as Hl1. rewrite Hp1 in Hl1. specialize (Hack ltac:(lia)). unfold wp in Hack. rewrite Ha in Hack.
    destruct o as [[]| |]; [|done..]. split; [done|].
    destruct Hack as (_ & _ & _ & b2 & Hb2 & [_ Hp2 _]). exists b2. split; [done|].
    rewrite Hp2, Hp1, Nat2Z.id. apply drop_ge. lia. }
  destruct Hret as [-> (b2 & Hb2 & Hp2)]. eexists s2, h2, _, b2. split; [|done].
  eapply rtc_l; [by eapply j_task|]. rewrite Hev. cbn [app].
  eapply rtc_l; [by eapply j_handle|]. rewrite Hom. eapply rtc_l; [by eapply j_ack|]. apply rtc_refl.
Qed.

End Joined.

(** ** Every state once and in order *)

(** C15: the host handles every state of the buttons that the firmware records, once and
    in order, although reports may be lost and repeat each other: in every reachable
    state the callbacks called so far are those of the first [n] recorded states, at
    most eight recorded states are still to be handled, and the host's handler is
    defined on the next report. *)
Theorem button_states_delivered `{Board} oid p h j0 j :
  jinit oid p h j0 → rtc (jstep oid p) j0 j →
  (∃ n, (n <= length j.(j_recorded) <= n + 8)%nat
     ∧ j.(j_calls) = (handle_states (take n j.(j_recorded)) h).1
     ∧ j.(j_host).(mb_last_button) = (handle_states (take n j.(j_recorded)) h).2.(mb_last_button))
  ∧ (∀ ack states params up, j.(j_up) = (ack, states) :: up → report_params ack states params →
       ∃ effs h', handle_buttons_state params j.(j_host) = Val (effs, h')).
Proof.
  intros Hi Hr. pose proof (reachable_jinv oid p h j0 j Hi Hr) as Hinv. split.
  - destruct j. open_inv Hinv. exists (Z.to_nat n). pose proof (up_ok_bounds _ _ _ _ Hup).
    pose proof (pending_count b Hok) as Hl. destruct Hok as [_ Hc _ _]. rewrite Hpen, length_drop in Hl.
    destruct (handle_states _ h) as [calls h1]. destruct Hh as [-> ->]. split_and!; [lia..|done|done].
  - intros ack states params up Hup Hpar. destruct j. cbn in *. subst. by eapply jinv_handles.
Qed.

(** C16: nothing recorded stays behind: when no message is on its way and the firmware
    has a report to repeat, one exchange - the task runs, the host handles the report
    and the firmware its acknowledgement - leaves nothing pending, and the host has
    handled all states recorded. *)
Theorem button_states_get_through `{Board} oid p h j0 s h1 calls hist b :
  jinit oid p h j0 → rtc (jstep oid p) j0 (mk_joined s [] [] h1 calls hist) →
  obj_at s p b → s.(wakes) W_buttons = true → due b = true →
  ∃ s' h2, rtc (jstep oid p) (mk_joined s [] [] h1 calls hist)
             (mk_joined s' [] [] h2 (handle_states hist h).1 hist)
    ∧ ∃ b', obj_at s' p b' ∧ pending b' = [].
Proof.
  intros Hi Hr Hb Hw Hd. pose proof (reachable_jinv _ _ _ _ _ Hi Hr) as Hinv.
  destruct (jinv_drain _ _ _ _ _ _ _ _ Hinv Hb Hw Hd) as (s' & h2 & calls2 & b' & Hr' & Hb' & Hp').
  exists s', h2. split; [|by exists b'].
  assert (Hc : calls2 = (handle_states hist h).1); [|by rewrite <- Hc].
  pose proof (reachable_jinv _ _ _ _ _ Hi (transitivity Hr Hr')) as Hinv'.
  clear -Hinv' Hb' Hp'. open_inv Hinv'. pose proof (obj_at_eq _ _ _ _ Ho Hb') as ->.
  rewrite Hpen in Hp'. apply (f_equal length) in Hp'. rewrite length_drop in Hp'. cbn in Hp'.
  rewrite take_ge in Hh by lia. destruct (handle_states hist h). by destruct Hh.
Qed.

(** ** An example: a button is released and the report of it comes through *)

Definition example_button : buttons :=
  mk_buttons 1000 1 1 0 (repeat 0 8) 0 BF_ACKED 50 1 [7].
Definition example_button_mcu : mcu :=
  init_mcu <| objs := {[4096 := O_buttons example_button]} |>
    <| timers ::= <[obj_timer 4096 := mk_timer None F_buttons_event 0]> |>
    <| base ::= λ c, c <| oid_count := 1 |> <| oids := Some [mk_oid_s OT_buttons 4096] |> |>.
Definition example_host_button : MCU_buttons :=
  (build_config 0 0 1000
     (setup_buttons [mk_PinParams "PA7" 1 1] new_MCU_buttons)).2.

Definition example_released : mcu :=
  let b := example_board in (buttons_event 4096 (buttons_event 4096 example_button_mcu).2).2.
Definition example_reported : mcu := let b := example_board in (buttons_task example_released).2.

Lemma example_button_init :
  let b := example_board in
  jinit 0 4096 example_host_button (mk_joined example_button_mcu [] [] example_host_button [] []).
Proof.
  intros b. exists example_button_mcu, example_button.
  split; [done|]. split; [|by split_and!].
  split; [split; done|split_and!; done| | |done|vm_compute; by eexists].
  - intros i q Hin. apply list_elem_of_singleton in Hin. naive_solver.
  - intros i q Hin. apply list_elem_of_singleton in Hin. injection Hin as -> ->. by exists example_button.
Qed.

Lemma example_button_released :
  let b := example_board in
  rtc (jstep 0 4096) (mk_joined example_button_mcu [] [] example_host_button [] [])
    (mk_joined example_released [] [] example_host_button [] [0]).
Proof.
  intros b. eapply rtc_l; [eapply (j_sample _ _ _ (buttons_event 4096 example_button_mcu).2);
                             vm_compute; reflexivity|].
  eapply rtc_l; [|apply rtc_refl].
  apply (j_sample 0 4096 (buttons_event 4096 example_button_mcu).2 example_released
           (mk_buttons 1000 1 0 0 (repeat 0 8) 0 BF_ACKED 50 1 [7])
           (mk_buttons 1000 0 0 1 (repeat 0 8) 0 BF_PENDING 50 1 [7]) SF_RESCHEDULE); vm_compute; reflexivity.
Qed.

Lemma button_states_delivered_witness :
  let b := example_board in
  let j := mk_joined example_reported [(0, [0])] [] example_host_button [] [0] in
  (∃ n, (n <= length j.(j_recorded) <= n + 8)%nat
     ∧ j.(j_calls) = (handle_states (take n j.(j_recorded)) example_host_button).1
     ∧ j.(j_host).(mb_last_button)
       = (handle_states (take n j.(j_recorded)) example_host_button).2.(mb_last_button))
  ∧ (∀ ack states params up, j.(j_up) = (ack, states) :: up → report_params ack states params →
       ∃ effs h', handle_buttons_state params j.(j_host) = Val (effs, h')).
Proof.
  intros b j. apply (button_states_delivered 0 4096 _ _ j example_button_init).
  eapply rtc_r; [apply example_button_released|].
  apply (j_task 0 4096 example_released example_reported [state_message 0 0 [0]] [] []); vm_compute; reflexivity.
Defined.

Lemma button_states_get_through_witness :
  let b := example_board in
  ∃ s' h2, rtc (jstep 0 4096) (mk_joined example_released [] [] example_host_button [] [0])
             (mk_joined s' [] [] h2 [Call 0 1] [0])
    ∧ ∃ b', obj_at s' 4096 b' ∧ pending b' = [].
Proof.
  intros b.
  apply (button_states_get_through 0 4096 _ _ example_released example_host_button [] [0]
           (mk_buttons 1000 0 0 1 (repeat 0 8) 0 BF_PENDING 50 1 [7]) example_button_init
           example_button_released); vm_compute; reflexivity.
Defined.
