(* ===== verification/HostTmc.v ===== *)
(** * Motor drivers of the host (elegoo/extras/tmc_uart.cpp, elegoo/extras/tmc.cpp)

    The registers of a motor driver are read and written over a single wire uart that
    the firmware operates (src/tmcuart.c): the host builds the bits of the datagrams,
    start and stop bits included, and decodes the bits of the answers.  The fields of
    the registers are masks; their values are kept in a table beside the chip. *)

From S2P Require Import Prelude.
From S2P Require Import State.
From S2P Require Import Command.
From S2P Require Import HostText.
From S2P Require Import MsgProto.

(** ** Datagrams *)

(** One bit of a byte in [_calc_crc8]: the checksum and the rest of the byte. *)
Definition crc8_bit (cb : Z * Z) : Z * Z :=
  let '(crc, b) := cb in
  (Z.land (if negb (Z.lxor (Z.shiftr crc 7) (Z.land b 0x01) =? 0)
           then u8 (Z.lxor (Z.shiftl crc 1) 0x07) else u8 (Z.shiftl crc 1)) 0xff,
   Z.shiftr b 1).

Definition _calc_crc8 (data : list Z) : Z :=
  fold_left (λ crc b, (Nat.iter 8 crc8_bit (crc, b)).1) data 0.

(** One bit of [_add_serial_bits]: a new byte is started at every eighth position. *)
Definition push_bit (op : list Z * Z) (bit : Z) : list Z * Z :=
  let '(out, pos) := op in
  let out := if pos mod 8 =? 0 then out ++ [0] else out in
  (alter (λ b, Z.lor b (Z.shiftl bit (pos mod 8))) (length out - 1)%nat out, pos + 1).

Definition push_byte (op : list Z * Z) (d : Z) : list Z * Z :=
  let b := Z.lor (Z.shiftl d 1) 0x200 in
  fold_left (λ op i, push_bit op (Z.land (Z.shiftr b i) 0x1)) [0; 1; 2; 3; 4; 5; 6; 7; 8; 9] op.

Definition _add_serial_bits (data : list Z) : list Z := (fold_left push_byte data ([], 0)).1.

Definition _encode_read (sync addr reg : Z) : list Z :=
  let msg := [sync; addr; reg] in _add_serial_bits (msg ++ [_calc_crc8 msg]).

Definition _encode_write (sync addr reg val : Z) : list Z :=
  let msg := [sync; addr; reg; u8 (Z.land (Z.shiftr val 24) 0xff); u8 (Z.land (Z.shiftr val 16) 0xff);
              u8 (Z.land (Z.shiftr val 8) 0xff); u8 (Z.land val 0xff)] in
  _add_serial_bits (msg ++ [_calc_crc8 msg]).

(** [l[0] | l[1] << 8 | ...] *)
Fixpoint little_endian (l : list Z) : Z :=
  match l with [] => 0 | b :: l => Z.lor b (Z.shiftl (little_endian l) 8) end.

(** [_decode_read]: the value, or nothing for the result -1. *)
Definition _decode_read (reg : Z) (data : list Z) : option Z :=
  if negb (length data =? 10)%nat then None
  else
    let low := little_endian (take 8 data) in
    let high := little_endian (drop 8 data) in
    let reg_val := Z.lor (Z.lor (Z.lor (Z.shiftl (Z.land (Z.shiftr low 31) 0xff) 24)
                                       (Z.shiftl (Z.land (Z.shiftr low 41) 0xff) 16))
                                (Z.shiftl (Z.land (Z.shiftr low 51) 0xff) 8))
                         (Z.lor (Z.land (Z.shiftr low 61) 0x7) (Z.shiftl (Z.land high 0x1F) 3)) in
    if bool_decide (data = _encode_write 0x05 0xff reg reg_val) then Some reg_val else None.

(** ** The uart of a micro-controller

    [W] is what the firmware and the chips do; [send] is the query command of the
    uart with its first clock, [update_pin] the command of the multiplexer's pins. *)
Definition H (W A : Type) : Type := W → hres A * W.
#[export] Instance H_ret W : MRet (H W) := λ A a w, (Val a, w).
#[export] Instance H_bind W : MBind (H W) := λ A B f m w,
  match m w with
  | (Val a, w') => f a w'
  | (Throws e, w') => (Throws e, w')
  | (Undef, w') => (Undef, w')
  | (Endless, w') => (Endless, w')
  end.
Definition hlift {W A} (r : hres A) : H W A := λ w, (r, w).

(** An object [U] beside the world: what the world does, and the object. *)
Definition in_world {W U A} (m : H W A) : H (W * U) A := λ s, let '(r, w) := m s.1 in (r, (w, s.2)).
Definition get_obj {W U} : H (W * U) U := λ s, (Val s.2, s).
Definition put_obj {W U} (u : U) : H (W * U) unit := λ s, (Val tt, (s.1, u)).

Record MCU_analog_mux := mk_MCU_analog_mux { mux_oids : list Z; mux_pin_values : list bool }.
Record MCU_TMC_uart_bitbang := mk_uart { ub_oid : Z; ub_analog_mux : option MCU_analog_mux }.

Section Uart.
Context {W : Type} (send : list Any → Z → H W (smap string)) (update_pin : list Any → H W unit).

Fixpoint activate_pins (oids : list Z) (pin_values instance_id : list bool) : H W unit :=
  match oids, pin_values, instance_id with
  | oid :: oids, v :: pin_values, i :: instance_id =>
      (if bool_decide (v = i) then mret tt
       else update_pin [Any_string (to_string oid); Any_string (to_string (b2z i))]);;
      activate_pins oids pin_values instance_id
  | _, _, _ => mret tt
  end.

Definition activate (instance_id : list bool) : H (W * MCU_TMC_uart_bitbang) unit :=
  u ← get_obj;
  match u.(ub_analog_mux) with
  | None => mret tt
  | Some mux =>
      in_world (activate_pins mux.(mux_oids) mux.(mux_pin_values) instance_id);;
      put_obj (mk_uart u.(ub_oid) (Some (mk_MCU_analog_mux mux.(mux_oids) instance_id)))
  end.

Definition reg_read (instance_id : list bool) (addr reg : Z) : H (W * MCU_TMC_uart_bitbang) (option Z) :=
  activate instance_id;;
  u ← get_obj;
  params ← in_world (send [Any_string (to_string u.(ub_oid)); Any_bytes (_encode_read 0xf5 addr reg);
                           Any_string (to_string 10)] 0);
  mret (match smap_find "read" params with
        | Some read_str => _decode_read reg (str_bytes read_str)
        | None => None
        end).

(** [minclock] is the clock of the print time, or 0. *)
Definition reg_write (instance_id : list bool) (addr reg val minclock : Z) :
    H (W * MCU_TMC_uart_bitbang) unit :=
  activate instance_id;;
  u ← get_obj;
  in_world (send [Any_string (to_string u.(ub_oid));
                  Any_bytes (_encode_write 0xf5 addr (Z.lor reg 0x80) (u32 val));
                  Any_string (to_string 0)] minclock);;
  mret tt.

(** ** [MCU_TMC_uart] *)

Record MCU_TMC_uart := mk_MCU_TMC_uart {
  tm_name : string;
  tm_name_to_reg : smap Z;
  tm_ifcnt : Z;
  tm_addr : Z;
  tm_instance_id : list bool;
  tm_uart : MCU_TMC_uart_bitbang;
  tm_debugoutput : bool;
}.
Definition set_ifcnt (n : Z) (t : MCU_TMC_uart) : MCU_TMC_uart :=
  mk_MCU_TMC_uart t.(tm_name) t.(tm_name_to_reg) n t.(tm_addr) t.(tm_instance_id) t.(tm_uart)
    t.(tm_debugoutput).
Definition set_uart (u : MCU_TMC_uart_bitbang) (t : MCU_TMC_uart) : MCU_TMC_uart :=
  mk_MCU_TMC_uart t.(tm_name) t.(tm_name_to_reg) t.(tm_ifcnt) t.(tm_addr) t.(tm_instance_id) u
    t.(tm_debugoutput).

(** A call on [mcu_uart]. *)
Definition on_uart {A} (m : H (W * MCU_TMC_uart_bitbang) A) : H (W * MCU_TMC_uart) A := λ s,
  let '(r, (w, u)) := m (s.1, s.2.(tm_uart)) in (r, (w, set_uart u s.2)).

Definition INT_NONE : Z := - 2 ^ 31.

(** The loop over [retry] of [_do_get_register]. *)
Fixpoint get_retries (k : nat) (reg : Z) : H (W * MCU_TMC_uart) (option Z) :=
  match k with
  | O => mret None
  | S k =>
      t ← get_obj;
      v ← on_uart (reg_read t.(tm_instance_id) t.(tm_addr) (u8 reg));
      match v with Some v => mret (Some v) | None => get_retries k reg end
  end.

Definition _do_get_register (reg_name : string) : H (W * MCU_TMC_uart) (option Z) :=
  t ← get_obj;
  reg ← hlift (or_throw out_of_range (smap_find reg_name t.(tm_name_to_reg)));
  if t.(tm_debugoutput) then mret (Some 0) else get_retries 5 reg.

Definition unable (what reg_name : string) (t : MCU_TMC_uart) : exn :=
  CommandError ("Unable to " +:+ what +:+ " tmc uart '" +:+ t.(tm_name) +:+ "'register " +:+ reg_name).

Definition get_register (reg_name : string) : H (W * MCU_TMC_uart) Z :=
  v ← _do_get_register reg_name;
  t ← get_obj;
  match v with Some v => mret v | None => hlift (Throws (unable "read" reg_name t)) end.

(** The counter of the writes, read from the chip. *)
Definition read_ifcnt : H (W * MCU_TMC_uart) unit :=
  v ← _do_get_register "IFCNT";
  t ← get_obj;
  match v with
  | Some v => put_obj (set_ifcnt v t)
  | None => hlift (Throws (CommandError ("Unable to read tmc uart '" +:+ t.(tm_name)
                                           +:+ "' register IFCNT")))
  end.

(** The loop over [retry] of [set_register].  [==] binds tighter than [&], so the
    condition is [(ifcnt == t_ifcnt + 1) & 0xff]. *)
Fixpoint set_retries (k : nat) (reg_name : string) (reg val minclock : Z) : H (W * MCU_TMC_uart) unit :=
  t ← get_obj;
  match k with
  | O => hlift (Throws (unable "write" reg_name t))
  | S k =>
      (if s32 t.(tm_ifcnt) =? INT_NONE then read_ifcnt else mret tt);;
      t ← get_obj;
      let t_ifcnt := s32 t.(tm_ifcnt) in
      on_uart (reg_write t.(tm_instance_id) t.(tm_addr) reg val minclock);;
      read_ifcnt;;
      t ← get_obj;
      if flag_set (b2z (t.(tm_ifcnt) =? u32 (t_ifcnt + 1))) 0xff then mret tt
      else set_retries k reg_name reg val minclock
  end.

Definition set_register (reg_name : string) (val minclock : Z) : H (W * MCU_TMC_uart) unit :=
  t ← get_obj;
  if t.(tm_debugoutput) then mret tt
  else
    reg ← hlift (or_throw out_of_range (smap_find reg_name t.(tm_name_to_reg)));
    set_retries 5 reg_name (u8 reg) val minclock.

End Uart.

(** ** [FieldHelper] *)

Record FieldHelper := mk_FieldHelper {
  fh_all_fields : smap (smap Z);
  fh_signed_fields : list string;
  fh_field_to_register : smap string;
  fh_registers : list (string * Z);
}.

(** The constructor: later registers win when a field is in several. *)
Definition new_FieldHelper (all_fields : smap (smap Z)) (signed_fields : list string)
    (registers : list (string * Z)) : FieldHelper :=
  mk_FieldHelper all_fields signed_fields
    (fold_left (λ m af, fold_left (λ m f, smap_set f.1 af.1 m) af.2 m) all_fields []) registers.

(** [ffs] (elegoo/common/utilities.cpp) on a mask below 2^32. *)
Fixpoint ffs_loop (k : nat) (mask position : Z) : Z :=
  match k with
  | O => position
  | S k => if Z.land mask 1 =? 0 then ffs_loop k (Z.shiftr mask 1) (position + 1) else position
  end.
Definition ffs (mask : Z) : Z := if mask =? 0 then -1 else ffs_loop 32 mask 0.

(** [ceil(log2(number + 1))] *)
Definition bit_length (number : Z) : Z := if number =? 0 then 0 else Z.log2_up (number + 1).

Definition find_register (reg_name : string) (fh : FieldHelper) : option Z :=
  snd <$> List.find (λ r : string * Z, bool_decide (r.1 = reg_name)) fh.(fh_registers).

Definition lookup_register (field_name default_value : string) (fh : FieldHelper) : string :=
  default default_value (smap_find field_name fh.(fh_field_to_register)).

Definition get_field (field_name : string) (reg_value : Z) (reg_name : string) (fh : FieldHelper) :
    hres Z :=
  reg_name ← (if bool_decide (reg_name = "")
              then or_throw out_of_range (smap_find field_name fh.(fh_field_to_register))
              else mret reg_name);
  let reg_value := if reg_value =? 0 then u32 (default 0 (find_register reg_name fh)) else reg_value in
  fields ← or_throw out_of_range (smap_find reg_name fh.(fh_all_fields));
  mask ← or_throw out_of_range (smap_find field_name fields);
  if mask =? 0 then Undef
  else
    let field_value := Z.shiftr (Z.land reg_value mask) (ffs mask) in
    mret (if bool_decide (field_name ∈ fh.(fh_signed_fields))
             && (mask <? u32 (Z.shiftl (Z.land reg_value mask) 1))
          then field_value - s32 (Z.shiftl 1 (bit_length field_value)) else field_value).

(** The first register of the name gets the value, or a new one. *)
Fixpoint set_register_value (reg_name : string) (v : Z) (regs : list (string * Z)) : list (string * Z) :=
  match regs with
  | [] => [(reg_name, v)]
  | (n, x) :: regs => if bool_decide (n = reg_name) then (n, v) :: regs
                      else (n, x) :: set_register_value reg_name v regs
  end.

(** [set_field]: an unknown field is added with the mask 0, whose shift is undefined. *)
Definition set_field (field_name : string) (field_value reg_value : Z) (reg_name : string)
    (fh : FieldHelper) : hres (Z * FieldHelper) :=
  let reg_name := if bool_decide (reg_name = "")
                  then default reg_name (smap_find field_name fh.(fh_field_to_register)) else reg_name in
  let reg_value := if reg_value =? 0 then u32 (default 0 (find_register reg_name fh)) else reg_value in
  mask ← or_undef (smap_find reg_name fh.(fh_all_fields) ≫= smap_find field_name);
  if mask =? 0 then Undef
  else
    let new_value := Z.lor (Z.land reg_value (u32 (Z.lnot mask)))
                           (Z.land (Z.shiftl field_value (ffs mask)) mask) in
    mret (new_value,
          mk_FieldHelper fh.(fh_all_fields) fh.(fh_signed_fields) fh.(fh_field_to_register)
            (set_register_value reg_name new_value fh.(fh_registers))).

Definition get_reg_fields (reg_name : string) (reg_value : Z) (fh : FieldHelper) : hres (smap Z) :=
  match smap_find reg_name fh.(fh_all_fields) with
  | None => mret []
  | Some reg_fields =>
      hfold (λ m f, v ← get_field f.1 (u32 reg_value) reg_name fh; mret (smap_set f.1 v m)) [] reg_fields
  end.
