(* ===== verification/TmcLine.v ===== *)
(** * The line of the motor drivers (src/tmcuart.c, elegoo/extras/tmc_uart.cpp)

    The datagrams the host builds have the bits of an asynchronous serial line; its
    decoder accepts exactly the datagram of a register.  The firmware changes the line
    at the starts of the bits that differ from the bit before, waits for the start bit
    of the answer and samples its bits: [transfer_runs] gives all events of a transfer
    with their times. *)

From S2P Require Import Prelude.
From S2P Require Import State.
From S2P Require Import Machine.
From S2P Require Import Sched.
From S2P Require Import SchedSpec.
From S2P Require Import Basecmd.
From S2P Require Import BasecmdSpec.
From S2P Require Import StepperCmd.
From S2P Require Import Hal.
From S2P Require Import Tmcuart.
From S2P Require Import Objects.
From S2P Require Import DevicesSpec.
From S2P Require Import Command.
From S2P Require Import HostText.
From S2P Require Import MsgProto.
From S2P Require Import MsgProtoSpec.
From S2P Require Import HostTmc.

(** ** Lists of bits *)

(** Bit [i] of a list of bytes, the lowest bit of each byte first. *)
Definition lbit (l : list Z) (i : Z) : bool :=
  Z.testbit (default 0 (l !! Z.to_nat (i / 8))) (i mod 8).

(** Bit [i] of the serial line for the bytes [data]: a start bit, eight bits, a stop bit. *)
Definition serial_bit (data : list Z) (i : Z) : bool :=
  match data !! Z.to_nat (i / 10) with
  | None => false
  | Some d => if i mod 10 =? 0 then false else if i mod 10 =? 9 then true
              else Z.testbit d (i mod 10 - 1)
  end.

Lemma testbit_high b i : is_byte b → 8 <= i → Z.testbit b i = false.
Proof.
  intros Hb Hi. apply (Z.testbit_false b i); [lia|]. rewrite Z.div_small; [done|].
  unfold is_byte in Hb. pose proof (Z.pow_le_mono_r 2 8 i ltac:(lia) Hi). lia.
Qed.

Lemma lbit_little_endian l i : byte_list l → 0 <= i → Z.testbit (little_endian l) i = lbit l i.
Proof.
  intros Hl. revert i. induction Hl as [|b l Hb Hl IH]; intros i Hi; cbn [little_endian].
  { rewrite Z.bits_0. unfold lbit. rewrite lookup_nil. cbn. by rewrite Z.bits_0. }
  rewrite Z.lor_spec, Z.shiftl_spec by done. unfold lbit. destruct (Z.ltb_spec i 8).
  - rewrite (Z.testbit_neg_r _ (i - 8)), orb_false_r by lia.
    by rewrite Z.div_small, Z.mod_small by lia.
  - rewrite testbit_high, orb_false_l, IH by first [done|lia]. unfold lbit.
    replace (i / 8) with ((i - 8) / 8 + 1) by (Z.div_mod_to_equations; lia).
    replace (i mod 8) with ((i - 8) mod 8) by (Z.div_mod_to_equations; lia).
    rewrite Z2Nat.inj_add, Nat.add_1_r by (try apply Z.div_pos; lia). done.
Qed.

(** The first [pos] bits have been pushed; those after them are clear. *)
Record pushed (f : Z → bool) (op : list Z * Z) : Prop := {
  pu_pos : 0 <= op.2;
  pu_length : Z.of_nat (length op.1) = (op.2 + 7) / 8;
  pu_bytes : byte_list op.1;
  pu_bits : ∀ i, 0 <= i → lbit op.1 i = (i <? op.2) && f i;
}.

Lemma shifted_bit x k i : 0 <= k → 0 <= i → Z.testbit (Z.shiftl (b2z x) k) i = x && (i =? k).
Proof.
  intros Hk Hi. rewrite Z.shiftl_spec by done. destruct x; cbn; [|apply Z.bits_0].
  destruct (Z.eqb_spec i k) as [->|]; [by rewrite Z.sub_diag|].
  destruct (Z.ltb_spec i k); [by rewrite Z.testbit_neg_r by lia|].
  change 1 with (2 ^ 0). by rewrite Z.pow2_bits_false by lia.
Qed.

Lemma shifted_byte x k : 0 <= k < 8 → is_byte (Z.shiftl (b2z x) k).
Proof.
  intros Hk. rewrite shiftl_mul by lia. pose proof (Z.pow_le_mono_r 2 k 7 ltac:(lia) ltac:(lia)).
  pose proof (Z.pow_pos_nonneg 2 k). unfold is_byte. destruct x; cbn; lia.
Qed.

Lemma pushed_bit f op :
  pushed f op → pushed f (push_bit op (b2z (f op.2))).
Proof.
  intros [Hp Hl Hb Hf]. destruct op as [out pos]. cbn in *. unfold push_bit.
  set (out1 := if pos mod 8 =? 0 then out ++ [0] else out).
  assert (Hl1 : Z.of_nat (length out1) = pos / 8 + 1).
  { unfold out1. destruct (Z.eqb_spec (pos mod 8) 0); [rewrite length_app; cbn|];
      Z.div_mod_to_equations; lia. }
  assert (Hb1 : byte_list out1).
  { unfold out1. case_match; [|done]. apply Forall_app_2; [done|]. apply Forall_singleton. unfold is_byte. lia. }
  assert (Hf1 : ∀ i, 0 <= i → lbit out1 i = (i <? pos) && f i).
  { intros i Hi. rewrite <- Hf by done. unfold out1. case_match; [|done]. unfold lbit. f_equal.
    destruct (decide (Z.to_nat (i / 8) < length out)%nat); [by rewrite lookup_app_l|].
    rewrite lookup_app_r, (lookup_ge_None_2 out) by lia.
    by destruct (Z.to_nat (i / 8) - length out)%nat as [|[|?]]. }
  split; cbn.
  - lia.
  - rewrite length_alter. rewrite Hl1. Z.div_mod_to_equations; lia.
  - apply Forall_alter; [done|]. intros b _ Hbb. apply lor_byte; [done|]. apply shifted_byte.
    apply Z.mod_pos_bound. lia.
  - intros i Hi. unfold lbit. pose proof (Z.div_pos pos 8 Hp ltac:(lia)).
    assert (Hn : (length out1 - 1)%nat = Z.to_nat (pos / 8)) by lia. rewrite Hn.
    specialize (Hf1 i Hi). unfold lbit in Hf1.
    destruct (decide (i / 8 = pos / 8)) as [E|E].
    + destruct (lookup_lt_is_Some_2 out1 (Z.to_nat (pos / 8))) as [b Hbb]; [lia|].
      rewrite E, Hbb in Hf1. rewrite E, list_lookup_alter_eq, Hbb. cbn in *.
      pose proof (Z.mod_pos_bound i 8 ltac:(lia)). pose proof (Z.mod_pos_bound pos 8 ltac:(lia)).
      rewrite Z.lor_spec, shifted_bit, Hf1 by lia.
      destruct (Z.eqb_spec (i mod 8) (pos mod 8)) as [Em|Em].
      * assert (i = pos) as -> by (Z.div_mod_to_equations; lia).
        rewrite Z.ltb_irrefl, (proj2 (Z.ltb_lt _ _)) by lia. cbn. by rewrite andb_true_r.
      * rewrite andb_false_r, orb_false_r. f_equal. assert (i ≠ pos) by congruence.
        destruct (Z.ltb_spec i pos), (Z.ltb_spec i (pos + 1)); lia || done.
    + rewrite list_lookup_alter_ne by (Z.div_mod_to_equations; lia). rewrite Hf1. f_equal.
      assert (i ≠ pos) by congruence. destruct (Z.ltb_spec i pos), (Z.ltb_spec i (pos + 1)); lia || done.
Qed.

Lemma pushed_ext f g op : (∀ i, 0 <= i < op.2 → f i = g i) → pushed f op → pushed g op.
Proof.
  intros Hfg [Hp Hl Hb Hf]. split; try done. intros i Hi. rewrite Hf by done.
  destruct (Z.ltb_spec i op.2); cbn; [apply Hfg; lia|done].
Qed.

Lemma push_bit_pos op x : (push_bit op x).2 = op.2 + 1.
Proof. by destruct op. Qed.

Lemma land_bit x k : 0 <= k → Z.land (Z.shiftr x k) 1 = b2z (Z.testbit x k).
Proof.
  intros Hk. rewrite (land_ones_mod 1) by lia. rewrite shiftr_div by done. change (2 ^ 1) with 2.
  rewrite <- Z.testbit_spec' by done. by destruct (Z.testbit x k).
Qed.

(** The ten bits of a byte. *)
Lemma framed_bit d k :
  is_byte d → 0 <= k < 10 →
  Z.testbit (Z.lor (Z.shiftl d 1) 0x200) k
  = if k =? 0 then false else if k =? 9 then true else Z.testbit d (k - 1).
Proof.
  intros Hd Hk. rewrite Z.lor_spec, Z.shiftl_spec by lia. change 0x200 with (2 ^ 9).
  rewrite Z.pow2_bits_eqb by lia. destruct (Z.eqb_spec k 0) as [->|]; [done|].
  rewrite (Z.eqb_sym 9 k). destruct (Z.eqb_spec k 9); [by rewrite orb_true_r|by rewrite orb_false_r].
Qed.

Lemma pushed_byte f op d :
  pushed f op → is_byte d →
  (∀ k, 0 <= k < 10 → f (op.2 + k) = Z.testbit (Z.lor (Z.shiftl d 1) 0x200) k) →
  pushed f (push_byte op d) ∧ (push_byte op d).2 = op.2 + 10.
Proof.
  intros Hpu Hd Hk. unfold push_byte. set (b := Z.lor _ _) in *.
  assert (Hgo : ∀ n op1, (n <= 10)%nat → pushed f op1 → op1.2 = op.2 + 10 - Z.of_nat n →
    let op2 := fold_left (λ op i, push_bit op (Z.land (Z.shiftr b i) 1)) (seqZ (10 - Z.of_nat n) (Z.of_nat n)) op1 in
    pushed f op2 ∧ op2.2 = op.2 + 10).
  { induction n as [|n IH]; intros op1 Hn Hp1 He; [cbv zeta; change (seqZ _ _) with (@nil Z); cbn [fold_left]; split; [done|lia]|].
    rewrite seqZ_cons by lia. cbn [fold_left].
    replace (Z.succ (10 - Z.of_nat (S n))) with (10 - Z.of_nat n) by lia.
    replace (Z.pred (Z.of_nat (S n))) with (Z.of_nat n) by lia.
    apply IH; [lia| |rewrite push_bit_pos; lia].
    rewrite land_bit, <- Hk by lia. replace (op.2 + (10 - Z.of_nat (S n))) with op1.2 by lia. by apply pushed_bit. }
  apply (Hgo 10%nat op); [lia|done|lia].
Qed.

(** [_add_serial_bits] gives the bits of the serial line. *)
Lemma serial_bits data :
  byte_list data →
  let out := _add_serial_bits data in
  byte_list out ∧ Z.of_nat (length out) = (10 * Z.of_nat (length data) + 7) / 8
  ∧ ∀ i, 0 <= i → lbit out i = serial_bit data i.
Proof.
  intros Hd out.
  assert (Hgo : ∀ l1 l2, data = l1 ++ l2 → ∀ op, pushed (serial_bit data) op → op.2 = 10 * Z.of_nat (length l1) →
    pushed (serial_bit data) (fold_left push_byte l2 op)
    ∧ (fold_left push_byte l2 op).2 = 10 * Z.of_nat (length data)).
  { intros l1 l2. revert l1. induction l2 as [|d l2 IH]; intros l1 Heq op Hp He; cbn [fold_left].
    { split; [done|]. rewrite He, Heq, app_nil_r. done. }
    assert (Hdb : is_byte d) by (rewrite Heq in Hd; apply Forall_app in Hd as [_ Hd]; by inversion Hd).
    destruct (pushed_byte (serial_bit data) op d Hp Hdb) as [Hp' He'].
    { intros k Hk. rewrite framed_bit by done. unfold serial_bit. rewrite He.
      replace ((10 * Z.of_nat (length l1) + k) / 10) with (Z.of_nat (length l1)) by (Z.div_mod_to_equations; lia).
      replace ((10 * Z.of_nat (length l1) + k) mod 10) with k by (Z.div_mod_to_equations; lia).
      by rewrite Nat2Z.id, Heq, list_lookup_middle by done. }
    apply (IH (l1 ++ [d])); [by rewrite <- app_assoc|done|]. rewrite He', He, length_app. cbn. lia. }
  destruct (Hgo [] data eq_refl ([], 0)) as [[Hp Hl Hb Hf] He]; [split; cbn; try done|done|].
  { intros i Hi. unfold lbit. rewrite lookup_nil. cbn. rewrite Z.bits_0. by rewrite (proj2 (Z.ltb_ge _ _)). }
  fold (_add_serial_bits data) in *. cbn in *. subst out.
  split_and!; [done|by rewrite Hl, He|]. intros i Hi. rewrite Hf, He by done.
  destruct (Z.ltb_spec i (10 * Z.of_nat (length data))); [done|]. cbn. unfold serial_bit.
  rewrite lookup_ge_None_2; [done|]. Z.div_mod_to_equations; lia.
Qed.

(** ** The answers of the chip *)

Definition datagram (msg : list Z) : list Z := msg ++ [_calc_crc8 msg].

(** The bytes of a register, the highest first. *)
Definition register_bytes (val : Z) : list Z :=
  [u8 (Z.shiftr val 24); u8 (Z.shiftr val 16); u8 (Z.shiftr val 8); u8 val].

Lemma crc8_byte data : is_byte (_calc_crc8 data).
Proof.
  unfold _calc_crc8. assert (H0 : is_byte 0) by (unfold is_byte; lia). revert H0. generalize 0.
  induction data as [|b data IH]; intros crc Hc; cbn [fold_left]; [done|]. apply IH.
  rewrite Nat.iter_succ. destruct (Nat.iter 7 crc8_bit (crc, b)) as [c1 b1]. cbn [crc8_bit fst].
  rewrite land_ff. unfold is_byte. apply Z.mod_pos_bound. lia.
Qed.

Lemma encode_write_serial sync addr reg val :
  _encode_write sync addr reg val = _add_serial_bits (datagram ([sync; addr; reg] ++ register_bytes val)).
Proof.
  unfold _encode_write, datagram, register_bytes. cbn [app].
  assert (E : ∀ x, u8 (Z.land x 0xff) = u8 x) by (intros x; rewrite land_ff; int_lia).
  by rewrite !E.
Qed.

Lemma datagram_bytes sync addr reg val :
  is_byte sync → is_byte addr → is_byte reg →
  byte_list (datagram ([sync; addr; reg] ++ register_bytes val)).
Proof.
  intros Hs Ha Hr. unfold datagram. apply Forall_app_2; [|apply Forall_singleton, crc8_byte].
  repeat (apply Forall_cons_2; [done || apply u8_range|]). constructor.
Qed.

(** Eight bits of a number read from the bits of a list. *)
Lemma land_shiftr_bit x k n i :
  0 <= k → 0 <= n → 0 <= i → Z.testbit (Z.land (Z.shiftr x k) (2 ^ n - 1)) i = (i <? n) && Z.testbit x (i + k).
Proof.
  intros Hk Hn Hi. rewrite land_ones_mod by done. rewrite Z.testbit_mod_pow2 by done.
  destruct (Z.ltb_spec i n); cbn; [by rewrite Z.shiftr_spec|done].
Qed.

Lemma u8_bit x i : 0 <= i → Z.testbit (u8 x) i = (i <? 8) && Z.testbit x i.
Proof.
  intros Hi. change (u8 x) with (x mod 2 ^ 8). rewrite Z.testbit_mod_pow2 by lia. done.
Qed.

Lemma lbit_take n l i : 0 <= i → lbit (take n l) i = (i <? 8 * Z.of_nat n) && lbit l i.
Proof.
  intros Hi. unfold lbit. destruct (Z.ltb_spec i (8 * Z.of_nat n)); cbn.
  - by rewrite lookup_take_lt by (Z.div_mod_to_equations; lia).
  - rewrite lookup_take_ge by (Z.div_mod_to_equations; lia). cbn. apply Z.bits_0.
Qed.
Lemma lbit_drop n l i : 0 <= i → lbit (drop n l) i = lbit l (i + 8 * Z.of_nat n).
Proof.
  intros Hi. unfold lbit. rewrite lookup_drop.
  replace ((i + 8 * Z.of_nat n) / 8) with (i / 8 + Z.of_nat n) by (Z.div_mod_to_equations; lia).
  replace ((i + 8 * Z.of_nat n) mod 8) with (i mod 8) by (Z.div_mod_to_equations; lia).
  pose proof (Z.div_pos i 8 Hi ltac:(lia)).
  rewrite Z2Nat.inj_add, Nat2Z.id, Nat.add_comm by lia. done.
Qed.

(** A data byte of a datagram from the bits of its serial form. *)
Lemma serial_byte dg k d j :
  dg !! k = Some d → 0 <= j < 8 → serial_bit dg (10 * Z.of_nat k + 1 + j) = Z.testbit d j.
Proof.
  intros Hk Hj. unfold serial_bit.
  replace ((10 * Z.of_nat k + 1 + j) / 10) with (Z.of_nat k) by (Z.div_mod_to_equations; lia).
  replace ((10 * Z.of_nat k + 1 + j) mod 10) with (j + 1) by (Z.div_mod_to_equations; lia).
  rewrite Nat2Z.id, Hk, (proj2 (Z.eqb_neq (j + 1) 0)), (proj2 (Z.eqb_neq (j + 1) 9)) by lia. f_equal. lia.
Qed.

Section Decode.
Context (dg : list Z) (Hdg : byte_list dg).
Notation data := (_add_serial_bits dg).

Lemma low_bits i : 0 <= i < 64 → Z.testbit (little_endian (take 8 data)) i = serial_bit dg i.
Proof.
  intros Hi. destruct (serial_bits dg Hdg) as (Hb & _ & Hs).
  rewrite lbit_little_endian, lbit_take, Hs by (try apply Forall_take; done || lia).
  by rewrite (proj2 (Z.ltb_lt _ _)) by lia.
Qed.
Lemma high_bits i : 0 <= i → Z.testbit (little_endian (drop 8 data)) i = serial_bit dg (i + 64).
Proof.
  intros Hi. destruct (serial_bits dg Hdg) as (Hb & _ & Hs).
  by rewrite lbit_little_endian, lbit_drop, Hs by (try apply Forall_drop; done || lia).
Qed.

Lemma decoded_byte k d :
  dg !! k = Some d → (k < 6)%nat →
  Z.land (Z.shiftr (little_endian (take 8 data)) (10 * Z.of_nat k + 1)) 0xff = d.
Proof.
  intros Hd Hk. assert (is_byte d) by (by eapply (Forall_lookup_1 _ dg)).
  apply Z.bits_inj'. intros i Hi. rewrite (land_shiftr_bit _ _ 8) by lia.
  destruct (Z.ltb_spec i 8); cbn [andb]; [|by rewrite testbit_high].
  rewrite low_bits by lia. rewrite <- (serial_byte dg k) by (done || lia). f_equal. lia.
Qed.

Lemma decoded_last d :
  dg !! 6%nat = Some d →
  Z.lor (Z.land (Z.shiftr (little_endian (take 8 data)) 61) 0x7)
        (Z.shiftl (Z.land (little_endian (drop 8 data)) 0x1F) 3) = d.
Proof.
  intros Hd. assert (is_byte d) by (by eapply (Forall_lookup_1 _ dg)).
  apply Z.bits_inj'. intros i Hi. rewrite Z.lor_spec, (land_shiftr_bit _ _ 3), Z.shiftl_spec by lia.
  pose proof (λ j, serial_byte dg 6 d j Hd) as Hs. cbn in Hs.
  destruct (Z.ltb_spec i 3); cbn [andb orb].
  - rewrite low_bits, (Z.testbit_neg_r _ (i - 3)), orb_false_r by lia. rewrite <- Hs by lia. f_equal. lia.
  - rewrite <- (Z.shiftr_0_r (little_endian (drop 8 data))), (land_shiftr_bit _ _ 5) by lia.
    destruct (Z.ltb_spec (i - 3) 5); cbn [andb]; [|by rewrite testbit_high by (done || lia)].
    rewrite high_bits by lia. rewrite <- Hs by lia. f_equal. lia.
Qed.

End Decode.

Lemma register_joined val :
  0 <= val < 2 ^ 32 →
  Z.lor (Z.lor (Z.lor (Z.shiftl (u8 (Z.shiftr val 24)) 24) (Z.shiftl (u8 (Z.shiftr val 16)) 16))
               (Z.shiftl (u8 (Z.shiftr val 8)) 8)) (u8 val) = val.
Proof.
  intros Hv. rewrite !shiftl_mul, !shiftr_div by lia.
  set (a := u8 (val / 2 ^ 24)). set (b := u8 (val / 2 ^ 16)). set (c := u8 (val / 2 ^ 8)).
  assert (Hr : ∀ x, 0 <= u8 x < 256) by apply u8_range.
  pose proof (Hr (val / 2 ^ 24)). pose proof (Hr (val / 2 ^ 16)). pose proof (Hr (val / 2 ^ 8)).
  pose proof (Hr val). rewrite (lor_disjoint 24) by lia.
  replace (a * 2 ^ 24 + b * 2 ^ 16) with ((a * 2 ^ 8 + b) * 2 ^ 16) by lia. rewrite (lor_disjoint 16) by lia.
  replace ((a * 2 ^ 8 + b) * 2 ^ 16 + c * 2 ^ 8) with (((a * 2 ^ 8 + b) * 2 ^ 8 + c) * 2 ^ 8) by lia.
  rewrite (lor_disjoint 8) by lia. unfold a, b, c. int_lia.
Qed.

(** The value in a datagram, as [_decode_read] takes it from the bits. *)
Definition register_of (data : list Z) : Z :=
  let low := little_endian (take 8 data) in
  Z.lor (Z.lor (Z.lor (Z.shiftl (Z.land (Z.shiftr low 31) 0xff) 24) (Z.shiftl (Z.land (Z.shiftr low 41) 0xff) 16))
               (Z.shiftl (Z.land (Z.shiftr low 51) 0xff) 8))
        (Z.lor (Z.land (Z.shiftr low 61) 0x7) (Z.shiftl (Z.land (little_endian (drop 8 data)) 0x1F) 3)).

Lemma encode_write_fields sync addr reg val :
  is_byte sync → is_byte addr → is_byte reg → 0 <= val < 2 ^ 32 →
  let data := _encode_write sync addr reg val in
  length data = 10%nat ∧ Z.land (Z.shiftr (little_endian (take 8 data)) 21) 0xff = reg ∧ register_of data = val.
Proof.
  intros Hs Ha Hr Hv. pose proof (datagram_bytes sync addr reg val Hs Ha Hr) as Hdg.
  rewrite encode_write_serial. revert Hdg. set (dg := datagram _).
  assert (H2 : dg !! 2%nat = Some reg) by done.
  assert (H3 : dg !! 3%nat = Some (u8 (Z.shiftr val 24))) by done.
  assert (H4 : dg !! 4%nat = Some (u8 (Z.shiftr val 16))) by done.
  assert (H5 : dg !! 5%nat = Some (u8 (Z.shiftr val 8))) by done.
  assert (H6 : dg !! 6%nat = Some (u8 val)) by done.
  assert (Hn : length dg = 8%nat) by done. clearbody dg. intros Hdg.
  destruct (serial_bits dg Hdg) as (_ & Hl & _). rewrite Hn in Hl.
  split; [apply Nat2Z.inj; exact Hl|]. split; [exact (decoded_byte dg Hdg 2 _ H2 ltac:(lia))|]. unfold register_of.
  pose proof (decoded_byte dg Hdg 3 _ H3 ltac:(lia)) as E3. pose proof (decoded_byte dg Hdg 4 _ H4 ltac:(lia)) as E4.
  pose proof (decoded_byte dg Hdg 5 _ H5 ltac:(lia)) as E5.
  change (10 * Z.of_nat 3 + 1) with 31 in E3. change (10 * Z.of_nat 4 + 1) with 41 in E4.
  change (10 * Z.of_nat 5 + 1) with 51 in E5. rewrite E3, E4, E5.
  by rewrite (decoded_last dg Hdg _ H6), register_joined.
Qed.

(** The host's decoder accepts exactly the datagram of the register. *)
Lemma decode_encode reg val :
  is_byte reg → 0 <= val < 2 ^ 32 → _decode_read reg (_encode_write 0x05 0xff reg val) = Some val.
Proof.
  intros Hr Hv. destruct (encode_write_fields 0x05 0xff reg val) as (Hl & _ & E); [by split..|done|done|].
  unfold _decode_read. rewrite Hl, Nat.eqb_refl. cbn [negb]. cbv zeta. fold (register_of (_encode_write 0x05 0xff reg val)).
  rewrite E. by rewrite bool_decide_eq_true_2.
Qed.

Lemma decode_exact reg data val :
  _decode_read reg data = Some val → data = _encode_write 0x05 0xff reg val.
Proof. unfold _decode_read. repeat case_match; intros; simplify_eq. by case_bool_decide. Qed.

(** ** The line while the firmware sends *)

Section Line.
Context `{Board}.

Definition uart_event (f : timer_func) (p : Z) : M Z :=
  match f with
  | F_tmcuart_read_event => tmcuart_read_event p
  | F_tmcuart_read_sync_event => tmcuart_read_sync_event p
  | F_tmcuart_send_finish_event => tmcuart_send_finish_event p
  | F_tmcuart_send_event => tmcuart_send_event p
  | F_tmcuart_send_sync_event => tmcuart_send_sync_event p
  | _ => stuck Null_deref
  end.

Definition line_high (flags : Z) : bool := flag_set flags TU_LINE_HIGH.

(** The timer events of a transfer until it is done: the time of each event, and the
    level of the line after it. *)
Inductive uart_run (p : Z) : mcu → list (Z * bool) → mcu → Prop :=
| ur_done s n t s' :
    s.(timers) !! obj_timer p = Some n → uart_event n.(func) p s = (Ret SF_DONE, s') →
    obj_at s' p t → uart_run p s [(n.(waketime), line_high t.(tu_flags))] s'
| ur_more s n t s1 evs s' :
    s.(timers) !! obj_timer p = Some n → uart_event n.(func) p s = (Ret SF_RESCHEDULE, s1) →
    obj_at s1 p t → uart_run p s1 evs s' →
    uart_run p s ((n.(waketime), line_high t.(tu_flags)) :: evs) s'.

(** The changes of a line that shows [n] bits [f] from [pos] on, each for the time
    [bt], starting at [w] with the given level: one at the start of each bit that
    differs from the level before. *)
Fixpoint wave (n : nat) (f : Z → bool) (pos w bt : Z) (line : bool) : list (Z * bool) :=
  match n with
  | O => []
  | S n => (if Bool.eqb (f pos) line then [] else [(u32 w, f pos)])
           ++ wave n f (pos + 1) (w + bt) bt (f pos)
  end.

Lemma bit_at_lbit data pos :
  0 <= pos < 8 * Z.of_nat (length data) → bit_at data pos = Some (b2z (lbit data pos)).
Proof.
  intros Hp. unfold bit_at, lbit. rewrite shiftr_div by lia. change (2 ^ 3) with 8.
  destruct (lookup_lt_is_Some_2 data (Z.to_nat (pos / 8))) as [b ->]; [Z.div_mod_to_equations; lia|]. cbn.
  rewrite (land_ones_mod 3) by lia. change (2 ^ 3) with 8.
  rewrite land_bit by (apply Z.mod_pos_bound; lia). done.
Qed.

Lemma find_toggle_spec data bt l wc (s : mcu) : 0 <= bt →
  wc <= 8 * Z.of_nat (length data) → wc <= 80 →
  ∀ n pos fuel x, Z.of_nat n = wc - pos - 1 → 0 <= pos → (n < fuel)%nat →
  ∃ r nx, find_toggle fuel data wc bt (b2z l) pos (u32 x) s = (Ret (r, nx), s)
    ∧ match r with
      | Some pos' => pos < pos' < wc ∧ lbit data pos' = negb l ∧ nx = u32 (x + (pos' - pos - 1) * bt)
          ∧ ∀ w, wave n (lbit data) (pos + 1) w bt l
                 = wave (Z.to_nat (wc - pos')) (lbit data) pos' (w + (pos' - pos - 1) * bt) bt l
      | None => nx = u32 (x + Z.of_nat n * bt) ∧ (∀ w, wave n (lbit data) (pos + 1) w bt l = [])
          ∧ (0 < n → lbit data (wc - 1) = l)%nat
      end.
Proof.
  intros Hbt Hwc H80. induction n as [|n IH]; intros pos fuel x Hn Hp Hf; (destruct fuel as [|fuel]; [lia|]);
    cbn [find_toggle]; rewrite u8_small by lia.
  - rewrite (proj2 (Z.leb_le _ _)) by lia. eexists None, _. split; [done|]. split_and!; [f_equal; lia|done|lia].
  - rewrite (proj2 (Z.leb_gt _ _)) by lia. unfold mbind, M_bind. rewrite bit_at_lbit by lia. cbn [of_option].
    destruct (Bool.eqb (lbit data (pos + 1)) l) eqn:El.
    + apply eqb_prop in El. rewrite El.
      cbv [mret M_ret]. rewrite Z.eqb_refl. cbn [negb]. rewrite u32_add_l.
      destruct (IH (pos + 1) fuel (x + bt)) as (r & nx & -> & Hr); [lia..|].
      eexists r, nx. split; [done|]. destruct r as [pos'|].
      * destruct Hr as (Hp' & Hb & -> & Hw). split_and!; [lia..|done|f_equal; lia|].
        intros w. cbn [wave]. rewrite El, eqb_reflx. cbn [app]. rewrite Hw. f_equal. lia.
      * destruct Hr as (-> & Hw & Hl). split_and!; [f_equal; lia| |].
        -- intros w. cbn [wave]. rewrite El, eqb_reflx. cbn [app]. apply Hw.
        -- intros _. destruct n; [|apply Hl; lia]. replace (wc - 1) with (pos + 1) by lia. done.
    + apply eqb_false_iff in El.
      cbv [mret M_ret]. assert (Hx : lbit data (pos + 1) = negb l) by (by destruct (lbit data (pos + 1)), l).
      rewrite Hx, (proj2 (Z.eqb_neq _ _)) by (by destruct l). cbn [negb].
      eexists (Some (pos + 1)), _. split; [done|]. split_and!; [lia..|done|f_equal; lia|].
      intros w. replace (Z.to_nat (wc - (pos + 1))) with (S n) by lia. f_equal. lia.
Qed.

(** The object with the function and the time of its next event. *)
Definition uart_at (p : Z) (s : mcu) (t : tmcuart_s) (f : timer_func) (w : Z) : Prop :=
  obj_at s p t ∧ ∃ n, s.(timers) !! obj_timer p = Some n ∧ n.(func) = f ∧ n.(waketime) = u32 w.

(** What the events leave alone. *)
Record uart_frame (p : Z) (s s' : mcu) : Prop := {
  uf_base : s'.(base) = s.(base);
  uf_cmd : s'.(cmd) = s.(cmd);
  uf_objs : ∀ q, q ≠ p → s'.(objs) !! q = s.(objs) !! q;
}.
Lemma uart_frame_trans p s1 s2 s3 : uart_frame p s1 s2 → uart_frame p s2 s3 → uart_frame p s1 s3.
Proof. intros [] []. split; [congruence..|]. intros q Hq. by rewrite uf_objs1, uf_objs0. Qed.

Ltac frame_done := split; [done|done|intros q Hq; cbn; by rewrite ?lookup_insert_ne by done].

(** Sending changes the position and the level of the line. *)
Record sending (t t' : tmcuart_s) : Prop := {
  sg_tx : t'.(tu_tx_pin) = t.(tu_tx_pin);
  sg_rx : t'.(tu_rx_pin) = t.(tu_rx_pin);
  sg_read : t'.(tu_read_count) = t.(tu_read_count);
  sg_write : t'.(tu_write_count) = t.(tu_write_count);
  sg_cfg : t'.(tu_cfg_bit_time) = t.(tu_cfg_bit_time);
  sg_data : t'.(tu_data) = t.(tu_data);
  sg_flags : ∀ k, k ≠ 0 → Z.testbit t'.(tu_flags) k = Z.testbit t.(tu_flags) k;
}.
Lemma sending_trans t1 t2 t3 : sending t1 t2 → sending t2 t3 → sending t1 t3.
Proof.
  intros [] []. split; try congruence. intros k Hk. rewrite sg_flags1 by done. by apply sg_flags0.
Qed.

Lemma line_high_bit flags : line_high flags = Z.testbit flags 0.
Proof. apply (flag_bit flags 0). Qed.

Lemma toggle_line flags : line_high (Z.lxor flags TU_LINE_HIGH) = negb (line_high flags).
Proof. rewrite !line_high_bit, Z.lxor_spec. by destruct (Z.testbit flags 0). Qed.
Lemma toggle_other flags k : k ≠ 0 → Z.testbit (Z.lxor flags TU_LINE_HIGH) k = Z.testbit flags k.
Proof.
  intros Hk. rewrite Z.lxor_spec. change TU_LINE_HIGH with (2 ^ 0).
  rewrite Z.pow2_bits_false by done. by destruct (Z.testbit flags k).
Qed.
Lemma line_state flags : Z.land flags TU_LINE_HIGH = b2z (line_high flags).
Proof.
  rewrite line_high_bit. pose proof (land_bit flags 0 ltac:(lia)) as E. by rewrite Z.shiftr_0_r in E.
Qed.

Lemma wp_add_wake t d n (Q : unit → mcu → Prop) E s :
  s.(timers) !! t = Some n →
  Q tt (s <| timers ::= alter (λ r, r <| waketime := u32 (n.(waketime) + d) |>) t |>) →
  wp (add_waketime t d) Q E s.
Proof.
  intros Hn HQ. unfold add_waketime. wp_steps. eapply wp_read_timer; [done|].
  wp_steps. exact HQ.
Qed.

(** One change of the line: the next event is at the start of the next bit that
    differs, or at the end. *)
Record line_step (p : Z) (s : mcu) (t : tmcuart_s) (w : Z) (s' : mcu) (t' : tmcuart_s)
    (f : timer_func) (pos' : Z) : Prop := {
  ls_at : uart_at p s' t' f (w + (pos' - t.(tu_pos)) * t.(tu_bit_time));
  ls_frame : uart_frame p s s';
  ls_reads : s'.(reads) = s.(reads);
  ls_sending : sending t t';
  ls_bit_time : t'.(tu_bit_time) = t.(tu_bit_time);
  ls_line : line_high t'.(tu_flags) = negb (line_high t.(tu_flags));
  ls_pos : t.(tu_pos) < pos' <= t.(tu_write_count);
  ls_wave : ∀ w', let l := negb (line_high t.(tu_flags)) in
    wave (Z.to_nat (t.(tu_write_count) - t.(tu_pos) - 1)) (lbit t.(tu_data)) (t.(tu_pos) + 1) w' t.(tu_bit_time) l
    = wave (Z.to_nat (t.(tu_write_count) - pos')) (lbit t.(tu_data)) pos'
        (w' + (pos' - t.(tu_pos) - 1) * t.(tu_bit_time)) t.(tu_bit_time) l;
  ls_next : (f = F_tmcuart_send_event ∧ pos' < t.(tu_write_count) ∧ t'.(tu_pos) = pos'
              ∧ lbit t.(tu_data) pos' = line_high t.(tu_flags))
            ∨ (f = F_tmcuart_send_finish_event ∧ pos' = t.(tu_write_count)
              ∧ (t.(tu_pos) < pos' - 1 → lbit t.(tu_data) (pos' - 1) = negb (line_high t.(tu_flags))));
}.

(** What a transfer has in its object. *)
Record uart_ok (t : tmcuart_s) : Prop := {
  uo_data : length t.(tu_data) = 10%nat;
  uo_bytes : byte_list t.(tu_data);
  uo_write : 0 <= t.(tu_write_count) <= 80;
  uo_time : 0 <= t.(tu_bit_time) < 2 ^ 32;
}.

Lemma wp_find_toggle t l Q E s :
  uart_ok t → 0 <= t.(tu_pos) < t.(tu_write_count) →
  (∀ r nx, match r with
      | Some pos' => t.(tu_pos) < pos' < t.(tu_write_count) ∧ lbit t.(tu_data) pos' = negb l
          ∧ nx = u32 (t.(tu_bit_time) + (pos' - t.(tu_pos) - 1) * t.(tu_bit_time))
          ∧ ∀ w, wave (Z.to_nat (t.(tu_write_count) - t.(tu_pos) - 1)) (lbit t.(tu_data)) (t.(tu_pos) + 1) w t.(tu_bit_time) l
                 = wave (Z.to_nat (t.(tu_write_count) - pos')) (lbit t.(tu_data)) pos'
                     (w + (pos' - t.(tu_pos) - 1) * t.(tu_bit_time)) t.(tu_bit_time) l
      | None => nx = u32 (t.(tu_bit_time) + (t.(tu_write_count) - t.(tu_pos) - 1) * t.(tu_bit_time))
          ∧ (∀ w, wave (Z.to_nat (t.(tu_write_count) - t.(tu_pos) - 1)) (lbit t.(tu_data)) (t.(tu_pos) + 1) w t.(tu_bit_time) l = [])
          ∧ (t.(tu_pos) < t.(tu_write_count) - 1 → lbit t.(tu_data) (t.(tu_write_count) - 1) = l)
      end → Q (r, nx) s) →
  wp (find_toggle 256 t.(tu_data) t.(tu_write_count) t.(tu_bit_time) (b2z l) t.(tu_pos) t.(tu_bit_time)) Q E s.
Proof.
  intros [Hd _ Hw Ht] Hp HQ.
  destruct (find_toggle_spec t.(tu_data) t.(tu_bit_time) l t.(tu_write_count) s ltac:(lia)
              ltac:(lia) ltac:(lia) (Z.to_nat (t.(tu_write_count) - t.(tu_pos) - 1)) t.(tu_pos) 256%nat
              t.(tu_bit_time)) as (r & nx & Hft & Hr); [lia..|].
  rewrite (u32_small t.(tu_bit_time)) in Hft by lia. unfold wp. rewrite Hft. apply HQ.
  destruct r; [done|]. destruct Hr as (-> & Hwv & Hlast). rewrite Z2Nat.id by lia. split_and!; [done|done|].
  intros. apply Hlast. lia.
Qed.

#[local] Opaque find_toggle.

Lemma wp_send_event p s t w :
  uart_at p s t F_tmcuart_send_event w → uart_ok t → 0 <= t.(tu_pos) < t.(tu_write_count) →
  wp (tmcuart_send_event p)
    (λ r s', r = SF_RESCHEDULE ∧ ∃ t' f pos', line_step p s t w s' t' f pos') (λ _ _, False) s.
Proof.
  intros [Ho (n & Hn & Hf & Hw)] Hok Hpos. unfold tmcuart_send_event. wp_steps.
  eapply wp_read_obj; [done|]. wp_steps. rewrite line_state, toggle_line.
  set (t1 := t <| tu_flags := _ |>). set (l := negb _).
  assert (Hok1 : uart_ok t1) by (by destruct Hok).
  apply (wp_find_toggle t1 l); [done|done|]. intros r nx Hr.
  assert (Hs1 : sending t t1) by (split; try done; intros k Hk; by apply toggle_other).
  assert (Hl1 : line_high t1.(tu_flags) = l) by apply toggle_line.
  destruct Hok as [Hd Hby Hwc Hbt]. destruct r as [pos'|]; wp_steps.
  - destruct Hr as (Hp' & Hb' & -> & Hwv). eapply wp_add_wake; [exact Hn|]. wp_steps. split; [done|].
    exists (t1 <| tu_pos := pos' |>), F_tmcuart_send_event, pos'. split; try done; try frame_done; [| |by cbn in *; lia|].
    + split; [apply obj_at_write|]. eexists. split; [cbn; by rewrite lookup_alter_eq, Hn|]. split; [done|].
      cbn. rewrite Hw, u32_add_l, u32_add_r. f_equal. ring.
    + destruct Hs1. by split.
    + left. cbn in *. rewrite Hb'. unfold l. rewrite negb_involutive. split_and!; [done|lia|done|done].
  - destruct Hr as (-> & Hwv & Hlast). eapply wp_add_wake; [cbn; by rewrite lookup_alter_eq, Hn|]. wp_steps. split; [done|].
    exists t1, F_tmcuart_send_finish_event, t.(tu_write_count). split; try done; try frame_done; [|by cbn in *; lia| |by right].
    + split; [unfold obj_at; cbn; apply lookup_insert_eq|]. eexists.
      split; [cbn; by rewrite !lookup_alter_eq, Hn|]. split; [done|].
      cbn. rewrite Hw, u32_add_l, u32_add_r. f_equal. ring.
    + intros w' l'. cbn in Hwv. rewrite Hwv, Z.sub_diag. done.
Qed.

Lemma wave_change n f pos w bt line :
  f pos = negb line → wave (S n) f pos w bt line = (u32 w, negb line) :: wave n f (pos + 1) (w + bt) bt (negb line).
Proof. intros E. cbn [wave]. rewrite E. by destruct line. Qed.

(** All bits from the position of the object on are shown. *)
Lemma send_phase n : ∀ p s t w,
  Z.of_nat n = t.(tu_write_count) - t.(tu_pos) →
  uart_at p s t F_tmcuart_send_event w → uart_ok t → 0 <= t.(tu_pos) < t.(tu_write_count) →
  lbit t.(tu_data) t.(tu_pos) = negb (line_high t.(tu_flags)) →
  ∃ s' t', uart_at p s' t' F_tmcuart_send_finish_event (w + Z.of_nat n * t.(tu_bit_time))
    ∧ uart_frame p s s' ∧ s'.(reads) = s.(reads) ∧ sending t t' ∧ t'.(tu_bit_time) = t.(tu_bit_time)
    ∧ line_high t'.(tu_flags) = lbit t.(tu_data) (t.(tu_write_count) - 1)
    ∧ ∀ evs s2, uart_run p s' evs s2 →
        uart_run p s (wave n (lbit t.(tu_data)) t.(tu_pos) w t.(tu_bit_time) (line_high t.(tu_flags)) ++ evs) s2.
Proof.
  induction n as [n IH] using lt_wf_ind. intros p s t w Hn Hat Hok Hpos Hbit.
  destruct n as [|n]; [lia|].
  destruct (wp_ret_inv _ _ _ (wp_send_event p s t w Hat Hok Hpos)) as (r & s1 & Hrun & -> & t1 & f & pos' & Hls).
  destruct Hls as [Hat1 Hfr Hrd Hsg Hbt Hln Hp' Hwv Hnext]. rewrite wave_change by done.
  assert (Hstep : ∀ evs s2, uart_run p s1 evs s2 →
    uart_run p s ((u32 w, negb (line_high t.(tu_flags))) :: evs) s2).
  { intros evs s2 Hev. destruct Hat as [_ (m & Hm & Hf & Hw)]. destruct Hat1 as [Ho1 _].
    rewrite <- Hw, <- Hln. eapply ur_more; [done|by rewrite Hf|done|done]. }
  specialize (Hwv (w + t.(tu_bit_time))). cbv zeta in Hwv.
  replace (Z.to_nat (t.(tu_write_count) - t.(tu_pos) - 1)) with n in Hwv by lia.
  replace (w + t.(tu_bit_time) + (pos' - t.(tu_pos) - 1) * t.(tu_bit_time))
    with (w + (pos' - t.(tu_pos)) * t.(tu_bit_time)) in Hwv by ring.
  destruct Hnext as [(-> & Hlt & Hpe & Hb')|(-> & -> & Hlast)].
  - pose proof Hsg as [_ _ _ Hwc _ Hda _].
    assert (Hok1 : uart_ok t1) by (destruct Hok; split; congruence || (rewrite ?Hwc, ?Hbt; lia)).
    destruct (IH (Z.to_nat (t.(tu_write_count) - pos')) ltac:(lia) p s1 t1
                (w + (pos' - t.(tu_pos)) * t.(tu_bit_time))) as (s2 & t2 & Hat2 & Hfr2 & Hrd2 & Hsg2 & Hbt2 & Hln2 & Hrun2).
    { rewrite Hwc, Hpe. lia. }
    { done. } { done. } { rewrite Hwc, Hpe. lia. }
    { rewrite Hda, Hpe, Hb', Hln. by rewrite negb_involutive. }
    exists s2, t2. split_and!.
    + replace (w + _) with (w + (pos' - t.(tu_pos)) * t.(tu_bit_time)
        + Z.of_nat (Z.to_nat (t.(tu_write_count) - pos')) * t1.(tu_bit_time)); [done|].
      rewrite Hbt, Z2Nat.id by lia. replace (Z.of_nat (S n)) with (t.(tu_write_count) - t.(tu_pos)) by lia. ring.
    + by eapply uart_frame_trans.
    + congruence.
    + by eapply sending_trans.
    + congruence.
    + by rewrite Hln2, Hda, Hwc.
    + intros evs s3 Hev. rewrite <- app_comm_cons. apply Hstep. rewrite Hwv, <- Hln, <- Hda, <- Hbt, <- Hpe.
      rewrite Hpe at 1 3. rewrite Hbt at 1. by apply Hrun2.
  - exists s1, t1. split_and!; try done.
    + replace (Z.of_nat (S n)) with (t.(tu_write_count) - t.(tu_pos)) by lia. done.
    + rewrite Hln. destruct (Z.eq_dec t.(tu_pos) (t.(tu_write_count) - 1)) as [<-|]; [by rewrite Hbit|].
      rewrite Hlast by lia. done.
    + intros evs s3 Hev. rewrite Hwv, Z.sub_diag. by apply Hstep.
Qed.

(** One change of the line in the first half byte, which also measures the delay
    between the time of an event and the change it makes. *)
Definition delay (s : mcu) (w : Z) : Z := u32 (hw_time s.(reads) - w).

Record sync_step (p : Z) (s : mcu) (t : tmcuart_s) (s' : mcu) (t' : tmcuart_s) : Prop := {
  ss_frame : uart_frame p s s';
  ss_reads : s'.(reads) = S s.(reads);
  ss_sending : sending t t';
  ss_line : line_high t'.(tu_flags) = negb (line_high t.(tu_flags));
  ss_pos : t'.(tu_pos) = t.(tu_pos) + 1;
}.

Definition sync_diff (s : mcu) (t : tmcuart_s) (w : Z) : Z := s32 (delay s w - t.(tu_bit_time)).
Definition sync_bit_time (s : mcu) (t : tmcuart_s) (w : Z) : Z :=
  u32 (t.(tu_cfg_bit_time) + DIV_ROUND_CLOSEST (sync_diff s t w) 4).

Lemma wp_sync_event p s t w :
  uart_at p s t F_tmcuart_send_sync_event w → 0 <= t.(tu_pos) < 5 →
  wp (tmcuart_send_sync_event p)
    (λ r s', r = SF_RESCHEDULE ∧ ∃ t', sync_step p s t s' t'
       ∧ if t.(tu_pos) =? 4 then
           t'.(tu_bit_time) = sync_bit_time s t w
           ∧ uart_at p s' t' F_tmcuart_send_event (w + sync_diff s t w + sync_bit_time s t w)
         else
           t'.(tu_bit_time) = (if t.(tu_pos) =? 0 then delay s w else t.(tu_bit_time))
           ∧ uart_at p s' t' F_tmcuart_send_sync_event (w + t.(tu_cfg_bit_time)))
    (λ _ _, False) s.
Proof.
  intros [Ho (n & Hn & Hf & Hw)] Hpos. unfold tmcuart_send_sync_event. wp_steps.
  eapply wp_read_obj; [done|]. wp_steps. rewrite u8_small by lia. set (t1 := t <| tu_flags ::= _ |> <| tu_pos := _ |>).
  eapply wp_read_timer; [exact Hn|]. cbv beta zeta.
  assert (Hs1 : sending t t1) by (split; try done; intros k Hk; by apply toggle_other).
  assert (Hl1 : line_high t1.(tu_flags) = negb (line_high t.(tu_flags))) by apply toggle_line.
  match goal with |- context [u32 (u32 ?h - n.(waketime))] =>
    replace (u32 (u32 h - n.(waketime))) with (delay s w)
      by (unfold delay; by rewrite Hw, u32_sub_l, u32_sub_r)
  end.
  destruct (Z.eqb_spec (t.(tu_pos) + 1) 1) as [E1|E1]; [|destruct (Z.leb_spec 5 (t.(tu_pos) + 1))].
  - wp_steps. eapply wp_add_wake; [exact Hn|]. wp_steps. split; [done|].
    exists (t1 <| tu_bit_time := delay s w |>). split; [split; try done; first [frame_done|by destruct Hs1]|].
    rewrite (proj2 (Z.eqb_neq _ _)), (proj2 (Z.eqb_eq _ _)) by lia. split; [done|].
    split; [apply obj_at_write|]. eexists. split; [cbn; by rewrite lookup_alter_eq, Hn|]. split; [done|].
    cbn. by rewrite Hw, u32_add_l.
  - wp_steps. eapply wp_add_wake; [cbn; by rewrite lookup_alter_eq, Hn|]. wp_steps. split; [done|].
    exists (t1 <| tu_bit_time := sync_bit_time s t w |>). split; [split; try done; first [frame_done|by destruct Hs1]|].
    rewrite (proj2 (Z.eqb_eq _ _)) by lia. split; [done|].
    split; [apply obj_at_write|]. eexists. split; [cbn; by rewrite !lookup_alter_eq, Hn|]. split; [done|].
    cbn. rewrite Hw, u32_add_l, u32_add_r. by rewrite <- Z.add_assoc.
  - wp_steps. eapply wp_add_wake; [exact Hn|]. wp_steps. split; [done|].
    exists t1. split; [split; first [done|frame_done]|].
    rewrite !(proj2 (Z.eqb_neq _ _)) by lia. split; [done|].
    split; [apply obj_at_write|]. eexists. split; [cbn; by rewrite lookup_alter_eq, Hn|]. split; [done|].
    cbn. by rewrite Hw, u32_add_l.
Qed.

(** The measured difference to four bits, and the time of a bit that follows from it. *)
Definition skew (s : mcu) (w cfg : Z) : Z :=
  s32 (u32 (hw_time (4 + s.(reads))%nat - (w + 4 * cfg)) - delay s w).
Definition adjusted (s : mcu) (w cfg : Z) : Z := u32 (cfg + DIV_ROUND_CLOSEST (skew s w cfg) 4).

Lemma uart_step p s t f w s1 t1 evs s2 :
  uart_at p s t f w → uart_event f p s = (Ret SF_RESCHEDULE, s1) → obj_at s1 p t1 →
  uart_run p s1 evs s2 → uart_run p s ((u32 w, line_high t1.(tu_flags)) :: evs) s2.
Proof. intros [_ (n & Hn & Hf & <-)] Hev Ho Hrun. eapply ur_more; [done|by rewrite Hf|done|done]. Qed.

(** The first half byte: the line changes at each of the first five bits. *)
Lemma sync_changes n : ∀ p s t w s0,
  Z.of_nat n = 4 - t.(tu_pos) → uart_at p s t F_tmcuart_send_sync_event w → 0 < t.(tu_pos) →
  (∀ i, t.(tu_pos) <= i < 5 → lbit t.(tu_data) i = Z.odd i) →
  line_high t.(tu_flags) = Z.even t.(tu_pos) →
  s.(reads) = (Z.to_nat t.(tu_pos) + s0.(reads))%nat →
  t.(tu_bit_time) = delay s0 (w - t.(tu_pos) * t.(tu_cfg_bit_time)) →
  let w0 := w - t.(tu_pos) * t.(tu_cfg_bit_time) in
  let bt := adjusted s0 w0 t.(tu_cfg_bit_time) in
  ∃ s' t', uart_at p s' t' F_tmcuart_send_event
        (w0 + 4 * t.(tu_cfg_bit_time) + skew s0 w0 t.(tu_cfg_bit_time) + bt)
    ∧ uart_frame p s s' ∧ s'.(reads) = (5 + s0.(reads))%nat ∧ sending t t' ∧ t'.(tu_bit_time) = bt
    ∧ t'.(tu_pos) = 5 ∧ line_high t'.(tu_flags) = false
    ∧ ∀ evs s2, uart_run p s' evs s2 →
        uart_run p s (wave (S n) (lbit t.(tu_data)) t.(tu_pos) w t.(tu_cfg_bit_time) (line_high t.(tu_flags)) ++ evs) s2.
Proof.
  induction n as [|n IH]; intros p s t w s0 Hn Hat Hpos Hbits Hl Hrd Hbt w0 bt;
    destruct (wp_ret_inv _ _ _ (wp_sync_event p s t w Hat ltac:(lia))) as (r & s1 & Hrun & -> & t1 & Hst & Hnext);
    pose proof Hst as [Hfr Hrd1 Hsg Hl1 Hp1];
    (rewrite wave_change by (rewrite Hbits, Hl, <- Z.negb_even by lia; done)).
  - rewrite (proj2 (Z.eqb_eq _ _)) in Hnext by lia. destruct Hnext as [Hbt1 Hat1].
    assert (Ep : t.(tu_pos) = 4) by lia.
    assert (Esk : sync_diff s t w = skew s0 w0 t.(tu_cfg_bit_time)).
    { unfold sync_diff, skew, w0. rewrite Hbt, Ep. unfold delay. rewrite Hrd, Ep. do 2 f_equal.
      change (Z.to_nat 4) with 4%nat. f_equal. lia. }
    assert (Ebt : sync_bit_time s t w = bt) by (unfold sync_bit_time, bt, adjusted; by rewrite Esk).
    exists s1, t1. rewrite Esk, Ebt in *. split_and!; try done.
    + replace (w0 + _) with w by (unfold w0; rewrite Ep; ring). done.
    + rewrite Hrd1, Hrd, Ep. done.
    + lia.
    + by rewrite Hl1, Hl, Ep.
    + intros evs s2 Hev. cbn [wave app]. rewrite <- Hl1. eapply uart_step; try done. by destruct Hat1.
  - rewrite !(proj2 (Z.eqb_neq _ _)) in Hnext by lia. destruct Hnext as [Hbt1 Hat1].
    pose proof Hsg as [_ _ _ _ Hcfg Hda _].
    destruct (IH p s1 t1 (w + t.(tu_cfg_bit_time)) s0) as (s2 & t2 & Hat2 & Hfr2 & Hrd2 & Hsg2 & Hbt2 & Hp2 & Hl2 & Hrun2);
      rewrite ?Hp1, ?Hcfg, ?Hda, ?Hl1, ?Hbt1; [lia|done|lia|intros; apply Hbits; lia| | | |].
    + rewrite Hl, Z.even_add. by destruct (Z.even t.(tu_pos)).
    + rewrite Hrd1, Hrd. lia.
    + rewrite Hbt. f_equal. ring.
    + rewrite Hp1, Hcfg in Hat2, Hbt2. rewrite Hp1, Hcfg, Hda, Hl1 in Hrun2.
      replace (w + t.(tu_cfg_bit_time) - (t.(tu_pos) + 1) * t.(tu_cfg_bit_time)) with w0 in Hat2, Hbt2
        by (unfold w0; ring).
      exists s2, t2. split_and!; try done; [by eapply uart_frame_trans|by eapply sending_trans|].
      intros evs s3 Hev. cbn [app]. rewrite <- Hl1 at 1. eapply uart_step; try done; [by destruct Hat1|].
      by apply Hrun2.
Qed.

Lemma sync_phase p s t w :
  uart_at p s t F_tmcuart_send_sync_event w → t.(tu_pos) = 0 → line_high t.(tu_flags) = true →
  (∀ i, 0 <= i < 5 → lbit t.(tu_data) i = Z.odd i) →
  let cfg := t.(tu_cfg_bit_time) in let bt := adjusted s w cfg in
  ∃ s' t', uart_at p s' t' F_tmcuart_send_event (w + 4 * cfg + skew s w cfg + bt)
    ∧ uart_frame p s s' ∧ s'.(reads) = (5 + s.(reads))%nat ∧ sending t t' ∧ t'.(tu_bit_time) = bt
    ∧ t'.(tu_pos) = 5 ∧ line_high t'.(tu_flags) = false
    ∧ ∀ evs s2, uart_run p s' evs s2 →
        uart_run p s (wave 5 (lbit t.(tu_data)) 0 w cfg true ++ evs) s2.
Proof.
  intros Hat Hpos Hl Hbits cfg bt.
  destruct (wp_ret_inv _ _ _ (wp_sync_event p s t w Hat ltac:(lia))) as (r & s1 & Hrun & -> & t1 & Hst & Hnext).
  pose proof Hst as [Hfr Hrd1 Hsg Hl1 Hp1]. rewrite Hpos in Hnext. cbn in Hnext. destruct Hnext as [Hbt1 Hat1].
  pose proof Hsg as [_ _ _ _ Hcfg Hda _]. rewrite Hpos in Hp1. rewrite Hl in Hl1.
  destruct (sync_changes 3 p s1 t1 (w + cfg) s) as (s2 & t2 & Hat2 & Hfr2 & Hrd2 & Hsg2 & Hbt2 & Hp2 & Hl2 & Hrun2);
    rewrite ?Hp1, ?Hcfg, ?Hda, ?Hl1, ?Hbt1; try done.
  { intros i Hi. apply Hbits. lia. }
  { f_equal. unfold cfg. lia. }
  rewrite Hp1, Hcfg in Hat2, Hbt2. fold cfg in Hat2, Hbt2. rewrite Hp1, Hcfg, Hda, Hl1 in Hrun2.
  replace (w + cfg - (0 + 1) * cfg) with w in Hat2, Hbt2 by ring.
  exists s2, t2. split_and!; try done; [by eapply uart_frame_trans|by eapply sending_trans|].
  intros evs s3 Hev. rewrite wave_change by (by rewrite Hbits). cbn [app]. change (negb true) with false.
  rewrite <- Hl1 at 1. eapply uart_step; try done; [by destruct Hat1|]. by apply Hrun2.
Qed.

(** ** The line while the firmware reads *)

(** The transfer is done: the line is released and the answer is to be reported. *)
Record finished (p : Z) (s : mcu) (t : tmcuart_s) (rc : Z) (data : list Z) (s' : mcu) (t' : tmcuart_s) : Prop := {
  fi_obj : obj_at s' p t';
  fi_frame : uart_frame p s s';
  fi_wake : s'.(wakes) W_tmcuart = true;
  fi_tx : t'.(tu_tx_pin) = t.(tu_tx_pin);
  fi_rx : t'.(tu_rx_pin) = t.(tu_rx_pin);
  fi_cfg : t'.(tu_cfg_bit_time) = t.(tu_cfg_bit_time);
  fi_read : t'.(tu_read_count) = rc;
  fi_data : t'.(tu_data) = data;
  fi_flags : t'.(tu_flags) = Z.lor (Z.lor (Z.land t.(tu_flags) (Z.lor TU_PULLUP TU_SINGLE_WIRE)) TU_LINE_HIGH) TU_REPORT;
}.

(** What a finished transfer left does not depend on the flag of the synchronisation. *)
Lemma finished_from p s s1 t t1 rc data s' t' :
  uart_frame p s s1 → t1.(tu_tx_pin) = t.(tu_tx_pin) → t1.(tu_rx_pin) = t.(tu_rx_pin) →
  t1.(tu_cfg_bit_time) = t.(tu_cfg_bit_time) →
  Z.land t1.(tu_flags) (Z.lor TU_PULLUP TU_SINGLE_WIRE) = Z.land t.(tu_flags) (Z.lor TU_PULLUP TU_SINGLE_WIRE) →
  finished p s1 t1 rc data s' t' → finished p s t rc data s' t'.
Proof.
  intros Hf E1 E2 E3 E4 []. split; try congruence. by eapply uart_frame_trans.
Qed.

Lemma wp_finalize p s t :
  obj_at s p t →
  wp (tmcuart_finalize p) (λ r s', r = SF_DONE ∧ ∃ t', finished p s t t.(tu_read_count) t.(tu_data) s' t')
    (λ _ _, False) s.
Proof.
  intros Ho. unfold tmcuart_finalize, tmcuart_reset_line. wp_steps. eapply wp_read_obj; [done|].
  destruct (flag_set _ _); wp_steps.
  all: eapply wp_update_obj; [apply obj_at_write|]; unfold sched_wake_task, sched_wake_tasks; wp_steps; split; [done|]; eexists; split;
    [apply obj_at_write|..]; try done; first [frame_done|cbn; by rewrite decide_True].
Qed.

(** The sample that the next read of the pin gives. *)
Definition sample (rx : Z) (n : nat) : bool := negb (hw_gpio_in rx n =? 0).

(** Bit [i] of the bytes set to a sample. *)
Definition set_lbit (data : list Z) (i : Z) (v : bool) : list Z :=
  alter (λ b, if v then Z.lor b (Z.shiftl 1 (i mod 8)) else Z.land b (Z.lnot (Z.shiftl 1 (i mod 8))))
    (Z.to_nat (i / 8)) data.

Lemma lbit_set data i v j :
  0 <= i < 8 * Z.of_nat (length data) → 0 <= j → lbit (set_lbit data i v) j = if j =? i then v else lbit data j.
Proof.
  intros Hi Hj. unfold lbit, set_lbit.
  destruct (Z.eq_dec (j / 8) (i / 8)) as [E|E].
  - rewrite E, list_lookup_alter_eq.
    destruct (lookup_lt_is_Some_2 data (Z.to_nat (i / 8))) as [b ->]; [Z.div_mod_to_equations; lia|]. cbn.
    pose proof (Z.mod_pos_bound i 8 ltac:(lia)). pose proof (Z.mod_pos_bound j 8 ltac:(lia)).
    replace (j =? i) with (j mod 8 =? i mod 8) by (destruct (Z.eqb_spec (j mod 8) (i mod 8)), (Z.eqb_spec j i);
      try done; Z.div_mod_to_equations; lia).
    destruct v.
    + rewrite Z.lor_spec, (shifted_bit true) by lia. cbn. destruct (_ =? _); by rewrite ?orb_true_r, ?orb_false_r.
    + rewrite Z.land_spec, Z.lnot_spec, (shifted_bit true) by lia. cbn. destruct (_ =? _); by rewrite ?andb_true_r, ?andb_false_r.
  - rewrite list_lookup_alter_ne.
    + destruct (Z.eqb_spec j i) as [->|]; [done|]. done.
    + intros Hx. apply E. apply Z2Nat.inj in Hx; [done|apply Z.div_pos; lia..].
Qed.

Lemma set_lbit_bytes data i v : byte_list data → 0 <= i → byte_list (set_lbit data i v).
Proof.
  intros Hd Hi. unfold set_lbit. apply Forall_alter; [done|]. intros b _ Hb.
  pose proof (shifted_byte true (i mod 8) (Z.mod_pos_bound i 8 ltac:(lia))). cbn in *.
  destruct v; [by apply lor_byte|by apply land_byte_l].
Qed.

(** What [tmcuart_read_event] stores. *)
Lemma stored_bit data pos d (v : bool) :
  byte_list data → 0 <= pos → data !! Z.to_nat (Z.shiftr pos 3) = Some d →
  let mask := u8 (Z.shiftl 1 (Z.land pos 7)) in
  <[Z.to_nat (Z.shiftr pos 3) := if v then Z.lor d mask else u8 (Z.land d (Z.lnot mask))]> data = set_lbit data pos v.
Proof.
  intros Hd Hp. rewrite shiftr_div, (land_ones_mod 3) by lia. change (2 ^ 3) with 8. intros Hl.
  pose proof (shifted_byte true (pos mod 8) (Z.mod_pos_bound pos 8 ltac:(lia))) as Hm. cbn in Hm.
  cbv zeta. rewrite (u8_small (Z.shiftl _ _)) by (unfold is_byte in Hm; lia).
  assert (Hb : is_byte d) by (eapply Forall_lookup_1; [apply Hd|done]).
  pose proof (land_byte_l d (Z.lnot (Z.shiftl 1 (pos mod 8))) Hb) as Hl'. unfold set_lbit.
  rewrite list_insert_alter. apply list_alter_ext; [|done].
  intros x Hx. rewrite Hx in Hl. injection Hl as ->. destruct v; [done|]. apply u8_small. unfold is_byte in Hl'. lia.
Qed.

Definition sampled (t : tmcuart_s) (n : nat) : list Z := set_lbit t.(tu_data) t.(tu_pos) (sample t.(tu_rx_pin) n).

Lemma wp_read_event p s t w :
  uart_at p s t F_tmcuart_read_event w → uart_ok t → 0 <= t.(tu_pos) < t.(tu_read_count) → t.(tu_read_count) <= 80 →
  wp (tmcuart_read_event p)
    (λ r s', if t.(tu_read_count) <=? t.(tu_pos) + 1
             then r = SF_DONE ∧ ∃ t', finished p s t t.(tu_read_count) (sampled t s.(reads)) s' t'
             else r = SF_RESCHEDULE ∧ uart_frame p s s' ∧ s'.(reads) = S s.(reads)
               ∧ uart_at p s' (t <| tu_data := sampled t s.(reads) |> <| tu_pos := t.(tu_pos) + 1 |>)
                   F_tmcuart_read_event (w + t.(tu_bit_time)))
    (λ _ _, False) s.
Proof.
  intros [Ho (n & Hn & Hf & Hw)] [Hlen Hby _ _] Hpos Hrc. unfold tmcuart_read_event. wp_steps.
  eapply wp_read_obj; [done|]. wp_steps. rewrite u8_small with (x := t.(tu_pos) + 1) by lia.
  destruct (lookup_lt_is_Some_2 t.(tu_data) (Z.to_nat (Z.shiftr t.(tu_pos) 3))) as [d Hd].
  { rewrite Hlen, shiftr_div by lia. change (2 ^ 3) with 8. Z.div_mod_to_equations; lia. }
  rewrite Hd. cbn [of_option]. wp_steps.
  assert (Hb : negb (b2z (negb (hw_gpio_in (tu_rx_pin t) (reads s) =? 0)) =? 0) = sample t.(tu_rx_pin) s.(reads))
    by (unfold sample; by destruct (hw_gpio_in _ _ =? 0)).
  rewrite Hb. set (d1 := if sample _ _ then _ else _).
  assert (E : t <| tu_data ::= <[Z.to_nat (Z.shiftr t.(tu_pos) 3) := d1]> |> = t <| tu_data := sampled t s.(reads) |>).
  { unfold sampled. rewrite <- (stored_bit _ t.(tu_pos) _ _ Hby ltac:(lia) Hd). done. }
  rewrite E. change (tu_read_count (t <| tu_data := _ |>)) with t.(tu_read_count).
  destruct (t.(tu_read_count) <=? t.(tu_pos) + 1); wp_steps.
  - eapply wp_mono; [apply (wp_finalize p); apply obj_at_write| |done]. cbn.
    intros r s' (-> & t' & Hfin). split; [done|]. exists t'. eapply finished_from, Hfin; [frame_done|done..].
  - eapply wp_add_wake; [exact Hn|]. wp_steps. split_and!; [done|frame_done|done|].
    split; [apply obj_at_write|]. eexists. split; [cbn; by rewrite lookup_alter_eq, Hn|]. split; [done|].
    cbn. by rewrite Hw, u32_add_l.
Qed.

(** [n] events, at the distance [bt] from [w] on, with the line high. *)
Definition ticks (n : nat) (w bt : Z) : list (Z * bool) := (λ i, (u32 (w + Z.of_nat i * bt), true)) <$> seq 0 n.

Lemma ticks_S n w bt : ticks (S n) w bt = (u32 w, true) :: ticks n (w + bt) bt.
Proof.
  unfold ticks. cbn [seq fmap list_fmap]. rewrite <- seq_shift, <- list_fmap_compose. f_equal.
  - do 2 f_equal. lia.
  - apply list_fmap_ext. intros i x _. cbn. do 2 f_equal. lia.
Qed.

Lemma uart_last p s t f w s1 t1 :
  uart_at p s t f w → uart_event f p s = (Ret SF_DONE, s1) → obj_at s1 p t1 →
  uart_run p s [(u32 w, line_high t1.(tu_flags))] s1.
Proof. intros [_ (n & Hn & Hf & <-)] Hev Ho. eapply ur_done; [done|by rewrite Hf|done]. Qed.

Lemma finished_high p s t rc data s' t' : finished p s t rc data s' t' → line_high t'.(tu_flags) = true.
Proof. intros []. rewrite line_high_bit, fi_flags0, !Z.lor_spec. cbn. by rewrite orb_true_r. Qed.

Lemma read_phase n : ∀ p s t w,
  Z.of_nat n = t.(tu_read_count) - t.(tu_pos) - 1 →
  uart_at p s t F_tmcuart_read_event w → uart_ok t → 0 <= t.(tu_pos) → t.(tu_read_count) <= 80 →
  line_high t.(tu_flags) = true →
  ∃ s' t' data, uart_run p s (ticks (S n) w t.(tu_bit_time)) s' ∧ finished p s t t.(tu_read_count) data s' t'
    ∧ length data = 10%nat ∧ byte_list data
    ∧ ∀ j, 0 <= j < 80 → lbit data j = if (t.(tu_pos) <=? j) && (j <? t.(tu_read_count))
        then sample t.(tu_rx_pin) (Z.to_nat (j - t.(tu_pos)) + s.(reads)) else lbit t.(tu_data) j.
Proof.
  induction n as [|n IH]; intros p s t w Hn Hat Hok Hpos Hrc Hl;
    destruct (wp_ret_inv _ _ _ (wp_read_event p s t w Hat Hok ltac:(lia) Hrc)) as (r & s1 & Hrun & Hnext);
    (assert (Hset : ∀ j, 0 <= j → lbit (sampled t s.(reads)) j
       = if j =? t.(tu_pos) then sample t.(tu_rx_pin) s.(reads) else lbit t.(tu_data) j)
       by (intros j Hj; apply lbit_set; destruct Hok; lia));
    (assert (Hb : byte_list (sampled t s.(reads))) by (apply set_lbit_bytes; [by destruct Hok|done]));
    (assert (Hlen : length (sampled t s.(reads)) = 10%nat)
       by (unfold sampled, set_lbit; rewrite length_alter; by destruct Hok)).
  - rewrite (proj2 (Z.leb_le _ _)) in Hnext by lia. destruct Hnext as (-> & t' & Hfin).
    exists s1, t', (sampled t s.(reads)). split_and!; [|done..|].
    + rewrite ticks_S. unfold ticks. cbn. rewrite <- (finished_high _ _ _ _ _ _ _ Hfin).
      eapply uart_last; try done. by destruct Hfin.
    + intros j Hj. rewrite Hset by lia. destruct (Z.eqb_spec j t.(tu_pos)) as [->|].
      * rewrite (proj2 (Z.leb_le _ _)), (proj2 (Z.ltb_lt _ _)), Z.sub_diag by lia. done.
      * destruct (Z.leb_spec t.(tu_pos) j); [|done]. by rewrite (proj2 (Z.ltb_ge _ _)) by lia.
  - rewrite (proj2 (Z.leb_gt _ _)) in Hnext by lia. destruct Hnext as (-> & Hfr & Hrd & Hat1).
    set (t1 := t <| tu_data := _ |> <| tu_pos := _ |>) in *.
    destruct (IH p s1 t1 (w + t.(tu_bit_time))) as (s2 & t2 & data & Hrun2 & Hfin & Hl2 & Hb2 & Hbits);
      [by cbn; lia|done|by destruct Hok|by cbn; lia|done|done|].
    exists s2, t2, data. split_and!; [| |done|done|].
    + rewrite ticks_S, <- Hl. apply (uart_step _ _ _ _ _ _ t1 _ _ Hat Hrun); [by destruct Hat1|done].
    + by eapply finished_from, Hfin.
    + intros j Hj. rewrite Hbits by done. cbn. rewrite Hset, Hrd by lia. destruct (Z.eqb_spec j t.(tu_pos)) as [->|].
      * rewrite (proj2 (Z.leb_gt _ _)), (proj2 (Z.leb_le _ _)), (proj2 (Z.ltb_lt _ _)), Z.sub_diag by lia. done.
      * replace (t.(tu_pos) + 1 <=? j) with (t.(tu_pos) <=? j)
          by (destruct (Z.leb_spec t.(tu_pos) j), (Z.leb_spec (t.(tu_pos) + 1) j); try done; lia).
        destruct (Z.leb_spec t.(tu_pos) j); [|done]. destruct (_ <? _); [|done]. cbn. f_equal. lia.
Qed.

(** The number of the first low sample after a high one among the next [k]. *)
Fixpoint find_start (rx : Z) (k : nat) (seen : bool) (n : nat) : option nat :=
  match k with
  | O => None
  | S k => if sample rx n then find_start rx k true (S n)
           else if seen then Some n else find_start rx k false (S n)
  end.

Lemma find_start_ge rx k : ∀ seen n m, find_start rx k seen n = Some m → (n <= m)%nat.
Proof.
  induction k as [|k IH]; cbn; intros seen n m E; [done|].
  repeat case_match; try (apply IH in E; lia). injection E as ->. lia.
Qed.

Lemma wp_sync_wait p s t w :
  uart_at p s t F_tmcuart_read_sync_event w → 0 <= t.(tu_pos) <= 64 →
  wp (tmcuart_sync_wait p)
    (λ r s', if 64 <=? t.(tu_pos) then r = SF_DONE ∧ ∃ t', finished p s t 0 t.(tu_data) s' t'
             else r = SF_RESCHEDULE ∧ uart_frame p s s' ∧ s'.(reads) = s.(reads)
               ∧ uart_at p s' (t <| tu_pos := t.(tu_pos) + 1 |>) F_tmcuart_read_sync_event (w + t.(tu_bit_time)))
    (λ _ _, False) s.
Proof.
  intros [Ho (n & Hn & Hf & Hw)] Hpos. unfold tmcuart_sync_wait. wp_steps.
  eapply wp_read_obj; [done|]. wp_steps. rewrite u8_small by lia. destruct (64 <=? t.(tu_pos)); wp_steps.
  - eapply wp_update_obj; [apply obj_at_write|].
    eapply wp_mono; [apply (wp_finalize p); apply obj_at_write| |done]. cbn.
    intros r s' (-> & t' & Hfin). split; [done|]. exists t'. eapply finished_from, Hfin; [frame_done|done..].
  - eapply wp_add_wake; [exact Hn|]. wp_steps. split_and!; [done|frame_done|done|].
    split; [apply obj_at_write|]. eexists. split; [cbn; by rewrite lookup_alter_eq, Hn|]. split; [done|].
    cbn. by rewrite Hw, u32_add_l.
Qed.

Lemma uart_run_first p s t f w s1 t1 f1 evs s2 :
  uart_at p s t f w → uart_at p s1 t1 f1 w → uart_event f p s = uart_event f1 p s1 →
  uart_run p s1 evs s2 → uart_run p s evs s2.
Proof.
  intros [_ (n & Hn & <- & Hw)] [_ (n1 & Hn1 & <- & Hw1)] E Hrun.
  destruct Hrun as [? n' ? ? Hn' Hev|? n' ? ? ? ? Hn' Hev]; simplify_eq; rewrite Hw1, <- Hw.
  - eapply ur_done; [done|by rewrite E|done].
  - eapply ur_more; [done|by rewrite E|done|done].
Qed.

Definition seen (t : tmcuart_s) : bool := flag_set t.(tu_flags) TU_READ_SYNC.

(** A sample before the start bit changes only the flag of the synchronisation. *)
Definition noted (v : bool) (t : tmcuart_s) : tmcuart_s :=
  if v then t <| tu_flags ::= λ f, Z.lor f TU_READ_SYNC |> else t.

Lemma sample_value rx n : negb (b2z (negb (hw_gpio_in rx n =? 0)) =? 0) = sample rx n.
Proof. unfold sample. by destruct (hw_gpio_in _ _ =? 0). Qed.

Lemma sync_event_waits p s t w :
  uart_at p s t F_tmcuart_read_sync_event w → sample t.(tu_rx_pin) s.(reads) || negb (seen t) = true →
  let t1 := noted (sample t.(tu_rx_pin) s.(reads)) t in
  ∃ s1, tmcuart_read_sync_event p s = tmcuart_sync_wait p s1 ∧ uart_at p s1 t1 F_tmcuart_read_sync_event w
    ∧ uart_frame p s s1 ∧ s1.(reads) = S s.(reads).
Proof.
  intros [Ho (n & Hn & Hf & Hw)] Hv t1. unfold tmcuart_read_sync_event, mbind, M_bind.
  rewrite (read_obj_at p t) by done. unfold gpio_in_read, mbind, M_bind. cbn -[tmcuart_sync_wait]. rewrite sample_value.
  destruct (sample _ _).
  - eexists. split; [done|]. split_and!; [|frame_done|done].
    split; [apply lookup_insert_eq|]. by exists n.
  - cbn in Hv. unfold seen in Hv. rewrite negb_true_iff in Hv. rewrite Hv. eexists. split; [done|]. split_and!; [|frame_done|done].
    split; [done|]. by exists n.
Qed.

Lemma sync_event_starts p s t w :
  uart_at p s t F_tmcuart_read_sync_event w → sample t.(tu_rx_pin) s.(reads) = false → seen t = true →
  ∃ s1, tmcuart_read_sync_event p s = tmcuart_read_event p s1
    ∧ uart_at p s1 (t <| tu_pos := 0 |>) F_tmcuart_read_event w ∧ uart_frame p s s1 ∧ s1.(reads) = S s.(reads).
Proof.
  intros [Ho (n & Hn & Hf & Hw)] Hv Hs. unfold seen in Hs. unfold tmcuart_read_sync_event, mbind, M_bind.
  rewrite (read_obj_at p t) by done. unfold gpio_in_read, mbind, M_bind. cbn -[tmcuart_read_event].
  rewrite sample_value, Hv, Hs.
  unfold set_func, update_timer, mbind, M_bind. cbn -[tmcuart_read_event].
  eexists. split; [done|]. split_and!; [|frame_done|done]. split; [apply lookup_insert_eq|].
  eexists. split; [cbn; by rewrite lookup_alter_eq, Hn|done].
Qed.

Lemma seen_set t : seen (t <| tu_flags ::= λ f, Z.lor f TU_READ_SYNC |>) = true.
Proof. unfold seen. rewrite (flag_bit _ 2) by lia. cbn. rewrite Z.lor_spec. by rewrite orb_true_r. Qed.

(** The answer of the chip: the bits from the first low sample on, or nothing. *)
Definition received (rx rc : Z) (start : option nat) (data data' : list Z) : Prop :=
  match start with
  | Some m => length data' = 10%nat ∧ byte_list data' ∧
      ∀ j, 0 <= j < 80 → lbit data' j = if j <? rc then sample rx (Z.to_nat j + S m) else lbit data j
  | None => data' = data
  end.

Lemma noted_same v t :
  uart_ok t → let t1 := noted v t in
  uart_ok t1 ∧ t1.(tu_tx_pin) = t.(tu_tx_pin) ∧ t1.(tu_rx_pin) = t.(tu_rx_pin)
  ∧ t1.(tu_cfg_bit_time) = t.(tu_cfg_bit_time) ∧ t1.(tu_bit_time) = t.(tu_bit_time) ∧ t1.(tu_pos) = t.(tu_pos)
  ∧ t1.(tu_read_count) = t.(tu_read_count) ∧ t1.(tu_data) = t.(tu_data)
  ∧ Z.land t1.(tu_flags) (Z.lor TU_PULLUP TU_SINGLE_WIRE) = Z.land t.(tu_flags) (Z.lor TU_PULLUP TU_SINGLE_WIRE)
  ∧ line_high t1.(tu_flags) = line_high t.(tu_flags) ∧ seen t1 = v || seen t.
Proof.
  intros Hok. destruct v; cbn; [|done]. split; [by destruct Hok|]. split_and!; try done.
  - by rewrite Z.land_lor_distr_l, Z.lor_0_r.
  - rewrite !line_high_bit, Z.lor_spec. apply orb_false_r.
  - apply seen_set.
Qed.

Lemma find_start_wait rx k sn n :
  sample rx n || negb sn = true → find_start rx (S k) sn n = find_start rx k (sample rx n || sn) (S n).
Proof. intros Hv. cbn. destruct (sample rx n); [done|]. by destruct sn. Qed.

(** The start bit has been seen: the bits of the answer follow. *)
Lemma read_start p s t w :
  uart_at p s t F_tmcuart_read_sync_event w → sample t.(tu_rx_pin) s.(reads) = false → seen t = true →
  uart_ok t → 0 < t.(tu_read_count) <= 80 → line_high t.(tu_flags) = true →
  ∃ s' t' data, uart_run p s (ticks (Z.to_nat t.(tu_read_count)) w t.(tu_bit_time)) s'
    ∧ finished p s t t.(tu_read_count) data s' t'
    ∧ received t.(tu_rx_pin) t.(tu_read_count) (Some s.(reads)) t.(tu_data) data.
Proof.
  intros Hat Hv Hs Hok Hrc Hl. destruct (sync_event_starts p s t w Hat Hv Hs) as (s1 & E & Hat1 & Hfr & Hrd).
  set (t1 := t <| tu_pos := 0 |>) in *.
  destruct (read_phase (Z.to_nat (t.(tu_read_count) - 1)) p s1 t1 w) as (s2 & t2 & data & Hrun & Hfin & Hlen & Hb & Hbits);
    [by cbn; lia|done|by destruct Hok|done|by cbn; lia|done|].
  exists s2, t2, data. split_and!.
  - eapply (uart_run_first _ _ _ _ _ _ _ _ _ _ Hat Hat1 E).
    replace (Z.to_nat t.(tu_read_count)) with (S (Z.to_nat (t.(tu_read_count) - 1))) by lia. done.
  - by eapply (finished_from p s s1 t t1).
  - split_and!; [done|done|]. intros j Hj. rewrite Hbits by done. cbn.
    rewrite (proj2 (Z.leb_le _ _)) by lia. cbn. rewrite Hrd, Z.sub_0_r. done.
Qed.

Lemma read_sync_phase k : ∀ p s t w,
  Z.of_nat k = 64 - t.(tu_pos) → uart_at p s t F_tmcuart_read_sync_event w → uart_ok t → 0 <= t.(tu_pos) →
  0 < t.(tu_read_count) <= 80 → line_high t.(tu_flags) = true →
  let start := find_start t.(tu_rx_pin) (S k) (seen t) s.(reads) in
  let n := match start with Some m => (m - s.(reads) + Z.to_nat t.(tu_read_count))%nat | None => S k end in
  ∃ s' t' data, uart_run p s (ticks n w t.(tu_bit_time)) s'
    ∧ finished p s t (if start then t.(tu_read_count) else 0) data s' t'
    ∧ received t.(tu_rx_pin) t.(tu_read_count) start t.(tu_data) data.
Proof.
  induction k as [k IH] using lt_wf_ind; intros p s t w Hk Hat Hok Hpos Hrc Hl start n.
  destruct (sample t.(tu_rx_pin) s.(reads) || negb (seen t)) eqn:Hv.
  2: { apply orb_false_iff in Hv as [Hv Hs]. apply negb_false_iff in Hs.
       assert (Est : start = Some s.(reads)) by (unfold start; cbn; by rewrite Hv, Hs).
       unfold n. rewrite Est, Nat.sub_diag. by apply read_start. }
  destruct (sync_event_waits p s t w Hat Hv) as (s1 & E & Hat1 & Hfr & Hrd).
  destruct (noted_same (sample t.(tu_rx_pin) s.(reads)) t Hok)
    as (Hok1 & Htx & Hrx & Hcf & Hbt & Hp1 & Hrc1 & Hda & Hfl & Hln & Hsn).
  set (t1 := noted _ _) in *.
  assert (Est : start = find_start t1.(tu_rx_pin) k (seen t1) (S s.(reads)))
    by (unfold start; rewrite Hrx, Hsn; by apply find_start_wait). clearbody start.
  destruct (wp_ret_inv _ _ _ (wp_sync_wait p s1 t1 w Hat1 ltac:(lia))) as (r & s2 & Hrun & Hnext).
  destruct k as [|k].
  - rewrite (proj2 (Z.leb_le _ _)) in Hnext by lia. destruct Hnext as (-> & t2 & Hfin).
    exists s2, t2, t.(tu_data). unfold n. rewrite Est. cbn [find_start received]. rewrite ticks_S.
    rewrite <- Hda at 1. split_and!; [|by eapply finished_from|done]. rewrite <- (finished_high _ _ _ _ _ _ _ Hfin).
    eapply uart_last; [done|by rewrite <- Hrun|]. by destruct Hfin.
  - rewrite (proj2 (Z.leb_gt _ _)) in Hnext by lia. destruct Hnext as (-> & Hfr1 & Hrd1 & Hat2).
    set (t2 := t1 <| tu_pos := _ |>) in *.
    destruct (IH k ltac:(lia) p s2 t2 (w + t.(tu_bit_time))) as (s3 & t3 & data & Hrun3 & Hfin & Hrec).
    { cbn. lia. } { by rewrite <- Hbt. } { by destruct Hok1. } { cbn. lia. } { cbn. lia. } { cbn. by rewrite Hln. }
    change (seen t2) with (seen t1) in *. change (tu_rx_pin t2) with (tu_rx_pin t1) in *.
    change (tu_read_count t2) with (tu_read_count t1) in *. change (tu_data t2) with (tu_data t1) in *.
    rewrite Hrd1, Hrd, <- Est in *. rewrite Hrc1, Hrx, Hda in *.
    exists s3, t3, data. split_and!; [|by eapply finished_from, Hfin; [eapply uart_frame_trans|..]|done].
    set (n1 := match start with Some _ => _ | None => _ end) in Hrun3.
    assert (En : n = S n1).
    { unfold n, n1. destruct start as [m|]; [|done]. symmetry in Est. apply find_start_ge in Est. lia. }
    rewrite En, ticks_S, <- Hl, <- Hln. change (tu_bit_time t2) with (tu_bit_time t1) in Hrun3. rewrite Hbt in *.
    apply (uart_step p s t F_tmcuart_read_sync_event w s2 t2); [done|by rewrite <- Hrun|by destruct Hat2|done].
Qed.

(** The end of the sent bits: the answer is awaited, if one is expected. *)
Lemma wp_finish_event p s t w :
  uart_at p s t F_tmcuart_send_finish_event w →
  wp (tmcuart_send_finish_event p)
    (λ r s', if t.(tu_read_count) =? 0
             then r = SF_DONE ∧ ∃ t', finished p s t 0 t.(tu_data) s' t'
             else r = SF_RESCHEDULE ∧ uart_frame p s s' ∧ s'.(reads) = s.(reads)
               ∧ uart_at p s' (t <| tu_pos := 0 |>) F_tmcuart_read_sync_event (w + 4 * t.(tu_bit_time)))
    (λ _ _, False) s.
Proof.
  intros [Ho (n & Hn & Hf & Hw)]. unfold tmcuart_send_finish_event. wp_steps. eapply wp_read_obj; [done|].
  destruct (Z.eqb_spec t.(tu_read_count) 0) as [E|E].
  - rewrite <- E. by apply wp_finalize.
  - wp_steps. apply wp_when; intros Hsw; wp_steps.
    all: eapply wp_add_wake; [cbn; by rewrite lookup_alter_eq, Hn|]; wp_steps; split_and!; [done|frame_done|done|].
    all: split; [apply obj_at_write|]; eexists; split; [cbn; by rewrite !lookup_alter_eq, Hn|]; split; [done|].
    all: cbn; rewrite Hw, u32_add_l, u32_add_r; f_equal; ring.
Qed.

(** ** A transfer *)

(** The object as [command_tmcuart_send] leaves it. *)
Record started (p : Z) (s : mcu) (t : tmcuart_s) (synced : bool) (w : Z) : Prop := {
  sd_at : uart_at p s t (if synced then F_tmcuart_send_sync_event else F_tmcuart_send_event) w;
  sd_ok : uart_ok t;
  sd_pos : t.(tu_pos) = 0;
  sd_line : line_high t.(tu_flags) = true;
  sd_seen : seen t = false;
  sd_count : if synced then 8 <= t.(tu_write_count) else 0 < t.(tu_write_count) ∧ t.(tu_bit_time) = t.(tu_cfg_bit_time);
  sd_sync : synced = true → ∀ i, 0 <= i < 6 → lbit t.(tu_data) i = Z.odd i;
  sd_read : 0 <= t.(tu_read_count) <= 80;
  sd_start : lbit t.(tu_data) 0 = false;
  sd_stop : lbit t.(tu_data) (t.(tu_write_count) - 1) = true;
}.

(** The time of a bit, the changes of the line that show the bits, and their end. *)
Definition bit_time_of (synced : bool) (s : mcu) (w cfg : Z) : Z := if synced then adjusted s w cfg else cfg.
Definition sent_wave (synced : bool) (s : mcu) (w cfg : Z) (f : Z → bool) (wc : Z) : list (Z * bool) :=
  if synced then wave 5 f 0 w cfg true
    ++ wave (Z.to_nat (wc - 5)) f 5 (w + 4 * cfg + skew s w cfg + adjusted s w cfg) (adjusted s w cfg) false
  else wave (Z.to_nat wc) f 0 w cfg true.
Definition sent_end (synced : bool) (s : mcu) (w cfg wc : Z) : Z :=
  if synced then w + 4 * cfg + skew s w cfg + (wc - 4) * adjusted s w cfg else w + wc * cfg.
Definition sent_reads (synced : bool) (s : mcu) : nat := if synced then (5 + s.(reads))%nat else s.(reads).

Lemma seen_sending t t' : sending t t' → seen t' = seen t.
Proof. intros []. unfold seen. rewrite !(flag_bit _ 2) by lia. by apply sg_flags0. Qed.

(** All bits are shown. *)
Lemma sending_phase p s t synced w :
  started p s t synced w →
  let cfg := t.(tu_cfg_bit_time) in let wc := t.(tu_write_count) in
  ∃ s' t', uart_at p s' t' F_tmcuart_send_finish_event (sent_end synced s w cfg wc)
    ∧ uart_frame p s s' ∧ s'.(reads) = sent_reads synced s ∧ sending t t'
    ∧ t'.(tu_bit_time) = bit_time_of synced s w cfg ∧ line_high t'.(tu_flags) = true
    ∧ ∀ evs s2, uart_run p s' evs s2 → uart_run p s (sent_wave synced s w cfg (lbit t.(tu_data)) wc ++ evs) s2.
Proof.
  intros [Hat Hok Hpos Hl _ Hcnt Hsync _ Hst Hsp] cfg wc.
  destruct synced; unfold sent_end, sent_reads, bit_time_of, sent_wave.
  - specialize (Hsync eq_refl).
    destruct (sync_phase p s t w Hat Hpos Hl) as (s1 & t1 & Hat1 & Hfr1 & Hrd1 & Hsg1 & Hbt1 & Hp1 & Hl1 & Hrun1);
      [intros; apply Hsync; lia|]. pose proof Hsg1 as [_ _ _ Hwc _ Hda _].
    destruct (send_phase (Z.to_nat (wc - 5)) p s1 t1 (w + 4 * cfg + skew s w cfg + adjusted s w cfg))
      as (s2 & t2 & Hat2 & Hfr2 & Hrd2 & Hsg2 & Hbt2 & Hl2 & Hrun2).
    { rewrite Hwc, Hp1. lia. } { done. }
    { destruct Hok. split; rewrite ?Hda, ?Hwc, ?Hbt1; try done. apply u32_range. }
    { rewrite Hwc, Hp1. lia. } { rewrite Hda, Hp1, Hl1. by apply Hsync. }
    rewrite Hbt1 in Hat2, Hbt2, Hrun2. rewrite Hda in Hl2, Hrun2. rewrite Hwc in Hl2. rewrite Hp1, Hl1 in Hrun2.
    exists s2, t2. split_and!; [|by eapply uart_frame_trans|by rewrite Hrd2, Hrd1|by eapply sending_trans|done|by rewrite Hl2|].
    + replace (w + _ + _ + (wc - 4) * _) with (w + 4 * cfg + skew s w cfg + adjusted s w cfg
        + Z.of_nat (Z.to_nat (wc - 5)) * adjusted s w cfg) by (rewrite Z2Nat.id by lia; ring). done.
    + intros evs s3 Hev. rewrite <- app_assoc. by apply Hrun1, Hrun2.
  - destruct Hcnt as [Hcnt Hbt].
    destruct (send_phase (Z.to_nat wc) p s t w) as (s2 & t2 & Hat2 & Hfr2 & Hrd2 & Hsg2 & Hbt2 & Hl2 & Hrun2);
      [rewrite Hpos; lia|done|done|lia|by rewrite Hpos, Hl|].
    rewrite Hpos, Hl, Hbt in *. rewrite Z2Nat.id in Hat2 by lia. exists s2, t2. split_and!; try done. by rewrite Hl2.
Qed.

(** The sample of the start bit of the answer, among 65 that are tried. *)
Definition answer_start (rx rc : Z) (n : nat) : option nat := if rc =? 0 then None else find_start rx 65 false n.

(** The events of a transfer: the changes that show the bits, the end, and the samples. *)
Definition line_events (synced : bool) (s : mcu) (w : Z) (t : tmcuart_s) (f : Z → bool) : list (Z * bool) :=
  let cfg := t.(tu_cfg_bit_time) in
  let e := sent_end synced s w cfg t.(tu_write_count) in
  let bt := bit_time_of synced s w cfg in
  let n := sent_reads synced s in
  sent_wave synced s w cfg f t.(tu_write_count) ++ (u32 e, true) ::
  (if t.(tu_read_count) =? 0 then []
   else ticks match answer_start t.(tu_rx_pin) t.(tu_read_count) n with
              | Some m => m - n + Z.to_nat t.(tu_read_count)
              | None => 65
              end (e + 4 * bt) bt).

Lemma transfer_runs p s t synced w :
  started p s t synced w →
  let start := answer_start t.(tu_rx_pin) t.(tu_read_count) (sent_reads synced s) in
  ∃ s' t' data, uart_run p s (line_events synced s w t (lbit t.(tu_data))) s'
    ∧ finished p s t (if start then t.(tu_read_count) else 0) data s' t'
    ∧ received t.(tu_rx_pin) t.(tu_read_count) start t.(tu_data) data.
Proof.
  intros Hst start. destruct (sending_phase p s t synced w Hst) as (s1 & t1 & Hat1 & Hfr1 & Hrd1 & Hsg1 & Hbt1 & Hl1 & Hrun1).
  destruct Hst as [Hat Hok _ _ Hsn Hcnt _ Hrc _ _]. pose proof Hsg1 as [Htx Hrx Hrcs Hwc Hcfg Hda _].
  assert (Hfl : Z.land t1.(tu_flags) (Z.lor TU_PULLUP TU_SINGLE_WIRE) = Z.land t.(tu_flags) (Z.lor TU_PULLUP TU_SINGLE_WIRE)).
  { apply Z.bits_inj'. intros i Hi. rewrite !Z.land_spec. destruct (Z.eq_dec i 0) as [->|]; [by rewrite !andb_false_r|].
    destruct Hsg1 as [_ _ _ _ _ _ Hf]. by rewrite Hf. }
  destruct (wp_ret_inv _ _ _ (wp_finish_event p s1 t1 _ Hat1)) as (r & s2 & Hrun & Hnext).
  unfold line_events, start, answer_start. rewrite Hrcs in Hnext. destruct (t.(tu_read_count) =? 0) eqn:E0.
  - destruct Hnext as (-> & t2 & Hfin). rewrite Hda in Hfin. exists s2, t2, t.(tu_data). split_and!; [|by eapply finished_from|done].
    apply Hrun1. rewrite <- (finished_high _ _ _ _ _ _ _ Hfin). eapply uart_last; [done..|]. by destruct Hfin.
  - destruct Hnext as (-> & Hfr2 & Hrd2 & Hat2). set (t2 := t1 <| tu_pos := 0 |>) in *. apply Z.eqb_neq in E0.
    destruct (read_sync_phase 64 p s2 t2 (sent_end synced s w t.(tu_cfg_bit_time) t.(tu_write_count) + 4 * t1.(tu_bit_time)))
      as (s3 & t3 & data & Hrun3 & Hfin & Hrec).
    { done. } { done. }
    { destruct Hok. split; cbn; rewrite ?Hda, ?Hwc, ?Hbt1; try done.
      destruct synced; cbn; [apply u32_range|]. destruct Hcnt as [_ <-]. done. }
    { done. } { cbn. lia. } { done. }
    change (seen t2) with (seen t1) in *. rewrite (seen_sending t t1 Hsg1), Hsn in *.
    change (tu_rx_pin t2) with (tu_rx_pin t1) in *. change (tu_read_count t2) with (tu_read_count t1) in *.
    change (tu_data t2) with (tu_data t1) in *. change (tu_bit_time t2) with (tu_bit_time t1) in *.
    rewrite Hrd2, Hrd1, Hrx, Hrcs, Hda, Hbt1 in *.
    exists s3, t3, data. split_and!; [|by eapply finished_from, Hfin; [eapply uart_frame_trans|..]|done].
    apply Hrun1. rewrite <- Hl1. change (tu_flags t1) with (tu_flags t2).
    eapply uart_step; [done|done|by destruct Hat2|done].
Qed.

Lemma wave_ext n (f g : Z → bool) : ∀ pos w bt line,
  (∀ i, pos <= i < pos + Z.of_nat n → f i = g i) → wave n f pos w bt line = wave n g pos w bt line.
Proof.
  induction n as [|n IH]; intros pos w bt line Hfg; cbn [wave]; [done|].
  rewrite (Hfg pos) by lia. f_equal. apply IH. intros. apply Hfg. lia.
Qed.

Lemma line_events_ext (synced : bool) s w t (f g : Z → bool) :
  (if synced then 5 <= t.(tu_write_count) else True) → (∀ i, 0 <= i < t.(tu_write_count) → f i = g i) →
  line_events synced s w t f = line_events synced s w t g.
Proof.
  intros Hw Hfg. unfold line_events, sent_wave. destruct synced; f_equal; [f_equal|]; apply wave_ext; intros; apply Hfg; lia.
Qed.

End Line.
