(* ===== verification/TmcSpec.v ===== *)
(** * Registers of the motor drivers (src/tmcuart.c, elegoo/extras/tmc_uart.cpp, tmc.cpp)

    From the command of the host to the report of the firmware; the registers as the
    host reads and writes them over such transfers; fields of the registers are
    independent of each other. *)

From S2P Require Import Prelude.
From S2P Require Import State.
From S2P Require Import Machine.
From S2P Require Import Sched.
From S2P Require Import SchedList.
From S2P Require Import SchedSpec.
From S2P Require Import Basecmd.
From S2P Require Import BasecmdSpec.
From S2P Require Import StepperCmd.
From S2P Require Import Hal.
From S2P Require Import Tmcuart.
From S2P Require Import Objects.
From S2P Require Import DevicesSpec.
From S2P Require Import Command.
From S2P Require Import HostText.
From S2P Require Import MsgProto.
From S2P Require Import MsgProtoSpec.
From S2P Require Import HostTmc.
From S2P Require Import TmcLine.

(** ** The command *)

Section Command.
Context `{Board}.

Lemma lbit_app l r i : 0 <= i < 8 * Z.of_nat (length l) → lbit (l ++ r) i = lbit l i.
Proof. intros Hi. unfold lbit. rewrite lookup_app_l; [done|]. Z.div_mod_to_equations; lia. Qed.

(** A first byte with the start bit and the bits 1, 0, 1, 0, 1 is used to measure the
    time of a bit. *)
Definition syncs (msg : list Z) : bool := match msg with [] => false | b :: _ => Z.land b 0x3f =? 0x2a end.

Lemma syncs_bits msg i : syncs msg = true → 0 <= i < 6 → lbit msg i = Z.odd i.
Proof.
  destruct msg as [|b msg]; cbn; [done|]. intros E%Z.eqb_eq Hi. unfold lbit.
  rewrite Z.div_small, Z.mod_small by lia. cbn.
  assert (Hb : Z.testbit (Z.land b 0x3f) i = Z.testbit 0x2a i) by (by rewrite E).
  rewrite Z.land_spec in Hb.
  assert (Hc : i = 0 ∨ i = 1 ∨ i = 2 ∨ i = 3 ∨ i = 4 ∨ i = 5) by lia.
  destruct Hc as [->|[->|[->|[->|[->| ->]]]]]; cbn in *; by rewrite ?andb_true_r in Hb.
Qed.

(** An object that no transfer uses. *)
Record uart_idle (s : mcu) (p : Z) (t : tmcuart_s) : Prop := {
  ui_obj : obj_at s p t;
  ui_timer : is_Some (s.(timers) !! obj_timer p);
  ui_active : flag_set t.(tu_flags) TU_ACTIVE = false;
  ui_line : line_high t.(tu_flags) = true;
  ui_length : length t.(tu_data) = 10%nat;
  ui_bytes : byte_list t.(tu_data);
  ui_cfg : 0 <= t.(tu_cfg_bit_time) < 2 ^ 32;
  ui_bit : 0 <= t.(tu_bit_time) < 2 ^ 32;
}.

(** The bytes of a buffer argument. *)
Definition buffer_at (s : mcu) (ptr : Z) (msg : list Z) : Prop :=
  0 <= command_decode_ptr ptr
  ∧ take (length msg) (drop (Z.to_nat (command_decode_ptr ptr)) s.(serial).(receive_buf)) = msg.

Lemma wp_read_buffer s ptr msg Q E :
  msg ≠ [] → buffer_at s ptr msg → Q msg s → wp (read_buffer ptr (Z.of_nat (length msg))) Q E s.
Proof.
  intros Hne [Hp Hm] HQ. unfold read_buffer. wp_steps. rewrite (proj2 (Z.leb_le _ _)) by done.
  assert (Hl : (length msg <= length s.(serial).(receive_buf) - Z.to_nat (command_decode_ptr ptr))%nat)
    by (rewrite <- length_drop, <- Hm at 1; rewrite length_take; lia).
  assert (length msg ≠ 0%nat) by (by destruct msg).
  rewrite (proj2 (Z.leb_le _ _)), Nat2Z.id, Hm by lia. by apply wp_ret.
Qed.

(** The object with a transfer to do. *)
Definition loaded_uart (t : tmcuart_s) (msg : list Z) (read_len : Z) : tmcuart_s :=
  t <| tu_data ::= λ d, msg ++ drop (length msg) d |> <| tu_pos := 0 |>
    <| tu_flags ::= λ f, Z.lor (Z.land f (Z.lor (Z.lor TU_LINE_HIGH TU_PULLUP) TU_SINGLE_WIRE)) TU_ACTIVE |>
    <| tu_write_count := 8 * Z.of_nat (length msg) |> <| tu_read_count := 8 * read_len |>
    <| tu_bit_time ::= λ b, if syncs msg then b else t.(tu_cfg_bit_time) |>.

Record sendable (msg : list Z) (read_len : Z) : Prop := {
  se_length : (1 <= length msg <= 10)%nat;
  se_bytes : byte_list msg;
  se_start : lbit msg 0 = false;
  se_stop : lbit msg (8 * Z.of_nat (length msg) - 1) = true;
  se_read : 0 <= read_len <= 10;
}.

Lemma loaded_started p s t msg read_len w :
  uart_idle s p t → sendable msg read_len →
  ∀ s', uart_at p s' (loaded_uart t msg read_len)
          (if syncs msg then F_tmcuart_send_sync_event else F_tmcuart_send_event) w →
  started p s' (loaded_uart t msg read_len) (syncs msg) w.
Proof.
  intros [_ _ _ Hl Hlen Hby Hc Hb] [Hml Hmb Hst Hsp Hr] s' Hat.
  split; cbn; try done.
  - split; cbn; [rewrite length_app, length_drop; lia| |lia|by destruct (syncs msg)].
    apply Forall_app. split; [done|]. by apply Forall_drop.
  - rewrite line_high_bit, Z.lor_spec, Z.land_spec, <- line_high_bit, Hl. done.
  - unfold seen. rewrite (flag_bit _ 2) by lia. cbn. rewrite Z.lor_spec, Z.land_spec. cbn. by rewrite andb_false_r.
  - destruct (syncs msg); lia.
  - intros Hs i Hi. rewrite lbit_app by lia. by apply syncs_bits.
  - lia.
  - by rewrite lbit_app by lia.
  - by rewrite lbit_app by lia.
Qed.

Definition send_args (oid ptr : Z) (msg : list Z) (read_len : Z) : list Z :=
  [oid; Z.of_nat (length msg); ptr; read_len].

(** The time of the first event. *)
Definition first_event (s : mcu) : Z := u32 (hw_time s.(reads)) + timer_from_us 200.

(** The end of the command: the timer of the object is queued. *)
Lemma wp_start_timer b U p s n :
  s.(timers) !! obj_timer p = Some n →
  sched_inv b s U → obj_timer p ∉ U → off b (first_event s) < 2 ^ 31 →
  wp (irq_disable;; now ← timer_read_time; set_waketime (obj_timer p) (now + timer_from_us 200);;
      sched_add_timer (obj_timer p);; irq_enable)
    (λ _ s', (∃ n', s'.(timers) !! obj_timer p = Some n' ∧ n'.(func) = n.(func) ∧ n'.(waketime) = u32 (first_event s))
       ∧ s'.(objs) = s.(objs) ∧ s'.(base) = s.(base) ∧ s'.(cmd) = s.(cmd)
       ∧ ∃ U', sched_inv b s' U' ∧ obj_timer p ∈ U')
    (λ r _, r = "Timer too close") s.
Proof.
  intros Hn Hinv Hnot Hoff. wp_steps.
  match goal with |- wp _ _ _ ?s0 => set (s1 := s0) end.
  assert (Hn1 : s1.(timers) !! obj_timer p = Some (n <| waketime := u32 (first_event s) |>))
    by (cbn; by rewrite lookup_alter_eq, Hn).
  eapply wp_mono; [apply (wp_sched_add_timer b s1 U)| |].
  { eapply sched_inv_ext; [exact Hinv| |done..]. intros x Hx. cbn. rewrite lookup_alter_ne; [done|].
    intros <-. unfold obj_timer in *. set_solver. }
  { done. } { done. } { done. } { by eexists. }
  { erewrite wk_lookup by done. cbn. by rewrite off_u32. }
  - intros [] s6 (_ & (U' & Hinv' & Hlive) & Hwk & Hfn & []). wp_steps. split_and!; try done.
    + specialize (Hwk (obj_timer p) ltac:(done)). specialize (Hfn (obj_timer p)). rewrite (wk_lookup _ _ _ Hn1) in Hwk.
      rewrite Hn1 in Hfn. cbn in *. destruct (s6.(timers) !! obj_timer p) as [n'|] eqn:En; [|done].
      exists n'. rewrite (wk_lookup _ _ _ En) in Hwk. by injection Hfn.
    + exists U'. split; [by eapply sched_inv_ext|].
      assert (Hl : obj_timer p ∈ live U') by (rewrite Hlive; apply q_insert_elem; by left).
      by apply list_elem_of_filter in Hl as [].
  - by intros r s6 (-> & _).
Qed.

Lemma wp_tmcuart_send b U p s t oid ptr msg read_len :
  oid_names s oid OT_tmcuart p → uart_idle s p t → buffer_at s ptr msg → sendable msg read_len →
  sched_inv b s U → obj_timer p ∉ U → off b (first_event s) < 2 ^ 31 →
  wp (command_tmcuart_send (send_args oid ptr msg read_len))
    (λ _ s', started p s' (loaded_uart t msg read_len) (syncs msg) (first_event s)
       ∧ uart_frame p s s' ∧ ∃ U', sched_inv b s' U' ∧ obj_timer p ∈ U')
    (λ r _, r = "Timer too close") s.
Proof.
  intros Ho Hi Hbuf Hse Hinv Hnot Hoff. unfold command_tmcuart_send, send_args. wp_steps.
  eapply wp_oid_lookup; [done|]. pose proof Hi as [Hob [n Hn] Hact Hl Hlen Hby Hc Hb].
  pose proof Hse as [Hml Hmb Hst Hsp Hr]. wp_steps. eapply wp_read_obj; [done|]. rewrite Hact.
  rewrite !(u8_small) by lia. rewrite !(proj2 (Z.ltb_ge _ _)) by lia. cbn [orb]. wp_steps.
  apply (wp_read_buffer s ptr msg); [by intros ->; cbn in *; lia|done|]. wp_steps.
  match goal with |- context [write_obj p (?t0 <| tu_bit_time := _ |>)] => set (t1 := t0) in * end.
  assert (E : t1 <| tu_bit_time ::= λ b, if syncs msg then b else t.(tu_cfg_bit_time) |> = loaded_uart t msg read_len).
  { unfold t1, loaded_uart. by rewrite (Z.mul_comm 8), (Z.mul_comm 8). }
  assert (Hfirst : ∃ b0, t1.(tu_data) !! 0%nat = Some b0 ∧ syncs msg = (Z.land b0 63 =? 42))
    by (unfold t1; destruct msg as [|b0 r]; [by cbn in Hml; lia|]; by exists b0).
  destruct Hfirst as (b0 & -> & Hsy). cbn [of_option]. wp_steps.
  rewrite (proj2 (Z.leb_le _ _)), <- Hsy by lia. cbn [andb].
  apply (wp_mono _ (λ _ s2, obj_at s2 p (loaded_uart t msg read_len)
    ∧ (∀ q, q ≠ p → s2.(objs) !! q = s.(objs) !! q) ∧ s2 = s <| objs := s2.(objs) |>
         <| timers ::= alter (λ r, r <| func := if syncs msg then F_tmcuart_send_sync_event else F_tmcuart_send_event |>) (obj_timer p) |>)
    _ (λ _ _, False)); [| |done].
  { destruct (syncs msg); wp_steps; (split_and!; [rewrite <- E; apply obj_at_write| |done]);
    intros q Hq; cbn; by rewrite !lookup_insert_ne by done. }
  intros [] s2 (Hob2 & Hq2 & E2). set (fn := if syncs msg then _ else _) in *.
  assert (Hn2 : s2.(timers) !! obj_timer p = Some (n <| func := fn |>))
    by (rewrite E2; cbn; by rewrite lookup_alter_eq, Hn).
  eapply wp_mono; [apply (wp_start_timer b U p s2 _ Hn2)| |done].
  { eapply sched_inv_ext; [exact Hinv| |by rewrite E2..]. intros x Hx. rewrite E2. cbn. rewrite lookup_alter_ne; [done|].
    intros <-. unfold obj_timer in *. set_solver. }
  { done. }
  { rewrite E2. done. }
  intros [] s3 ((n3 & Hn3 & Hf3 & Hw3) & Hob3 & Hba3 & Hcm3 & HU). split_and!; [| |done].
  2: { split; [by rewrite Hba3, E2|by rewrite Hcm3, E2|]. intros q Hq. rewrite Hob3. by apply Hq2. }
  apply (loaded_started p s); [done|done|]. split; [unfold obj_at in *; by rewrite Hob3|]. exists n3.
  split_and!; [done|done|]. rewrite Hw3, E2. done.
Qed.

(** ** The report *)

(** The body of [tmcuart_task]. *)
Definition report_uart (oid p : Z) : M unit :=
  t ← read_obj p;
  if negb (flag_set t.(tu_flags) TU_REPORT) then mret tt
  else
    irq_disable;;
    write_obj p (t <| tu_flags ::= λ f, u8 (Z.land f (Z.lnot TU_REPORT)) |>);;
    irq_enable;;
    sendf "tmcuart_response oid=%c read=%*s"
      [A_int oid; A_buf (take (Z.to_nat (t.(tu_read_count) / 8)) t.(tu_data))].

(** The answers reported for an object among the events of a trace, oldest first. *)
Definition response_of (oid : Z) (e : event) : option (list Z) :=
  match e with
  | Ev_send fmt [A_int o; A_buf bytes] =>
      if bool_decide (fmt = "tmcuart_response oid=%c read=%*s") && (o =? oid) then Some bytes else None
  | _ => None
  end.
Definition responses (oid : Z) (evs : list event) : list (list Z) := omap (response_of oid) (reverse evs).

Definition to_report (t : tmcuart_s) : bool := flag_set t.(tu_flags) TU_REPORT.
Definition answer_of (t : tmcuart_s) : list Z := take (Z.to_nat (t.(tu_read_count) / 8)) t.(tu_data).

Definition uarts (l : list (Z * Z)) (s : mcu) : Prop := ∀ i q, (i, q) ∈ l → ∃ t : tmcuart_s, obj_at s q t.

Lemma wp_report_uart i q t oid s :
  obj_at s q t → s.(cmd).(in_sendf) = false →
  wp (report_uart i q)
    (λ _ s', s'.(cmd).(in_sendf) = false ∧ (∃ t', s'.(objs) = <[q := O_tmcuart_s t']> s.(objs))
       ∧ ∃ evs, s'.(trace) = evs ++ s.(trace)
           ∧ responses oid evs = if to_report t && (i =? oid) then [answer_of t] else [])
    (λ _ _, False) s.
Proof.
  intros Ho Hs. unfold report_uart, to_report. wp_steps. eapply wp_read_obj; [done|].
  destruct (flag_set _ _); cbn [negb andb]; wp_steps.
  - unfold sent. cbn. rewrite Hs. split_and!; [done|by eexists|]. eexists [_]. split; [done|].
    unfold responses. cbn. by destruct (i =? oid).
  - split_and!; [done| |by exists []]. exists t. symmetry. by apply insert_id.
Qed.

Lemma uarts_insert s s' q (t : tmcuart_s) l : s'.(objs) = <[q := O_tmcuart_s t]> s.(objs) → uarts l s → uarts l s'.
Proof.
  intros Ho Hl i' q' Hin. unfold obj_at. rewrite Ho. destruct (decide (q' = q)) as [->|].
  - eexists. apply lookup_insert_eq.
  - rewrite lookup_insert_ne by done. by eapply Hl.
Qed.

(** The reports of other objects. *)
Lemma wp_report_others oid p (t : tmcuart_s) l s :
  oid ∉ l.*1 → p ∉ l.*2 → uarts l s → obj_at s p t → s.(cmd).(in_sendf) = false →
  wp (iter_oids l report_uart)
    (λ _ s', s'.(cmd).(in_sendf) = false ∧ (∀ l', uarts l' s → uarts l' s') ∧ obj_at s' p t
       ∧ ∃ evs, s'.(trace) = evs ++ s.(trace) ∧ responses oid evs = [])
    (λ _ _, False) s.
Proof.
  revert s. induction l as [|[i q] l IH]; intros s Hi Hp Hty Ho Hs; cbn [iter_oids].
  { wp_steps. split_and!; [done|done|done|by exists []]. }
  rewrite !fmap_cons, !not_elem_of_cons in *. cbn in Hi, Hp. destruct Hi as [Hi Hil], Hp as [Hp Hpl]. wp_steps.
  destruct (Hty i q) as [tq Hq]; [by apply elem_of_cons; left|].
  eapply wp_mono; [by apply (wp_report_uart i q tq oid)| |done]. cbv beta.
  intros _ s1 (Hs1 & (tq' & Ho1) & evs & Ht1 & Hev). rewrite (proj2 (Z.eqb_neq i oid)), andb_false_r in Hev by done.
  assert (Hty1 : ∀ l', uarts l' s → uarts l' s1) by (intros l'; by eapply uarts_insert).
  eapply wp_mono; [apply (IH s1); [done|done| | |done]| |done]; cbv beta.
  - apply Hty1. intros i' q' Hin. apply (Hty i'). by apply elem_of_cons; right.
  - unfold obj_at in *. by rewrite Ho1, lookup_insert_ne.
  - intros _ s2 (Hs2 & Hty2 & Ho2 & evs2 & Ht2 & Hev2). split_and!; [done|by auto|done|].
    exists (evs2 ++ evs). rewrite Ht2, Ht1, app_assoc. split; [done|].
    unfold responses in *. by rewrite reverse_app, omap_app, Hev, Hev2.
Qed.

Lemma iter_oids_app l1 l2 body s : iter_oids (l1 ++ l2) body s = (iter_oids l1 body;; iter_oids l2 body) s.
Proof.
  revert s. induction l1 as [|[i d] l1 IH]; intros s; [done|]. cbn [app iter_oids].
  unfold mbind, M_bind in *. destruct (body i d s) as [[] s1]; [apply IH|done|done].
Qed.

(** The objects of the uarts as the table of the oids has them. *)
Record uart_table (oid p : Z) (s : mcu) : Prop := {
  ut_oids : oids_ok s.(base);
  ut_name : oid_names s oid OT_tmcuart p;
  ut_only : ∀ i q, (i, q) ∈ oids_of s.(base) OT_tmcuart → (i = oid ↔ q = p);
  ut_objs : uarts (oids_of s.(base) OT_tmcuart) s;
  ut_sendf : s.(cmd).(in_sendf) = false;
}.

Lemma keeps_report_uart : keeps_oids report_uart.
Proof.
  intros i d s. unfold report_uart, read_obj, mbind, M_bind. cbn.
  destruct (s.(objs) !! d) as [o|]; [|done]. cbn. destruct o; try done. cbn.
  destruct (negb _); [done|]. cbn. rewrite op_eq. cbn. unfold sent. cbn. by destruct (in_sendf _).
Qed.

(** The object is in the table once. *)
Lemma uart_table_split oid p s :
  uart_table oid p s → ∃ l1 l2, oids_of s.(base) OT_tmcuart = l1 ++ (oid, p) :: l2
    ∧ oid ∉ l1.*1 ∧ oid ∉ l2.*1 ∧ p ∉ l1.*2 ∧ p ∉ l2.*2.
Proof.
  intros [_ Hname Honly _ _].
  destruct (list_elem_of_split _ _ (oids_of_elem s oid OT_tmcuart p Hname)) as (l1 & l2 & El).
  pose proof (typed_NoDup (default [] s.(base).(oids)) 0 OT_tmcuart) as Hnd.
  change (typed _ 0 OT_tmcuart) with (oids_of s.(base) OT_tmcuart) in Hnd. rewrite El in *.
  rewrite fmap_app, fmap_cons, NoDup_app, NoDup_cons in Hnd. cbn in Hnd. destruct Hnd as (_ & Hd & Hnot & _).
  assert (H1 : oid ∉ l1.*1) by (intros Hin; apply (Hd oid Hin); by apply elem_of_cons; left).
  assert (Hq : ∀ l, (∀ x, x ∈ l → x ∈ l1 ++ (oid, p) :: l2) → oid ∉ l.*1 → p ∉ l.*2).
  { intros l Hl Hn ([i q] & Eq & Hin)%list_elem_of_fmap. cbn in Eq. apply Hn. apply list_elem_of_fmap. exists (i, q).
    split; [|done]. cbn. symmetry. by apply (Honly i q); [apply Hl|]. }
  exists l1, l2. split_and!; try done; apply Hq; try done; set_solver.
Qed.

(** The task reports the answer of the object. *)
Lemma wp_uart_task oid p t s :
  uart_table oid p s → obj_at s p t → s.(wakes) W_tmcuart = true → to_report t = true →
  wp tmcuart_task
    (λ _ s', ∃ evs, s'.(trace) = evs ++ s.(trace) ∧ responses oid evs = [answer_of t])
    (λ _ _, False) s.
Proof.
  intros Htb Ho Hw Hr. destruct (uart_table_split oid p s Htb) as (l1 & l2 & El & H1 & H2 & Hp1 & Hp2).
  destruct Htb as [Hok _ _ Hty Hs]. unfold tmcuart_task, sched_check_wake. wp_steps. rewrite Hw. wp_steps. cbn [negb].
  match goal with |- wp _ ?Q ?E ?s0 => set (s1 := s0); change (wp (foreach_oid OT_tmcuart report_uart) Q E s1) end.
  unfold wp. rewrite (foreach_oid_iter OT_tmcuart report_uart s1 keeps_report_uart Hok).
  change (oids_of s1.(base) OT_tmcuart) with (oids_of s.(base) OT_tmcuart). rewrite El in *.
  rewrite iter_oids_app. apply wp_bind.
  eapply wp_mono; [apply (wp_report_others oid p t l1)| |done]; [done|done| |done|done|].
  { intros i q Hin. apply (Hty i). set_solver. }
  intros _ s2 (Hs2 & Hty2 & Ho2 & evs2 & Ht2 & Hev2). cbn [iter_oids]. wp_steps.
  eapply wp_mono; [by apply (wp_report_uart oid p t oid)| |done]. cbv beta.
  intros _ s3 (Hs3 & (t3 & Ho3) & evs3 & Ht3 & Hev3). rewrite Hr, Z.eqb_refl in Hev3. cbn in Hev3.
  eapply wp_mono; [apply (wp_report_others oid p t3 l2)| |done]; [done|done| | |done|].
  { eapply uarts_insert; [exact Ho3|]. apply Hty2. intros i q Hin. apply (Hty i). set_solver. }
  { unfold obj_at. rewrite Ho3. apply lookup_insert_eq. }
  intros _ s4 (_ & _ & _ & evs4 & Ht4 & Hev4). exists (evs4 ++ evs3 ++ evs2).
  rewrite Ht4, Ht3, Ht2, !app_assoc. split; [done|].
  unfold responses in *. by rewrite !reverse_app, !omap_app, Hev4, Hev3, Hev2.
Qed.

Lemma uart_table_frame oid p s s' (t : tmcuart_s) :
  uart_table oid p s → uart_frame p s s' → obj_at s' p t → uart_table oid p s'.
Proof.
  intros [Hok Hname Honly Hty Hs] [Hb Hc Hq] Ho. unfold oid_names in *. split; unfold oid_names; rewrite ?Hb, ?Hc; try done.
  intros i q Hin. destruct (decide (q = p)) as [->|]; [by eexists|]. unfold obj_at. rewrite Hq by done. by eapply Hty.
Qed.

Lemma finished_reports p s t rc data s' t' :
  finished p s t rc data s' t' → to_report t' = true ∧ answer_of t' = take (Z.to_nat (rc / 8)) data.
Proof.
  intros [_ _ _ _ _ _ Hr Hd Hf]. unfold to_report, answer_of. rewrite Hr, Hd, Hf. split; [|done].
  rewrite (flag_bit _ 3) by lia. rewrite Z.lor_spec. by rewrite orb_true_r.
Qed.

(** From the command to the report: the events on the line, and what is reported. *)
Lemma uart_transaction b U p s t oid ptr msg read_len :
  uart_table oid p s → uart_idle s p t → buffer_at s ptr msg → sendable msg read_len →
  sched_inv b s U → obj_timer p ∉ U → off b (first_event s) < 2 ^ 31 →
  match command_tmcuart_send (send_args oid ptr msg read_len) s with
  | (Ret _, s1) =>
      let t1 := loaded_uart t msg read_len in
      let start := answer_start t.(tu_rx_pin) (8 * read_len) (sent_reads (syncs msg) s1) in
      ∃ s2 data, uart_run p s1 (line_events (syncs msg) s1 (first_event s) t1 (lbit msg)) s2
        ∧ received t.(tu_rx_pin) (8 * read_len) start t1.(tu_data) data
        ∧ match tmcuart_task s2 with
          | (Ret _, s3) => ∃ evs, s3.(trace) = evs ++ s2.(trace)
              ∧ responses oid evs = [take (if start then Z.to_nat read_len else 0) data]
          | _ => False
          end
  | (Shut r, _) => r = "Timer too close"
  | (Stuck _, _) => False
  end.
Proof.
  intros Htb Hi Hbuf Hse Hinv Hnot Hoff.
  pose proof (wp_tmcuart_send b U p s t oid ptr msg read_len (ut_name _ _ _ Htb) Hi Hbuf Hse Hinv Hnot Hoff) as Hwp.
  unfold wp in Hwp. destruct (command_tmcuart_send _ s) as [[[]|r|] s1]; [|done|done].
  destruct Hwp as (Hst & Hfr & _). intros t1 start.
  destruct (transfer_runs p s1 t1 (syncs msg) _ Hst) as (s2 & t2 & data & Hrun & Hfin & Hrec).
  exists s2, data. split_and!; [|done|].
  - erewrite line_events_ext; [exact Hrun| |].
    + destruct Hst as [_ _ _ _ _ Hc _ _ _ _]. destruct (syncs msg); [cbn in *; lia|done].
    + intros i Hi'. cbn. rewrite lbit_app; [done|]. cbn in Hi'. lia.
  - destruct (finished_reports _ _ _ _ _ _ _ Hfin) as [Hr Ha]. pose proof Hfin as [Ho2 Hfr2 Hw _ _ _ _ _ _].
    assert (Htb2 : uart_table oid p s2) by (eapply uart_table_frame; [done|by eapply uart_frame_trans|done]).
    pose proof (wp_uart_task oid p t2 s2 Htb2 Ho2 Hw Hr) as Ht. unfold wp in Ht.
    destruct (tmcuart_task s2) as [[[]|r|] s3]; [|done|done]. destruct Ht as (evs & Htr & Hev). exists evs. split; [done|].
    rewrite Hev, Ha. do 2 f_equal. unfold start. change (8 * read_len) with t1.(tu_read_count).
    change (tu_rx_pin t) with (tu_rx_pin t1). destruct (answer_start _ _ _); [|done]. cbn.
    rewrite Z.mul_comm, Z.div_mul; done.
Qed.

(** ** Datagrams on the line *)

Lemma serial_message dg read_len :
  byte_list dg → dg !! 0%nat = Some 0xf5 → length dg = 4%nat ∨ length dg = 8%nat → 0 <= read_len <= 10 →
  let msg := _add_serial_bits dg in
  sendable msg read_len ∧ syncs msg = true ∧ 8 * Z.of_nat (length msg) = 10 * Z.of_nat (length dg)
  ∧ ∀ i, 0 <= i → lbit msg i = serial_bit dg i.
Proof.
  intros Hb Hd0 Hlen Hr msg. destruct (serial_bits dg Hb) as (Hmb & Hml & Hbits). fold msg in Hmb, Hml, Hbits.
  assert (Hl8 : 8 * Z.of_nat (length msg) = 10 * Z.of_nat (length dg)).
  { rewrite Hml. destruct Hlen as [-> | ->]; done. }
  assert (Hfirst : ∀ i, 0 <= i < 6 → lbit msg i = Z.odd i).
  { intros i Hi. rewrite Hbits by lia. unfold serial_bit. rewrite Z.div_small, Z.mod_small by lia. change (Z.to_nat 0) with 0%nat. rewrite Hd0.
    assert (Hc : i = 0 ∨ i = 1 ∨ i = 2 ∨ i = 3 ∨ i = 4 ∨ i = 5) by lia.
    by destruct Hc as [->|[->|[->|[->|[->| ->]]]]]. }
  split_and!; [|  |done|done].
  - split; [lia|done|by apply Hfirst| |done]. rewrite Hl8, Hbits by lia. unfold serial_bit.
    destruct (lookup_lt_is_Some_2 dg (length dg - 1)) as [d Hd]; [lia|].
    replace ((10 * Z.of_nat (length dg) - 1) / 10) with (Z.of_nat (length dg - 1)) by (Z.div_mod_to_equations; lia).
    replace ((10 * Z.of_nat (length dg) - 1) mod 10) with 9 by (Z.div_mod_to_equations; lia).
    by rewrite Nat2Z.id, Hd.
  - destruct msg as [|b0 m]; [cbn in Hl8; lia|]. cbn. apply Z.eqb_eq, Z.bits_inj'. intros i Hi. rewrite Z.land_spec.
    destruct (Z.ltb_spec i 6).
    + specialize (Hfirst i ltac:(lia)). unfold lbit in Hfirst. rewrite Z.div_small, Z.mod_small in Hfirst by lia.
      change (Z.testbit b0 i = Z.odd i) in Hfirst. rewrite Hfirst.
      assert (Hc : i = 0 ∨ i = 1 ∨ i = 2 ∨ i = 3 ∨ i = 4 ∨ i = 5) by lia.
      by destruct Hc as [->|[->|[->|[->|[->| ->]]]]].
    + rewrite (Z.bits_above_log2 63), (Z.bits_above_log2 42) by (cbn; lia). apply andb_false_r.
Qed.

Lemma lbit_ext l1 l2 :
  byte_list l1 → byte_list l2 → length l1 = length l2 →
  (∀ j, 0 <= j < 8 * Z.of_nat (length l1) → lbit l1 j = lbit l2 j) → l1 = l2.
Proof.
  intros H1 H2 Hl Hb. apply (list_eq_same_length l1 l2 _ eq_refl Hl). intros i x y Hi Hx Hy.
  assert (Hxb : is_byte x) by exact (Forall_lookup_1 _ _ _ _ H1 Hx).
  assert (Hyb : is_byte y) by exact (Forall_lookup_1 _ _ _ _ H2 Hy).
  apply Z.bits_inj'. intros k Hk. destruct (Z.ltb_spec k 8); [|by rewrite !testbit_high].
  specialize (Hb (8 * Z.of_nat i + k) ltac:(lia)). unfold lbit in Hb.
  replace ((8 * Z.of_nat i + k) / 8) with (Z.of_nat i) in Hb by (Z.div_mod_to_equations; lia).
  replace ((8 * Z.of_nat i + k) mod 8) with k in Hb by (Z.div_mod_to_equations; lia).
  by rewrite Nat2Z.id, Hx, Hy in Hb.
Qed.

(** The chip answers with the datagram of a register: after the start bit is seen, the
    samples are its bits. *)
Definition chip_answers (rx : Z) (n : nat) (reg v : Z) : Prop :=
  ∃ m, find_start rx 65 false n = Some m
    ∧ ∀ j, 0 <= j < 80 → sample rx (Z.to_nat j + S m) = serial_bit (datagram ([0x05; 0xff; reg] ++ register_bytes v)) j.

Lemma received_bytes rx rc n d data k :
  received rx rc (answer_start rx rc n) d data →
  byte_list (take (if answer_start rx rc n then k else 0) data).
Proof.
  unfold received. destruct (answer_start rx rc n); [|intros; constructor]. intros (_ & Hb & _). by apply Forall_take.
Qed.

Lemma answer_decodes rx n d data reg v :
  received rx 80 (answer_start rx 80 n) d data → is_byte reg → 0 <= v < 2 ^ 32 →
  _decode_read reg (take (if answer_start rx 80 n then Z.to_nat 10 else 0) data) = Some v ↔ chip_answers rx n reg v.
Proof.
  intros Hrec Hreg Hv. unfold chip_answers. change (answer_start rx 80 n) with (find_start rx 65 false n) in *.
  destruct (find_start rx 65 false n) as [m|] eqn:Es; cbn in Hrec.
  2: { split; [done|]. by intros (m & ? & _). }
  destruct Hrec as (Hl & Hb & Hbits). rewrite take_ge by (rewrite Hl; done).
  assert (Hdg : byte_list (datagram ([0x05; 0xff; reg] ++ register_bytes v)))
    by (apply datagram_bytes; unfold is_byte in *; lia).
  assert (Hw : _encode_write 0x05 0xff reg v = _add_serial_bits (datagram ([0x05; 0xff; reg] ++ register_bytes v)))
    by apply encode_write_serial.
  destruct (serial_bits _ Hdg) as (Hmb & Hml & Hser). rewrite <- Hw in Hmb, Hml, Hser.
  assert (Hml' : length (_encode_write 0x05 0xff reg v) = 10%nat) by (apply Nat2Z.inj; exact Hml).
  split.
  - intros Hd. exists m. split; [done|]. intros j Hj. rewrite <- Hser, <- (decode_exact _ _ _ Hd), Hbits by lia.
    by rewrite (proj2 (Z.ltb_lt _ _)) by lia.
  - intros (m' & [= <-] & Hsm). assert (data = _encode_write 0x05 0xff reg v) as ->; [|by apply decode_encode].
    apply lbit_ext; [done|done|congruence|]. intros j Hj. rewrite Hbits, Hser by lia.
    rewrite (proj2 (Z.ltb_lt _ _)) by lia. apply Hsm. lia.
Qed.

Lemma read_message addr reg :
  is_byte addr → is_byte reg → let dg := datagram [0xf5; addr; reg] in
  sendable (_encode_read 0xf5 addr reg) 10 ∧ syncs (_encode_read 0xf5 addr reg) = true
  ∧ 8 * Z.of_nat (length (_encode_read 0xf5 addr reg)) = 40
  ∧ ∀ i, 0 <= i → lbit (_encode_read 0xf5 addr reg) i = serial_bit dg i.
Proof.
  intros Ha Hr dg. apply (serial_message dg 10); [|done|by left|lia].
  apply Forall_app_2; [|apply Forall_singleton, crc8_byte]. repeat constructor; unfold is_byte in *; lia.
Qed.

End Command.

(** The query of the host returns the bytes that the firmware reports. *)
Definition answered {W} (send : list Any → Z → H W (smap string)) (oid : Z) (msg : list Z) (read_len minclock : Z)
    (bytes : list Z) (w w' : W) : Prop :=
  ∃ params, send [Any_string (to_string oid); Any_bytes msg; Any_string (to_string read_len)] minclock w = (Val params, w')
    ∧ smap_find "read" params = Some (bytes_string bytes).

Lemma reg_read_answered {W} send upd instance_id addr reg u bytes (w w' : W) :
  byte_list bytes → u.(ub_analog_mux) = None →
  answered send u.(ub_oid) (_encode_read 0xf5 addr reg) 10 0 bytes w w' →
  reg_read send upd instance_id addr reg (w, u) = (Val (_decode_read reg bytes), (w', u)).
Proof.
  intros Hb Hm (params & Hs & Hp). unfold reg_read, activate, mbind, H_bind, mret, H_ret, get_obj, in_world.
  cbn [fst snd]. rewrite Hm. cbn [fst snd]. rewrite Hs, Hp. by rewrite str_bytes_string.
Qed.


(** *** An example: a chip that answers with the value 7 in the register 2 *)

Definition answering (f : Z → bool) : Board := {|
  CONFIG_CLOCK_FREQ := example_board.(CONFIG_CLOCK_FREQ);
  CONFIG_INLINE_STEPPER_HACK := example_board.(CONFIG_INLINE_STEPPER_HACK);
  CONFIG_HAVE_STEPPER_BOTH_EDGE := example_board.(CONFIG_HAVE_STEPPER_BOTH_EDGE);
  CONFIG_MACH_AVR := example_board.(CONFIG_MACH_AVR);
  int_fast8_bits := example_board.(int_fast8_bits);
  dynmem_start := example_board.(dynmem_start);
  dynmem_end := example_board.(dynmem_end);
  alignof_ptr := example_board.(alignof_ptr);
  sizeof_oid := example_board.(sizeof_oid);
  sizeof_oid_s := example_board.(sizeof_oid_s);
  sizeof_move_node := example_board.(sizeof_move_node);
  sizeof_move := example_board.(sizeof_move);
  hw_time := λ n, 1000 * Z.of_nat n;
  hw_gpio_in := λ _ n, if (n <? 11)%nat then (if (n =? 10)%nat then 0 else 1) else b2z (f (Z.of_nat n - 11));
  gpio_valid := example_board.(gpio_valid);
  sizeof_size_t := example_board.(sizeof_size_t);
  rx_addr := example_board.(rx_addr);
  adc_valid := example_board.(adc_valid);
  hw_adc_sample := example_board.(hw_adc_sample);
  hw_adc_read := example_board.(hw_adc_read);
  pwm_valid := example_board.(pwm_valid);
  CONFIG_WANT_SOFTWARE_SPI := example_board.(CONFIG_WANT_SOFTWARE_SPI);
  CONFIG_WANT_SOFTWARE_I2C := example_board.(CONFIG_WANT_SOFTWARE_I2C);
  spi_valid := example_board.(spi_valid);
  hw_spi_in := example_board.(hw_spi_in);
  i2c_valid := example_board.(i2c_valid);
  hw_i2c_in := example_board.(hw_i2c_in);
  CONFIG_HAVE_BOOTLOADER_REQUEST := example_board.(CONFIG_HAVE_BOOTLOADER_REQUEST);
|}.
Definition seven : Z → bool := serial_bit (datagram ([0x05; 0xff; 2] ++ register_bytes 7)).

Definition example_uart : tmcuart_s :=
  mk_tmcuart_s 7 5 (Z.lor TU_LINE_HIGH TU_PULLUP) 0 0 0 500 0 (repeat 0 10).
Definition example_uart_mcu : mcu :=
  init_mcu <| objs := {[4096 := O_tmcuart_s example_uart]} |>
    <| timers ::= <[obj_timer 4096 := mk_timer None F_null 0]> |>
    <| serial ::= λ c, c <| receive_buf := _encode_read 0xf5 3 2 ++ repeat 0 100 |> |>
    <| base ::= λ c, c <| oid_count := 1 |> <| oids := Some [mk_oid_s OT_tmcuart 4096] |> |>.

Lemma example_uart_table : let b := answering seven in uart_table 0 4096 example_uart_mcu.
Proof.
  intros b. split; [by split|by split_and!| | |done].
  - intros i q Hin. apply list_elem_of_singleton in Hin. naive_solver.
  - intros i q Hin. apply list_elem_of_singleton in Hin. injection Hin as -> ->. by exists example_uart.
Qed.

Lemma example_uart_idle : uart_idle example_uart_mcu 4096 example_uart.
Proof.
  split; try done. by vm_compute; repeat constructor.
Qed.

Lemma example_uart_sched : sched_inv 0 example_uart_mcu [T_periodic].
Proof.
  eapply sched_inv_ext; [apply (sched_inv_new_timer 0 init_mcu _ (obj_timer 4096) (mk_timer None F_null 0)); [apply sched_inv_init|set_solver|done]|done..].
Qed.


(** ** Writing registers *)

Section Chip.
Context {W : Type} (send : list Any → Z → H W (smap string)) (upd : list Any → H W unit).

(** A chip on the line: the value of each register, and what a write does. *)
Context (oid addr : Z) (value : W → Z → Z) (write : Z → Z → W → W).

Definition IFCNT : Z := 2.

(** The reads of the chip are answered with its registers. *)
Hypothesis value_range : ∀ w reg, 0 <= value w reg < 2 ^ 32.
Hypothesis counter_range : ∀ w, 0 <= value w IFCNT < 256.
Hypothesis chip_read : ∀ reg w, 0 <= reg < 128 →
  answered send oid (_encode_read 0xf5 addr reg) 10 0 (_encode_write 0x05 0xff reg (value w reg)) w w.

(** A write that the chip gets changes the register and counts; a lost one does nothing. *)
Hypothesis chip_write : ∀ reg v clock w, 0 <= reg < 128 → 0 <= v < 2 ^ 32 → ∃ params,
  send [Any_string (to_string oid); Any_bytes (_encode_write 0xf5 addr (Z.lor reg 0x80) v);
        Any_string (to_string 0)] clock w = (Val params, write reg v w).
Hypothesis write_counts : ∀ reg v w, 0 <= reg < 128 → reg ≠ IFCNT → 0 <= v < 2 ^ 32 →
  (∀ r, value (write reg v w) r = value w r)
  ∨ value (write reg v w) reg = v ∧ value (write reg v w) IFCNT = (value w IFCNT + 1) mod 256.

(** The host's object for the chip. *)
Record attached (t : MCU_TMC_uart) : Prop := {
  at_oid : t.(tm_uart).(ub_oid) = oid;
  at_mux : t.(tm_uart).(ub_analog_mux) = None;
  at_addr : t.(tm_addr) = addr;
  at_ifcnt : smap_find "IFCNT" t.(tm_name_to_reg) = Some IFCNT;
  at_debug : t.(tm_debugoutput) = false;
}.

Lemma encode_write_bytes reg v : is_byte reg → byte_list (_encode_write 0x05 0xff reg v).
Proof.
  intros Hr. rewrite encode_write_serial. apply serial_bits. apply datagram_bytes; unfold is_byte in *; lia.
Qed.

Lemma get_retries_chip t reg w :
  attached t → 0 <= reg < 128 → get_retries send upd 5 reg (w, t) = (Val (Some (value w reg)), (w, t)).
Proof.
  intros [Ho Hm Ha _ _] Hr. cbn [get_retries]. unfold mbind, H_bind, get_obj, on_uart. cbn [fst snd].
  rewrite Ha, u8_small by lia. assert (Hb : is_byte reg) by (unfold is_byte; lia).
  rewrite (reg_read_answered send upd _ addr reg t.(tm_uart) (_encode_write 0x05 0xff reg (value w reg)) w w).
  - rewrite decode_encode by done. unfold set_uart. by destruct t.
  - by apply encode_write_bytes.
  - done.
  - rewrite Ho. by apply chip_read.
Qed.

Lemma do_get_register_chip t reg_name reg w :
  attached t → smap_find reg_name t.(tm_name_to_reg) = Some reg → 0 <= reg < 128 →
  _do_get_register send upd reg_name (w, t) = (Val (Some (value w reg)), (w, t)).
Proof.
  intros Ht Hf Hr. unfold _do_get_register, mbind, H_bind, hlift, get_obj. cbn [fst snd]. rewrite Hf. cbn [or_throw].
  rewrite (at_debug _ Ht). by apply get_retries_chip.
Qed.

Lemma get_register_chip t reg_name reg w :
  attached t → smap_find reg_name t.(tm_name_to_reg) = Some reg → 0 <= reg < 128 →
  get_register send upd reg_name (w, t) = (Val (value w reg), (w, t)).
Proof.
  intros Ht Hf Hr. unfold get_register, mbind, H_bind. by rewrite (do_get_register_chip t reg_name reg).
Qed.

Lemma read_ifcnt_chip t w :
  attached t → read_ifcnt send upd (w, t) = (Val tt, (w, set_ifcnt (value w IFCNT) t)).
Proof.
  intros Ht. unfold read_ifcnt, mbind, H_bind. by rewrite (do_get_register_chip t _ IFCNT) by (done || apply Ht).
Qed.

Lemma reg_write_chip inst reg v clock t w :
  attached t → 0 <= reg < 128 →
  on_uart (reg_write send upd inst addr reg v clock) (w, t) = (Val tt, (write reg (u32 v) w, t)).
Proof.
  intros [Ho Hm _ _ _] Hr. unfold on_uart, reg_write, activate, mbind, H_bind, mret, H_ret, get_obj, in_world. cbn [fst snd].
  rewrite Hm. cbn [fst snd]. rewrite Ho. destruct (chip_write reg (u32 v) clock w Hr (u32_range v)) as [params ->].
  unfold set_uart. by destruct t.
Qed.

(** The counter that the host has is that of the chip, or unknown. *)
Definition in_step (t : MCU_TMC_uart) (w : W) : Prop :=
  s32 t.(tm_ifcnt) = INT_NONE ∨ t.(tm_ifcnt) = value w IFCNT.

(** One attempt: a write, and the counter after it. *)
Lemma set_attempt k reg_name reg v clock t w :
  attached t → in_step t w → 0 <= reg < 128 → reg ≠ IFCNT →
  let w1 := write reg (u32 v) w in let t1 := set_ifcnt (value w1 IFCNT) t in
  set_retries send upd (S k) reg_name reg v clock (w, t)
  = if value w1 IFCNT =? value w IFCNT + 1 then (Val tt, (w1, t1))
    else set_retries send upd k reg_name reg v clock (w1, t1).
Proof.
  intros Ht Hs Hr Hn w1 t1. cbn [set_retries]. unfold mbind at 1, H_bind at 1, get_obj at 1. cbn [fst snd].
  unfold mbind at 1, H_bind at 1. set (t0 := set_ifcnt (value w IFCNT) t).
  assert (H0 : (if s32 t.(tm_ifcnt) =? INT_NONE then read_ifcnt send upd else mret tt) (w, t) = (Val tt, (w, t0))).
  { destruct (Z.eqb_spec (s32 t.(tm_ifcnt)) INT_NONE) as [|Hno]; [by apply read_ifcnt_chip|].
    destruct Hs as [|Hs]; [done|]. unfold t0. rewrite <- Hs. unfold set_ifcnt. by destruct t. }
  rewrite H0. assert (Ht0 : attached t0) by (by destruct Ht).
  unfold mbind, H_bind, get_obj. cbn [fst snd]. rewrite (at_addr _ Ht0), reg_write_chip by done. fold w1.
  rewrite read_ifcnt_chip by done. change (set_ifcnt (value w1 IFCNT) t0) with t1. cbn [tm_ifcnt t1 t0 set_ifcnt fst snd].
  pose proof (counter_range w). rewrite s32_small, u32_small by lia.
  by destruct (value w1 IFCNT =? value w IFCNT + 1).
Qed.

Lemma set_retries_chip k reg_name reg v clock : ∀ t w,
  attached t → in_step t w → 0 <= reg < 128 → reg ≠ IFCNT → (0 < k)%nat →
  match set_retries send upd k reg_name reg v clock (w, t) with
  | (r, (w', t')) => attached t' ∧ t'.(tm_ifcnt) = value w' IFCNT
      ∧ match r with
        | Val _ => value w' reg = u32 v
        | Throws e => e = unable "write" reg_name t
            ∧ (value w' IFCNT = value w IFCNT ∨ value w IFCNT = 255 ∧ value w' IFCNT = 0)
        | _ => False
        end
  end.
Proof.
  induction k as [|k IH]; intros t w Ht Hs Hr Hn Hk; [lia|].
  rewrite set_attempt by done. set (w1 := write reg (u32 v) w). set (t1 := set_ifcnt (value w1 IFCNT) t).
  assert (Ht1 : attached t1) by (by destruct Ht).
  pose proof (write_counts reg (u32 v) w Hr Hn (u32_range v)) as Hw. fold w1 in Hw. pose proof (counter_range w).
  destruct (Z.eqb_spec (value w1 IFCNT) (value w IFCNT + 1)) as [E|E].
  { destruct Hw as [Hw|[Hw _]]; [rewrite Hw in E; lia|]. done. }
  assert (Hc : value w1 IFCNT = value w IFCNT ∨ value w IFCNT = 255 ∧ value w1 IFCNT = 0).
  { destruct Hw as [Hw|[_ Hw]]; [by left|right].
    destruct (Z.eq_dec (value w IFCNT) 255) as [E255|]; [rewrite Hw, E255; done|]. rewrite Z.mod_small in Hw by lia. lia. }
  destruct k as [|k]; [cbn; by split_and!|].
  specialize (IH t1 w1 Ht1 (or_intror eq_refl) Hr Hn ltac:(lia)).
  destruct (set_retries _ _ _ _ _ _ _ _) as [r [w' t']]. destruct IH as (Ha & Hi & Hr').
  split_and!; [done|done|]. destruct r; try done. destruct Hr' as [-> Hc']. split; [done|]. lia.
Qed.


End Chip.

(** *** An example: a chip that gets every write, with its counter at the wrap *)

(** The counter and the registers. *)
Definition chip : Type := Z * (Z → Z).
Definition chip_value (w : chip) (reg : Z) : Z := if reg =? IFCNT then w.1 mod 256 else u32 (w.2 reg).
Definition chip_set (reg v : Z) (w : chip) : chip := (w.1 + 1, λ r, if r =? reg then v else w.2 r).

(** The chip takes the register and the value from the bits of the datagram. *)
Definition chip_send (args : list Any) (clock : Z) : H chip (smap string) := λ w,
  match args with
  | [_; Any_bytes msg; _] =>
      let reg := Z.land (Z.shiftr (little_endian (take 8 msg)) 21) 0xff in
      if (length msg =? 5)%nat then (Val [("read", bytes_string (_encode_write 0x05 0xff reg (chip_value w reg)))], w)
      else (Val [("read", "")], chip_set (Z.land reg 0x7f) (register_of msg) w)
  | _ => (Undef, w)
  end.

Lemma chip_send_read oid addr reg w :
  is_byte addr → 0 <= reg < 128 →
  answered chip_send oid (_encode_read 0xf5 addr reg) 10 0 (_encode_write 0x05 0xff reg (chip_value w reg)) w w.
Proof.
  intros Ha Hr. destruct (read_message addr reg Ha) as (_ & _ & Hl & _); [unfold is_byte; lia|].
  assert (Hdg : byte_list (datagram [0xf5; addr; reg])).
  { apply Forall_app_2; [|apply Forall_singleton, crc8_byte]. repeat constructor; unfold is_byte in *; lia. }
  pose proof (decoded_byte _ Hdg 2 reg eq_refl ltac:(lia)) as E.
  unfold answered, chip_send. change (_encode_read 0xf5 addr reg) with (_add_serial_bits (datagram [0xf5; addr; reg])) in *.
  change (10 * Z.of_nat 2 + 1) with 21 in E. revert E Hl. generalize (_add_serial_bits (datagram [0xf5; addr; reg])).
  intros msg E Hl. assert (Hl5 : length msg = 5%nat) by lia. rewrite E, Hl5. by eexists.
Qed.

Lemma chip_send_write oid addr reg v clock w :
  is_byte addr → 0 <= reg < 128 → 0 <= v < 2 ^ 32 → ∃ params,
  chip_send [Any_string (to_string oid); Any_bytes (_encode_write 0xf5 addr (Z.lor reg 0x80) v);
             Any_string (to_string 0)] clock w = (Val params, chip_set reg v w).
Proof.
  intros Ha Hr Hv.
  assert (Hl : Z.lor reg 0x80 = 128 + reg).
  { rewrite Z.lor_comm. change 0x80 with (1 * 2 ^ 7). rewrite (lor_disjoint 7) by lia. lia. }
  destruct (encode_write_fields 0xf5 addr (Z.lor reg 0x80) v) as (E1 & E2 & E3);
    [by split|done|rewrite Hl; unfold is_byte; lia|done|].
  unfold chip_send. revert E1 E2 E3. generalize (_encode_write 0xf5 addr (Z.lor reg 0x80) v). intros msg E1 E2 E3.
  rewrite E1, E2, E3, Hl. cbn [Nat.eqb]. rewrite (land_ones_mod 7) by lia.
  replace ((128 + reg) mod 2 ^ 7) with reg by (change (2 ^ 7) with 128; Z.div_mod_to_equations; lia). by eexists.
Qed.

Definition example_driver : MCU_TMC_uart :=
  mk_MCU_TMC_uart "stepper_x" [("IFCNT", IFCNT); ("GCONF", 0)] 255 3 [] (mk_uart 0 None) false.

