(* ===== verification/TmcFields.v ===== *)
(** * Fields of the registers of the motor drivers (elegoo/extras/tmc.cpp)

    A field is a mask of adjacent bits of a register; the host keeps the values of the
    registers in a table.  What is set is read back, signed fields included, and no
    other field changes. *)

From S2P Require Import Prelude.
From S2P Require Import HostText.
From S2P Require Import HostTmc.

(** [n] bits from bit [k] on. *)
Definition field_mask (k n : Z) : Z := Z.shiftl (Z.ones n) k.

Record mask_ok (k n : Z) : Prop := { mo_k : 0 <= k; mo_n : 0 < n; mo_end : k + n <= 32 }.

Lemma mask_bit k n i : mask_ok k n → 0 <= i → Z.testbit (field_mask k n) i = (k <=? i) && (i <? k + n).
Proof.
  intros [Hk Hn He] Hi. unfold field_mask. rewrite Z.shiftl_spec by done.
  destruct (Z.leb_spec k i); cbn; [|by rewrite Z.testbit_neg_r by lia].
  destruct (Z.ltb_spec i (k + n)).
  - by rewrite Z.ones_spec_low by lia.
  - by rewrite Z.ones_spec_high by lia.
Qed.

Lemma mask_value k n : mask_ok k n → field_mask k n = (2 ^ n - 1) * 2 ^ k.
Proof. intros []. unfold field_mask. rewrite shiftl_mul, Z.ones_equiv by lia. f_equal. Qed.

Lemma mask_range k n : mask_ok k n → 0 < field_mask k n < 2 ^ 32.
Proof.
  intros Hm. rewrite mask_value by done. destruct Hm as [Hk Hn He].
  pose proof (Z.pow_pos_nonneg 2 k ltac:(lia) Hk). pose proof (Z.pow_le_mono_r 2 (k + n) 32 ltac:(lia) He).
  pose proof (Z.pow_le_mono_r 2 1 n ltac:(lia) ltac:(lia)). rewrite Z.pow_add_r in * by lia. nia.
Qed.

Lemma ffs_loop_mask j : ∀ k n p, mask_ok k n → (Z.to_nat k < j)%nat → ffs_loop j (field_mask k n) p = p + k.
Proof.
  induction j as [|j IH]; intros k n p Hm Hj; [lia|]. cbn [ffs_loop].
  assert (H0 : Z.land (field_mask k n) 1 = b2z (k <=? 0)).
  { change 1 with (Z.ones 1). apply Z.bits_inj'. intros i Hi. rewrite Z.land_ones by lia.
    destruct Hm as [Hk Hn He]. unfold field_mask. rewrite shiftl_mul by lia.
    destruct (Z.leb_spec k 0).
    - replace k with 0 by lia. rewrite Z.mul_1_r. destruct n as [|n|n]; try lia.
      rewrite Z.ones_equiv. replace (Z.pos n) with (Z.succ (Z.pos n - 1)) by lia. rewrite Z.pow_succ_r by lia.
      cbn [b2z]. f_equal. rewrite Z.pow_1_r. pose proof (Z.pow_pos_nonneg 2 (Z.pos n - 1) ltac:(lia) ltac:(lia)).
      replace (Z.pred (2 * 2 ^ (Z.pos n - 1))) with (1 + (2 ^ (Z.pos n - 1) - 1) * 2) by lia. by rewrite Z.mod_add by lia.
    - replace k with (Z.succ (k - 1)) by lia. rewrite Z.pow_succ_r by lia. cbn [b2z].
      replace (Z.ones n * (2 * 2 ^ (k - 1))) with (Z.ones n * 2 ^ (k - 1) * 2 ^ 1) by ring. by rewrite Z.mod_mul by lia. }
  rewrite H0. destruct (Z.leb_spec k 0); cbn [b2z Z.eqb].
  - destruct Hm. lia.
  - assert (Hs : Z.shiftr (field_mask k n) 1 = field_mask (k - 1) n).
    { unfold field_mask. by rewrite Z.shiftr_shiftl_l by lia. }
    rewrite Hs, IH; [lia| |lia]. destruct Hm. split; lia.
Qed.

Lemma ffs_mask k n : mask_ok k n → ffs (field_mask k n) = k.
Proof.
  intros Hm. unfold ffs. pose proof (mask_range k n Hm). rewrite (proj2 (Z.eqb_neq _ _)) by lia.
  rewrite ffs_loop_mask; [done|done|]. destruct Hm. lia.
Qed.

(** ** Values in a register *)

Lemma masked x k n : mask_ok k n → Z.land x (field_mask k n) = (x / 2 ^ k) mod 2 ^ n * 2 ^ k.
Proof.
  intros Hm. destruct Hm as [Hk Hn He]. unfold field_mask. rewrite <- shiftr_div by done.
  rewrite <- Z.land_ones, <- shiftl_mul by lia. apply Z.bits_inj'. intros i Hi.
  rewrite Z.land_spec, !Z.shiftl_spec, Z.land_spec by done. destruct (Z.ltb_spec i k).
  - by rewrite (Z.testbit_neg_r (Z.ones n)), !andb_false_r by lia.
  - rewrite Z.shiftr_spec by lia. do 2 f_equal. lia.
Qed.

Lemma field_bits x k n : mask_ok k n → Z.shiftr (Z.land x (field_mask k n)) k = (x / 2 ^ k) mod 2 ^ n.
Proof. intros Hm. rewrite masked, shiftr_div by (done || apply Hm). rewrite Z.div_mul; [done|]. destruct Hm. lia. Qed.

Definition inserted (x v k n : Z) : Z :=
  Z.lor (Z.land x (u32 (Z.lnot (field_mask k n)))) (Z.land (Z.shiftl v k) (field_mask k n)).

Lemma inserted_bit x v k n i :
  mask_ok k n → 0 <= x < 2 ^ 32 → 0 <= i →
  Z.testbit (inserted x v k n) i = if (k <=? i) && (i <? k + n) then Z.testbit v (i - k) else Z.testbit x i.
Proof.
  intros Hm Hx Hi. unfold inserted. rewrite Z.lor_spec, !Z.land_spec, Z.shiftl_spec, mask_bit by done.
  unfold u32. destruct (Z.ltb_spec i 32).
  - rewrite Z.mod_pow2_bits_low, Z.lnot_spec, mask_bit by done. 
    destruct ((k <=? i) && (i <? k + n)); cbn [negb]; by rewrite ?andb_false_r, ?andb_true_r, ?orb_false_r, ?orb_false_l.
  - rewrite Z.mod_pow2_bits_high, andb_false_r by lia. cbn [orb].
    assert (Hx' : Z.testbit x i = false).
    { apply (Z.testbit_false x i Hi). rewrite Z.div_small; [done|]. pose proof (Z.pow_le_mono_r 2 32 i ltac:(lia) ltac:(lia)). lia. }
    rewrite Hx'. destruct ((k <=? i) && (i <? k + n)) eqn:E; by rewrite ?andb_true_r, ?andb_false_r.
Qed.

Lemma inserted_range x v k n : mask_ok k n → 0 <= x < 2 ^ 32 → 0 <= inserted x v k n < 2 ^ 32.
Proof.
  intros Hm Hx. assert (E : inserted x v k n = u32 (inserted x v k n)); [|rewrite E; apply u32_range].
  apply Z.bits_inj'. intros i Hi. unfold u32. destruct (Z.ltb_spec i 32); [by rewrite Z.mod_pow2_bits_low|].
  rewrite Z.mod_pow2_bits_high, inserted_bit by (done || lia).
  rewrite (proj2 (Z.ltb_ge _ _)), andb_false_r by (destruct Hm; lia).
  apply (Z.testbit_false x i Hi). rewrite Z.div_small; [done|]. pose proof (Z.pow_le_mono_r 2 32 i ltac:(lia) ltac:(lia)). lia.
Qed.

(** The field has the value. *)
Lemma inserted_field x v k n :
  mask_ok k n → 0 <= x < 2 ^ 32 → (inserted x v k n / 2 ^ k) mod 2 ^ n = v mod 2 ^ n.
Proof.
  intros Hm Hx. pose proof Hm as [Hk Hn He]. rewrite <- shiftr_div by done. apply Z.bits_inj'. intros i Hi.
  destruct (Z.ltb_spec i n); [|by rewrite !Z.mod_pow2_bits_high by lia].
  rewrite !Z.mod_pow2_bits_low, Z.shiftr_spec, inserted_bit by (done || lia).
  rewrite (proj2 (Z.leb_le _ _)), (proj2 (Z.ltb_lt _ _)) by lia. cbn [andb]. f_equal. lia.
Qed.

(** The bits outside of the field stay. *)
Lemma inserted_other x v k n m :
  mask_ok k n → 0 <= x < 2 ^ 32 → Z.land (field_mask k n) m = 0 → Z.land (inserted x v k n) m = Z.land x m.
Proof.
  intros Hm Hx Hd. apply Z.bits_inj'. intros i Hi. rewrite !Z.land_spec, inserted_bit by done.
  destruct ((k <=? i) && (i <? k + n)) eqn:E; [|done]. rewrite <- mask_bit in E by done.
  assert (Hb : Z.testbit (Z.land (field_mask k n) m) i = false) by (by rewrite Hd, Z.bits_0).
  rewrite Z.land_spec, E in Hb. cbn in Hb. by rewrite Hb, !andb_false_r.
Qed.

(** The value that [get_field] makes of a register. *)
Definition decoded (sgn : bool) (mask x : Z) : Z :=
  let field_value := Z.shiftr (Z.land x mask) (ffs mask) in
  if sgn && (mask <? u32 (Z.shiftl (Z.land x mask) 1))
  then field_value - s32 (Z.shiftl 1 (bit_length field_value)) else field_value.

(** The values of a field. *)
Definition in_field (sgn : bool) (k n v : Z) : Prop :=
  if sgn then k + n <= 31 ∧ n <= 30 ∧ - 2 ^ (n - 1) <= v < 2 ^ (n - 1) else 0 <= v < 2 ^ n.

Lemma bit_length_top v n : 0 < n → 2 ^ (n - 1) <= v < 2 ^ n → bit_length v = n.
Proof.
  intros Hn Hv. unfold bit_length. pose proof (Z.pow_pos_nonneg 2 (n - 1) ltac:(lia) ltac:(lia)).
  rewrite (proj2 (Z.eqb_neq _ _)) by lia. apply Z.log2_up_unique; [done|]. replace (Z.pred n) with (n - 1) by lia. lia.
Qed.

Lemma decoded_inserted sgn x v k n :
  mask_ok k n → 0 <= x < 2 ^ 32 → in_field sgn k n v →
  decoded sgn (field_mask k n) (inserted x v k n) = v.
Proof.
  intros Hm Hx Hv. unfold decoded. rewrite ffs_mask, field_bits, masked, inserted_field by done.
  pose proof Hm as [Hk Hn He]. destruct sgn; cbn [in_field andb] in *; [|by rewrite Z.mod_small].
  destruct Hv as (He' & Hn' & Hv). rewrite mask_value by done.
  assert (Hp : 2 ^ n = 2 * 2 ^ (n - 1)) by (rewrite <- Z.pow_succ_r by lia; f_equal; lia).
  assert (Hpk : 2 ^ n * 2 ^ k <= 2 ^ 31) by (rewrite <- Z.pow_add_r by lia; apply Z.pow_le_mono_r; lia).
  pose proof (Z.pow_pos_nonneg 2 k ltac:(lia) Hk). pose proof (Z.pow_pos_nonneg 2 (n - 1) ltac:(lia) ltac:(lia)).
  pose proof (Z.pow_le_mono_r 2 n 30 ltac:(lia) Hn') as H30.
  set (f := v mod 2 ^ n). pose proof (Z.mod_pos_bound v (2 ^ n) ltac:(lia)) as Hf. fold f in Hf.
  rewrite (shiftl_mul 1 (f * 2 ^ k)), u32_small by (try lia; nia).
  assert (Hlt : ((2 ^ n - 1) * 2 ^ k <? f * 2 ^ k * 2 ^ 1) = (2 ^ (n - 1) <=? f)).
  { destruct (Z.ltb_spec ((2 ^ n - 1) * 2 ^ k) (f * 2 ^ k * 2 ^ 1)), (Z.leb_spec (2 ^ (n - 1)) f); try done; nia. }
  assert (Hfv : f = if v <? 0 then v + 2 ^ n else v).
  { unfold f. destruct (Z.ltb_spec v 0); [|by apply Z.mod_small; lia]. symmetry. apply (Z.mod_unique _ _ (-1)); lia. }
  rewrite Hlt. destruct (Z.leb_spec (2 ^ (n - 1)) f).
  - rewrite (bit_length_top f n), shiftl_mul, s32_small by lia. destruct (v <? 0) eqn:Ev; lia.
  - destruct (v <? 0) eqn:Ev; lia.
Qed.

(** ** The table *)

(** A field as [new_FieldHelper] knows it. *)
Record has_field (fh : FieldHelper) (f reg : string) (mask : Z) : Prop := {
  hf_register : smap_find f fh.(fh_field_to_register) = Some reg;
  hf_mask : smap_find reg fh.(fh_all_fields) ≫= smap_find f = Some mask;
  hf_name : reg ≠ "";
}.
Definition is_signed (fh : FieldHelper) (f : string) : bool := bool_decide (f ∈ fh.(fh_signed_fields)).
Definition cached (fh : FieldHelper) (reg : string) : Z := u32 (default 0 (find_register reg fh)).

Lemma get_field_decoded fh f reg mask :
  has_field fh f reg mask → mask ≠ 0 →
  get_field f 0 "" fh = Val (decoded (is_signed fh f) mask (cached fh reg)).
Proof.
  intros [Hr Hm Hn] Hz. unfold get_field. rewrite (bool_decide_eq_true_2 ("" = "")) by done. rewrite Hr. cbn.
  destruct (smap_find reg _) as [fields|]; [|done]. cbn in *. rewrite Hm. cbn.
  by rewrite (proj2 (Z.eqb_neq _ _)).
Qed.

Lemma find_set_register regs r r' v :
  List.find (λ x : string * Z, bool_decide (x.1 = r')) (set_register_value r v regs)
  = if bool_decide (r = r') then Some (r, v) else List.find (λ x : string * Z, bool_decide (x.1 = r')) regs.
Proof.
  induction regs as [|[n x] regs IH]; cbn; [by case_bool_decide|].
  destruct (decide (n = r)) as [->|Hn]; [rewrite (bool_decide_eq_true_2 (r = r)) by done; cbn; by case_bool_decide|].
  rewrite (bool_decide_eq_false_2 (n = r)) by done. cbn. rewrite IH.
  destruct (decide (n = r')) as [->|]; [|by rewrite (bool_decide_eq_false_2 (n = r'))].
  by rewrite (bool_decide_eq_true_2 (r' = r')), (bool_decide_eq_false_2 (r = r')) by congruence.
Qed.

Lemma set_field_inserted fh f reg k n v :
  has_field fh f reg (field_mask k n) → mask_ok k n →
  let new := inserted (cached fh reg) v k n in
  set_field f v 0 "" fh
  = Val (new, mk_FieldHelper fh.(fh_all_fields) fh.(fh_signed_fields) fh.(fh_field_to_register)
                (set_register_value reg new fh.(fh_registers))).
Proof.
  intros [Hr Hm Hn] Hok new. unfold set_field. rewrite (bool_decide_eq_true_2 ("" = "")) by done. rewrite Hr.
  change (default "" (Some reg)) with reg.
  rewrite Hm. pose proof (mask_range k n Hok). cbn. rewrite (proj2 (Z.eqb_neq _ _)) by lia.
  rewrite ffs_mask by done. done.
Qed.

(** C33: setting a field of a register and reading it back gives the value, for plain and
    for signed fields, and every other field, of the same register or of another, reads
    as before. *)
Theorem set_field_get_field fh f reg k n v :
  has_field fh f reg (field_mask k n) → mask_ok k n → in_field (is_signed fh f) k n v →
  ∃ new fh', set_field f v 0 "" fh = Val (new, fh') ∧ 0 <= new < 2 ^ 32
    ∧ get_field f 0 "" fh' = Val v
    ∧ ∀ g reg' mask', has_field fh g reg' mask' → mask' ≠ 0 →
        reg' ≠ reg ∨ Z.land (field_mask k n) mask' = 0 →
        get_field g 0 "" fh' = get_field g 0 "" fh.
Proof.
  intros Hf Hok Hv. set (new := inserted (cached fh reg) v k n).
  set (fh' := mk_FieldHelper fh.(fh_all_fields) fh.(fh_signed_fields) fh.(fh_field_to_register)
                (set_register_value reg new fh.(fh_registers))).
  assert (Hc : 0 <= cached fh reg < 2 ^ 32) by apply u32_range.
  assert (Hnew : 0 <= new < 2 ^ 32) by (by apply inserted_range).
  assert (Hcached : ∀ r, cached fh' r = if bool_decide (reg = r) then new else cached fh r).
  { intros r. unfold cached, find_register. cbn. rewrite find_set_register.
    case_bool_decide; [by apply u32_small|done]. }
  assert (Hf' : ∀ g r m, has_field fh g r m → has_field fh' g r m) by (intros g r m []; by split).
  exists new, fh'. split_and!; [by apply set_field_inserted|lia|lia| |].
  - rewrite (get_field_decoded fh' f reg (field_mask k n)); [|by auto|pose proof (mask_range k n Hok); lia].
    rewrite Hcached, bool_decide_eq_true_2 by done. f_equal. by apply decoded_inserted.
  - intros g reg' mask' Hg Hz Hd. rewrite (get_field_decoded fh g reg' mask'), (get_field_decoded fh' g reg' mask') by auto.
    f_equal. rewrite Hcached. case_bool_decide as Hr; [|done]. subst reg'. destruct Hd as [|Hd]; [done|].
    change (is_signed fh' g) with (is_signed fh g). unfold decoded. unfold new. by rewrite inserted_other.
Qed.

(** *** An example: fields of the register COOLCONF of the tmc2130 *)

Definition example_fields : FieldHelper :=
  new_FieldHelper [("COOLCONF", [("semin", 0x0f); ("seup", Z.shiftl 0x03 5); ("sgt", Z.shiftl 0x7f 16)])]
    ["cur_a"; "cur_b"; "sgt"] [].

Lemma set_field_get_field_witness :
  ∃ new fh', set_field "sgt" (-5) 0 "" example_fields = Val (new, fh') ∧ get_field "sgt" 0 "" fh' = Val (-5).
Proof.
  destruct (set_field_get_field example_fields "sgt" "COOLCONF" 16 7 (-5)) as (new & fh' & H1 & _ & H2 & _).
  - by split.
  - by split.
  - by vm_compute.
  - by exists new, fh'.
Defined.
