(* ===== verification/HostTmcCheck.v ===== *)
(** * Error checks of the motor drivers (elegoo/extras/tmc.cpp)

    While the motors are enabled the host reads the status registers of each driver
    once a second; an error that stays stops the printer.  The registers are those of
    the interface [MCU_TMC_Base], which the uart of HostTmc.v implements. *)

From S2P Require Import Prelude.
From S2P Require Import State.
From S2P Require Import HostText.
From S2P Require Import MsgProto.
From S2P Require Import HostTmc.

(** ** Printing a register *)

Fixpoint hex_digits (fuel : nat) (n : Z) (acc : string) : string :=
  let c := code_char (if n mod 16 <? 10 then 48 + n mod 16 else 87 + n mod 16) in
  match fuel with
  | O => String c acc
  | S fuel => if n <? 16 then String c acc else hex_digits fuel (n / 16) (String c acc)
  end.
(** An [int] with [std::hex]. *)
Definition to_hex (v : Z) : string := hex_digits 8 (u32 v) "".

(** [std::setw] after [std::left]. *)
Fixpoint pad_right (n : nat) (c : ascii) (s : string) : string :=
  match n, s with
  | O, _ => s
  | S n, EmptyString => String c (pad_right n c "")
  | S n, String a s => String a (pad_right n c s)
  end.

(** The order of [std::pair<uint32_t, std::string>]. *)
Definition field_before (a b : Z * string) : bool :=
  (a.1 <? b.1) || (a.1 =? b.1) && String.ltb a.2 b.2.
Fixpoint insert_field (a : Z * string) (l : list (Z * string)) : list (Z * string) :=
  match l with
  | [] => [a]
  | b :: l => if field_before b a then b :: insert_field a l else a :: b :: l
  end.
Definition sort_fields (l : list (Z * string)) : list (Z * string) := foldr insert_field [] l.

(** The text of a field, or nothing for a field that is 0. *)
Definition field_text (formatters : smap (Z → string)) (name : string) (field_value : Z) : string :=
  let sval := match smap_find name formatters with
              | Some f => f field_value
              | None => to_string field_value
              end in
  if bool_decide (sval = "") || bool_decide (sval = "0") then "" else " " +:+ name +:+ "=" +:+ sval.

Definition pretty_format (formatters : smap (Z → string)) (reg_name : string) (reg_value : Z)
    (fh : FieldHelper) : hres string :=
  let reg_fields := default [] (smap_find reg_name fh.(fh_all_fields)) in
  texts ← hmap (λ f : Z * string,
                  v ← get_field f.2 (u32 reg_value) reg_name fh;
                  mret (field_text formatters f.2 (s32 v)))
            (sort_fields ((λ f, (f.2, f.1)) <$> reg_fields));
  mret (pad_right 11 " " (reg_name +:+ ":") +:+ pad_right 8 "0" (to_hex reg_value)
        +:+ foldr String.app "" texts).

(** ** The interfaces *)

(** [MCU_TMC_Base]: the registers of a driver. *)
Class MCU_TMC_Base (W : Type) := {
  base_get_register : string → H W Z;
  base_set_register : string → Z → H W unit;
}.
(** What else the checks ask for: [Reactor::pause], and the driver's [init_register]. *)
Class CheckHost (W : Type) := {
  host_pause : H W unit;
  host_init_register : H W unit;
}.

(** The registers behind a uart. *)
#[export] Instance uart_registers {W} (send : list Any → Z → H W (smap string))
    (update_pin : list Any → H W unit) : MCU_TMC_Base (W * MCU_TMC_uart) := {|
  base_get_register := get_register send update_pin;
  base_set_register := λ reg_name v, set_register send update_pin reg_name v 0;
|}.

(** ** [TMCErrorCheck] *)

(** The vector of a register: the last value, and the masks.  [tc_timers] is the number
    of timers of the object in the reactor; [check_timer] is one of them or null. *)
Record reg_info := mk_reg_info {
  ri_name : string; ri_last : Z; ri_mask : Z; ri_err_mask : Z; ri_cs_actual_mask : Z;
}.
Record TMCErrorCheck := mk_TMCErrorCheck {
  tc_stepper_name : string;
  tc_fields : FieldHelper;
  tc_formatters : smap (Z → string);
  tc_check_timer : bool;
  tc_timers : nat;
  tc_clear_gstat : bool;
  tc_irun_field : string;
  tc_gstat : option reg_info;
  tc_drv_status : reg_info;
  tc_adc_temp : Z;
  tc_adc_temp_reg : string;
}.

(** [std::string::find] finds the pattern. *)
Fixpoint contains (pattern s : string) : bool :=
  String.prefix pattern s || match s with EmptyString => false | String _ s => contains pattern s end.

Section Check.
Context {W : Type} `{!MCU_TMC_Base W} `{!CheckHost W}.

(** Whether the value ends the loop of [_query_register]. *)
Definition value_good (tc : TMCErrorCheck) (ri : reg_info) (val : Z) : hres bool :=
  if flag_set val ri.(ri_err_mask) then mret false
  else if (ri.(ri_cs_actual_mask) =? 0) || flag_set val ri.(ri_cs_actual_mask) then mret true
  else
    irun ← get_field tc.(tc_irun_field) 0 "" tc.(tc_fields);
    if negb tc.(tc_check_timer) || (s32 irun <? 4) then mret true
    else if bool_decide (tc.(tc_irun_field) = "irun") then
      ihold ← get_field "ihold" 0 "" tc.(tc_fields); mret (ihold =? 0)
    else mret false.

(** The text that is logged for a value.  [!=] binds tighter than [&], so the condition is
    [val & (mask != last_value) & mask]. *)
Definition report_change (tc : TMCErrorCheck) (ri : reg_info) (last_value val : Z) : hres string :=
  if flag_set (Z.land val (b2z (negb (ri.(ri_mask) =? last_value)))) ri.(ri_mask)
  then pretty_format tc.(tc_formatters) ri.(ri_name) val tc.(tc_fields) else mret "".

(** The loop of [_query_register]: [count] grows in every round and ends it at 3. *)
Fixpoint query_loop (fuel : nat) (tc : TMCErrorCheck) (ri : reg_info) (try_clear : bool)
    (last_value cleared_flags count : Z) : H W Z := λ w,
  match fuel with
  | O => (Endless, w)
  | S fuel =>
      match base_get_register ri.(ri_name) w with
      | (Throws (CommandError what), w) =>
          if (count + 1 <? 3) && negb (contains "Unable to read tmc uart" what)
          then (host_pause;; query_loop fuel tc ri try_clear last_value cleared_flags (count + 1)) w
          else (Throws (CommandError what), w)
      | (Throws e, w) => (Throws e, w)
      | (Undef, w) => (Undef, w)
      | (Endless, w) => (Endless, w)
      | (Val val, w) =>
          ((hlift (report_change tc ri last_value val);;
            good ← hlift (value_good tc ri val);
            if good : bool then mret cleared_flags
            else if 3 <=? count + 1 then
              fmt ← hlift (pretty_format tc.(tc_formatters) ri.(ri_name) val tc.(tc_fields));
              hlift (Throws (CommandError ("TMC " +:+ tc.(tc_stepper_name) +:+ " reports error: " +:+ fmt)))
            else if try_clear && flag_set val ri.(ri_err_mask) then
              base_set_register ri.(ri_name) (Z.land val ri.(ri_err_mask));;
              query_loop fuel tc ri false val (Z.lor cleared_flags (Z.land val ri.(ri_err_mask))) (count + 1)
            else query_loop fuel tc ri try_clear val cleared_flags (count + 1)) : H W Z) w
      end
  end.

Definition _query_register (ri : reg_info) (try_clear : bool) (tc : TMCErrorCheck) : H W Z :=
  query_loop 3 tc ri try_clear ri.(ri_last) 0 0.

(** [all_fields["GSTAT"]["reset"]], which adds what is missing. *)
Definition reset_mask (fh : FieldHelper) : Z * FieldHelper :=
  let '(gstat, all) := smap_get [] "GSTAT" fh.(fh_all_fields) in
  let '(mask, gstat) := smap_get 0 "reset" gstat in
  (mask, mk_FieldHelper (smap_set "GSTAT" gstat all) fh.(fh_signed_fields) fh.(fh_field_to_register)
           fh.(fh_registers)).

Definition set_fields (fh : FieldHelper) (tc : TMCErrorCheck) : TMCErrorCheck :=
  mk_TMCErrorCheck tc.(tc_stepper_name) fh tc.(tc_formatters) tc.(tc_check_timer) tc.(tc_timers)
    tc.(tc_clear_gstat) tc.(tc_irun_field) tc.(tc_gstat) tc.(tc_drv_status) tc.(tc_adc_temp)
    tc.(tc_adc_temp_reg).
Definition set_adc_temp (v : Z) (tc : TMCErrorCheck) : TMCErrorCheck :=
  mk_TMCErrorCheck tc.(tc_stepper_name) tc.(tc_fields) tc.(tc_formatters) tc.(tc_check_timer) tc.(tc_timers)
    tc.(tc_clear_gstat) tc.(tc_irun_field) tc.(tc_gstat) tc.(tc_drv_status) v tc.(tc_adc_temp_reg).
Definition set_timer (check_timer : bool) (timers : nat) (tc : TMCErrorCheck) : TMCErrorCheck :=
  mk_TMCErrorCheck tc.(tc_stepper_name) tc.(tc_fields) tc.(tc_formatters) check_timer timers
    tc.(tc_clear_gstat) tc.(tc_irun_field) tc.(tc_gstat) tc.(tc_drv_status) tc.(tc_adc_temp)
    tc.(tc_adc_temp_reg).

(** [try] with a handler for [CommandError]. *)
Definition catch_command {A} (m : H W A) (handler : string → H W A) : H W A := λ w,
  match m w with
  | (Throws (CommandError what), w) => handler what w
  | r => r
  end.

Definition _query_temperature (tc : TMCErrorCheck) : H W TMCErrorCheck :=
  v ← catch_command (base_get_register tc.(tc_adc_temp_reg)) (λ _, mret 0);
  mret (set_adc_temp v tc).

(** What the timer does next: one second later, or never after [invoke_shutdown]. *)
Inductive check_result := Again | Shutdown (what : string).

(** The queries of [_do_periodic_check]: the flags that were cleared. *)
Definition periodic_queries (tc : TMCErrorCheck) : H W Z :=
  _query_register tc.(tc_drv_status) false tc;;
  match tc.(tc_gstat) with
  | None => mret 0
  | Some gstat => _query_register gstat true tc
  end.

(** Whether the cleared flags show that the driver of the extruder was reset. *)
Definition after_gstat (cleared_flags : Z) (tc : TMCErrorCheck) : bool * TMCErrorCheck :=
  if negb (s32 cleared_flags =? 0) && bool_decide (tc.(tc_stepper_name) = "extruder") then
    let '(mask, fh) := reset_mask tc.(tc_fields) in (flag_set cleared_flags mask, set_fields fh tc)
  else (false, tc).

Definition _do_periodic_check (tc : TMCErrorCheck) : H W (check_result * TMCErrorCheck) :=
  r ← catch_command (cleared_flags ← periodic_queries tc; mret (inl cleared_flags)) (λ what, mret (inr what));
  match r with
  | inr what => mret (Shutdown what, tc)
  | inl cleared_flags =>
      let '(init, tc) := after_gstat cleared_flags tc in
      catch_command
        ((if init : bool then host_init_register else mret tt);;
         tc ← (if bool_decide (tc.(tc_adc_temp_reg) = "") then mret tc else _query_temperature tc);
         mret (Again, tc))
        (λ what, mret (Shutdown what, tc))
  end.

Definition stop_checks (tc : TMCErrorCheck) : TMCErrorCheck :=
  if tc.(tc_check_timer) then set_timer false (tc.(tc_timers) - 1) tc else tc.

(** [start_checks]: whether the driver was reset. *)
Definition start_checks (tc : TMCErrorCheck) : H W (bool * TMCErrorCheck) :=
  let tc := if negb tc.(tc_check_timer) then stop_checks tc else tc in
  _query_register tc.(tc_drv_status) false tc;;
  cleared_flags ← match tc.(tc_gstat) with
                  | None => mret 0
                  | Some gstat => _query_register gstat tc.(tc_clear_gstat) tc
                  end;
  let tc := set_timer true (S tc.(tc_timers)) tc in
  if s32 cleared_flags =? 0 then mret (false, tc)
  else let '(mask, fh) := reset_mask tc.(tc_fields) in
       mret (flag_set cleared_flags mask, set_fields fh tc).

End Check.
