(* ===== verification/TmcCheckSpec.v ===== *)
(** * The error checks of the motor drivers stop the printer (elegoo/extras/tmc.cpp)

    The periodic check goes on only after it has read status registers without error
    bits, and a driver whose error bits stay makes it shut the printer down, with the
    register in the message. *)

From S2P Require Import Prelude.
From S2P Require Import State.
From S2P Require Import Command.
From S2P Require Import HostText.
From S2P Require Import MsgProto.
From S2P Require Import HostTmc.
From S2P Require Import TmcLine.
From S2P Require Import TmcSpec.
From S2P Require Import HostTmcCheck.

(** ** Printing *)

(** Every field of the register has its mask. *)
Definition fields_known (fh : FieldHelper) (reg : string) : Prop :=
  reg ≠ "" ∧ ∀ fields, smap_find reg fh.(fh_all_fields) = Some fields →
    Forall (λ f : string * Z, smap_find f.1 fields = Some f.2 ∧ f.2 ≠ 0) fields.

Lemma sort_fields_elem a l : a ∈ sort_fields l → a ∈ l.
Proof.
  induction l as [|b l IH]; cbn; [done|]. fold (sort_fields l).
  assert (Hins : ∀ l', a ∈ insert_field b l' → a = b ∨ a ∈ l').
  { induction l' as [|c l' IH']; cbn; [by rewrite list_elem_of_singleton; auto|].
    case_match; rewrite !elem_of_cons; [intros [->|[->|?]%IH']|intros [->|[->|?]]]; auto. }
  intros [->|Hin]%Hins; apply elem_of_cons; auto.
Qed.

Lemma hmap_total {A B} (f : A → hres B) l : (∀ a, a ∈ l → ∃ b, f a = Val b) → ∃ bs, hmap f l = Val bs.
Proof.
  induction l as [|a l IH]; intros Hf; cbn; [by eexists|].
  destruct (Hf a) as [b ->]; [by apply elem_of_cons; left|]. cbn.
  destruct IH as [bs ->]; [intros; apply Hf; by apply elem_of_cons; right|]. cbn. by eexists.
Qed.

Lemma pretty_format_total formatters reg v fh :
  fields_known fh reg → ∃ s, pretty_format formatters reg v fh = Val s.
Proof.
  intros [Hne Hk]. unfold pretty_format. set (fs := default [] _).
  assert (Hall : Forall (λ f : string * Z, ∃ x, get_field f.1 (u32 v) reg fh = Val x) fs).
  { unfold fs. destruct (smap_find reg _) as [fields|] eqn:Hf; cbn; [|constructor].
    apply (Forall_impl _ _ _ (Hk fields eq_refl)). intros [n m] [Hn Hm]. cbn in *. unfold get_field.
    rewrite (bool_decide_eq_false_2 (reg = "")) by done. cbn. rewrite Hf. cbn. rewrite Hn. cbn.
    rewrite (proj2 (Z.eqb_neq _ _)) by done. by eexists. }
  destruct (hmap_total (λ f : Z * string, x ← get_field f.2 (u32 v) reg fh; mret (field_text formatters f.2 (s32 x)))
              (sort_fields ((λ f, (f.2, f.1)) <$> fs))) as [texts ->]; [|by eexists].
  intros [m n] Hin. apply sort_fields_elem, list_elem_of_fmap in Hin as ([n' m'] & [= -> ->] & Hin).
  rewrite Forall_forall in Hall. destruct (Hall _ Hin) as [x Hx]. cbn in *. rewrite Hx. by eexists.
Qed.

Lemma report_change_total tc ri last v :
  fields_known tc.(tc_fields) ri.(ri_name) → ∃ t, report_change tc ri last v = Val t.
Proof.
  intros Hk. unfold report_change. case_match; [by apply pretty_format_total|by eexists].
Qed.

(** ** One query *)

Section Query.
Context {W : Type} `{!MCU_TMC_Base W} `{!CheckHost W}.

(** A query that returns has read a good value. *)
Lemma query_loop_read fuel : ∀ tc ri try_clear last cleared count w c w',
  query_loop fuel tc ri try_clear last cleared count w = (Val c, w') →
  ∃ w1 w2 v, base_get_register ri.(ri_name) w1 = (Val v, w2) ∧ value_good tc ri v = Val true.
Proof.
  induction fuel as [|fuel IH]; intros tc ri try_clear last cleared count w c w'; cbn [query_loop]; [done|].
  destruct (base_get_register ri.(ri_name) w) as [[v|e| |] w1] eqn:Hg; [| |done|done].
  - unfold mbind, H_bind, hlift, mret, H_ret.
    destruct (report_change tc ri last v); [|done..].
    destruct (value_good tc ri v) as [[]|?| |] eqn:Hv; [|  |done..]; [intros _; by exists w, w1, v|].
    destruct (3 <=? count + 1); [by destruct (pretty_format _ _ _ _)|].
    destruct (try_clear && _); [|by apply IH].
    destruct (base_set_register _ _ w1) as [[?|?| |] w3]; [|done..]. by apply IH.
  - destruct e; try done. destruct (_ && _); [|done]. unfold mbind, H_bind.
    destruct (host_pause w1) as [[?|?| |] w2]; [|done..]. by apply IH.
Qed.

Lemma value_good_no_error tc ri v : value_good tc ri v = Val true → flag_set v ri.(ri_err_mask) = false.
Proof. unfold value_good. by destruct (flag_set v ri.(ri_err_mask)). Qed.

(** A driver whose error bits stay: the states in which it is, and what reads give. *)
Definition error_stays (ri : reg_info) (bad : W → Prop) : Prop :=
  ∀ w, bad w → ∃ v w', base_get_register ri.(ri_name) w = (Val v, w') ∧ bad w' ∧ flag_set v ri.(ri_err_mask) = true.

Definition error_text (tc : TMCErrorCheck) (ri : reg_info) (what : string) : Prop :=
  ∃ v fmt, flag_set v ri.(ri_err_mask) = true
    ∧ pretty_format tc.(tc_formatters) ri.(ri_name) v tc.(tc_fields) = Val fmt
    ∧ what = "TMC " +:+ tc.(tc_stepper_name) +:+ " reports error: " +:+ fmt.

Lemma query_loop_error bad fuel : ∀ tc ri last cleared count w,
  error_stays ri bad → fields_known tc.(tc_fields) ri.(ri_name) → bad w →
  (0 < fuel)%nat → 3 <= count + Z.of_nat fuel →
  ∃ what w', query_loop fuel tc ri false last cleared count w = (Throws (CommandError what), w')
    ∧ error_text tc ri what ∧ bad w'.
Proof.
  induction fuel as [|fuel IH]; intros tc ri last cleared count w Herr Hk Hb Hf Hc; [lia|]. cbn [query_loop].
  destruct (Herr w Hb) as (v & w1 & -> & Hb1 & Hv).
  destruct (pretty_format_total tc.(tc_formatters) ri.(ri_name) v tc.(tc_fields) Hk) as [fmt Hfmt].
  unfold mbind, H_bind, hlift, mret, H_ret.
  destruct (report_change_total tc ri last v Hk) as [t ->]. assert (Hg : value_good tc ri v = Val false) by (unfold value_good; by rewrite Hv). rewrite Hg.
  destruct (Z.leb_spec 3 (count + 1)).
  { rewrite Hfmt. do 2 eexists. split; [done|]. split; [by exists v, fmt|done]. }
  cbn [andb]. apply IH; try done; lia.
Qed.

(** A driver without errors is read once. *)
Lemma query_healthy tc ri try_clear w v w' :
  base_get_register ri.(ri_name) w = (Val v, w') → fields_known tc.(tc_fields) ri.(ri_name) →
  value_good tc ri v = Val true → _query_register ri try_clear tc w = (Val 0, w').
Proof.
  intros Hr Hk Hg. unfold _query_register. cbn [query_loop]. rewrite Hr.
  destruct (report_change_total tc ri ri.(ri_last) v Hk) as [t Hlog]. unfold mbind, H_bind, hlift, mret, H_ret. by rewrite Hlog, Hg.
Qed.

(** The check reads at most three values; an uncaught failure of the uart ends it. *)
Lemma query_uart_failure tc ri try_clear w what w' :
  base_get_register ri.(ri_name) w = (Throws (CommandError what), w') → contains "Unable to read tmc uart" what = true →
  _query_register ri try_clear tc w = (Throws (CommandError what), w').
Proof. intros Hr Hc. unfold _query_register. cbn [query_loop]. rewrite Hr, Hc. by rewrite andb_false_r. Qed.

(** Starting the checks again while they run: the timer that runs is not taken out of the
    reactor, and stopping them later leaves it there. *)
Lemma restarted_checks_leak tc w b tc' w' :
  start_checks tc w = (Val (b, tc'), w') → (stop_checks tc').(tc_timers) = tc.(tc_timers).
Proof.
  unfold start_checks, mbind, H_bind, mret, H_ret.
  assert (E : (if negb tc.(tc_check_timer) then stop_checks tc else tc) = tc)
    by (unfold stop_checks; by destruct (tc_check_timer tc)).
  rewrite E. destruct (_query_register _ false tc w) as [[c|?| |] w1]; [|done..].
  match goal with |- context [match ?q w1 with _ => _ end] => destruct (q w1) as [[c2|?| |] w2] end; [|done..].
  destruct (s32 c2 =? 0).
  - intros [= _ <- _]. cbn. lia.
  - destruct (reset_mask _) as [mask fh]. intros [= _ <- _]. cbn. lia.
Qed.

(** ** The periodic check *)

Lemma queries_read tc w c w' ri :
  periodic_queries tc w = (Val c, w') → ri = tc.(tc_drv_status) ∨ tc.(tc_gstat) = Some ri →
  ∃ w1 w2 v, base_get_register ri.(ri_name) w1 = (Val v, w2) ∧ flag_set v ri.(ri_err_mask) = false.
Proof.
  unfold periodic_queries, mbind, H_bind.
  destruct (_query_register tc.(tc_drv_status) false tc w) as [[c1|?| |] w1] eqn:Hq; [|done..]. intros Hc Hri.
  assert (Hr : ∃ c clear w w', _query_register ri clear tc w = (Val c, w')).
  { destruct Hri as [->|Hri]; [by do 4 eexists|]. rewrite Hri in Hc. by do 4 eexists. }
  destruct Hr as (? & ? & ? & ? & (w2 & w3 & v & Hr & Hv)%query_loop_read). exists w2, w3, v.
  split; [done|]. by eapply value_good_no_error.
Qed.

Lemma check_again tc w tc' w' :
  _do_periodic_check tc w = (Val (Again, tc'), w') → ∃ c w1, periodic_queries tc w = (Val c, w1).
Proof.
  unfold _do_periodic_check, catch_command, mbind, H_bind, mret, H_ret.
  destruct (periodic_queries tc w) as [[c|[]| |] w1]; try done. by eauto.
Qed.

Lemma check_stops tc w what w' :
  periodic_queries tc w = (Throws (CommandError what), w') → _do_periodic_check tc w = (Val (Shutdown what, tc), w').
Proof. intros E. unfold _do_periodic_check, catch_command, mbind, H_bind, mret, H_ret. by rewrite E. Qed.


End Query.

(** *** An example: the driver of an axis, over its uart, reports that it is too hot *)

Definition hot_chip : chip := (0, λ reg, if reg =? 0x6f then 2 else 0).
Definition hot_driver : MCU_TMC_uart :=
  mk_MCU_TMC_uart "stepper_x" [("IFCNT", IFCNT); ("DRV_STATUS", 0x6f)] 0 3 [] (mk_uart 0 None) false.
Definition hot_check : TMCErrorCheck :=
  mk_TMCErrorCheck "stepper_x" (new_FieldHelper [("DRV_STATUS", [("ot", Z.shiftl 1 1); ("otpw", Z.shiftl 1 0)])] [] [])
    [] true 1 true "irun" None (mk_reg_info "DRV_STATUS" 0 3 2 0) 0 "".

#[local] Instance hot_registers : MCU_TMC_Base (chip * MCU_TMC_uart) := uart_registers chip_send (λ _, mret tt).
#[local] Instance hot_host : CheckHost (chip * MCU_TMC_uart) := {| host_pause := mret tt; host_init_register := mret tt |}.

Lemma hot_read : base_get_register "DRV_STATUS" (hot_chip, hot_driver) = (Val 2, (hot_chip, hot_driver)).
Proof.
  apply (get_register_chip chip_send (λ _, mret tt) 0 3 chip_value) with (reg := 0x6f).
  - intros [c m] r. unfold chip_value. destruct (r =? IFCNT); [|apply u32_range].
    pose proof (Z.mod_pos_bound c 256). cbn [fst]. lia.
  - intros. apply chip_send_read; [unfold is_byte; lia|done].
  - by split.
  - done.
  - lia.
Qed.

